(* ===== verification/_CoqProject ===== *)
-Q . S2P
Prelude.v
Prog.v
Addr.v
NumText.v
AddrText.v
ForwarderState.v
World.v
Retry.v
Forwarder.v
Relay.v
RelayProofs.v
Dns.v
Wg.v
Sockets.v
Store.v
Crates.v
Errors.v
ControlPlane.v
Allocation.v
Machines.v
Account.v
AccountProofs.v
Invite.v
InviteCodes.v
InviteMoves.v
Typed.v
InviteProofs.v
Erasure.v
InviteSafety.v
Box.v
Health.v
Tunnel.v
Enroll.v
Web.v
Api.v
Secret.v
Mail.v
Deploy.v
Process.v
Site.v
WebUi.v
HttpProofs.v
EnrollProofs.v
SiteProofs.v
Joint.v
JointProofs.v
DashDb.v
Probes.v
UiPages.v
NixConfig.v
Dashboard.v
DbFile.v
Routes.v
UiProofs.v
App.v
NixProofs.v
DashProofs.v
AppProofs.v
EditProofs.v
Demo.v
BoxDemo.v
NixProps.v
DashProps.v
DeployProps.v
CoreProps.v
EdgeProps.v
UserProps.v
InviteProps.v
HttpProps.v
BoxProps.v
RelayProps.v
AppProps.v
BoxLife.v
LifeProofs.v
LifeProps.v
SiteProps.v
UiProps.v
ProcessProps.v
JointProps.v
StoreProps.v
