(* ===== verification/Prelude.v ===== *)
(** * Fortress: a verification development

    Fortress (crates/ of the repository) puts a home server on the internet through
    an edge server that its owner does not have to trust.  A box at home enrolls
    with an invite link; the owner approves it; from then on the edge forwards
    ports of a public IPv6 address over a WireGuard tunnel to the box, and keeps a
    DNS record for it.

    ** The parts, and where they are modelled

    - core: the L4 forwarder.  ForwarderState.v (data and the shared [State] of
      forwarder.rs), Retry.v (retry.rs), Sockets.v (the freebind socket of
      retry.rs, the address on the interface), Forwarder.v (run, add, remove), Relay.v and
      RelayProofs.v (tcp.rs, udp.rs), Health.v (health.rs, logger.rs).
    - controlplane: the edge.  Addr.v and AddrText.v (subnets and addresses of
      mod.rs), Errors.v, ControlPlane.v (machines: mod.rs; proofs in Allocation.v
      and Machines.v, interleaving in EdgeProps.v), Account.v (account.rs; AccountProofs.v),
      Invite.v (pairing.rs; InviteCodes.v, InviteMoves.v, InviteProofs.v,
      InviteSafety.v; Typed.v and Erasure.v), Dns.v (dns.rs), Wg.v
      (wg.rs), Api.v (the HTTP APIs of mod.rs and pairing.rs, auth.rs), Web.v (the
      handlers of web.rs; HttpProofs.v), Secret.v (secret.rs), Mail.v (mail.rs), Deploy.v
      (the clients that a boot puts behind the traits of wg.rs, dns.rs and
      mail.rs), Process.v (bin/fortress-edge.rs).
    - site: the second front end over the same control plane, with the API a box
      talks to.  Site.v (account.rs, api.rs, app.rs, pages/), SiteProofs.v;
      its process is in Process.v (main.rs).
    - client: the box.  Box.v (its world), Tunnel.v (tunnel.rs), Enroll.v
      (pairing.rs; EnrollProofs.v), App.v (app.rs; AppProofs.v), BoxLife.v (its process
      over restarts; LifeProofs.v), and its dashboard:
      DashDb.v (db.rs, auth.rs, catalog.rs), DbFile.v (opening the database of db.rs),
      Probes.v (the liveness probes of catalog.rs), NixConfig.v (nix_config_parser.rs;
      NixProofs.v, EditProofs.v), Dashboard.v (mod.rs; DashProofs.v).
    - web-ui: the shared components.  WebUi.v (lib.rs), UiPages.v (the pages the
      control plane and the dashboard build with them), Routes.v (what a browser
      makes of a page, and the routing tables), UiProofs.v.
    - the composition.  Joint.v links the box's requests to the handlers of the site
      or of fortress-edge, with the owner's actions in between; JointProofs.v.

    Prelude.v, Prog.v and NumText.v hold what all of them share; World.v, Box.v,
    Store.v and Crates.v the outside; Demo.v and BoxDemo.v the concrete
    inputs of the witnesses.  The properties are in the files named *Props.v and at the end
    of Probes.v.

    ** How the code is modelled

    Pure functions are functions.  An [async fn] is a program of the free monad of
    Prog.v: it returns, panics (an [assert!], [expect] or [unreachable!] of the code is
    the outcome [Panic]), runs out of fuel, or performs one operation on the outside
    and goes on with the answer.  [Result] is Rust's; [?] is the notation of
    [bind_try], with the conversion of the error.  Statements are about [wp]: every
    execution that the documented behaviour of the services allows, from every
    state, with every failure they may answer.  World.v states that behaviour for
    Redis, the wg binary, the DNS provider, mail, sockets, the clock and randomness
    ([edge_spec]); Box.v for files, HTTP, commands and the database of the box
    ([box_spec]); Joint.v puts the two worlds side by side.  [healthy_spec] (Store.v) is
    the world while Redis answers, which the functional statements use;
    the safety statements hold in [edge_spec], where every call may fail at any
    point, a Redis command or a mail also after it took effect; the logs of the other
    services hold what was acknowledged.  [run] executes the same programs on
    a concrete world: the witnesses evaluate them.

    What has its own thread of control and shared memory is a step machine
    instead: the relay tasks (Relay.v), the probe tasks and their semaphore (Probes.v), the
    allocations of concurrent requests ([sched] of Prog.v, in EdgeProps.v), the edge that
    serves any requests at once (Typed.v), the tasks of the processes (Process.v,
    App.v), the box's serving phase, and the whole life of a box (BoxLife.v).  A list of actions is an interleaving.

    Integers keep their width where it matters: an octet is a [Z] below 256, the
    counters of the relays wrap at 64 bits and are shown to be exact as long as
    fewer than 2^63 tasks were started, the attempts of a retried bind wrap at 32.
    Strings are byte strings; text in the source's Unicode is its UTF-8 bytes.

    Third-party crates are parameters, with laws that state their documentation:
    [Crates] (SHA-256, bcrypt, x25519, base64, hex), [Serde] (one JSON encoding per
    stored type), [Lettre] (addresses and MIME messages), [JsonText], [Rnix] (the Nix parser, a
    function from text to tree; [RnixLaws] of NixProofs.v is the part of the Nix grammar
    that the editor relies on), [Rfc3339], [StatusText].  Demo.v and BoxDemo.v give an
    instance of each, NixProps.v and DashProps.v of the parser.

    ** What the theorems show

    - Routes of machines: no two machines are ever given one host index or one
      address by requests that run one after the other (EdgeProps.v); an
      allocation wires the machine or leaves no trace of it but the counter; a
      deletion unwires it; a boot accounts for every stored machine.  [allocation_race]
      shows the interleaving that does give one address to two machines.
    - Enrollment: every handler's effect on an invite is a move of its state
      machine, reachable records are well formed, a code alone grants nothing, an
      approval is delivered once (UserProps.v, InviteProps.v); and the whole of it, from the
      box's request to the files it keeps, refines the exchange the two sides
      agree on, against the site (JointProps.v), while against fortress-edge it
      fails at the last step.  A dial that overlaps an approval undoes it
      ([approve_dial_race]).
    - Accounts: signup, verification and login; sessions; deletion of an account
      erases its machines, invites and sessions, and nothing of anybody else
      (UserProps.v, StoreProps.v); and the store stays typed, each key
      holding what its prefix promises, in every interleaving of any requests
      ([edge_step] of Typed.v, StoreProps.v).
    - The clients: whatever the control plane establishes of its specified services, it
      establishes of the [wg] binary, the mail relay and the mocks that a boot puts
      behind its traits (Deploy.v, by [wp_interp] of Prog.v); so an allocated address
      belongs to one peer of the interface, and a signup that is answered as done has
      handed the relay its link (DeployProps.v).
    - Gates: no handler behind the session gate, the admin key or the dashboard's
      password does anything for a request without it (HttpProps.v, DashProps.v).
    - The two front ends agree: the site and the control plane run the same
      operations for the same forms, but for the confirmation that only the control
      plane asks before it deletes an account and the name of an approval that only the
      site trims; and the two machine APIs answer alike (SiteProps.v).
    - The pages are wired: every form and link of every page reaches the handler
      it is meant for, with what was typed; the machines page shows the form of a move
      exactly when the handler accepts it (UiProps.v); its liveness probes are bounded, end, and line up with
      the catalog (Probes.v).
    - The forwarder and its relays: what validation accepts, what add and remove
      change, the counters equal the tasks alive, datagrams go where they should, a
      shut down relay drains (CoreProps.v, RelayProps.v); the retry loop always ends and
      gives up only at its deadline or on an error that is not transient.
    - The box: the boot refuses what it should and otherwise brings up what its
      configuration says, forward by forward; its process ends after a signal, once the
      clients of its dashboard have left; over any number of restarts and crashes it runs one claim
      task at a time, and a persisted enrollment is never replaced and used by every
      later boot (LifeProps.v); edits of the Nix file change what they say and nothing else,
      in the text and in what it means, the file is saved atomically, and what it says
      after a save is what the form said (AppProps.v, DashProps.v, NixProps.v, BoxProps.v).
    - DNS: the provider client refines set semantics of records, and a reconcile
      pass repairs exactly the drift (CoreProps.v).

    ** Fuel and bounds

    The retry loop sleeps at least 100 ms a round, so [retry_fuel], two rounds more
    than that fits in the timeout, is enough; [retry_bind_total] shows that it
    never runs out.  The enrollment loop
    recurses on the number of polls that are left, so it needs none.  The two loops over
    Redis [SCAN] pages take the number of pages as fuel, which is the store's to
    bound: [account_erased] shows that they end within any number the cursors
    keep to.  Everything else is structural.

    ** What is not modelled

    - Unicode beyond bytes: [trim] and [to_lowercase] act on ASCII.
    - The rendering of a node tree to HTML text (the momenta crate, which
      escapes), the style sheets, scripts and the texts of the wiki and the installer, named but
      not spelled out, and the document shell of the site's page framework.
    - The passing of the lifetimes of keys: the store keeps the lifetime that a key
      was given.  In the runs of requests ([edge_step], [reach]) a key with a
      lifetime may expire at any moment; within the [wp] of one program it does not.
    - The scheduling of tokio, but for the machines and interleavings above.
    - The SMTP transport, the HTTP servers, the derive macros of the OpenAPI and
      Redis crates, the writing of the log.
    - What a live DNS zone holds after a call that failed: [hetzner_refines] says what each
      call does, Deploy.v leaves the live DNS client an operation.
    - The Nix modules and the deployment scripts.

    This file is the vocabulary: Rust's [Result], the string operations of its
    standard library that the program uses, and the tactics and hints of the
    other files. *)

From stdpp Require Import base list strings gmap.
From Stdlib Require Import Ascii ZArith Lia.

#[global] Arguments String.append : simpl nomatch.

Declare Scope fortress_scope.
Delimit Scope fortress_scope with fortress.

(** ** Results *)

(** Rust's [Result<A, E>]. *)
Inductive Result (A E : Type) : Type :=
| Ok (a : A)
| Err (e : E).
Arguments Ok {A E} a.
Arguments Err {A E} e.

#[export] Instance Result_eq_dec `{EqDecision A, EqDecision E} :
  EqDecision (Result A E).
Proof. solve_decision. Defined.

(** [Result::map_err]. *)
Definition map_err {A E F} (f : E -> F) (r : Result A E) : Result A F :=
  match r with Ok a => Ok a | Err e => Err (f e) end.

Definition is_ok {A E} (r : Result A E) : bool :=
  match r with Ok _ => true | Err _ => false end.

(** [Option::ok_or]. *)
Definition ok_or {A E} (o : option A) (e : E) : Result A E :=
  match o with Some a => Ok a | None => Err e end.

(** The [?] operator on pure results. *)
Notation "'try' x ':=' r 'in' k" :=
  (match r with Ok x => k | Err e => Err e end)
  (at level 10, x pattern, r at level 100, k at level 200,
   format "'[v' 'try'  x  ':='  r  'in' '/' k ']'") : fortress_scope.

(** ** Characters *)

Definition nl : ascii := "010"%char.
Definition cr : ascii := "013"%char.
Definition tab : ascii := "009"%char.
Definition dquote : ascii := "034"%char.

Definition ch_le (a b : ascii) : bool := (N_of_ascii a <=? N_of_ascii b)%N.
Definition ch_between (lo hi c : ascii) : bool := ch_le lo c && ch_le c hi.

Definition is_ascii_lowercase (c : ascii) : bool := ch_between "a" "z" c.
Definition is_ascii_uppercase (c : ascii) : bool := ch_between "A" "Z" c.
Definition is_ascii_digit (c : ascii) : bool := ch_between "0" "9" c.

(** [char::is_whitespace] on the ASCII range. *)
Definition is_whitespace (c : ascii) : bool :=
  Ascii.eqb c " " || ch_between "009" "013" c.

Definition lower_ascii (c : ascii) : ascii :=
  if is_ascii_uppercase c then ascii_of_N (N_of_ascii c + 32) else c.

(** ** Strings (byte strings; case and whitespace on the ASCII range) *)

Fixpoint str_forallb (f : ascii -> bool) (s : string) : bool :=
  match s with
  | EmptyString => true
  | String c s' => f c && str_forallb f s'
  end.

Fixpoint str_map (f : ascii -> ascii) (s : string) : string :=
  match s with
  | EmptyString => EmptyString
  | String c s' => String (f c) (str_map f s')
  end.

(** [str::to_ascii_lowercase] (and [str::to_lowercase] on ASCII text). *)
Definition to_lowercase : string -> string := str_map lower_ascii.

Definition is_empty (s : string) : bool :=
  match s with EmptyString => true | _ => false end.

(** [str::strip_prefix]. *)
Fixpoint strip_prefix (p s : string) : option string :=
  match p, s with
  | EmptyString, _ => Some s
  | String a p', String b s' => if Ascii.eqb a b then strip_prefix p' s' else None
  | String _ _, EmptyString => None
  end.

Definition starts_with (p s : string) : bool :=
  match strip_prefix p s with Some _ => true | None => false end.

(** [str::contains] of a substring. *)
Fixpoint contains_str (p s : string) : bool :=
  starts_with p s ||
  match s with
  | EmptyString => false
  | String _ s' => contains_str p s'
  end.

(** [str::contains] of a character. *)
Definition contains_char (c : ascii) (s : string) : bool :=
  negb (str_forallb (fun d => negb (Ascii.eqb c d)) s).

Fixpoint str_rev_append (s acc : string) : string :=
  match s with
  | EmptyString => acc
  | String c s' => str_rev_append s' (String c acc)
  end.
Definition str_rev (s : string) : string := str_rev_append s "".
#[global] Arguments str_rev : simpl never.

Definition ends_with (p s : string) : bool := starts_with (str_rev p) (str_rev s).

Definition strip_suffix (p s : string) : option string :=
  match strip_prefix (str_rev p) (str_rev s) with
  | Some t => Some (str_rev t)
  | None => None
  end.

Fixpoint trim_start_matches (f : ascii -> bool) (s : string) : string :=
  match s with
  | String c s' => if f c then trim_start_matches f s' else s
  | EmptyString => EmptyString
  end.

Definition trim_end_matches (f : ascii -> bool) (s : string) : string :=
  str_rev (trim_start_matches f (str_rev s)).

(** [str::trim]. *)
Definition trim (s : string) : string :=
  trim_end_matches is_whitespace (trim_start_matches is_whitespace s).

(** [str::split_once]. *)
Fixpoint split_once (c : ascii) (s : string) : option (string * string) :=
  match s with
  | EmptyString => None
  | String d s' =>
      if Ascii.eqb c d then Some (EmptyString, s')
      else match split_once c s' with
           | Some (a, b) => Some (String d a, b)
           | None => None
           end
  end.

(** [str::rsplit_once]: split at the last occurrence. *)
Fixpoint rsplit_once (c : ascii) (s : string) : option (string * string) :=
  match s with
  | EmptyString => None
  | String d s' =>
      match rsplit_once c s' with
      | Some (a, b) => Some (String d a, b)
      | None => if Ascii.eqb c d then Some (EmptyString, s') else None
      end
  end.

(** [str::split] on a predicate: always at least one piece. *)
Fixpoint split_on (f : ascii -> bool) (s : string) : list string :=
  match s with
  | EmptyString => [EmptyString]
  | String c s' =>
      if f c then EmptyString :: split_on f s'
      else match split_on f s' with
           | w :: ws => String c w :: ws
           | [] => [String c EmptyString]
           end
  end.

(** [slice::join]. *)
Definition join (sep : string) (l : list string) : string := String.concat sep l.

(** [str::replace]: leftmost, non-overlapping.  [skip] is the number of
    bytes of the current match that are still to be dropped. *)
Fixpoint replace_go (pat by_ : string) (skip : nat) (s : string) : string :=
  match s with
  | EmptyString => EmptyString
  | String c s' =>
      match skip with
      | S n => replace_go pat by_ n s'
      | O => if starts_with pat s
             then (by_ ++ replace_go pat by_ (String.length pat - 1) s')%string
             else String c (replace_go pat by_ O s')
      end
  end.
Definition replace (pat by_ s : string) : string := replace_go pat by_ O s.

(** The first value under a name. *)
Fixpoint assoc (name : string) (l : list (string * string)) : option string :=
  match l with
  | [] => None
  | (k, v) :: l' => if bool_decide (k = name) then Some v else assoc name l'
  end.

(** ** Generic lemmas *)

Create HintDb fortress.
Create Rewrite HintDb fortress.

Lemma str_app_nil_r (s : string) : (s ++ "")%string = s.
Proof. induction s as [|c s IH]; [done|]. cbn. by rewrite IH. Qed.

Lemma str_app_assoc (a b c : string) : (a ++ (b ++ c))%string = ((a ++ b) ++ c)%string.
Proof. induction a as [|x a IH]; [done|]. cbn. by rewrite IH. Qed.

Lemma str_length_app (a b : string) :
  String.length (a ++ b) = (String.length a + String.length b)%nat.
Proof. induction a as [|x a IH]; [done|]. cbn. by rewrite IH. Qed.

Lemma str_app_inj_l (a b c : string) : (a ++ b = a ++ c)%string -> b = c.
Proof. induction a as [|x a IH]; [done|]. cbn. intros [= H]. auto. Qed.

Lemma str_app_inj_r (a b c : string) : (a ++ c = b ++ c)%string -> a = b.
Proof.
  revert b. induction a as [|x a IH]; intros [|y b]; cbn.
  - done.
  - intros H. apply (f_equal String.length) in H.
    cbn in H. rewrite str_length_app in H. lia.
  - intros H. apply (f_equal String.length) in H.
    cbn in H. rewrite str_length_app in H. lia.
  - intros [= -> H]. by rewrite (IH b H).
Qed.

Lemma str_forallb_app f (a b : string) :
  str_forallb f (a ++ b) = str_forallb f a && str_forallb f b.
Proof. induction a as [|x a IH]; [done|]. cbn. rewrite IH. by rewrite andb_assoc. Qed.

Lemma str_forallb_impl (f g : ascii -> bool) (s : string) :
  (forall c, f c = true -> g c = true) ->
  str_forallb f s = true -> str_forallb g s = true.
Proof.
  intros Hfg. induction s as [|c s IH]; [done|]. cbn.
  rewrite !andb_true_iff. naive_solver.
Qed.

Lemma strip_prefix_spec (p s t : string) :
  strip_prefix p s = Some t <-> s = (p ++ t)%string.
Proof.
  revert s. induction p as [|a p IH]; intros s; cbn.
  - naive_solver.
  - destruct s as [|b s]; [naive_solver|].
    destruct (Ascii.eqb_spec a b) as [->|Hne]; [rewrite IH|]; naive_solver.
Qed.

Lemma starts_with_spec (p s : string) :
  starts_with p s = true <-> exists t, s = (p ++ t)%string.
Proof.
  unfold starts_with. destruct (strip_prefix p s) as [t|] eqn:E.
  - apply strip_prefix_spec in E. naive_solver.
  - split; [done|]. intros [t Ht]. apply strip_prefix_spec in Ht. congruence.
Qed.

Lemma str_rev_append_app (s acc acc' : string) :
  str_rev_append s (acc ++ acc') = (str_rev_append s acc ++ acc')%string.
Proof.
  revert acc. induction s as [|c s IH]; intros acc; [done|]. cbn.
  apply (IH (String c acc)).
Qed.

Lemma str_rev_cons (c : ascii) (s : string) :
  str_rev (String c s) = (str_rev s ++ String c "")%string.
Proof. unfold str_rev. cbn. by rewrite <- str_rev_append_app. Qed.

Lemma str_rev_app (a b : string) : str_rev (a ++ b) = (str_rev b ++ str_rev a)%string.
Proof.
  induction a as [|c a IH]; cbn.
  - by rewrite str_app_nil_r.
  - by rewrite !str_rev_cons, IH, str_app_assoc.
Qed.

Lemma str_rev_involutive (s : string) : str_rev (str_rev s) = s.
Proof. induction s as [|c s IH]; [done|]. by rewrite str_rev_cons, str_rev_app, IH. Qed.

Lemma strip_suffix_spec (p s t : string) :
  strip_suffix p s = Some t <-> s = (t ++ p)%string.
Proof.
  unfold strip_suffix. destruct (strip_prefix _ _) as [u|] eqn:E.
  - apply strip_prefix_spec in E. apply (f_equal str_rev) in E.
    rewrite str_rev_app, !str_rev_involutive in E. subst s. split.
    + by intros [= <-].
    + intros H. apply str_app_inj_r in H. by subst.
  - split; [done|]. intros ->.
    rewrite str_rev_app in E.
    assert (strip_prefix (str_rev p) (str_rev p ++ str_rev t)%string = Some (str_rev t)) as E'
      by (by apply strip_prefix_spec).
    congruence.
Qed.

Definition lacks (c : ascii) (s : string) : Prop := contains_char c s = false.

Lemma lacks_cons c d s : lacks c (String d s) <-> c <> d /\ lacks c s.
Proof.
  unfold lacks, contains_char. cbn.
  destruct (Ascii.eqb_spec c d); cbn; naive_solver.
Qed.

Lemma lacks_app c a b : lacks c (a ++ b) <-> lacks c a /\ lacks c b.
Proof.
  unfold lacks, contains_char. rewrite str_forallb_app.
  rewrite !negb_false_iff, andb_true_iff. done.
Qed.

Lemma lacks_forallb (f : ascii -> bool) c s :
  str_forallb f s = true -> f c = false -> lacks c s.
Proof.
  intros Hs Hc. unfold lacks, contains_char. apply negb_false_iff.
  eapply str_forallb_impl; [|exact Hs]. intros d Hd. cbn.
  destruct (Ascii.eqb_spec c d) as [->|]; [congruence|done].
Qed.

Lemma split_once_app c a b :
  lacks c a -> split_once c (a ++ String c b) = Some (a, b).
Proof.
  induction a as [|d a IH]; cbn.
  - by rewrite Ascii.eqb_refl.
  - intros [Hne Ha]%lacks_cons. rewrite (IH Ha).
    by destruct (Ascii.eqb_spec c d).
Qed.

Lemma split_once_spec c s a b :
  split_once c s = Some (a, b) <-> s = (a ++ String c b)%string /\ lacks c a.
Proof.
  split; [|by intros [-> Ha]; apply split_once_app].
  revert a. induction s as [|d s IH]; intros a; cbn; [done|].
  destruct (Ascii.eqb_spec c d) as [->|Hne].
  - by intros [= <- <-].
  - destruct (split_once c s) as [[a' b']|]; [|done].
    intros [= <- ->]. destruct (IH a' eq_refl) as [-> Ha].
    split; [done|]. by apply lacks_cons.
Qed.

Lemma rsplit_once_lacks c s : lacks c s -> rsplit_once c s = None.
Proof.
  induction s as [|d s IH]; cbn; [done|].
  intros [Hne Hs]%lacks_cons. rewrite (IH Hs). by destruct (Ascii.eqb_spec c d).
Qed.

Lemma rsplit_once_app c a b :
  lacks c b -> rsplit_once c (a ++ String c b) = Some (a, b).
Proof.
  intros Hb. induction a as [|d a IH]; cbn.
  - by rewrite (rsplit_once_lacks c b Hb), Ascii.eqb_refl.
  - by rewrite IH.
Qed.

Lemma split_on_nonempty f s : split_on f s <> [].
Proof. destruct s as [|c s]; cbn; [done|]. destruct (f c); [done|]. by destruct (split_on f s). Qed.

Lemma split_on_single f s : str_forallb (fun c => negb (f c)) s = true -> split_on f s = [s].
Proof.
  induction s as [|c s IH]; cbn; [done|].
  rewrite andb_true_iff, negb_true_iff. intros [-> Hs]. by rewrite (IH Hs).
Qed.

Lemma split_on_app f c w s :
  str_forallb (fun c => negb (f c)) w = true -> f c = true ->
  split_on f (w ++ String c s) = w :: split_on f s.
Proof.
  intros Hw Hc. induction w as [|d w IH]; cbn.
  - by rewrite Hc.
  - cbn in Hw. rewrite andb_true_iff, negb_true_iff in Hw. destruct Hw as [-> Hw].
    by rewrite (IH Hw).
Qed.

(** Splitting a joined list of separator-free pieces gives the pieces back. *)
Lemma split_on_join f c (l : list string) :
  f c = true -> l <> [] ->
  Forall (fun w => str_forallb (fun d => negb (f d)) w = true) l ->
  split_on f (join (String c "") l) = l.
Proof.
  intros Hc Hne Hl. induction Hl as [|w l Hw Hl IH]; [done|].
  destruct l as [|w' l].
  - by apply split_on_single.
  - change (join (String c "") (w :: w' :: l))
      with (w ++ String c (join (String c "") (w' :: l)))%string.
    rewrite split_on_app by done. by rewrite IH.
Qed.

Lemma trim_start_matches_none f s :
  (match s with String c _ => f c = false | EmptyString => True end) ->
  trim_start_matches f s = s.
Proof. destruct s as [|c s]; cbn; [done|]. by intros ->. Qed.
