(* ===== verification/Prog.v ===== *)
(** Effectful Rust code as programs of a small free monad.

    An [async fn] of the source is a [prog]: it returns a value, panics
    ([expect], [assert!], [unreachable!]), gives up because the fuel of one of
    its loops ran out, or performs one operation on the outside world and goes
    on with the answer.  The outside world is not defined here: a client file
    gives the signature of its operations and, for each of them, the relation
    between the state before, the answer and the state after that the
    documentation of the service promises.

    - [wp] quantifies over every answer those relations allow, so a statement
      [wp spec p Q s] is about every execution of [p] from [s], failures of the
      services included;
    - [run] executes a program with a concrete implementation of the
      operations, [wp_run] says that what [wp] proves holds of every such run;
    - [sched] interleaves several programs, one operation at a time;
    - [interp] replaces the operations of a program by programs that carry them out,
      [wp_interp] says that what was proved survives. *)

From stdpp Require Import base list strings.
From S2P Require Import Prelude.

Record Sig := MkSig { op : Type; ret : op -> Type }.

(** What a finished program did. *)
Inductive outcome (A : Type) : Type :=
| Done (a : A)
| Panicked (msg : string)
| Stuck.
Arguments Done {A} a.
Arguments Panicked {A} msg.
Arguments Stuck {A}.

Section Prog.
Context {X : Sig}.

Inductive prog (A : Type) : Type :=
| Ret (a : A)
| Panic (msg : string)
| OutOfFuel
| Vis (o : op X) (k : ret X o -> prog A).
Arguments Ret {A} a.
Arguments Panic {A} msg.
Arguments OutOfFuel {A}.
Arguments Vis {A} o k.

Fixpoint bind {A B} (p : prog A) (f : A -> prog B) : prog B :=
  match p with
  | Ret a => f a
  | Panic m => Panic m
  | OutOfFuel => OutOfFuel
  | Vis o k => Vis o (fun r => bind (k r) f)
  end.

Definition call (o : op X) : prog (ret X o) := Vis o Ret.

(** The [?] operator, with the [From] conversion of the error. *)
Definition bind_try {A B E F} (conv : E -> F) (p : prog (Result A E))
    (f : A -> prog (Result B F)) : prog (Result B F) :=
  bind p (fun r => match r with Ok a => f a | Err e => Ret (Err (conv e)) end).

(** [assert!]. *)
Definition assert_ {A} (b : bool) (msg : string) (k : prog A) : prog A :=
  if b then k else Panic msg.

(** [Option::expect]. *)
Definition expect {A B} (o : option A) (msg : string) (k : A -> prog B) : prog B :=
  match o with Some a => k a | None => Panic msg end.

(** ** Weakest preconditions *)

Section Wp.
Context {S : Type} (spec : forall o : op X, S -> ret X o -> S -> Prop).

Fixpoint wp {A} (p : prog A) (Q : outcome A -> S -> Prop) (s : S) : Prop :=
  match p with
  | Ret a => Q (Done a) s
  | Panic m => Q (Panicked m) s
  | OutOfFuel => Q Stuck s
  | Vis o k => forall r s', spec o s r s' -> wp (k r) Q s'
  end.

(** What the continuation of a [bind] has to establish. *)
Definition andthen {A B} (f : A -> prog B) (Q : outcome B -> S -> Prop)
    (o : outcome A) (s : S) : Prop :=
  match o with
  | Done a => wp (f a) Q s
  | Panicked m => Q (Panicked m) s
  | Stuck => Q Stuck s
  end.

Lemma wp_bind {A B} (p : prog A) (f : A -> prog B) Q s :
  wp (bind p f) Q s <-> wp p (andthen f Q) s.
Proof.
  revert s. induction p as [a|m| |o k IH]; intros s; cbn; try done.
  split; intros H r s' Hr; apply IH; auto.
Qed.

Lemma wp_mono {A} (p : prog A) (Q Q' : outcome A -> S -> Prop) s :
  (forall o s', Q o s' -> Q' o s') -> wp p Q s -> wp p Q' s.
Proof.
  intros HQ. revert s.
  induction p as [a|m| |o k IH]; intros s; cbn; eauto.
Qed.

Lemma wp_conj {A} (p : prog A) (Q Q' : outcome A -> S -> Prop) s :
  wp p Q s -> wp p Q' s -> wp p (fun o s' => Q o s' /\ Q' o s') s.
Proof.
  revert s. induction p as [a|m| |o k IH]; intros s; cbn; eauto.
Qed.

Lemma wp_call (o : op X) (Q : outcome (ret X o) -> S -> Prop) s :
  wp (call o) Q s <-> forall r s', spec o s r s' -> Q (Done r) s'.
Proof. done. Qed.

(** The state satisfies [I] at every point of the execution: what a crash, or
    another task between two operations, can see. *)
Fixpoint always {A} (I : S -> Prop) (p : prog A) (s : S) : Prop :=
  I s /\
  match p with
  | Vis o k => forall r s', spec o s r s' -> always I (k r) s'
  | _ => True
  end.

Lemma always_now {A} I (p : prog A) s : always I p s -> I s.
Proof. by destruct p; intros [H _]. Qed.

Lemma always_bind {A B} I (p : prog A) (f : A -> prog B) s :
  always I p s -> wp p (fun o s' => match o with Done a => always I (f a) s' | _ => True end) s ->
  always I (bind p f) s.
Proof.
  revert s. induction p as [a|m| |o k IH]; intros s; cbn; try done.
  intros [Hs Hk] Hw. split; [done|]. intros r s' Hr. apply IH; auto.
Qed.

Lemma always_mono {A} (I J : S -> Prop) (p : prog A) s :
  (forall s', I s' -> J s') -> always I p s -> always J p s.
Proof.
  intros HIJ. revert s. induction p as [a|m| |o k IH]; intros s; cbn; intros [Hs Hk]; eauto.
Qed.

(** Every operation the program may perform satisfies [P]. *)
Fixpoint only {A} (P : op X -> Prop) (p : prog A) : Prop :=
  match p with
  | Vis o k => P o /\ forall r, only P (k r)
  | _ => True
  end.

Lemma only_bind {A B} P (p : prog A) (f : A -> prog B) :
  only P p -> (forall a, only P (f a)) -> only P (bind p f).
Proof.
  intros Hp Hf. induction p as [a|m| |o k IH]; cbn in *; [apply Hf|done..|]. naive_solver.
Qed.

(** What the operations of a program keep, the program keeps. *)
Lemma wp_only {A} P (I : S -> Prop) (p : prog A) Q s :
  only P p -> (forall o s r s', P o -> spec o s r s' -> I s -> I s') ->
  I s -> (forall o s', I s' -> Q o s') -> wp p Q s.
Proof.
  intros Hp HI. revert s. induction p as [a|m| |o k IH]; intros s Hs HQ; cbn in *; auto.
  destruct Hp as [Ho Hk]. intros r s' Hr. apply IH; [auto|by eapply HI|done].
Qed.

(** Every operation satisfies [P], and the program always returns. *)
Fixpoint calm {A} (P : op X -> Prop) (p : prog A) : Prop :=
  match p with
  | Ret _ => True
  | Vis o k => P o /\ forall r, calm P (k r)
  | _ => False
  end.

Lemma calm_bind {A B} P (p : prog A) (f : A -> prog B) :
  calm P p -> (forall a, calm P (f a)) -> calm P (bind p f).
Proof.
  intros Hp Hf. induction p as [a|m| |o k IH]; cbn in *; [apply Hf|done..|]. naive_solver.
Qed.

Lemma wp_calm {A} P (I : S -> Prop) (p : prog A) Q s :
  calm P p -> (forall o s r s', P o -> spec o s r s' -> I s -> I s') ->
  I s -> (forall a s', I s' -> Q (Done a) s') -> wp p Q s.
Proof.
  intros Hp HI. revert s. induction p as [a|m| |o k IH]; intros s Hs HQ; cbn in *; auto; [done..|].
  destruct Hp as [Ho Hk]. intros r s' Hr. apply IH; [auto|by eapply HI|done].
Qed.

(** A property of the state that every operation keeps is kept by every
    program. *)
Lemma wp_invariant {A} (I : S -> Prop) (p : prog A) s :
  (forall o s r s', spec o s r s' -> I s -> I s') ->
  I s -> wp p (fun _ s' => I s') s.
Proof.
  intros HI. revert s. induction p as [a|m| |o k IH]; intros s Hs; cbn; eauto.
Qed.
End Wp.

(** Operations that promise more prove no less. *)
Lemma wp_spec_mono {S} (spec spec' : forall o : op X, S -> ret X o -> S -> Prop)
    {A} (p : prog A) Q s :
  (forall o s r s', spec' o s r s' -> spec o s r s') ->
  wp spec p Q s -> wp spec' p Q s.
Proof.
  intros Hs. revert s. induction p as [a|m| |o k IH]; intros s; cbn; eauto.
Qed.

(** The possible ends of a program, and their relation to [wp]. *)
Fixpoint may {S} (spec : forall o : op X, S -> ret X o -> S -> Prop) {A}
    (p : prog A) (s : S) (o : outcome A) (s' : S) : Prop :=
  match p with
  | Ret a => o = Done a /\ s' = s
  | Panic m => o = Panicked m /\ s' = s
  | OutOfFuel => o = Stuck /\ s' = s
  | Vis op k => exists r s1, spec op s r s1 /\ may spec (k r) s1 o s'
  end.

Lemma wp_may {S} (spec : forall o : op X, S -> ret X o -> S -> Prop) {A}
    (p : prog A) Q s :
  wp spec p Q s <-> forall o s', may spec p s o s' -> Q o s'.
Proof.
  revert s. induction p as [a|m| |op k IH]; intros s; cbn;
    [naive_solver..|].
  setoid_rewrite IH. naive_solver.
Qed.

(** ** Programs in lockstep *)

(** Two programs perform the same operations in the same order, whatever is
    answered, and end in outcomes related by [R]. *)
Section Lockstep.
Context {A B : Type} (R : outcome A -> outcome B -> Prop).

Definition end_of {C} (p : prog C) : option (outcome C) :=
  match p with
  | Ret a => Some (Done a)
  | Panic m => Some (Panicked m)
  | OutOfFuel => Some Stuck
  | Vis _ _ => None
  end.

Inductive lockstep : prog A -> prog B -> Prop :=
| lockstep_end p p' o o' :
    end_of p = Some o -> end_of p' = Some o' -> R o o' -> lockstep p p'
| lockstep_vis o k k' :
    (forall r, lockstep (k r) (k' r)) -> lockstep (Vis o k) (Vis o k').

Lemma lockstep_ret a b : R (Done a) (Done b) -> lockstep (Ret a) (Ret b).
Proof. by apply lockstep_end. Qed.

(** So what the one establishes, the other establishes of a related outcome in the
    same state. *)
Lemma lockstep_wp {S} (spec : forall o : op X, S -> ret X o -> S -> Prop) p p' Q s :
  lockstep p p' -> wp spec p Q s ->
  wp spec p' (fun o' s' => exists o, Q o s' /\ R o o') s.
Proof.
  intros H. revert s. induction H as [p p' o o' Hp Hp' HR|o k k' _ IH]; intros s HQ.
  - destruct p, p'; try discriminate; injection Hp as <-; injection Hp' as <-;
      cbn in *; eauto.
  - cbn in *. eauto.
Qed.
End Lockstep.

Lemma lockstep_flip {A B} (R : outcome A -> outcome B -> Prop) p p' :
  lockstep R p p' -> lockstep (fun o' o => R o o') p' p.
Proof.
  induction 1 as [p p' o o' Hp Hp' HR|o k k' _ IH].
  - by apply (lockstep_end _ p' p o' o).
  - by apply lockstep_vis.
Qed.

(** Faults are related to themselves. *)
Definition same_fault {A B} (R : outcome A -> outcome B -> Prop) : Prop :=
  (forall m, R (Panicked m) (Panicked m)) /\ R Stuck Stuck.

(** A context that lets its program run first: nested [bind]s. *)
Definition runs_first {A B} (K : prog A -> prog B) : Prop :=
  (forall m, K (Panic m) = Panic m) /\ K OutOfFuel = OutOfFuel /\
  forall o k, K (Vis o k) = Vis o (fun r => K (k r)).

(** The same program first, then continuations in lockstep. *)
Lemma lockstep_along {A B C} (R : outcome B -> outcome C -> Prop) (p : prog A) K K' :
  runs_first K -> runs_first K' -> same_fault R ->
  (forall a, lockstep R (K (Ret a)) (K' (Ret a))) -> lockstep R (K p) (K' p).
Proof.
  intros (HKp & HKs & HKv) (HKp' & HKs' & HKv') [HP HS] Hk.
  induction p as [a|m| |o f IH].
  - apply Hk.
  - rewrite HKp, HKp'. by apply (lockstep_end _ _ _ (Panicked m) (Panicked m)).
  - rewrite HKs, HKs'. by apply (lockstep_end _ _ _ Stuck Stuck).
  - rewrite HKv, HKv'. apply lockstep_vis, IH.
Qed.

(** ** Execution *)

Section Run.
Context {W : Type} (exec : forall o : op X, W -> ret X o * W).

Fixpoint run {A} (p : prog A) (w : W) : outcome A * W :=
  match p with
  | Ret a => (Done a, w)
  | Panic m => (Panicked m, w)
  | OutOfFuel => (Stuck, w)
  | Vis o k => let '(r, w') := exec o w in run (k r) w'
  end.

(** [exec] over [W] behaves as documented, seen through [view]. *)
Definition implements {S} (spec : forall o : op X, S -> ret X o -> S -> Prop)
    (view : W -> S) : Prop :=
  forall o w, spec o (view w) (fst (exec o w)) (view (snd (exec o w))).

Lemma wp_run {S} (spec : forall o : op X, S -> ret X o -> S -> Prop)
    (view : W -> S) {A} (p : prog A) Q w :
  implements spec view ->
  wp spec p Q (view w) -> Q (fst (run p w)) (view (snd (run p w))).
Proof.
  intros Hview. revert w. induction p as [a|m| |o k IH]; intros w; cbn; auto.
  intros H. specialize (Hview o w). destruct (exec o w) as [r w']. cbn in *.
  apply IH, H, Hview.
Qed.

(** What a run ends in, the program may end in. *)
Lemma run_may {S} (spec : forall o : op X, S -> ret X o -> S -> Prop)
    (view : W -> S) {A} (p : prog A) w :
  implements spec view -> may spec p (view w) (fst (run p w)) (view (snd (run p w))).
Proof.
  intros Hview. revert w. induction p as [a|m| |o k IH]; intros w; cbn; [done..|].
  specialize (Hview o w). destruct (exec o w) as [r w']. cbn in *.
  exists r, (view w'). split; [done|]. apply IH.
Qed.

(** One operation of a program. *)
Definition step1 {A} (p : prog A) (w : W) : prog A * W :=
  match p with
  | Vis o k => let '(r, w') := exec o w in (k r, w')
  | _ => (p, w)
  end.

(** Interleaved execution: each entry of [sch] lets that thread do one
    operation. *)
Fixpoint sched {A} (sch : list nat) (ts : list (prog A)) (w : W)
    : list (prog A) * W :=
  match sch with
  | [] => (ts, w)
  | i :: sch' =>
      match ts !! i with
      | Some p => let '(p', w') := step1 p w in sched sch' (<[i := p']> ts) w'
      | None => sched sch' ts w
      end
  end.
End Run.
End Prog.

Arguments prog X A : clear implicits.
Arguments Ret {X A} a.
Arguments Panic {X A} msg.
Arguments OutOfFuel {X A}.
Arguments Vis {X A} o k.

(** ** Implementing operations *)

(** The operations of two services, and a world that holds both. *)
Definition sum_sig (X Y : Sig) : Sig :=
  MkSig (op X + op Y) (fun o => match o with inl o => ret X o | inr o => ret Y o end).

Definition sum_spec {X Y : Sig} {S T : Type} (specX : forall o : op X, S -> ret X o -> S -> Prop)
    (specY : forall o : op Y, T -> ret Y o -> T -> Prop) (o : op (sum_sig X Y))
    : S * T -> ret (sum_sig X Y) o -> S * T -> Prop :=
  match o return S * T -> ret (sum_sig X Y) o -> S * T -> Prop with
  | inl o => fun s r s' => specX o (fst s) r (fst s') /\ snd s' = snd s
  | inr o => fun s r s' => specY o (snd s) r (snd s') /\ fst s' = fst s
  end.

(** A program of one signature as a program of another: each of its operations is
    carried out by a program. *)
Fixpoint interp {X Y : Sig} (h : forall o : op X, prog Y (ret X o)) {A} (p : prog X A)
    : prog Y A :=
  match p with
  | Ret a => Ret a
  | Panic m => Panic m
  | OutOfFuel => OutOfFuel
  | Vis o k => bind (h o) (fun r => interp h (k r))
  end.

(** The program of a service, where others are at hand. *)
Definition inl_ {X Y : Sig} {A} : prog X A -> prog (sum_sig X Y) A :=
  interp (fun o => @call (sum_sig X Y) (inl o)).
Definition inr_ {X Y : Sig} {A} : prog Y A -> prog (sum_sig X Y) A :=
  interp (fun o => @call (sum_sig X Y) (inr o)).

(** The handler carries out an operation: it returns, with an answer and in a state
    that the specification of the operation allows, up to [R]. *)
Definition carries_out {X Y : Sig} {S T : Type} (R : S -> T -> Prop)
    (specX : forall o : op X, S -> ret X o -> S -> Prop)
    (specY : forall o : op Y, T -> ret Y o -> T -> Prop)
    (h : forall o : op X, prog Y (ret X o)) : Prop :=
  forall o s t, R s t ->
    wp specY (h o) (fun out t' => exists r s', out = Done r /\ specX o s r s' /\ R s' t') t.

(** So what a program establishes of the specified services, it establishes of their
    implementations. *)
Lemma wp_interp {X Y : Sig} {S T : Type} (R : S -> T -> Prop)
    (specX : forall o : op X, S -> ret X o -> S -> Prop)
    (specY : forall o : op Y, T -> ret Y o -> T -> Prop)
    (h : forall o : op X, prog Y (ret X o)) {A} (p : prog X A) Q s t :
  carries_out R specX specY h -> R s t -> wp specX p Q s ->
  wp specY (interp h p) (fun o t' => exists s', R s' t' /\ Q o s') t.
Proof.
  intros Hh. revert s t. induction p as [a|m| |o k IH]; intros s t HR HQ; cbn in *; eauto.
  apply wp_bind. eapply wp_mono; [|by apply Hh].
  intros out t' (r & s' & -> & Hr & HR'). cbn. apply (IH r s'); auto.
Qed.

Lemma wp_inl {X Y : Sig} {S T : Type} (specX : forall o : op X, S -> ret X o -> S -> Prop)
    (specY : forall o : op Y, T -> ret Y o -> T -> Prop) {A} (p : prog X A) Q s t :
  wp specX p (fun o s' => Q o (s', t)) s -> wp (sum_spec specX specY) (inl_ p) Q (s, t).
Proof.
  unfold inl_. revert s. induction p as [a|m| |o k IH]; intros s HQ; cbn in *; auto.
  intros r [s' t'] [Hr Ht]. cbn in *. subst. auto.
Qed.

Lemma wp_inr {X Y : Sig} {S T : Type} (specX : forall o : op X, S -> ret X o -> S -> Prop)
    (specY : forall o : op Y, T -> ret Y o -> T -> Prop) {A} (p : prog Y A) Q s t :
  wp specY p (fun o t' => Q o (s, t')) t -> wp (sum_spec specX specY) (inr_ p) Q (s, t).
Proof.
  unfold inr_. revert t. induction p as [a|m| |o k IH]; intros t HQ; cbn in *; auto.
  intros r [s' t'] [Hr Ht]. cbn in *. subst. auto.
Qed.

Declare Scope prog_scope.
Delimit Scope prog_scope with prog.

Notation "x <- p ;; k" := (bind p (fun x => k))
  (at level 100, p at next level, right associativity) : prog_scope.
Notation "p ;;; k" := (bind p (fun _ => k))
  (at level 100, right associativity) : prog_scope.
(** [x <-? p 'as' conv ;; k] is [let x = p.await.map_err(conv)?; k]. *)
Notation "x <-? p 'as' conv ;; k" := (bind_try conv p (fun x => k))
  (at level 100, p at next level, conv at next level, right associativity)
  : prog_scope.

(** [p] runs first on both sides. *)
Ltac along p :=
  match goal with
  | |- lockstep ?R ?l ?r =>
      let l := eval pattern p in l in
      let r := eval pattern p in r in
      match l with
      | ?K _ => match r with ?K' _ => apply (lockstep_along R p K K') end
      end
  end; [done|done|done|].

(** ** Symbolic execution of [wp] goals *)

(** Push [wp] through [bind]s and constructors of known programs. *)
Ltac wp_simpl :=
  repeat (first [ progress cbn [wp bind call ret op andthen fst snd]
                | progress unfold bind_try, assert_, expect
                | rewrite wp_bind ]).
