(* ===== verification/Addr.v ===== *)
(** IP addresses and byte-aligned subnets
    (crates/controlplane/src/controlplane/mod.rs, [AddrBytes] and [Subnet]),
    with the text forms of [std::net::Ipv4Addr] and [Ipv6Addr] they rely on.

    An octet is a [Z] in [0, 256). *)

From stdpp Require Import base strings list pretty.
From Stdlib Require Import ZArith Lia Ascii.
From S2P Require Import Prelude.

Local Open Scope Z_scope.

(** ** Numbers in text *)

Definition digit_val (c : ascii) : option Z :=
  if is_ascii_digit c then Some (Z.of_N (N_of_ascii c) - 48)
  else if ch_between "a" "f" c then Some (Z.of_N (N_of_ascii c) - 87)
  else if ch_between "A" "F" c then Some (Z.of_N (N_of_ascii c) - 55)
  else None.

Definition digit_in (radix : Z) (c : ascii) : option Z :=
  match digit_val c with
  | Some d => if d <? radix then Some d else None
  | None => None
  end.

#[global] Arguments digit_in : simpl never.

(** [str::parse] for an unsigned integer of maximum [max] (an optional leading
    [+] is accepted, as by [u8::from_str]). *)
Fixpoint parse_digits (max acc : Z) (s : string) : option Z :=
  match s with
  | EmptyString => Some acc
  | String c s' =>
      match digit_in 10 c with
      | Some d =>
          let acc := acc * 10 + d in
          if acc <=? max then parse_digits max acc s' else None
      | None => None
      end
  end.

Definition parse_uint (max : Z) (s : string) : option Z :=
  match s with
  | EmptyString => None
  | String c s' =>
      if Ascii.eqb c "+" then
        match s' with EmptyString => None | _ => parse_digits max 0 s' end
      else parse_digits max 0 s
  end.

(** The digit reader of [std::net]'s parser ([read_number]): at least one digit,
    at most [max_digits], a value of at most [max], and, when [zero_prefix] is
    false, no leading zero. *)
Fixpoint read_digits (radix max : Z) (left : nat) (acc : Z) (count : nat) (s : string)
    {struct s} : option (Z * nat * string) :=
  match s with
  | String c s' =>
      match digit_in radix c with
      | Some d =>
          match left with
          | O => None
          | S left' =>
              let acc := acc * radix + d in
              if acc <=? max then read_digits radix max left' acc (S count) s' else None
          end
      | None => Some (acc, count, s)
      end
  | EmptyString => Some (acc, count, s)
  end.

Definition read_number (radix max : Z) (max_digits : nat) (zero_prefix : bool) (s : string)
    : option (Z * string) :=
  match read_digits radix max max_digits 0 0 s with
  | Some (v, n, rest) =>
      if Nat.eqb n 0 then None
      else if negb zero_prefix && starts_with "0" s && negb (Nat.eqb n 1) then None
      else Some (v, rest)
  | None => None
  end.

Definition read_char (c : ascii) (s : string) : option string :=
  match s with
  | String d s' => if Ascii.eqb c d then Some s' else None
  | EmptyString => None
  end.

(** [read_ipv4_addr]: four decimal octets separated by dots. *)
Definition read_ipv4 (s : string) : option (list Z * string) :=
  '(a, s) ← read_number 10 255 3 false s;
  s ← read_char "." s;
  '(b, s) ← read_number 10 255 3 false s;
  s ← read_char "." s;
  '(c, s) ← read_number 10 255 3 false s;
  s ← read_char "." s;
  '(d, s) ← read_number 10 255 3 false s;
  Some ([a; b; c; d], s).

(** [read_groups]: up to [limit] 16-bit groups separated by colons; the last
    two may be written as an IPv4 address. *)
Fixpoint read_groups (limit : nat) (first : bool) (s : string)
    : list Z * bool * string :=
  match limit with
  | O => ([], false, s)
  | S limit' =>
      let after_sep := if first then Some s else read_char ":" s in
      match after_sep with
      | None => ([], false, s)
      | Some s1 =>
          let v4 := match limit' with O => None | S _ => read_ipv4 s1 end in
          match v4 with
          | Some ([a; b; c; d], s2) => ([a * 256 + b; c * 256 + d], true, s2)
          | _ =>
              match read_number 16 65535 4 true s1 with
              | Some (g, s2) =>
                  let '(gs, is4, rest) := read_groups limit' false s2 in
                  (g :: gs, is4, rest)
              | None => ([], false, s)
              end
          end
      end
  end.

Definition read_ipv6 (s : string) : option (list Z * string) :=
  let '(head, head4, s) := read_groups 8 true s in
  if Nat.eqb (length head) 8 then Some (head, s)
  else if head4 then None
  else
    s ← read_char ":" s;
    s ← read_char ":" s;
    let '(tail, _, s) := read_groups (8 - (length head + 1)) true s in
    Some (head ++ replicate (8 - length head - length tail) 0 ++ tail, s).

Definition groups_octets (l : list Z) : list Z :=
  flat_map (fun g => [g / 256; g mod 256]) l.

Fixpoint octets_groups (l : list Z) : list Z :=
  match l with
  | a :: b :: l' => (a * 256 + b) :: octets_groups l'
  | _ => []
  end.

(** [{:x}] of a [u16]. *)
Definition hex_digit (d : Z) : ascii :=
  ascii_of_N (Z.to_N (if d <? 10 then 48 + d else 87 + d)).
Definition hex_u16 (g : Z) : string :=
  let d3 := g / 4096 in let d2 := g / 256 mod 16 in
  let d1 := g / 16 mod 16 in let d0 := g mod 16 in
  if g <? 16 then String (hex_digit d0) ""
  else if g <? 256 then String (hex_digit d1) (String (hex_digit d0) "")
  else if g <? 4096
  then String (hex_digit d2) (String (hex_digit d1) (String (hex_digit d0) ""))
  else String (hex_digit d3)
         (String (hex_digit d2) (String (hex_digit d1) (String (hex_digit d0) ""))).

(** The longest run of zero groups, the first of them when tied, as
    (start, length). *)
Fixpoint longest_zeros (i : nat) (cur best : nat * nat) (l : list Z) : nat * nat :=
  match l with
  | [] => best
  | g :: l' =>
      if g =? 0 then
        let cur := (if Nat.eqb (snd cur) 0 then i else fst cur, S (snd cur)) in
        longest_zeros (S i) cur (if Nat.ltb (snd best) (snd cur) then cur else best) l'
      else longest_zeros (S i) (0%nat, 0%nat) best l'
  end.

Definition fmt_groups (l : list Z) : string := join ":" (map hex_u16 l).

Definition display_v4 (o : list Z) : string := join "." (map (fun b : Z => pretty b) o).

(** [Display for Ipv6Addr]. *)
Definition display_v6 (o : list Z) : string :=
  let gs := octets_groups o in
  if bool_decide (take 6 gs = [0; 0; 0; 0; 0; 65535])
  then ("::ffff:" ++ display_v4 (drop 12 o))%string
  else
    let '(start, len) := longest_zeros 0 (0%nat, 0%nat) (0%nat, 0%nat) gs in
    if Nat.ltb 1 len
    then (fmt_groups (take start gs) ++ "::" ++ fmt_groups (drop (start + len) gs))%string
    else fmt_groups gs.

Definition parse_v4 (s : string) : option (list Z) :=
  match read_ipv4 s with Some (o, EmptyString) => Some o | _ => None end.
Definition parse_v6 (s : string) : option (list Z) :=
  match read_ipv6 s with Some (gs, EmptyString) => Some (groups_octets gs) | _ => None end.

(** ** [trait AddrBytes] *)

Definition is_byte (b : Z) : bool := (0 <=? b) && (b <? 256).
Definition is_addr (n : nat) (l : list Z) : bool :=
  Nat.eqb (length l) n && forallb is_byte l.

Class AddrBytes (A : Type) := {
  LEN : nat;
  MIN_PREFIX : Z;
  MAX_PREFIX : Z;
  octets : A -> list Z;
  from_octets : list Z -> option A;      (** [None]: the [expect] panics *)
  display : A -> string;                 (** supertrait [Display] *)
  parse : string -> option A;            (** supertrait [FromStr] *)
  parse_error : string;                  (** its [AddrParseError], displayed *)
}.

(** What the subnet arithmetic relies on: an address is its [LEN] octets. *)
Class AddrBytesLaws (A : Type) `{AddrBytes A} := {
  octets_addr (a : A) : is_addr LEN (octets a) = true;
  from_octets_spec l (a : A) : from_octets l = Some a <-> octets a = l;
  from_octets_some l : is_addr LEN l = true -> is_Some (from_octets l : option A);
  prefix_range : 8 <= MIN_PREFIX /\ MIN_PREFIX <= MAX_PREFIX
                 /\ MAX_PREFIX <= 8 * Z.of_nat LEN /\ 8 * Z.of_nat LEN <= MIN_PREFIX + 64
                 /\ MAX_PREFIX < 256;
}.

(** What its text round trips rely on. *)
Class AddrTextLaws (A : Type) `{AddrBytes A} := {
  parse_display (a : A) : parse (display a) = Some a;
  display_no_slash (a : A) : lacks "/" (display a);
}.

Record Ipv4Addr := MkV4 { v4 : list Z; v4_ok : is_addr 4 v4 = true }.
Record Ipv6Addr := MkV6 { v6 : list Z; v6_ok : is_addr 16 v6 = true }.

Definition mk_v4 (l : list Z) : option Ipv4Addr :=
  match Bool.bool_dec (is_addr 4 l) true with
  | left H => Some (MkV4 l H)
  | right _ => None
  end.
Definition mk_v6 (l : list Z) : option Ipv6Addr :=
  match Bool.bool_dec (is_addr 16 l) true with
  | left H => Some (MkV6 l H)
  | right _ => None
  end.

(** [impl AddrBytes for Ipv6Addr]: the routed subnet. *)
#[export] Instance Ipv6_AddrBytes : AddrBytes Ipv6Addr := {
  LEN := 16;
  MIN_PREFIX := 64;
  MAX_PREFIX := 112;
  octets := v6;
  from_octets := mk_v6;
  display a := display_v6 (v6 a);
  parse s := match parse_v6 s with Some o => mk_v6 o | None => None end;
  parse_error := "invalid IPv6 address syntax";
}.

(** [impl AddrBytes for Ipv4Addr]: the tunnel net. *)
#[export] Instance Ipv4_AddrBytes : AddrBytes Ipv4Addr := {
  LEN := 4;
  MIN_PREFIX := 8;
  MAX_PREFIX := 30;
  octets := v4;
  from_octets := mk_v4;
  display a := display_v4 (v4 a);
  parse s := match parse_v4 s with Some o => mk_v4 o | None => None end;
  parse_error := "invalid IPv4 address syntax";
}.

Lemma v4_inj (a b : Ipv4Addr) : v4 a = v4 b -> a = b.
Proof.
  destruct a as [x Hx], b as [y Hy]. cbn. intros ->.
  by rewrite (proof_irrel Hx Hy).
Qed.

Lemma v6_inj (a b : Ipv6Addr) : v6 a = v6 b -> a = b.
Proof.
  destruct a as [x Hx], b as [y Hy]. cbn. intros ->.
  by rewrite (proof_irrel Hx Hy).
Qed.

#[export] Instance Ipv6Addr_eq_dec : EqDecision Ipv6Addr.
Proof.
  intros a b. destruct (decide (v6 a = v6 b)) as [H|H].
  - left. by apply v6_inj.
  - right. congruence.
Defined.

Lemma mk_v4_spec l a : mk_v4 l = Some a <-> v4 a = l.
Proof.
  unfold mk_v4. destruct (Bool.bool_dec _ _) as [H|H].
  - split; [by intros [= <-]|]. intros <-. f_equal. by apply v4_inj.
  - split; [done|]. intros <-. by destruct H, a.
Qed.

Lemma mk_v6_spec l a : mk_v6 l = Some a <-> v6 a = l.
Proof.
  unfold mk_v6. destruct (Bool.bool_dec _ _) as [H|H].
  - split; [by intros [= <-]|]. intros <-. f_equal. by apply v6_inj.
  - split; [done|]. intros <-. by destruct H, a.
Qed.

#[export] Instance Ipv4_laws : AddrBytesLaws Ipv4Addr.
Proof.
  split; cbn; [apply v4_ok|apply mk_v4_spec| |lia].
  intros l Hl. unfold mk_v4. destruct (Bool.bool_dec _ _); [eauto|done].
Qed.

#[export] Instance Ipv6_laws : AddrBytesLaws Ipv6Addr.
Proof.
  split; cbn; [apply v6_ok|apply mk_v6_spec| |lia].
  intros l Hl. unfold mk_v6. destruct (Bool.bool_dec _ _); [eauto|done].
Qed.

(** ** [Subnet] *)

(** [Subnet<A>]; [A] is only a phantom here, as in the source. *)
Record Subnet (A : Type) := MkSubnet { prefix : list Z; prefix_len : Z }.
Arguments MkSubnet {A} prefix prefix_len.
Arguments prefix {A} s.
Arguments prefix_len {A} s.

Definition Subnet64 := Subnet Ipv6Addr.
Definition WgSubnet := Subnet Ipv4Addr.

(** [u64::to_be_bytes], as the [n] low bytes. *)
Fixpoint be_bytes (n : nat) (i : Z) : list Z :=
  match n with
  | O => []
  | S n' => be_bytes n' (i / 256) ++ [i mod 256]
  end.

Definition u64_max : Z := 2 ^ 64 - 1.

Section Subnet.
Context {A : Type} `{AB : AddrBytes A}.

(** [Subnet::from_str]. *)
Definition from_str (s : string) : Result (Subnet A) string :=
  match rsplit_once "/" s with
  | None => Err ("invalid subnet " ++ s ++ ": missing /len")%string
  | Some (addr_str, len_str) =>
      match parse_uint 255 len_str with
      | None => Err ("invalid prefix length in " ++ s)%string
      | Some len =>
          if (len <? MIN_PREFIX) || (len >? MAX_PREFIX) || negb (len mod 8 =? 0)
          then Err (s ++ ": prefix length must be byte-aligned and between /"
                      ++ pretty MIN_PREFIX ++ " and /" ++ pretty MAX_PREFIX
                      ++ " (was /" ++ pretty len ++ ")")%string
          else
            match parse addr_str with
            | None => Err ("invalid subnet " ++ addr_str ++ ": " ++ parse_error)%string
            | Some addr =>
                let prefix_bytes := Z.to_nat (len / 8) in
                if existsb (fun b => negb (b =? 0)) (drop prefix_bytes (octets addr))
                then Err (s ++ " is not a /" ++ pretty len ++ " (host bits set)")%string
                else Ok (MkSubnet (take prefix_bytes (octets addr)) len)
            end
      end
  end.

Definition host_bits (s : Subnet A) : Z := Z.of_nat LEN * 8 - prefix_len s.
Definition max_host (s : Subnet A) : Z := Z.min (2 ^ host_bits s - 1) u64_max.

(** [Subnet::host]; [None] is a panic (an index beyond the capacity). *)
Definition host (s : Subnet A) (index : Z) : option A :=
  if index >? max_host s then None
  else
    let octets16 := replicate 8 0 ++ be_bytes 8 index in
    let host_bytes := Z.to_nat (host_bits s / 8) in
    from_octets (prefix s ++ drop (16 - host_bytes) octets16).

Definition host_string (s : Subnet A) (index : Z) : option string :=
  display <$> host s index.

(** [Subnet::to_string]; [None] when one of its assertions fails. *)
Definition to_string (s : Subnet A) : option string :=
  if negb (Z.of_nat (length (prefix s)) * 8 =? prefix_len s) then None
  else if negb (Nat.leb (length (prefix s)) LEN) then None
  else
    a ← (from_octets (prefix s ++ replicate (LEN - length (prefix s)) 0) : option A);
    Some (display a ++ "/" ++ pretty (prefix_len s))%string.

(** What [from_str] guarantees of a subnet. *)
Definition subnet_wf (s : Subnet A) : Prop :=
  MIN_PREFIX <= prefix_len s <= MAX_PREFIX /\ prefix_len s mod 8 = 0 /\
  Z.of_nat (length (prefix s)) * 8 = prefix_len s /\ forallb is_byte (prefix s) = true.
End Subnet.

(** ** Bytes of an index *)

Lemma be_bytes_length n i : length (be_bytes n i) = n.
Proof.
  revert i. induction n as [|n IH]; intros i; cbn; [done|].
  rewrite length_app, IH. cbn. lia.
Qed.

Lemma be_bytes_byte n i : forallb is_byte (be_bytes n i) = true.
Proof.
  revert i. induction n as [|n IH]; intros i; cbn; [done|].
  rewrite forallb_app, IH. cbn. unfold is_byte.
  pose proof (Z.mod_pos_bound i 256 ltac:(lia)).
  destruct (Z.leb_spec 0 (i mod 256)), (Z.ltb_spec (i mod 256) 256); cbn; lia.
Qed.

Lemma be_bytes_inj n i j :
  0 <= i < 256 ^ Z.of_nat n -> 0 <= j < 256 ^ Z.of_nat n ->
  be_bytes n i = be_bytes n j -> i = j.
Proof.
  revert i j. induction n as [|n IH]; intros i j Hi Hj H.
  - cbn in Hi, Hj. lia.
  - rewrite Nat2Z.inj_succ, Z.pow_succ_r in Hi, Hj by lia.
    cbn in H. apply app_inj_tail in H as [H1 H2].
    pose proof (Z.div_mod i 256 ltac:(lia)). pose proof (Z.div_mod j 256 ltac:(lia)).
    assert (i / 256 = j / 256); [|lia].
    apply IH; [..|done]; (split; [apply Z.div_pos; lia|apply Z.div_lt_upper_bound; lia]).
Qed.

(** Dropping high bytes is taking fewer of them. *)
Lemma be_bytes_drop n m i : (m <= n)%nat -> drop (n - m) (be_bytes n i) = be_bytes m i.
Proof.
  revert m i. induction n as [|n IH]; intros m i Hm.
  - by replace m with 0%nat by lia.
  - destruct m as [|m].
    + rewrite Nat.sub_0_r. rewrite drop_ge; [done|]. by rewrite be_bytes_length.
    + change (S n - S m)%nat with (n - m)%nat. cbn [be_bytes].
      rewrite drop_app_le by (rewrite be_bytes_length; lia).
      by rewrite IH by lia.
Qed.

Section SubnetLaws.
Context {A : Type} `{AB : AddrBytes A} `{AL : !AddrBytesLaws A}.

Lemma host_bits_range (s : Subnet A) :
  subnet_wf s -> 0 <= host_bits s <= 64 /\ host_bits s mod 8 = 0
                 /\ (length (prefix s) + Z.to_nat (host_bits s / 8) = LEN)%nat.
Proof.
  intros (H1 & H2 & H3 & _). destruct prefix_range as (R1 & R2 & R3 & R4).
  unfold host_bits. split_and!; [lia|lia| |].
  - replace (Z.of_nat LEN * 8 - prefix_len s) with (Z.of_nat (LEN - length (prefix s)) * 8) by lia.
    apply Z.mod_mul. lia.
  - replace (Z.of_nat LEN * 8 - prefix_len s) with (Z.of_nat (LEN - length (prefix s)) * 8) by lia.
    rewrite Z.div_mul by lia. lia.
Qed.

(** The octets [host] computes are the prefix followed by the index. *)
Lemma host_octets_eq (s : Subnet A) i :
  subnet_wf s ->
  prefix s ++ drop (16 - Z.to_nat (host_bits s / 8)) (replicate 8 0 ++ be_bytes 8 i)
    = prefix s ++ be_bytes (Z.to_nat (host_bits s / 8)) i.
Proof.
  intros Hwf. destruct (host_bits_range s Hwf) as (H1 & H2 & H3). f_equal.
  assert (host_bits s / 8 <= 8) by (apply Z.div_le_upper_bound; lia).
  rewrite drop_app_ge by (rewrite length_replicate; lia). rewrite length_replicate.
  replace (16 - Z.to_nat (host_bits s / 8) - 8)%nat
    with (8 - Z.to_nat (host_bits s / 8))%nat by lia.
  apply be_bytes_drop. lia.
Qed.

Lemma host_spec (s : Subnet A) i (a : A) :
  subnet_wf s ->
  host s i = Some a <->
  i <= max_host s /\ octets a = prefix s ++ be_bytes (Z.to_nat (host_bits s / 8)) i.
Proof.
  intros Hwf. unfold host. rewrite host_octets_eq by done.
  destruct (Z.gtb_spec i (max_host s)) as [H|H].
  - split; [done|lia].
  - rewrite from_octets_spec. naive_solver.
Qed.

(** [host] panics exactly beyond the capacity of the subnet. *)
Lemma host_total (s : Subnet A) i :
  subnet_wf s -> is_Some (host s i) <-> i <= max_host s.
Proof.
  intros Hwf. split.
  - intros [a Ha]. by apply host_spec in Ha as [? _].
  - intros Hi. destruct (host_bits_range s Hwf) as (H1 & H2 & H3).
    destruct (from_octets_some (A := A)
                (prefix s ++ be_bytes (Z.to_nat (host_bits s / 8)) i)) as [a Ha].
    + unfold is_addr. rewrite length_app, be_bytes_length, H3, Nat.eqb_refl.
      rewrite forallb_app, be_bytes_byte.
      destruct Hwf as (_ & _ & _ & ->). done.
    + exists a. apply host_spec; [done|]. split; [done|]. by apply from_octets_spec.
Qed.

Lemma max_host_bytes (s : Subnet A) i :
  subnet_wf s -> 0 <= i <= max_host s -> 0 <= i < 256 ^ Z.of_nat (Z.to_nat (host_bits s / 8)).
Proof.
  intros Hwf Hi. destruct (host_bits_range s Hwf) as (H1 & H2 & H3).
  unfold max_host in Hi. rewrite Z2Nat.id by (apply Z.div_pos; lia).
  change 256 with (2 ^ 8). rewrite <- Z.pow_mul_r by (try apply Z.div_pos; lia).
  replace (8 * (host_bits s / 8)) with (host_bits s).
  - lia.
  - pose proof (Z.div_mod (host_bits s) 8 ltac:(lia)). lia.
Qed.

(** Different indices get different addresses. *)
Lemma host_inj (s : Subnet A) i j (a : A) :
  subnet_wf s -> 0 <= i -> 0 <= j ->
  host s i = Some a -> host s j = Some a -> i = j.
Proof.
  intros Hwf Hi Hj Ha Hb.
  apply host_spec in Ha as [Ha1 Ha2]; [|done]. apply host_spec in Hb as [Hb1 Hb2]; [|done].
  rewrite Ha2 in Hb2. apply app_inv_head in Hb2.
  eapply be_bytes_inj; [| |exact Hb2]; by apply max_host_bytes.
Qed.

Lemma from_str_wf (str : string) (s : Subnet A) : from_str str = Ok s -> subnet_wf s.
Proof.
  unfold from_str. destruct (rsplit_once "/" str) as [[addr len]|]; [|done].
  destruct (parse_uint 255 len) as [n|]; [|done].
  destruct ((n <? MIN_PREFIX) || (n >? MAX_PREFIX) || negb (n mod 8 =? 0)) eqn:E; [done|].
  destruct (parse addr) as [a|]; [|done].
  destruct (existsb _ _); [done|]. intros [= <-].
  rewrite !orb_false_iff, negb_false_iff in E. destruct E as [[E1 E2] E3].
  apply Z.ltb_ge in E1. apply Z.eqb_eq in E3.
  assert (n <= MAX_PREFIX) by (destruct (Z.gtb_spec n MAX_PREFIX); lia).
  destruct prefix_range as (R1 & R2 & R3 & R4).
  pose proof (octets_addr a) as Ha. unfold is_addr in Ha.
  rewrite andb_true_iff, Nat.eqb_eq in Ha. destruct Ha as [Hlen Hb].
  pose proof (Z.div_mod n 8 ltac:(lia)).
  split_and!; cbn; [lia|lia|done| |].
  - rewrite length_take, Hlen. lia.
  - rewrite <- (take_drop (Z.to_nat (n / 8)) (octets a)), forallb_app in Hb.
    by apply andb_true_iff in Hb as [-> _].
Qed.
End SubnetLaws.
