(* ===== verification/NumText.v ===== *)
(** Numbers in text: what [std::net]'s number reader reads back of a printed
    decimal octet or hexadecimal group, whatever follows it.  The two finite
    facts are checked by computation over all 256 octets and 65536 groups. *)

From stdpp Require Import base strings list pretty list_numbers.
From Stdlib Require Import ZArith Lia Ascii.
From S2P Require Import Prelude Addr.

Local Open Scope Z_scope.

(** ** Finite checks *)

(** A boolean property of the [n] numbers from [z] on. *)
Fixpoint check_from (f : Z -> bool) (n : nat) (z : Z) : bool :=
  match n with O => true | S n' => if f z then check_from f n' (z + 1) else false end.

Lemma check_from_spec f n z i :
  check_from f n z = true -> z <= i < z + Z.of_nat n -> f i = true.
Proof.
  revert z. induction n as [|n IH]; intros z; cbn [check_from]; [lia|].
  destruct (f z) eqn:E; [|done]. intros H Hi.
  destruct (decide (i = z)) as [->|]; [done|]. apply (IH (z + 1)); [done|lia].
Qed.

(** A boolean property of the numbers below a bound, checked by computation. *)
Lemma check_below (n : nat) (f : Z -> bool) :
  check_from f n 0 = true -> forall z, 0 <= z < Z.of_nat n -> f z = true.
Proof. intros H z Hz. eapply check_from_spec; [exact H|lia]. Qed.

Definition str_eqb (a b : string) : bool := bool_decide (a = b).

(** ** Reading a number that something else follows *)

Definition stops (radix : Z) (t : string) : Prop :=
  match t with String c _ => digit_in radix c = None | EmptyString => True end.

Lemma read_digits_app radix max left acc n s v k t :
  read_digits radix max left acc n s = Some (v, k, ""%string) -> stops radix t ->
  read_digits radix max left acc n (s ++ t) = Some (v, k, t).
Proof.
  intros H Ht. revert left acc n H. induction s as [|c s IH]; intros left acc n; cbn.
  - intros H. simplify_eq. change ("" ++ t)%string with t.
    destruct t as [|c t]; [done|]. cbn [read_digits]. cbn in Ht. by rewrite Ht.
  - destruct (digit_in radix c) as [d|]; [|done].
    destruct left as [|left]; [done|]. destruct (acc * radix + d <=? max); [|done]. apply IH.
Qed.

Lemma read_number_app radix max md zp s v t :
  read_number radix max md zp s = Some (v, ""%string) -> stops radix t ->
  read_number radix max md zp (s ++ t) = Some (v, t).
Proof.
  unfold read_number.
  destruct (read_digits radix max md 0 0 s) as [[[v' k] rest]|] eqn:E; [|done].
  destruct (Nat.eqb_spec k 0) as [|Hk]; [done|].
  intros H Ht.
  assert (rest = ""%string) as -> by (destruct (negb zp && starts_with "0" s && negb (Nat.eqb k 1)); congruence).
  rewrite (read_digits_app _ _ _ _ _ _ _ _ _ E Ht).
  destruct (Nat.eqb_spec k 0) as [|_]; [done|].
  destruct s as [|c s].
  - cbn in E. by simplify_eq.
  - assert (starts_with "0" (String c s ++ t) = starts_with "0" (String c s)) as ->
      by (change (String c s ++ t)%string with (String c (s ++ t));
          unfold starts_with, strip_prefix; by destruct (Ascii.eqb "0" c)).
    destruct (negb zp && _ && _); congruence.
Qed.

(** ** Octets in decimal, groups in hexadecimal *)

Definition byte_reads (b : Z) : bool :=
  bool_decide (read_number 10 255 3 false (pretty b) = Some (b, ""%string)).

Lemma read_byte b t :
  is_byte b = true -> stops 10 t ->
  read_number 10 255 3 false (pretty b ++ t) = Some (b, t).
Proof.
  intros Hb. apply read_number_app.
  assert (byte_reads b = true) as H.
  { apply (check_below 256); [vm_compute; reflexivity|].
    unfold is_byte in Hb. lia. }
  by apply bool_decide_eq_true in H.
Qed.

Definition group_reads (g : Z) : bool :=
  bool_decide (read_number 16 65535 4 true (hex_u16 g) = Some (g, ""%string))
  && str_forallb (fun c => is_ascii_digit c || ch_between "a" "f" c) (hex_u16 g)
  && negb (is_empty (hex_u16 g)).

Lemma group_reads_ok g : 0 <= g < 65536 -> group_reads g = true.
Proof.
  change 65536 with (Z.of_nat (Z.to_nat 65536)).
  apply check_below. vm_compute. reflexivity.
Qed.

Lemma read_group g t :
  0 <= g < 65536 -> stops 16 t ->
  read_number 16 65535 4 true (hex_u16 g ++ t) = Some (g, t).
Proof.
  intros Hg. apply read_number_app. pose proof (group_reads_ok g Hg) as H.
  unfold group_reads in H. rewrite !andb_true_iff, bool_decide_eq_true in H. tauto.
Qed.

Lemma hex_chars g :
  0 <= g < 65536 ->
  str_forallb (fun c => is_ascii_digit c || ch_between "a" "f" c) (hex_u16 g) = true
  /\ hex_u16 g <> ""%string.
Proof.
  intros Hg. pose proof (group_reads_ok g Hg) as H.
  unfold group_reads in H. rewrite !andb_true_iff in H. destruct H as [[_ H1] H2].
  split; [done|]. by destruct (hex_u16 g).
Qed.

(** ** Prefix lengths *)

Definition len_reads (n : Z) : bool :=
  bool_decide (parse_uint 255 (pretty n) = Some n)
  && str_forallb is_ascii_digit (pretty n).

Lemma parse_uint_pretty n :
  0 <= n < 256 -> parse_uint 255 (pretty n) = Some n /\ lacks "/" (pretty n).
Proof.
  intros Hn. assert (len_reads n = true) as H.
  { apply (check_below 256); [vm_compute; reflexivity|lia]. }
  unfold len_reads in H. rewrite andb_true_iff, bool_decide_eq_true in H.
  destruct H as [H1 H2]. split; [done|]. by eapply lacks_forallb.
Qed.
