(* ===== verification/AddrText.v ===== *)
(** The text forms of IP addresses round trip: [parse (display a) = Some a]
    for IPv4 and IPv6, and with it [Subnet::from_str (s.to_string()) = s]. *)

From stdpp Require Import base strings list pretty list_numbers.
From Stdlib Require Import ZArith Lia Ascii.
From S2P Require Import Prelude Addr NumText.

Local Open Scope Z_scope.

(** ** IPv4 *)

Lemma read_ipv4_display o t :
  is_addr 4 o = true -> stops 10 t -> read_ipv4 (display_v4 o ++ t) = Some (o, t).
Proof.
  unfold is_addr. rewrite andb_true_iff, Nat.eqb_eq. intros [Hl Hb] Ht.
  destruct o as [|a [|b [|c [|d [|? ?]]]]]; try done.
  cbn in Hb. rewrite !andb_true_iff in Hb. destruct Hb as (Ha & Hb & Hc & Hd & _).
  unfold display_v4, join. cbn [map String.concat]. rewrite <- !str_app_assoc.
  unfold read_ipv4.
  rewrite (read_byte a) by done. cbn.
  rewrite (read_byte b) by done. cbn.
  rewrite (read_byte c) by done. cbn.
  by rewrite (read_byte d).
Qed.

Definition dec_chars (b : Z) : bool := str_forallb is_ascii_digit (pretty b).

Lemma pretty_byte_chars b : is_byte b = true -> str_forallb is_ascii_digit (pretty b) = true.
Proof.
  intros Hb. change (dec_chars b = true).
  apply (check_below 256); [vm_compute; reflexivity|]. unfold is_byte in Hb. lia.
Qed.

Lemma display_v4_lacks c o :
  is_ascii_digit c = false -> c <> "."%char -> forallb is_byte o = true ->
  lacks c (display_v4 o).
Proof.
  intros Hc Hdot. unfold display_v4, join.
  induction o as [|b o IH]; [done|]. cbn [forallb]. rewrite andb_true_iff. intros [Hb Ho].
  assert (lacks c (pretty b)) by (eapply lacks_forallb; [by apply pretty_byte_chars|done]).
  destruct o as [|b' o]; [done|].
  change (String.concat "." (map (fun b : Z => pretty b) (b :: b' :: o)))
    with (pretty b ++ "." ++ String.concat "." (map (fun b : Z => pretty b) (b' :: o)))%string.
  rewrite !lacks_app. split_and!; [done| |by apply IH].
  by apply lacks_cons.
Qed.

#[export] Instance Ipv4_text_laws : AddrTextLaws Ipv4Addr.
Proof.
  split.
  - intros a. cbn. unfold parse_v4.
    pose proof (read_ipv4_display (v4 a) "" (v4_ok a) I) as H.
    rewrite str_app_nil_r in H. rewrite H. by apply mk_v4_spec.
  - intros a. cbn. pose proof (v4_ok a) as H. unfold is_addr in H.
    apply andb_true_iff in H as [_ H]. by apply display_v4_lacks.
Qed.

(** ** IPv6 *)

Definition is_group (g : Z) : Prop := 0 <= g < 65536.

(** What may follow a list of groups: nothing, or the double colon. *)
Definition ends_groups (t : string) : Prop :=
  t = ""%string \/ exists t', t = (":" ++ ":" ++ t')%string.

Lemma ends_groups_stops radix t : radix <= 16 -> ends_groups t -> stops radix t.
Proof. intros _ [-> | [t' ->]]; [done|]. cbn. unfold digit_in. done. Qed.

(** Hexadecimal text that a colon (or nothing) follows is no IPv4 address. *)
Lemma read_ipv4_hex s t :
  str_forallb (fun c => is_ascii_digit c || ch_between "a" "f" c) s = true ->
  t = ""%string \/ (exists t', t = String ":" t') ->
  read_ipv4 (s ++ t) = None.
Proof.
  intros Hs Ht.
  assert (forall radix max left acc n v k rest,
            read_digits radix max left acc n (s ++ t) = Some (v, k, rest) ->
            read_char "." rest = None) as Hnd.
  { intros radix max. revert Hs. induction s as [|c s IH]; intros Hs left acc n v k rest; cbn.
    - destruct Ht as [-> | [t' ->]]; cbn [String.append read_digits].
      + intros H. by simplify_eq.
      + change (digit_in radix ":") with (@None Z). by intros [= <- <- <-].
    - cbn in Hs. rewrite andb_true_iff in Hs. destruct Hs as [Hc Hs].
      destruct (digit_in radix c) as [d|].
      + destruct left as [|left]; [done|]. destruct (_ <=? max); [|done]. by apply IH.
      + intros [= <- <- <-]. cbn [read_char].
        by destruct (Ascii.eqb_spec "." c) as [<-|]. }
  unfold read_ipv4, read_number.
  destruct (read_digits 10 255 3 0 0 (s ++ t)) as [[[v k] rest]|] eqn:E; [|done].
  apply Hnd in E.
  destruct (Nat.eqb k 0); [done|]. destruct (negb false && _ && _); [done|]. cbn.
  by rewrite E.
Qed.

Lemma fmt_groups_cons g g' l :
  fmt_groups (g :: g' :: l) = (hex_u16 g ++ ":" ++ fmt_groups (g' :: l))%string.
Proof. done. Qed.

(** Reading back printed groups, up to what ends them. *)
Lemma read_groups_fmt l limit first t :
  Forall is_group l -> ends_groups t -> (length l <= limit)%nat ->
  read_groups limit first
    ((if first then "" else match l with [] => "" | _ => ":" end) ++ fmt_groups l ++ t)
    = (l, false, t).
Proof.
  intros Hl Ht. revert limit first.
  induction Hl as [|g l Hg Hl IH]; intros limit first Hlen.
  - replace ((if first then "" else "") ++ fmt_groups [] ++ t)%string with t
      by (by destruct first).
    destruct limit as [|limit]; [done|].
    destruct Ht as [-> | [t' ->]]; destruct first, limit; done.
  - destruct limit as [|limit]; [cbn in Hlen; lia|]. cbn in Hlen.
    destruct (hex_chars g Hg) as [Hhex Hne].
    set (rest := match l with [] => t | _ => (":" ++ fmt_groups l ++ t)%string end).
    assert (fmt_groups (g :: l) ++ t = hex_u16 g ++ rest)%string as Heq.
    { subst rest. destruct l as [|g' l]; [done|].
      rewrite fmt_groups_cons. by rewrite <- !str_app_assoc. }
    assert (stops 16 rest) as Hstop.
    { subst rest. destruct l; [by apply ends_groups_stops|done]. }
    assert (rest = ""%string \/ (exists t', rest = String ":" t')) as Hcolon.
    { subst rest. destruct l; [|right; by eexists].
      destruct Ht as [-> | [t' ->]]; [by left|right; by eexists]. }
    rewrite Heq.
    assert (read_char ":" ((if first then "" else ":") ++ hex_u16 g ++ rest)
              = Some (hex_u16 g ++ rest)%string \/ first = true) as Hsep
      by (destruct first; [by right|by left]).
    assert ((if first
             then Some ((if first then "" else ":") ++ hex_u16 g ++ rest)%string
             else read_char ":" ((if first then "" else ":") ++ hex_u16 g ++ rest))
            = Some (hex_u16 g ++ rest)%string) as Hs1
      by (destruct first; [done|by destruct Hsep]).
    cbn [read_groups]. rewrite Hs1.
    replace (match limit with O => None | S _ => read_ipv4 (hex_u16 g ++ rest) end)
      with (@None (list Z * string))
      by (destruct limit; [done|by rewrite read_ipv4_hex]).
    rewrite read_group by done.
    assert (read_groups limit false rest = (l, false, t)) as ->; [|done].
    subst rest. specialize (IH limit false ltac:(lia)). by destruct l.
Qed.

Lemma octets_groups_spec o n :
  length o = (2 * n)%nat -> forallb is_byte o = true ->
  length (octets_groups o) = n /\ Forall is_group (octets_groups o) /\
  groups_octets (octets_groups o) = o.
Proof.
  revert o. induction n as [|n IH]; intros o Hlen Hb.
  - by destruct o.
  - destruct o as [|a [|b o]]; cbn in Hlen; try lia.
    cbn in Hb. rewrite !andb_true_iff in Hb. destruct Hb as (Ha & Hb & Ho).
    unfold is_byte in Ha, Hb.
    destruct (IH o ltac:(lia) Ho) as (H1 & H2 & H3). cbn. split_and!.
    + by rewrite H1.
    + constructor; [unfold is_group; lia|done].
    + unfold groups_octets in *. rewrite H3. f_equal; [|f_equal].
      * rewrite Z.add_comm, Z.div_add by lia. rewrite Z.div_small; lia.
      * rewrite Z.add_comm, Z_mod_plus_full. apply Z.mod_small. lia.
Qed.

(** A run (start, length) of zeros of [l]. *)
Definition zero_run (l : list Z) (r : nat * nat) : Prop :=
  (fst r + snd r <= length l)%nat /\
  take (snd r) (drop (fst r) l) = replicate (snd r) 0.

Lemma zero_run_extend pre l cs cl :
  zero_run (pre ++ 0 :: l) (cs, cl) -> (cs + cl = length pre)%nat ->
  zero_run (pre ++ 0 :: l) (cs, S cl).
Proof.
  unfold zero_run. cbn. intros [H1 H2] Hlen. rewrite !length_app in *. cbn in *.
  split; [lia|].
  assert ((drop cs (pre ++ 0 :: l)) !! cl = Some 0) as Hl.
  { rewrite lookup_drop, Hlen, lookup_app_r, Nat.sub_diag by lia. done. }
  rewrite (take_S_r _ _ _ Hl), H2. by rewrite <- replicate_S_end.
Qed.

Lemma longest_zeros_run l : forall pre cur best,
  zero_run (pre ++ l) best -> zero_run (pre ++ l) cur ->
  (snd cur = 0 \/ fst cur + snd cur = length pre)%nat ->
  zero_run (pre ++ l) (longest_zeros (length pre) cur best l).
Proof.
  induction l as [|g l IH]; intros pre cur best Hbest Hcur Hpos; [done|].
  assert (forall cur best, zero_run (pre ++ g :: l) best -> zero_run (pre ++ g :: l) cur ->
            (snd cur = 0 \/ fst cur + snd cur = S (length pre))%nat ->
            zero_run (pre ++ g :: l) (longest_zeros (S (length pre)) cur best l)) as IH'.
  { intros cur' best' H1 H2 H3.
    replace (pre ++ g :: l) with ((pre ++ [g]) ++ l) in * by (by rewrite <- app_assoc).
    replace (S (length pre)) with (length (pre ++ [g])) in * by (rewrite length_app; cbn; lia).
    by apply IH. }
  cbn [longest_zeros]. destruct (Z.eqb_spec g 0) as [->|Hg].
  - assert (zero_run (pre ++ 0 :: l)
              (if Nat.eqb (snd cur) 0 then length pre else fst cur, S (snd cur))) as Hcur'.
    { destruct cur as [cs cl]. cbn in *. destruct (Nat.eqb_spec cl 0) as [->|Hcl].
      - apply zero_run_extend; [|lia]. split; cbn; [rewrite length_app; cbn; lia|done].
      - apply zero_run_extend; [done|lia]. }
    apply IH'; [destruct (Nat.ltb _ _); done|done|].
    cbn. right. destruct (Nat.eqb_spec (snd cur) 0); lia.
  - apply IH'; [done| |by left]. by split; cbn; [lia|].
Qed.

Lemma read_groups_v4 limit s a b c d t :
  read_ipv4 s = Some ([a; b; c; d], t) ->
  read_groups (S (S limit)) false (String ":" s) = ([a * 256 + b; c * 256 + d], true, t).
Proof. intros H. cbn [read_groups read_char Ascii.eqb Bool.eqb]. by rewrite H. Qed.

Lemma read_groups_ffff limit s :
  read_groups (S limit) true ("ffff:" ++ s) =
    let '(gs, is4, rest) := read_groups limit false (String ":" s) in (65535 :: gs, is4, rest).
Proof. by destruct limit. Qed.

Lemma read_ipv6_v4 o :
  is_addr 4 o = true ->
  read_ipv6 ("::ffff:" ++ display_v4 o) =
    Some (replicate 5 0 ++ [65535] ++ octets_groups o, ""%string).
Proof.
  intros Ho. pose proof (read_ipv4_display o "" Ho I) as H. rewrite str_app_nil_r in H.
  unfold is_addr in Ho. rewrite andb_true_iff, Nat.eqb_eq in Ho.
  destruct Ho as [Hl _]. destruct o as [|a [|b [|c [|d [|? ?]]]]]; try done.
  generalize dependent (display_v4 [a; b; c; d]). intros s H. unfold read_ipv6.
  change (read_groups 8 true ("::ffff:" ++ s)) with (@nil Z, false, ("::ffff:" ++ s)%string).
  cbn [length Nat.eqb].
  change (read_char ":" ("::ffff:" ++ s)) with (Some (":ffff:" ++ s)%string).
  cbn [mbind option_bind].
  change (read_char ":" (":ffff:" ++ s)) with (Some ("ffff:" ++ s)%string).
  cbn [mbind option_bind]. change (8 - (0 + 1))%nat with 7%nat.
  rewrite read_groups_ffff, (read_groups_v4 _ _ _ _ _ _ _ H). done.
Qed.

Lemma read_ipv6_display o :
  is_addr 16 o = true -> read_ipv6 (display_v6 o) = Some (octets_groups o, ""%string).
Proof.
  unfold is_addr. rewrite andb_true_iff, Nat.eqb_eq. intros [Hlen Hb].
  destruct (octets_groups_spec o 8 Hlen Hb) as (Hg1 & Hg2 & Hg3).
  unfold display_v6. case_bool_decide as Hm.
  { assert (o = take 12 o ++ drop 12 o) as Ho by (by rewrite take_drop).
    rewrite Ho in Hb. rewrite forallb_app in Hb. apply andb_true_iff in Hb as [_ Hb].
    rewrite read_ipv6_v4
      by (unfold is_addr; rewrite length_drop, Hlen, Hb; done).
    rewrite <- (take_drop 6 (octets_groups o)), Hm. f_equal. f_equal.
    change (replicate 5 0 ++ [65535]) with [0; 0; 0; 0; 0; 65535]. cbn [app].
    do 6 f_equal.
    clear -Hlen. do 16 (destruct o as [|? o]; [done|]). by destruct o. }
  destruct (longest_zeros 0 (0%nat, 0%nat) (0%nat, 0%nat) (octets_groups o))
    as [start len] eqn:Hz.
  assert (zero_run (octets_groups o) (start, len)) as [Hr1 Hr2].
  { rewrite <- Hz. apply (longest_zeros_run (octets_groups o) []); [| |by left];
      split; cbn; [lia|done|lia|done]. }
  cbn in Hr1, Hr2. unfold read_ipv6.
  destruct (Nat.ltb_spec 1 len) as [Hl|Hl].
  - pose proof (read_groups_fmt (take start (octets_groups o)) 8 true
                  (":" ++ ":" ++ fmt_groups (drop (start + len) (octets_groups o)))) as H.
    cbn [String.append] in H.
    change ("::" ++ fmt_groups (drop (start + len) (octets_groups o)))%string
      with (String ":" (String ":" (fmt_groups (drop (start + len) (octets_groups o))))).
    rewrite H; clear H;
      [|by apply Forall_take|right; by eexists|rewrite length_take; lia].
    rewrite length_take, Hg1.
    replace (Nat.min start 8) with start by lia.
    destruct (Nat.eqb_spec start 8) as [|_]; [lia|]. cbn [read_char Ascii.eqb Bool.eqb].
    cbn -[read_groups fmt_groups Nat.sub].
    pose proof (read_groups_fmt (drop (start + len) (octets_groups o))
                  (8 - (start + 1)) true "") as H.
    rewrite str_app_nil_r in H. cbn [String.append] in H.
    rewrite H; clear H; [|by apply Forall_drop|by left|rewrite length_drop; lia].
    f_equal. f_equal. rewrite length_drop, Hg1.
    rewrite <- (take_drop start (octets_groups o)) at 3. f_equal.
    rewrite <- (take_drop len (drop start (octets_groups o))), Hr2, drop_drop.
    f_equal. f_equal. lia.
  - pose proof (read_groups_fmt (octets_groups o) 8 true "") as H.
    rewrite str_app_nil_r in H. cbn [String.append] in H.
    rewrite H; clear H; [|done|by left|lia].
    by rewrite Hg1.
Qed.

Lemma fmt_groups_lacks c l :
  is_ascii_digit c || ch_between "a" "f" c = false -> c <> ":"%char ->
  Forall is_group l -> lacks c (fmt_groups l).
Proof.
  intros Hc Hcol Hl. induction Hl as [|g l Hg Hl IH]; [done|].
  destruct (hex_chars g Hg) as [Hh _].
  assert (lacks c (hex_u16 g)) by (by eapply lacks_forallb).
  destruct l as [|g' l]; [done|]. rewrite fmt_groups_cons, !lacks_app.
  split_and!; [done|by apply lacks_cons|done].
Qed.

#[export] Instance Ipv6_text_laws : AddrTextLaws Ipv6Addr.
Proof.
  split.
  - intros a. cbn. unfold parse_v6.
    rewrite (read_ipv6_display _ (v6_ok a)). pose proof (v6_ok a) as H. unfold is_addr in H.
    rewrite andb_true_iff, Nat.eqb_eq in H. destruct H as [H1 H2].
    destruct (octets_groups_spec _ 8 H1 H2) as (_ & _ & ->). by apply mk_v6_spec.
  - intros a. cbn. pose proof (v6_ok a) as H. unfold is_addr in H.
    rewrite andb_true_iff, Nat.eqb_eq in H. destruct H as [H1 H2].
    destruct (octets_groups_spec _ 8 H1 H2) as (_ & Hg & _).
    unfold display_v6. case_bool_decide.
    + rewrite lacks_app. split; [done|]. apply display_v4_lacks; [done..|].
      rewrite <- (take_drop 12 (v6 a)), forallb_app in H2. by apply andb_true_iff in H2 as [_ ->].
    + destruct (longest_zeros _ _ _ _) as [st len]. destruct (Nat.ltb 1 len).
      * rewrite !lacks_app. split_and!; [|done|];
          (apply fmt_groups_lacks; [done..|]); [by apply Forall_take|by apply Forall_drop].
      * by apply fmt_groups_lacks.
Qed.

(** ** Subnets *)

Section SubnetText.
Context {A : Type} `{AB : AddrBytes A, AL : !AddrBytesLaws A, AT : !AddrTextLaws A}.

Lemma existsb_nonzero_replicate n : existsb (fun b => negb (b =? 0)) (replicate n 0) = false.
Proof. by induction n. Qed.

(** The address that prints a subnet: its prefix and zero host bits. *)
Lemma to_string_some (s : Subnet A) :
  subnet_wf s ->
  exists a : A, octets a = prefix s ++ replicate (LEN - length (prefix s)) 0 /\
    to_string s = Some (display a ++ "/" ++ pretty (prefix_len s))%string.
Proof.
  intros Hwf. pose proof (host_bits_range s Hwf) as (_ & _ & Hlen).
  destruct Hwf as (_ & _ & Hp & Hb).
  destruct (from_octets_some (A := A)
              (prefix s ++ replicate (LEN - length (prefix s)) 0)) as [a Ha].
  { unfold is_addr. rewrite length_app, length_replicate, forallb_app, Hb.
    replace (length (prefix s) + (LEN - length (prefix s)))%nat with LEN by lia.
    rewrite Nat.eqb_refl. cbn. clear. by induction (LEN - length (prefix s))%nat. }
  exists a. split; [by apply from_octets_spec|]. unfold to_string.
  rewrite Hp, Z.eqb_refl. cbn [negb].
  destruct (Nat.leb_spec (length (prefix s)) LEN); [|lia]. cbn [negb].
  by rewrite Ha.
Qed.

Lemma from_str_display (a : A) n :
  MIN_PREFIX <= n <= MAX_PREFIX -> n mod 8 = 0 -> 0 <= n < 256 ->
  existsb (fun b => negb (b =? 0)) (drop (Z.to_nat (n / 8)) (octets a)) = false ->
  from_str (display a ++ "/" ++ pretty n) =
    Ok (MkSubnet (take (Z.to_nat (n / 8)) (octets a)) n : Subnet A).
Proof.
  intros Hr Hm Hn Hz. destruct (parse_uint_pretty n Hn) as [Hp Hs]. unfold from_str.
  change (display a ++ "/" ++ pretty n)%string with (display a ++ String "/" (pretty n))%string.
  rewrite rsplit_once_app by done. rewrite Hp, parse_display, Hm.
  destruct (Z.ltb_spec n MIN_PREFIX); [lia|].
  destruct (Z.gtb_spec n MAX_PREFIX); [lia|]. cbn. by rewrite Hz.
Qed.

Lemma from_str_to_string (s : Subnet A) :
  subnet_wf s ->
  exists text, to_string s = Some text /\ from_str text = Ok s.
Proof.
  intros Hwf. destruct (to_string_some s Hwf) as (a & Ha & ->).
  eexists. split; [done|]. pose proof prefix_range as (R1 & _ & _ & _ & HM).
  destruct Hwf as (H1 & H2 & H3 & _).
  assert (Z.to_nat (prefix_len s / 8) = length (prefix s)) as Hl.
  { rewrite <- H3, Z.div_mul by lia. lia. }
  rewrite from_str_display; [|lia|lia|lia|].
  - rewrite Ha, Hl, take_app_length. by destruct s.
  - rewrite Ha, Hl, drop_app_length. apply existsb_nonzero_replicate.
Qed.
End SubnetText.
