(* ===== verification/ForwarderState.v ===== *)
(** The forwarder's data and its shared state (crates/core/src/forwarder.rs):
    [Proto], [Forward], [Config], the per-forward status rows, the connection
    counters, and every method of [State].  Each method of [State] is one
    critical section of the source (one lock, or one atomic), so it is one
    function on the state record here; the async code that calls them is in
    Forwarder.v. *)

From stdpp Require Import base gmap strings list pretty.
From Stdlib Require Import ZArith.
From S2P Require Import Prelude.

Local Open Scope Z_scope.

(** Milliseconds: the model's [Duration], [Instant] and [DateTime<Utc>]. *)
Abbreviation ms := Z (only parsing).

Inductive Proto := Tcp | Udp.

#[export] Instance Proto_eq_dec : EqDecision Proto.
Proof. solve_decision. Defined.

(** [Proto::as_str]. *)
Definition as_str (p : Proto) : string :=
  match p with Tcp => "tcp" | Udp => "udp" end.

Record Forward := MkForward {
  listen_addr : string;
  proto : Proto;
  dest_addr : string;
}.

#[export] Instance Forward_eq_dec : EqDecision Forward.
Proof. solve_decision. Defined.

Record Config := MkConfig {
  cfg_forwards : list Forward;
  shutdown_timeout : ms;
  bind_timeout : ms;
  udp_flow_idle : ms;
  component : string;
  ipv6_iface : option string;
}.

(** [impl Default for Config]. *)
Definition Config_default : Config := {|
  cfg_forwards := [];
  shutdown_timeout := 30000;
  bind_timeout := 30000;
  udp_flow_idle := 300000;
  component := "fortress";
  ipv6_iface := None;
|}.

Inductive ConfigError :=
| EmptyForwards
| InvalidForward (index : nat) (message : string).

Definition config_error_display (e : ConfigError) : string :=
  match e with
  | EmptyForwards => "forwarder: no forwards in config"
  | InvalidForward index message =>
      "forwarder: forwards[" ++ pretty index ++ "]: " ++ message
  end.

Record ForwardStat := MkStat {
  st_proto : Proto;
  st_listen_addr : string;
  st_dest_addr : string;
  bound : bool;
  bound_at : option ms;
  last_error : option string;
}.

Record Stats := MkStats {
  stats_component : string;
  started_at : ms;
  uptime_ms : ms;        (** the source divides by 1000.0 for display *)
  stats_forwards : list ForwardStat;
  stats_tcp : Z;
  stats_udp : Z;
}.

(** [State]: the status rows, the keys of the live task handles, the shutdown
    channel's value and the two [AtomicI64] counters. *)
Record FState := MkFState {
  forwards : gmap string ForwardStat;
  handles : gset string;
  shutdown_tx : bool;
  tcp_connections : Z;
  udp_flows : Z;
}.

(** [impl Default for State]. *)
Definition FState_default : FState := {|
  forwards := ∅; handles := ∅; shutdown_tx := false;
  tcp_connections := 0; udp_flows := 0;
|}.

Definition set_forwards (f : gmap string ForwardStat) (s : FState) : FState :=
  {| forwards := f; handles := handles s; shutdown_tx := shutdown_tx s;
     tcp_connections := tcp_connections s; udp_flows := udp_flows s |}.
Definition set_handles (h : gset string) (s : FState) : FState :=
  {| forwards := forwards s; handles := h; shutdown_tx := shutdown_tx s;
     tcp_connections := tcp_connections s; udp_flows := udp_flows s |}.
Definition set_tcp (n : Z) (s : FState) : FState :=
  {| forwards := forwards s; handles := handles s; shutdown_tx := shutdown_tx s;
     tcp_connections := n; udp_flows := udp_flows s |}.
Definition set_udp (n : Z) (s : FState) : FState :=
  {| forwards := forwards s; handles := handles s; shutdown_tx := shutdown_tx s;
     tcp_connections := tcp_connections s; udp_flows := n |}.
(** [watch::Sender::send]: without a receiver it fails and leaves the value; the
    receivers are those of the live tasks of the forwards. *)
Definition set_shutdown (b : bool) (s : FState) : FState :=
  if decide (handles s = ∅) then s else
  {| forwards := forwards s; handles := handles s; shutdown_tx := b;
     tcp_connections := tcp_connections s; udp_flows := udp_flows s |}.

(** 64-bit two's complement wrap-around of [AtomicI64::fetch_add]/[fetch_sub]. *)
Definition wrap_i64 (z : Z) : Z :=
  (z + 2 ^ 63) mod 2 ^ 64 - 2 ^ 63.

(** [forward_key]: the map key of a forward's row, [proto://listen_addr]. *)
Definition forward_key (fwd : Forward) : string :=
  (as_str (proto fwd) ++ "://" ++ listen_addr fwd)%string.

Definition inc_tcp_connections (s : FState) : FState :=
  set_tcp (wrap_i64 (tcp_connections s + 1)) s.
Definition inc_udp_flows (s : FState) : FState :=
  set_udp (wrap_i64 (udp_flows s + 1)) s.

(** [dec_*] is two atomic operations in the source: the [load] that guards and
    the [fetch_sub].  Run without interference they are this function. *)
Definition dec_tcp_connections (s : FState) : FState :=
  if tcp_connections s >? 0 then set_tcp (wrap_i64 (tcp_connections s - 1)) s else s.
Definition dec_udp_flows (s : FState) : FState :=
  if udp_flows s >? 0 then set_udp (wrap_i64 (udp_flows s - 1)) s else s.

(** [shutdown_rx]: what a fresh subscriber of the channel reads. *)
Definition shutdown_rx (s : FState) : bool := shutdown_tx s.

Definition record_bound (fwd : Forward) (actual_listen_addr : string) (at_ : ms)
    (s : FState) : FState :=
  set_forwards
    (<[forward_key fwd := {| st_proto := proto fwd;
                             st_listen_addr := actual_listen_addr;
                             st_dest_addr := dest_addr fwd;
                             bound := true;
                             bound_at := Some at_;
                             last_error := None |}]> (forwards s)) s.

Definition record_bind_error (fwd : Forward) (err : string) (s : FState) : FState :=
  set_forwards
    (<[forward_key fwd := {| st_proto := proto fwd;
                             st_listen_addr := listen_addr fwd;
                             st_dest_addr := dest_addr fwd;
                             bound := false;
                             bound_at := None;
                             last_error := Some err |}]> (forwards s)) s.

(** [snapshot] at time [now]. *)
Definition snapshot (comp : string) (started now : ms) (s : FState) : Stats := {|
  stats_component := comp;
  started_at := started;
  uptime_ms := now - started;
  stats_forwards := (map_to_list (forwards s)).*2;
  stats_tcp := tcp_connections s;
  stats_udp := udp_flows s;
|}.

Definition insert_handle (key : string) (s : FState) : FState :=
  set_handles ({[key]} ∪ handles s) s.

(** [abort_handle] returns whether a handle existed. *)
Definition abort_handle (key : string) (s : FState) : bool * FState :=
  if decide (key ∈ handles s) then (true, set_handles (handles s ∖ {[key]}) s)
  else (false, s).

Definition abort_handle_peek (key : string) (s : FState) : bool :=
  bool_decide (key ∈ handles s).

Definition forwards_len (s : FState) : nat := size (forwards s).

(** [Forwarder::remove_forward]: abort the task, drop the row. *)
Definition remove_forward (fwd : Forward) (s : FState) : bool * FState :=
  let key := forward_key fwd in
  let '(aborted, s) := abort_handle key s in
  if aborted then (true, set_forwards (delete key (forwards s)) s)
  else (false, s).

(** [Forwarder::new_live]'s scan for the first invalid entry. *)
Fixpoint new_live_from (index : nat) (l : list Forward) : Result unit ConfigError :=
  match l with
  | [] => Ok tt
  | fwd :: l' =>
      if is_empty (listen_addr fwd)
      then Err (InvalidForward index "empty listen_addr")
      else if is_empty (dest_addr fwd)
      then Err (InvalidForward index "empty dest_addr")
      else new_live_from (S index) l'
  end.

Record Forwarder := MkForwarder {
  cfg : Config;
  state0 : FState;      (** the state the forwarder starts with *)
  fwd_started_at : ms;
}.

Definition new_live (c : Config) (now : ms) : Result Forwarder ConfigError :=
  match new_live_from 0 (cfg_forwards c) with
  | Err e => Err e
  | Ok tt => Ok {| cfg := c; state0 := FState_default; fwd_started_at := now |}
  end.

Definition new (c : Config) (now : ms) : Result Forwarder ConfigError :=
  match cfg_forwards c with
  | [] => Err EmptyForwards
  | _ => new_live c now
  end.
