(* ===== verification/World.v ===== *)
(** The outside world of the edge process: the operations its code performs on
    the services it runs beside, and what those services promise.

    Nothing here models code of the repository.  Redis, the [wg] binary, the
    DNS provider, the mail relay, the operating system's sockets, clock and
    randomness are parameters: [edge_spec] states, for each operation, the
    documented relation between the state before, the answer and the state
    after, failures included (a Redis command that reports an error may or may
    not have been executed).  The state records what the operations leave
    behind: the Redis keyspace, and logs of the [wg] and DNS calls that were
    acknowledged and of the mails that were taken, acknowledged or not.  It also carries the forwarder's shared state, which is
    the repository's (ForwarderState.v).

    [ref_exec] is one implementation, driven by a script of answers; it is
    used to run programs on concrete inputs and shows the promises are
    consistent ([ref_exec_implements]). *)

From stdpp Require Import base gmap strings list.
From Stdlib Require Import ZArith.
From S2P Require Import Prelude Prog Addr ForwarderState.

Local Open Scope Z_scope.

(** ** Redis *)

(** A stored value: a string with an optional time to live in seconds, an
    integer (what [INCR] works on), or a list. *)
Inductive rval :=
| RStr (s : string) (ttl : option Z)
| RInt (z : Z)
| RList (l : list string).

#[export] Instance rval_eq_dec : EqDecision rval.
Proof. solve_decision. Defined.

(** A Redis error: one the server or the connection reports, or one the program
    builds itself from a response it cannot read. *)
Inductive RedisError :=
| RedisServer (msg : string)
| RedisResponse (desc detail : string).

Inductive rcmd :=
| RGet (k : string)
| RSet (k v : string)
| RSetEx (k v : string) (ttl : Z)
| RSetNx (k : string) (v : rval)
| RSetExNx (k v : string) (ttl : Z)
| RDel (k : string)
| RGetDel (k : string)
| RExists (k : string)
| RIncr (k : string) (d : Z)
| RDecr (k : string) (d : Z)
| RRPush (k v : string)
| RLRem1 (k v : string)
| RLRange (k : string)
| RScan (cursor pat : string).

Definition rok (c : rcmd) : Type :=
  match c with
  | RGet _ | RGetDel _ => option string
  | RSet _ _ | RSetEx _ _ _ => unit
  | RSetNx _ _ | RSetExNx _ _ _ | RExists _ => bool
  | RDel _ | RIncr _ _ | RDecr _ _ | RRPush _ _ | RLRem1 _ _ => Z
  | RLRange _ => list string
  | RScan _ _ => (string * list string)%type
  end.

Abbreviation keyspace := (gmap string rval) (only parsing).

Definition i64_max : Z := 2 ^ 63 - 1.
Definition i64_min : Z := - 2 ^ 63.

Fixpoint remove_first (v : string) (l : list string) : list string :=
  match l with
  | [] => []
  | x :: l' => if decide (x = v) then l' else x :: remove_first v l'
  end.

(** [GET] and friends report WRONGTYPE on a value of another type. *)
Definition wrongtype : RedisError := RedisServer "WRONGTYPE".

Definition read_str (o : option rval) : Result (option string) RedisError :=
  match o with
  | None => Ok None
  | Some (RStr s _) => Ok (Some s)
  | Some _ => Err wrongtype
  end.

Definition read_int (o : option rval) : Result Z RedisError :=
  match o with
  | None => Ok 0
  | Some (RInt z) => Ok z
  | Some _ => Err wrongtype
  end.

Definition read_list (o : option rval) : Result (list string) RedisError :=
  match o with
  | None => Ok []
  | Some (RList l) => Ok l
  | Some _ => Err wrongtype
  end.

Definition add_checked (k : string) (d : Z) (m : keyspace)
    : Result Z RedisError * keyspace :=
  match read_int (m !! k) with
  | Err e => (Err e, m)
  | Ok z =>
      if bool_decide (i64_min <= z + d <= i64_max)
      then (Ok (z + d), <[k := RInt (z + d)]> m)
      else (Err (RedisServer "increment or decrement would overflow"), m)
  end.

(** What an executed command answers and leaves behind. *)
Definition redis_apply (c : rcmd) (m : keyspace) : Result (rok c) RedisError * keyspace :=
  match c with
  | RGet k => (read_str (m !! k), m)
  | RSet k v => (Ok tt, <[k := RStr v None]> m)
  | RSetEx k v ttl => (Ok tt, <[k := RStr v (Some ttl)]> m)
  | RSetNx k v =>
      match m !! k with
      | Some _ => (Ok false, m)
      | None => (Ok true, <[k := v]> m)
      end
  | RSetExNx k v ttl =>
      match m !! k with
      | Some _ => (Ok false, m)
      | None => (Ok true, <[k := RStr v (Some ttl)]> m)
      end
  | RDel k =>
      match m !! k with
      | Some _ => (Ok 1, delete k m)
      | None => (Ok 0, m)
      end
  | RGetDel k =>
      match read_str (m !! k) with
      | Ok (Some s) => (Ok (Some s), delete k m)
      | Ok None => (Ok None, m)
      | Err e => (Err e, m)
      end
  | RExists k => (Ok (bool_decide (is_Some (m !! k))), m)
  | RIncr k d => add_checked k d m
  | RDecr k d => add_checked k (- d) m
  | RRPush k v =>
      match read_list (m !! k) with
      | Ok l => (Ok (Z.of_nat (S (length l))), <[k := RList (l ++ [v])]> m)
      | Err e => (Err e, m)
      end
  | RLRem1 k v =>
      match read_list (m !! k) with
      | Ok l =>
          if decide (v ∈ l)
          then (Ok 1, match remove_first v l with
                      | [] => delete k m
                      | l' => <[k := RList l']> m
                      end)
          else (Ok 0, m)
      | Err e => (Err e, m)
      end
  | RLRange k => (read_list (m !! k), m)
  | RScan _ _ => (Err wrongtype, m)     (* see [scan_spec] *)
  end.

(** Glob patterns with a single trailing star, the only ones used. *)
Definition glob_match (pat k : string) : bool :=
  match strip_suffix "*" pat with
  | Some p => starts_with p k
  | None => bool_decide (pat = k)
  end.

Definition matching (pat : string) (m : keyspace) : gset string :=
  filter (fun k => glob_match pat k = true) (dom m).

(** ** The other services *)

Inductive WgError :=
| WgCommand (code : Z) (stderr : string)
| WgIo (msg : string).

Inductive wg_call :=
| WgAdded (wg_ip pubkey : string)
| WgRemoved (pubkey : string)
| WgPrivateKey (key : string).

Inductive DnsError :=
| DnsConfig (msg : string)
| DnsHttp (msg : string)
| DnsApi (msg : string)
| DnsResolve (msg : string).

Inductive dns_call :=
| DnsUpserted (name : string) (ipv6 : Ipv6Addr)
| DnsRemoved (name : string).

Inductive MailerError :=
| MailAddress (msg : string)
| MailBuild (msg : string)
| MailSmtp (msg : string)
| MockFailure.

Record SentMail := MkMail { mail_to : string; mail_subject : string; mail_body : string }.

(** [std::io::ErrorKind], as far as the program distinguishes. *)
Inductive ErrorKind :=
| AddrNotAvailable
| NetworkDown
| NetworkUnreachable
| AlreadyExists
| OtherKind.

Record IoError := MkIo { io_kind : ErrorKind; io_text : string }.

Inductive edge_op :=
| RedisConn
| Redis (c : rcmd)
| WgAddPeer (wg_ip pubkey : string)
| WgRemovePeer (pubkey : string)
| WgSetPrivateKey (key : string)
| DnsUpsertAaaa (name : string) (ipv6 : Ipv6Addr)
| DnsRemoveAaaa (name : string)
| ResolveAaaa (name : string)
| MailSend (to subject body : string)
| OsRng (n : nat)
| UuidV4
| BcryptHash (password : string)
| BindTcp (addr : string) (freebind : bool)
| BindUdp (addr : string)
| EnsureIpv6Local (iface addr : string)
| Now
| SleepOrShutdown (d : ms)       (** [true]: the shutdown signal came first *)
| FwdUpdate (f : FState -> FState)   (** one critical section; answers the old state *)
| RunShutdown.                   (** wait for [run]'s shutdown signal *)

Definition edge_ret (o : edge_op) : Type :=
  match o with
  | RedisConn => Result unit RedisError
  | Redis c => Result (rok c) RedisError
  | WgAddPeer _ _ | WgRemovePeer _ | WgSetPrivateKey _ => Result unit WgError
  | DnsUpsertAaaa _ _ | DnsRemoveAaaa _ => Result unit DnsError
  | ResolveAaaa _ => Result (list Ipv6Addr) DnsError
  | MailSend _ _ _ => Result unit MailerError
  | OsRng _ => list Z
  | UuidV4 | BcryptHash _ => string
  | BindTcp _ _ | BindUdp _ => Result string IoError
  | EnsureIpv6Local _ _ | RunShutdown => unit
  | Now => ms
  | SleepOrShutdown _ => bool
  | FwdUpdate _ => FState
  end.

Definition EdgeSig : Sig := MkSig edge_op edge_ret.

(** One Redis command, and [conn()]: taking a handle on the connection. *)
Definition redis (c : rcmd) : prog EdgeSig (Result (rok c) RedisError) :=
  @call EdgeSig (Redis c).
Definition conn : prog EdgeSig (Result unit RedisError) := @call EdgeSig RedisConn.

(** The part of the world the programs read and change. *)
Record edge := MkEdge {
  kv : keyspace;
  scans : gmap string (gset string);   (** keys an open cursor still owes *)
  wg_log : list wg_call;
  dns_log : list dns_call;
  mails : list SentMail;
  fws : FState;
  clock : ms;
}.

Definition set_kv (m : keyspace) (s : edge) : edge :=
  {| kv := m; scans := scans s; wg_log := wg_log s; dns_log := dns_log s;
     mails := mails s; fws := fws s; clock := clock s |}.
Definition set_scans (m : gmap string (gset string)) (s : edge) : edge :=
  {| kv := kv s; scans := m; wg_log := wg_log s; dns_log := dns_log s;
     mails := mails s; fws := fws s; clock := clock s |}.
Definition log_wg (c : wg_call) (s : edge) : edge :=
  {| kv := kv s; scans := scans s; wg_log := wg_log s ++ [c]; dns_log := dns_log s;
     mails := mails s; fws := fws s; clock := clock s |}.
Definition log_dns (c : dns_call) (s : edge) : edge :=
  {| kv := kv s; scans := scans s; wg_log := wg_log s; dns_log := dns_log s ++ [c];
     mails := mails s; fws := fws s; clock := clock s |}.
Definition log_mail (m : SentMail) (s : edge) : edge :=
  {| kv := kv s; scans := scans s; wg_log := wg_log s; dns_log := dns_log s;
     mails := mails s ++ [m]; fws := fws s; clock := clock s |}.
Definition set_fws (f : FState) (s : edge) : edge :=
  {| kv := kv s; scans := scans s; wg_log := wg_log s; dns_log := dns_log s;
     mails := mails s; fws := f; clock := clock s |}.
Definition set_clock (t : ms) (s : edge) : edge :=
  {| kv := kv s; scans := scans s; wg_log := wg_log s; dns_log := dns_log s;
     mails := mails s; fws := fws s; clock := t |}.

Section Spec.
(** [bcrypt::verify], needed to say what [bcrypt::hash] promises. *)
Context (bcrypt_verify : string -> string -> option bool).

(** [SCAN]: a full iteration (from cursor ["0"] until ["0"] comes back)
    returns every matching key that was there when it began; a page never
    holds a key that does not match. *)
Definition scan_spec (cursor pat : string) (s : edge)
    (r : Result (string * list string) RedisError) (s' : edge) : Prop :=
  (exists e, r = Err e /\ s' = s) \/
  (exists next page rest owed,
     r = Ok (next, page) /\
     owed = (if decide (cursor = "0"%string) then matching pat (kv s)
             else default ∅ (scans s !! cursor)) /\
     (forall k, k ∈ page -> glob_match pat k = true) /\
     filter (fun k => glob_match pat k = true) owed ⊆ list_to_set page ∪ rest /\
     (next = "0"%string -> rest = ∅) /\
     s' = set_scans (<[next := rest]> (scans s)) s).

Definition redis_spec (c : rcmd) (s : edge) (r : Result (rok c) RedisError)
    (s' : edge) : Prop :=
  (exists e, r = Err e /\ (s' = s \/ s' = set_kv (snd (redis_apply c (kv s))) s)) \/
  (r = fst (redis_apply c (kv s)) /\ s' = set_kv (snd (redis_apply c (kv s))) s).

(** A call that is acknowledged is logged; one that fails is not. *)
Definition acked {E} (r : Result unit E) (f : edge -> edge) (s s' : edge) : Prop :=
  match r with Ok _ => s' = f s | Err _ => s' = s end.

(** A mail that is acknowledged has been taken; one whose sending fails may have been
    taken all the same, when only the acknowledgement was lost. *)
Definition taken {E} (r : Result unit E) (f : edge -> edge) (s s' : edge) : Prop :=
  match r with Ok _ => s' = f s | Err _ => s' = s \/ s' = f s end.

Definition edge_spec (o : edge_op) (s : edge) : edge_ret o -> edge -> Prop :=
  match o return edge_ret o -> edge -> Prop with
  | RedisConn => fun _ s' => s' = s
  | Redis (RScan cursor pat) => fun r s' => scan_spec cursor pat s r s'
  | Redis c => fun r s' => redis_spec c s r s'
  | WgAddPeer ip pk => fun r s' => acked r (log_wg (WgAdded ip pk)) s s'
  | WgRemovePeer pk => fun r s' => acked r (log_wg (WgRemoved pk)) s s'
  | WgSetPrivateKey key => fun r s' => acked r (log_wg (WgPrivateKey key)) s s'
  | DnsUpsertAaaa n ip => fun r s' => acked r (log_dns (DnsUpserted n ip)) s s'
  | DnsRemoveAaaa n => fun r s' => acked r (log_dns (DnsRemoved n)) s s'
  | ResolveAaaa _ => fun r s' => s' = s
  | MailSend to_ subj body => fun r s' => taken r (log_mail (MkMail to_ subj body)) s s'
  | OsRng n => fun r s' =>
      length r = n /\ Forall (fun b => 0 <= b < 256) r /\ s' = s
  | UuidV4 => fun r s' => s' = s
  | BcryptHash pw => fun r s' => bcrypt_verify pw r = Some true /\ s' = s
  | BindTcp _ _ | BindUdp _ => fun _ s' => s' = s
  | EnsureIpv6Local _ _ | RunShutdown => fun _ s' => s' = s
  | Now => fun r s' => clock s <= r /\ s' = set_clock r s
  | SleepOrShutdown d => fun r s' =>
      exists t, clock s <= t /\ (r = false -> clock s + d <= t) /\ s' = set_clock t s
  | FwdUpdate f => fun r s' => r = fws s /\ s' = set_fws (f (fws s)) s
  end.
End Spec.

(** ** A reference implementation *)

(** The world of [ref_exec]: the documented state, and the answers the
    non-deterministic services are scripted to give.  A [true] in [faults]
    makes the next fallible call fail. *)
Record ref_world := MkRef {
  rw : edge;
  faults : list bool;
  rng : list (list Z);
  binds : list (Result string IoError);
}.

Definition pop_fault (w : ref_world) : bool * ref_world :=
  match faults w with
  | [] => (false, w)
  | b :: l => (b, MkRef (rw w) l (rng w) (binds w))
  end.

Definition with_rw (f : edge -> edge) (w : ref_world) : ref_world :=
  MkRef (f (rw w)) (faults w) (rng w) (binds w).

Fixpoint fit_bytes (n : nat) (l : list Z) : list Z :=
  match n with
  | O => []
  | S n' => match l with
            | [] => 0 :: fit_bytes n' []
            | b :: l' => (b mod 256) :: fit_bytes n' l'
            end
  end.

Definition pop_rng (n : nat) (w : ref_world) : list Z * ref_world :=
  match rng w with
  | [] => (fit_bytes n [], w)
  | l :: ls => (fit_bytes n l, MkRef (rw w) (faults w) ls (binds w))
  end.

Definition pop_bind (addr : string) (w : ref_world) : Result string IoError * ref_world :=
  match binds w with
  | [] => (Ok addr, w)
  | r :: l => (r, MkRef (rw w) (faults w) (rng w) l)
  end.

Section Ref.
Context (bcrypt_hash : string -> string).

Definition ref_ack {E} (e : E) (f : edge -> edge) (w : ref_world)
    : Result unit E * ref_world :=
  let '(b, w) := pop_fault w in
  if b then (Err e, w) else (Ok tt, with_rw f w).

Definition ref_redis (c : rcmd) (w : ref_world)
    : Result (rok c) RedisError * ref_world :=
  let '(b, w) := pop_fault w in
  if b then (Err (RedisServer "connection lost"), w)
  else let '(r, m) := redis_apply c (kv (rw w)) in (r, with_rw (set_kv m) w).

Definition ref_exec (o : edge_op) (w : ref_world) : edge_ret o * ref_world :=
  match o return edge_ret o * ref_world with
  | RedisConn => ref_ack (RedisServer "connection refused") (fun s => s) w
  | Redis (RScan cursor pat) =>
      let keys := matching pat (kv (rw w)) ∪ default ∅ (scans (rw w) !! cursor) in
      (Ok ("0"%string, elements (filter (fun k => glob_match pat k = true) keys)),
       with_rw (set_scans (<["0"%string := ∅]> (scans (rw w)))) w)
  | Redis c => ref_redis c w
  | WgAddPeer ip pk => ref_ack (WgIo "wg") (log_wg (WgAdded ip pk)) w
  | WgRemovePeer pk => ref_ack (WgIo "wg") (log_wg (WgRemoved pk)) w
  | WgSetPrivateKey key => ref_ack (WgIo "wg") (log_wg (WgPrivateKey key)) w
  | DnsUpsertAaaa n ip => ref_ack (DnsApi "dns") (log_dns (DnsUpserted n ip)) w
  | DnsRemoveAaaa n => ref_ack (DnsApi "dns") (log_dns (DnsRemoved n)) w
  | ResolveAaaa _ => (Ok [], w)
  | MailSend to_ subj body => ref_ack (MailSmtp "relay") (log_mail (MkMail to_ subj body)) w
  | OsRng n => pop_rng n w
  | UuidV4 => ("00000000-0000-4000-8000-000000000000"%string, w)
  | BcryptHash pw => (bcrypt_hash pw, w)
  | BindTcp addr _ | BindUdp addr => pop_bind addr w
  | EnsureIpv6Local _ _ | RunShutdown => (tt, w)
  | Now => (clock (rw w), w)
  | SleepOrShutdown d => (false, with_rw (set_clock (clock (rw w) + Z.max 0 d)) w)
  | FwdUpdate f => (fws (rw w), with_rw (set_fws (f (fws (rw w)))) w)
  end.
End Ref.

Lemma set_kv_id s : set_kv (kv s) s = s.
Proof. by destruct s. Qed.

Lemma set_kv_kv m s : kv (set_kv m s) = m.
Proof. done. Qed.

Lemma set_fws_id s : set_fws (fws s) s = s.
Proof. by destruct s. Qed.

Lemma set_clock_id s : set_clock (clock s) s = s.
Proof. by destruct s. Qed.

#[export] Hint Rewrite set_kv_id set_fws_id set_clock_id : fortress.

Lemma fit_bytes_spec n l :
  length (fit_bytes n l) = n /\ Forall (fun b => 0 <= b < 256) (fit_bytes n l).
Proof.
  revert l. induction n as [|n IH]; intros l; cbn; [done|].
  destruct l as [|b l]; cbn; destruct (IH []) as [H1 H2];
    [|destruct (IH l) as [H3 H4]]; (split; [congruence|constructor; [|done]]).
  - lia.
  - apply Z.mod_pos_bound. lia.
Qed.

Lemma ref_ack_acked {E} (e : E) f w :
  acked (fst (ref_ack e f w)) f (rw w) (rw (snd (ref_ack e f w))).
Proof. unfold ref_ack, pop_fault. by destruct w as [? [|[] ?] ? ?]. Qed.

Lemma acked_taken {E} (r : Result unit E) f s s' : acked r f s s' -> taken r f s s'.
Proof. destruct r; cbn; auto. Qed.

Lemma ref_redis_spec c w :
  redis_spec c (rw w) (fst (ref_redis c w)) (rw (snd (ref_redis c w))).
Proof.
  unfold ref_redis, pop_fault, redis_spec.
  destruct w as [s [|[] fs] ? ?]; cbn; destruct (redis_apply c (kv s)) as [r m]; cbn; eauto.
Qed.

(** The promises of [edge_spec] are those of an actual implementation. *)
Lemma ref_exec_implements verify hash :
  (forall pw, verify pw (hash pw) = Some true) ->
  implements (X := EdgeSig) (ref_exec hash) (edge_spec verify) rw.
Proof.
  intros Hbc o w.
  destruct o; cbn -[ref_redis ref_ack redis_apply];
    try apply ref_ack_acked; try apply acked_taken, ref_ack_acked; try apply ref_redis_spec;
    try done.
  - unfold ref_ack, pop_fault. by destruct w as [? [|[] ?] ? ?].
  - destruct c; try apply ref_redis_spec.
    right. cbn. eexists "0"%string, _, ∅, _. split_and!; try done.
    + intros k. rewrite elem_of_elements, elem_of_filter. naive_solver.
    + rewrite union_empty_r_L. intros k.
      rewrite elem_of_list_to_set, elem_of_elements, !elem_of_filter, elem_of_union.
      case_decide; naive_solver.
  - unfold pop_rng. destruct (rng w) as [|l ls]; cbn;
      pose proof (fit_bytes_spec n); naive_solver.
  - unfold pop_bind. by destruct (binds w).
  - unfold pop_bind. by destruct (binds w).
  - split; [lia|]. by rewrite set_clock_id.
  - eexists. split_and!; [| |done]; lia.
Qed.
