(* ===== verification/Retry.v ===== *)
(** Bind with retry and exponential backoff (crates/core/src/retry.rs). *)

From stdpp Require Import base strings list pretty.
From Stdlib Require Import ZArith Lia.
From S2P Require Import Prelude Prog ForwarderState World.

Local Open Scope Z_scope.
Local Open Scope prog_scope.

Definition RETRY_BACKOFF_START : ms := 100.
Definition RETRY_BACKOFF_MAX : ms := 5000.

Inductive BindError :=
| NonTransient (network addr : string) (source : IoError)
| TimedOut (network addr : string) (timeout : ms) (attempts : Z) (source : IoError)
| Cancelled.

(** The [{:?}] rendering of a [Duration] of whole milliseconds. *)
Definition duration_debug (d : ms) : string :=
  if Z.eqb d 0 then "0ns"
  else if Z.ltb d 1000 then (pretty d ++ "ms")%string
  else if Z.eqb (d mod 1000) 0 then (pretty (d / 1000)%Z ++ "s")%string
  else
    let frac := (d mod 1000)%Z in
    let digits :=
      if Z.eqb (frac mod 100) 0 then pretty (frac / 100)%Z
      else if Z.eqb (frac mod 10) 0
      then ((if Z.ltb frac 100 then "0" else "") ++ pretty (frac / 10)%Z)%string
      else ((if Z.ltb frac 10 then "00" else if Z.ltb frac 100 then "0" else "")
              ++ pretty frac)%string in
    (pretty (d / 1000)%Z ++ "." ++ digits ++ "s")%string.

(** The [Display] of [BindError] (its [#[error]] attributes). *)
Definition bind_error_display (e : BindError) : string :=
  match e with
  | NonTransient network addr source =>
      ("listen " ++ network ++ " " ++ addr ++ ": " ++ io_text source)%string
  | TimedOut network addr timeout attempts source =>
      ("listen " ++ network ++ " " ++ addr ++ ": gave up after "
         ++ duration_debug timeout ++ " (" ++ pretty attempts ++ " attempts): "
         ++ io_text source)%string
  | Cancelled => "bind cancelled before the address became available"
  end.

Definition is_transient_bind_err (e : IoError) : bool :=
  match io_kind e with
  | AddrNotAvailable => true
  | NetworkDown => true
  | NetworkUnreachable => true
  | _ => false
  end.

Definition next_backoff (d : ms) : ms :=
  let doubled := d * 2 in
  if doubled >? RETRY_BACKOFF_MAX then RETRY_BACKOFF_MAX else doubled.

(** [attempts] is a [u32]. *)
Definition wrap_u32 (z : Z) : Z := z mod 2 ^ 32.

(** The [loop] of [retry_with_backoff].  [fuel] bounds the iterations;
    [retry_fuel] is enough of it ([retry_bind_total]). *)
Fixpoint retry_loop (fuel : nat) (try_bind : prog EdgeSig (Result string IoError))
    (network addr : string) (timeout deadline delay : ms) (attempts : Z)
    : prog EdgeSig (Result string BindError) :=
  match fuel with
  | O => OutOfFuel
  | S fuel' =>
      let attempts := wrap_u32 (attempts + 1) in
      res <- try_bind ;;
      match res with
      | Ok value => Ret (Ok value)
      | Err err =>
          if negb (is_transient_bind_err err)
          then Ret (Err (NonTransient network addr err))
          else
            now <- @call EdgeSig Now ;;
            if now >=? deadline
            then Ret (Err (TimedOut network addr timeout attempts err))
            else
              cancelled <- @call EdgeSig (SleepOrShutdown delay) ;;
              if cancelled : bool then Ret (Err Cancelled)
              else retry_loop fuel' try_bind network addr timeout deadline
                     (next_backoff delay) attempts
      end
  end.

(** Every turn that does not return sleeps at least [RETRY_BACKOFF_START]. *)
Definition retry_fuel (timeout : ms) : nat :=
  Z.to_nat (timeout / RETRY_BACKOFF_START + 2).

Definition retry_with_backoff (try_bind : prog EdgeSig (Result string IoError))
    (network addr : string) (timeout : ms) : prog EdgeSig (Result string BindError) :=
  start <- @call EdgeSig Now ;;
  retry_loop (retry_fuel timeout) try_bind network addr timeout (start + timeout)
    RETRY_BACKOFF_START 0.

Definition retry_bind_tcp (addr : string) (timeout : ms) :=
  retry_with_backoff (@call EdgeSig (BindTcp addr false)) "tcp" addr timeout.

Definition retry_bind_tcp_freebind (addr : string) (timeout : ms) :=
  retry_with_backoff (@call EdgeSig (BindTcp addr true)) "tcp" addr timeout.

Definition retry_bind_udp (addr : string) (timeout : ms) :=
  retry_with_backoff (@call EdgeSig (BindUdp addr)) "udp" addr timeout.

(** ** Backoff *)

Lemma next_backoff_bounds d :
  RETRY_BACKOFF_START <= d <= RETRY_BACKOFF_MAX ->
  RETRY_BACKOFF_START <= next_backoff d <= RETRY_BACKOFF_MAX.
Proof.
  unfold next_backoff, RETRY_BACKOFF_START, RETRY_BACKOFF_MAX.
  destruct (Z.gtb_spec (d * 2) 5000); lia.
Qed.

(** The delays are [min (100 * 2^n) 5000]: doubling until the cap. *)
Theorem next_backoff_iter (n : nat) :
  Nat.iter n next_backoff RETRY_BACKOFF_START
    = Z.min (RETRY_BACKOFF_START * 2 ^ Z.of_nat n) RETRY_BACKOFF_MAX.
Proof.
  induction n as [|n IH]; [done|].
  rewrite Nat.iter_succ, IH.
  rewrite Nat2Z.inj_succ, Z.pow_succ_r by lia.
  unfold next_backoff, RETRY_BACKOFF_START, RETRY_BACKOFF_MAX.
  pose proof (Z.pow_pos_nonneg 2 (Z.of_nat n) ltac:(lia) ltac:(lia)).
  destruct (Z.gtb_spec (Z.min (100 * 2 ^ Z.of_nat n) 5000 * 2) 5000); lia.
Qed.

(** ** What a retried bind can end with *)

Section Spec.
Context (verify : string -> string -> option bool).
Local Abbreviation wpe := (wp (X := EdgeSig) (edge_spec verify)) (only parsing).

(** A bind attempt touches nothing the model observes. *)
Definition bind_attempt (b : prog EdgeSig (Result string IoError)) : Prop :=
  forall s Q, (forall r, Q (Done r) s) -> wpe b Q s.

Lemma bind_tcp_attempt addr fb : bind_attempt (@call EdgeSig (BindTcp addr fb)).
Proof. intros s Q HQ r s'. cbn. intros ->. apply HQ. Qed.

Lemma bind_udp_attempt addr : bind_attempt (@call EdgeSig (BindUdp addr)).
Proof. intros s Q HQ r s'. cbn. intros ->. apply HQ. Qed.

(** The result is an answer of the classification, at a time that fits. *)
Definition retry_post (network addr : string) (timeout deadline : ms) (s : edge)
    (o : outcome (Result string BindError)) (s' : edge) : Prop :=
  clock s <= clock s' /\ s' = set_clock (clock s') s /\
  match o with
  | Done (Ok _) => True
  | Done (Err (NonTransient n a e)) =>
      n = network /\ a = addr /\ is_transient_bind_err e = false
  | Done (Err (TimedOut n a t k e)) =>
      n = network /\ a = addr /\ t = timeout /\ is_transient_bind_err e = true
      /\ deadline <= clock s'
  | Done (Err Cancelled) => clock s <= deadline
  | _ => False
  end.

Lemma retry_post_later network addr timeout deadline t s o s' :
  clock s <= t ->
  retry_post network addr timeout deadline (set_clock t s) o s' ->
  (match o with Done (Err Cancelled) => clock s <= deadline | _ => True end) ->
  retry_post network addr timeout deadline s o s'.
Proof.
  intros Ht (H1 & H2 & H3) H4. cbn in *. split_and!; [lia| |].
  - rewrite H2 at 1. by destruct s.
  - by destruct o as [[?|[]]| |].
Qed.

Lemma retry_loop_total b network addr timeout deadline fuel delay attempts s :
  bind_attempt b ->
  RETRY_BACKOFF_START <= delay <= RETRY_BACKOFF_MAX ->
  deadline - clock s <= (Z.of_nat fuel - 1) * RETRY_BACKOFF_START ->
  (0 < fuel)%nat ->
  wpe (retry_loop fuel b network addr timeout deadline delay attempts)
    (retry_post network addr timeout deadline s) s.
Proof.
  intros Hb. revert delay attempts s.
  induction fuel as [|fuel IH]; intros delay attempts s Hd Hf Hpos; [lia|].
  cbn [retry_loop]. rewrite wp_bind. apply Hb. intros [v|err]; cbn.
  { split_and!; try done. by rewrite set_clock_id. }
  destruct (is_transient_bind_err err) eqn:Htr; cbn.
  2:{ split_and!; try done. by rewrite set_clock_id. }
  intros now s1 [Hnow ->].
  destruct (Z.geb_spec now deadline) as [Hge|Hlt]; cbn.
  { by split_and!. }
  intros cancelled s2 (t & Ht & Hsl & ->). cbn in Ht, Hsl.
  destruct cancelled; cbn.
  { split_and!; try done; cbn; lia. }
  specialize (Hsl eq_refl).
  assert (RETRY_BACKOFF_START = 100) as HS by done.
  eapply wp_mono; [|apply (IH _ _ (set_clock t s)); [by apply next_backoff_bounds| |]];
    [|cbn; lia..].
  intros o s' Hpost. eapply (retry_post_later _ _ _ _ t); [lia|done|].
  destruct o as [[?|[]]| |]; try done. lia.
Qed.

(** Whatever the operating system answers, a retried bind returns: the
    loop's fuel is enough, and the error it reports is the right one. *)
Lemma retry_with_backoff_total b network addr timeout s :
  bind_attempt b -> 0 <= timeout ->
  wpe (retry_with_backoff b network addr timeout)
    (fun o s' => exists t0, clock s <= t0 /\
       retry_post network addr timeout (t0 + timeout) (set_clock t0 s) o s') s.
Proof.
  intros Hb Ht. cbn. intros start s1 [Hst ->].
  eapply wp_mono;
    [|apply (retry_loop_total _ _ _ _ (start + timeout) _ _ _ (set_clock start s) Hb)].
  - intros o s' H. exists start. by split.
  - unfold RETRY_BACKOFF_START, RETRY_BACKOFF_MAX. lia.
  - unfold retry_fuel, RETRY_BACKOFF_START. cbn [clock set_clock].
    rewrite Z2Nat.id by (pose proof (Z.div_pos timeout 100); lia).
    pose proof (Z.mul_succ_div_gt timeout 100). lia.
  - unfold retry_fuel, RETRY_BACKOFF_START.
    pose proof (Z.div_pos timeout 100). lia.
Qed.
End Spec.
