(* ===== verification/Forwarder.v ===== *)
(** The live forwarder (crates/core/src/forwarder.rs): [run], [add_forward],
    [remove_forward], [stats], and the invariant that ties the handle table to
    the status rows. *)

From stdpp Require Import base gmap strings list.
From Stdlib Require Import ZArith Lia.
From S2P Require Import Prelude Prog ForwarderState World Retry.

Local Open Scope Z_scope.
Local Open Scope prog_scope.

(** [RunError::Bind]. *)
Record RunError := RunBind { run_proto : string; run_addr : string; run_source : BindError }.

(** Its [Display]. *)
Definition run_error_display (e : RunError) : string :=
  ("forwarder: start " ++ run_proto e ++ " " ++ run_addr e ++ ": "
     ++ bind_error_display (run_source e))%string.

Definition get_state : prog EdgeSig FState := @call EdgeSig (FwdUpdate (fun s => s)).
Definition update (f : FState -> FState) : prog EdgeSig unit :=
  _s <- @call EdgeSig (FwdUpdate f) ;; Ret tt.

(** The [map_err] closure of every bind: note the failure, wrap the error. *)
Definition bind_failed (fwd : Forward) (source : BindError)
    : prog EdgeSig (Result unit RunError) :=
  update (record_bind_error fwd (bind_error_display source)) ;;;
  Ret (Err (RunBind (as_str (proto fwd)) (listen_addr fwd) source)).

(** The bind of one listener, by protocol; [add_forward] uses the freebind
    variant for TCP. *)
Definition bind_listener (f : Forwarder) (freebind : bool) (fwd : Forward)
    : prog EdgeSig (Result string BindError) :=
  match proto fwd with
  | Tcp => if freebind
           then retry_bind_tcp_freebind (listen_addr fwd) (bind_timeout (cfg f))
           else retry_bind_tcp (listen_addr fwd) (bind_timeout (cfg f))
  | Udp => retry_bind_udp (listen_addr fwd) (bind_timeout (cfg f))
  end.

Definition ensure_local (f : Forwarder) (fwd : Forward) : prog EdgeSig unit :=
  match ipv6_iface (cfg f) with
  | Some iface => @call EdgeSig (EnsureIpv6Local iface (listen_addr fwd))
  | None => Ret tt
  end.

(** [Forwarder::add_forward]. *)
Definition add_forward (f : Forwarder) (fwd : Forward) : prog EdgeSig (Result unit RunError) :=
  let key := forward_key fwd in
  st <- get_state ;;
  if abort_handle_peek key st then Ret (Ok tt)
  else
    ensure_local f fwd ;;;
    res <- bind_listener f true fwd ;;
    match res with
    | Err source => bind_failed fwd source
    | Ok local_addr =>
        now <- @call EdgeSig Now ;;
        update (record_bound fwd local_addr now) ;;;
        update (insert_handle key) ;;;
        Ret (Ok tt)
    end.

(** [Forwarder::remove_forward] as the program its callers run: the handle
    table and the rows are two locks, hence two updates. *)
Definition remove_forward_prog (fwd : Forward) : prog EdgeSig bool :=
  let key := forward_key fwd in
  st <- @call EdgeSig (FwdUpdate (fun s => snd (abort_handle key s))) ;;
  if fst (abort_handle key st) : bool
  then update (fun s => set_forwards (delete key (forwards s)) s) ;;; Ret true
  else Ret false.

(** The bind loop of [Forwarder::run]. *)
Fixpoint run_binds (f : Forwarder) (l : list Forward) : prog EdgeSig (Result unit RunError) :=
  match l with
  | [] => Ret (Ok tt)
  | fwd :: l' =>
      res <- bind_listener f false fwd ;;
      match res with
      | Err source => bind_failed fwd source
      | Ok local_addr =>
          now <- @call EdgeSig Now ;;
          update (record_bound fwd local_addr now) ;;;
          run_binds f l'
      end
  end.

(** [Forwarder::run]: bind everything, wait for the shutdown signal, pass it on
    to the live forwards.  The drain ([tracker.wait] under a timeout) changes no
    state of the forwarder. *)
Definition run (f : Forwarder) : prog EdgeSig (Result unit RunError) :=
  bound <-? run_binds f (cfg_forwards (cfg f)) as (fun e => e) ;;
  @call EdgeSig RunShutdown ;;;
  update (set_shutdown true) ;;;
  Ret (Ok bound).

(** [Forwarder::stats]. *)
Definition stats (f : Forwarder) : prog EdgeSig Stats :=
  st <- get_state ;;
  now <- @call EdgeSig Now ;;
  Ret (snapshot (component (cfg f)) (fwd_started_at f) now st).

(** ** The state invariant *)

(** Every live task handle has its row, and the row says it is bound. *)
Definition handles_bound (s : FState) : Prop :=
  forall key, key ∈ handles s ->
    exists row, forwards s !! key = Some row /\ bound row = true.

(** A forward is served by a live task and shown as bound. *)
Definition live (fwd : Forward) (s : FState) : Prop :=
  forward_key fwd ∈ handles s /\
  exists row, forwards s !! forward_key fwd = Some row /\ bound row = true
    /\ st_dest_addr row = dest_addr fwd.

Definition gone (fwd : Forward) (s : FState) : Prop :=
  forward_key fwd ∉ handles s /\ forwards s !! forward_key fwd = None.

Lemma forward_key_inj f g :
  forward_key f = forward_key g -> proto f = proto g /\ listen_addr f = listen_addr g.
Proof.
  unfold forward_key. destruct (proto f), (proto g); cbn; intros H; simplify_eq; done.
Qed.

Lemma handles_bound_default : handles_bound FState_default.
Proof. intros key. cbn. set_solver. Qed.

Lemma handles_bound_record_bound fwd a t s :
  handles_bound s -> handles_bound (record_bound fwd a t s).
Proof.
  intros H key Hk. cbn in *. destruct (decide (forward_key fwd = key)) as [<-|Hne].
  - rewrite lookup_insert_eq. eauto.
  - rewrite lookup_insert_ne by done. auto.
Qed.

Lemma handles_bound_record_bind_error fwd e s :
  forward_key fwd ∉ handles s ->
  handles_bound s -> handles_bound (record_bind_error fwd e s).
Proof.
  intros Hn H key Hk. cbn in *. rewrite lookup_insert_ne by congruence. auto.
Qed.

Lemma handles_bound_insert_handle fwd a t s :
  handles_bound s ->
  handles_bound (insert_handle (forward_key fwd) (record_bound fwd a t s)).
Proof.
  intros H key. cbn. rewrite elem_of_union, elem_of_singleton. intros [->|Hk].
  - rewrite lookup_insert_eq. eauto.
  - by apply handles_bound_record_bound.
Qed.

Lemma remove_forward_gone fwd s :
  handles_bound s -> forward_key fwd ∈ handles s ->
  fst (remove_forward fwd s) = true /\ gone fwd (snd (remove_forward fwd s)).
Proof.
  intros H Hk. unfold remove_forward, abort_handle. rewrite decide_True by done.
  cbn. split; [done|]. split; cbn; [set_solver|]. apply lookup_delete_eq.
Qed.

Lemma remove_forward_other fwd s key :
  key <> forward_key fwd ->
  iff (key ∈ handles (snd (remove_forward fwd s))) (key ∈ handles s) /\
  forwards (snd (remove_forward fwd s)) !! key
    = forwards s !! key.
Proof.
  intros Hne. unfold remove_forward, abort_handle. case_decide; cbn; [|done].
  split; [set_solver|]. by rewrite lookup_delete_ne.
Qed.

Lemma handles_bound_remove fwd s :
  handles_bound s -> handles_bound (snd (remove_forward fwd s)).
Proof.
  intros H key Hk. destruct (decide (key = forward_key fwd)) as [->|Hne].
  - unfold remove_forward, abort_handle in Hk. case_decide; cbn in Hk; set_solver.
  - destruct (remove_forward_other fwd s key Hne) as [H1 H2]. rewrite H2. apply H, H1, Hk.
Qed.

(** Only the forward's own key changes between two states. *)
Definition same_others (key : string) (s s' : FState) : Prop :=
  (forall k, k <> key -> (k ∈ handles s') <-> (k ∈ handles s)) /\
  (forall k, k <> key ->
     forwards s' !! k = forwards s !! k) /\
  shutdown_tx s' = shutdown_tx s /\
  tcp_connections s' = tcp_connections s /\ udp_flows s' = udp_flows s.

Lemma same_others_bound fwd a t s :
  same_others (forward_key fwd) s
    (insert_handle (forward_key fwd) (record_bound fwd a t s)).
Proof.
  split_and!; try done; cbn; intros k Hne; [set_solver|by rewrite lookup_insert_ne].
Qed.

Lemma same_others_bind_error fwd e s :
  same_others (forward_key fwd) s (record_bind_error fwd e s).
Proof. split_and!; try done; cbn; intros k Hne. by rewrite lookup_insert_ne. Qed.

Lemma live_bound fwd a t s :
  live fwd (insert_handle (forward_key fwd) (record_bound fwd a t s)).
Proof. split; cbn; [set_solver|]. rewrite lookup_insert_eq. eexists; split_and!; done. Qed.

Section Spec.
Context (verify : string -> string -> option bool).
Local Abbreviation wpe := (wp (X := EdgeSig) (edge_spec verify)) (only parsing).

Lemma wp_update f Q s :
  Q (Done tt) (set_fws (f (fws s)) s) -> wpe (update f) Q s.
Proof. intros HQ r s'. cbn. by intros [-> ->]. Qed.

Lemma wp_get_state Q s : Q (Done (fws s)) s -> wpe get_state Q s.
Proof. intros HQ r s'. cbn. intros [-> ->]. by rewrite set_fws_id. Qed.

Lemma wp_remove_forward fwd Q s :
  Q (Done (fst (remove_forward fwd (fws s))))
    (set_fws (snd (remove_forward fwd (fws s))) s) ->
  wpe (remove_forward_prog fwd) Q s.
Proof.
  intros HQ r s'. cbn. intros [-> ->].
  unfold remove_forward, abort_handle in *. case_decide; cbn in *.
  - by intros r s' [-> ->].
  - done.
Qed.

(** What a call of [add_forward] leaves behind. *)
Definition add_forward_post (f : Forwarder) (fwd : Forward) (s : edge)
    (o : outcome (Result unit RunError)) (s' : edge) : Prop :=
  let st := fws s in let st' := fws s' in
  let key := forward_key fwd in
  s' = set_clock (clock s') (set_fws st' s) /\
  match o with
  | Done (Ok _) =>
      if decide (key ∈ handles st) then s' = s
      else same_others key st st' /\ live fwd st'
  | Done (Err e) =>
      key ∉ handles st /\ same_others key st st' /\ key ∉ handles st' /\
      run_addr e = listen_addr fwd /\
      exists row, forwards st' !! key = Some row /\ bound row = false /\
                  last_error row = Some (bind_error_display (run_source e))
  | _ => False
  end.

Lemma wp_ensure_local f fwd Q s : Q (Done tt) s -> wpe (ensure_local f fwd) Q s.
Proof. unfold ensure_local. destruct (ipv6_iface (cfg f)); [|done]. by intros HQ [] s' ->. Qed.

Lemma wp_bind_listener f fb fwd s :
  0 <= bind_timeout (cfg f) ->
  wpe (bind_listener f fb fwd)
    (fun o s' => s' = set_clock (clock s') s /\ exists r, o = Done r) s.
Proof.
  intros Hto. unfold bind_listener.
  destruct (proto fwd), fb;
    (eapply wp_mono; [|apply retry_with_backoff_total;
       [first [apply bind_tcp_attempt | apply bind_udp_attempt]|done]]);
    intros o s' (t0 & _ & _ & -> & Ho); cbn in *;
    (split; [done|]); destruct o as [[?|[]]| |]; try done; eauto.
Qed.

Lemma wp_bind_failed fwd source Q s :
  Q (Done (Err (RunBind (as_str (proto fwd)) (listen_addr fwd) source)))
    (set_fws (record_bind_error fwd (bind_error_display source) (fws s)) s) ->
  wpe (bind_failed fwd source) Q s.
Proof. intros HQ. unfold bind_failed. rewrite wp_bind. by apply wp_update. Qed.

Lemma wp_add_forward f fwd s :
  0 <= bind_timeout (cfg f) ->
  wpe (add_forward f fwd) (add_forward_post f fwd s) s.
Proof.
  intros Hto. unfold add_forward. rewrite wp_bind. apply wp_get_state. cbn [andthen].
  unfold abort_handle_peek. case_bool_decide as Hk.
  { unfold add_forward_post. cbn. rewrite decide_True by done.
    split; [by destruct s|done]. }
  rewrite wp_bind. apply wp_ensure_local. cbn [andthen].
  rewrite wp_bind. eapply wp_mono; [|by apply wp_bind_listener].
  intros o s' (Hs' & r & ->); cbn [andthen].
  rewrite Hs'. clear Hs'. destruct r as [local|source].
  - cbn. intros now s1 [Hnow ->] st ? [-> ->] st2 ? [-> ->].
    unfold add_forward_post. cbn. rewrite decide_False by done.
    split; [done|]. split; [apply same_others_bound | apply live_bound].
  - apply wp_bind_failed. unfold add_forward_post. cbn. split_and!; try done.
    + apply same_others_bind_error.
    + rewrite lookup_insert_eq. eexists; split_and!; done.
Qed.

(** *** [run] *)

Definition row_bound (key : string) (st : FState) : Prop :=
  exists row, forwards st !! key = Some row /\ bound row = true.

Definition binds_post (l : list Forward) (s : edge)
    (o : outcome (Result unit RunError)) (s' : edge) : Prop :=
  match o with
  | Done (Ok _) =>
      (forall fwd, fwd ∈ l -> row_bound (forward_key fwd) (fws s')) /\
      (forall key, row_bound key (fws s) -> row_bound key (fws s')) /\
      handles (fws s') = handles (fws s)
  | Done (Err e) =>
      exists fwd row, fwd ∈ l /\ run_proto e = as_str (proto fwd) /\
        run_addr e = listen_addr fwd /\
        forwards (fws s') !! forward_key fwd = Some row /\ bound row = false /\
        last_error row = Some (bind_error_display (run_source e))
  | _ => False
  end.

Lemma wp_run_binds f l s :
  0 <= bind_timeout (cfg f) -> wpe (run_binds f l) (binds_post l s) s.
Proof.
  intros Hto. revert s. induction l as [|fwd l IH]; intros s; cbn [run_binds].
  { cbn. split_and!; [|done..]. intros fwd H. by apply elem_of_nil in H. }
  rewrite wp_bind. eapply wp_mono; [|by apply wp_bind_listener].
  intros o s1 (Hs1 & r & ->). cbn [andthen]. destruct r as [local|source].
  - intros now s2 [_ ->]. cbn [bind]. rewrite wp_bind. apply wp_update. cbn [andthen].
    eapply wp_mono; [|apply IH]. intros o s3. unfold binds_post.
    destruct o as [[[]|e]| |]; try done.
    + intros (H1 & H2 & H3).
      assert (row_bound (forward_key fwd) (fws s3)) as Hown.
      { apply H2. cbn. unfold row_bound. cbn. rewrite lookup_insert_eq. eauto. }
      split_and!.
      * intros g [->|Hg]%elem_of_cons; [done|auto].
      * intros key (row & Hr & Hb). destruct (decide (key = forward_key fwd)) as [->|Hne]; [done|].
        apply H2. exists row. cbn. rewrite lookup_insert_ne by done.
        rewrite Hs1. done.
      * rewrite H3. cbn. by rewrite Hs1.
    + intros (g & row & Hg & H). exists g, row. split; [by right|done].
  - apply wp_bind_failed. cbn. exists fwd. eexists. split; [by left|].
    rewrite lookup_insert_eq. done.
Qed.

(** [run] returns when every configured forward is bound and the shutdown
    signal was passed on to the live forwards, or at the first bind that fails for good. *)
Lemma wp_forwarder_run f s :
  0 <= bind_timeout (cfg f) ->
  wpe (run f)
    (fun o s' =>
       match o with
       | Done (Ok _) =>
           (forall fwd, fwd ∈ cfg_forwards (cfg f) -> row_bound (forward_key fwd) (fws s')) /\
           handles (fws s') = handles (fws s) /\
           (handles (fws s) <> ∅ -> shutdown_tx (fws s') = true)
       | _ => binds_post (cfg_forwards (cfg f)) s o s'
       end) s.
Proof.
  intros Hto. unfold run, bind_try. rewrite wp_bind.
  eapply wp_mono; [|by apply wp_run_binds]. intros o s1 Hpost.
  destruct o as [[u|e]| |]; cbn [andthen]; try done.
  destruct Hpost as (H1 & _ & H3).
  intros r s2 ->. cbn [bind]. rewrite wp_bind. apply wp_update. cbn. unfold set_shutdown.
  rewrite H3. destruct (decide _) as [He|He]; cbn; split_and!; rewrite ?H3; done.
Qed.
End Spec.
