(* ===== verification/Relay.v ===== *)
(** The relays (crates/core/src/udp.rs, crates/core/src/tcp.rs): the tasks that
    carry datagrams and connections, as machines that take one atomic step at a
    time.  An action names the task that moves and what the operating system
    answered; a step is [None] where the action is not enabled, so a list of
    actions is an interleaving, and running it computes the state it leads to.

    A machine is one forward: one [serve_udp] or [serve_tcp] with its tasks.  The
    counters of [State] are shared by all forwards of the process; [udp] and [tcp] are
    this forward's share of them, what its own tasks added and took away. *)

From stdpp Require Import base gmap strings list.
From Stdlib Require Import ZArith Lia.
From S2P Require Import Prelude ForwarderState.

Local Open Scope Z_scope.

(** ** UDP *)

Module Udp.

(** Where the read loop of [serve_udp] is.  Between two of these points nothing
    that another task can see happens. *)
Inductive loop_pc :=
| LResolve                                     (** [lookup_host] *)
| LRecv                                        (** the [select!] on the listener *)
| LLookup (src data : string)                  (** the table's lock, to look [src] up *)
| LTouch (src data : string) (flow : nat)      (** found: refresh [last] *)
| LBind (src data : string)                    (** not found: bind a socket *)
| LConnect (src data : string) (flow : nat)    (** and connect it *)
| LInc (src data : string) (flow : nat)        (** count the flow *)
| LSpawn (src data : string) (flow : nat)      (** [UdpFlow::new], spawn the relay task *)
| LInsert (src data : string) (flow : nat)     (** enter the flow in the table *)
| LSend (data : string) (flow : nat)           (** send to the destination *)
| LStopped.

(** Where a relay task is. *)
Inductive relay_pc :=
| RTop                                         (** compute the idle time that remains *)
| RSelect (deadline : Z)                       (** the [select!], asleep until [deadline] *)
| RWrite (data : string)                       (** answer the source *)
| RTouch                                       (** refresh [last] *)
| RRemove                                      (** out of the loop: leave the table *)
| RDecLoad                                     (** [dec_udp_flows]: its load *)
| RDecSub.                                     (** and its [fetch_sub] *)

Record task := MkTask { t_src : string; t_flow : nat; t_pc : relay_pc }.

(** A flow is its socket's number; [last] lives in the flow, which the table, the
    loop and the task share. *)
Record state := MkState {
  now : Z;
  shutdown : bool;
  flows : gmap string nat;
  last : gmap nat Z;
  next : nat;
  loop : loop_pc;
  tasks : list task;
  udp : Z;                                     (** this forward's share of [State::udp_flows] *)
  from_src : list (string * string);
  to_dest : list (nat * string);
  from_dest : list (nat * string);
  to_src : list (string * string);
  owner : gmap nat string;                     (** whom a socket was opened for *)
}.

Definition start (t : Z) : state :=
  MkState t false ∅ ∅ 0 LResolve [] 0 [] [] [] [] ∅.

Definition set_loop (l : loop_pc) (s : state) : state :=
  MkState (now s) (shutdown s) (flows s) (last s) (next s) l (tasks s) (udp s)
    (from_src s) (to_dest s) (from_dest s) (to_src s) (owner s).
Definition set_tasks (ts : list task) (s : state) : state :=
  MkState (now s) (shutdown s) (flows s) (last s) (next s) (loop s) ts (udp s)
    (from_src s) (to_dest s) (from_dest s) (to_src s) (owner s).
Definition set_flows (m : gmap string nat) (s : state) : state :=
  MkState (now s) (shutdown s) m (last s) (next s) (loop s) (tasks s) (udp s)
    (from_src s) (to_dest s) (from_dest s) (to_src s) (owner s).
Definition touch (flow : nat) (s : state) : state :=
  MkState (now s) (shutdown s) (flows s) (<[flow := now s]> (last s)) (next s) (loop s) (tasks s)
    (udp s) (from_src s) (to_dest s) (from_dest s) (to_src s) (owner s).
Definition set_udp (n : Z) (s : state) : state :=
  MkState (now s) (shutdown s) (flows s) (last s) (next s) (loop s) (tasks s) n
    (from_src s) (to_dest s) (from_dest s) (to_src s) (owner s).
Definition open_socket (src : string) (s : state) : state :=
  MkState (now s) (shutdown s) (flows s) (last s) (S (next s)) (loop s) (tasks s) (udp s)
    (from_src s) (to_dest s) (from_dest s) (to_src s) (<[next s := src]> (owner s)).
Definition log_recv (src data : string) (s : state) : state :=
  MkState (now s) (shutdown s) (flows s) (last s) (next s) (loop s) (tasks s) (udp s)
    (from_src s ++ [(src, data)]) (to_dest s) (from_dest s) (to_src s) (owner s).
Definition log_send (flow : nat) (data : string) (s : state) : state :=
  MkState (now s) (shutdown s) (flows s) (last s) (next s) (loop s) (tasks s) (udp s)
    (from_src s) (to_dest s ++ [(flow, data)]) (from_dest s) (to_src s) (owner s).
Definition log_answer (flow : nat) (data : string) (s : state) : state :=
  MkState (now s) (shutdown s) (flows s) (last s) (next s) (loop s) (tasks s) (udp s)
    (from_src s) (to_dest s) (from_dest s ++ [(flow, data)]) (to_src s) (owner s).
Definition log_reply (src data : string) (s : state) : state :=
  MkState (now s) (shutdown s) (flows s) (last s) (next s) (loop s) (tasks s) (udp s)
    (from_src s) (to_dest s) (from_dest s) (to_src s ++ [(src, data)]) (owner s).

(** What the system answers the loop: a datagram, a success, an error; or the
    branch of the [select!] that a shutdown takes. *)
Inductive loop_act := Datagram (src data : string) | Go | Fails | Stop.

(** One step of [serve_udp]. *)
Definition loop_step (a : loop_act) (s : state) : option state :=
  match loop s, a with
  | LResolve, Go => Some (set_loop LRecv s)
  | LResolve, Fails => Some (set_loop LStopped s)
  | LRecv, Datagram src data => Some (set_loop (LLookup src data) (log_recv src data s))
  | LRecv, Fails => Some (set_loop LStopped s)
  | LRecv, Stop => if shutdown s then Some (set_loop LStopped s) else None
  | LLookup src data, Go =>
      Some (set_loop (match flows s !! src with
                      | Some flow => LTouch src data flow
                      | None => LBind src data
                      end) s)
  | LTouch src data flow, Go => Some (set_loop (LSend data flow) (touch flow s))
  | LBind src data, Go => Some (set_loop (LConnect src data (next s)) (open_socket src s))
  | LBind _ _, Fails => Some (set_loop LRecv s)
  | LConnect src data flow, Go => Some (set_loop (LInc src data flow) s)
  | LConnect _ _ _, Fails => Some (set_loop LRecv s)
  | LInc src data flow, Go => Some (set_loop (LSpawn src data flow) (set_udp (wrap_i64 (udp s + 1)) s))
  | LSpawn src data flow, Go =>
      Some (set_loop (LInsert src data flow)
              (set_tasks (tasks s ++ [MkTask src flow RTop]) (touch flow s)))
  | LInsert src data flow, Go =>
      Some (set_loop (LSend data flow) (set_flows (<[src := flow]> (flows s)) s))
  | LSend data flow, Go => Some (set_loop LRecv (log_send flow data s))
  | LSend _ _, Fails => Some (set_loop LRecv s)
  | _, _ => None
  end.

(** What a relay task meets: an answer from the destination, a success, an error,
    the end of its sleep, the shutdown. *)
Inductive relay_act := Answer (data : string) | Proceed | RFails | Expire | RStop.

(** The rest of the idle time when the loop is entered: the sleep ends at
    [last + idle_timeout], or at once. *)
Definition deadline (idle : Z) (s : state) (t : task) : Z :=
  Z.max (now s) (default (now s) (last s !! t_flow t) + idle).

(** The task's next point, or [None] when it ends, and the state. *)
Definition relay_step (idle : Z) (a : relay_act) (t : task) (s : state)
    : option (option relay_pc * state) :=
  match t_pc t, a with
  | RTop, Proceed => Some (Some (RSelect (deadline idle s t)), s)
  | RSelect _, Answer data => Some (Some (RWrite data), log_answer (t_flow t) data s)
  | RSelect _, RFails => Some (Some RRemove, s)
  | RSelect d, Expire => if d <=? now s then Some (Some RRemove, s) else None
  | RSelect _, RStop => if shutdown s then Some (Some RRemove, s) else None
  | RWrite data, Proceed => Some (Some RTouch, log_reply (t_src t) data s)
  | RWrite _, RFails => Some (Some RRemove, s)
  | RTouch, Proceed => Some (Some RTop, touch (t_flow t) s)
  | RRemove, Proceed => Some (Some RDecLoad, set_flows (delete (t_src t) (flows s)) s)
  | RDecLoad, Proceed => Some (if udp s >? 0 then Some RDecSub else None, s)
  | RDecSub, Proceed => Some (None, set_udp (wrap_i64 (udp s - 1)) s)
  | _, _ => None
  end.

Inductive action :=
| Loop (a : loop_act)
| Relay (i : nat) (a : relay_act)
| AbortLoop                                    (** [remove_forward] *)
| Tick (d : N)
| Shutdown.

(** The points where an aborted loop stops: its awaits. *)
Definition at_await (l : loop_pc) : bool :=
  match l with
  | LResolve | LRecv | LBind _ _ | LConnect _ _ _ | LSend _ _ => true
  | _ => false
  end.

Definition step (idle : Z) (a : action) (s : state) : option state :=
  match a with
  | Loop a => loop_step a s
  | Relay i a =>
      t ← tasks s !! i;
      r ← relay_step idle a t s;
      let '(pc, s') := r in
      Some (set_tasks (match pc with
                       | Some pc => <[i := MkTask (t_src t) (t_flow t) pc]> (tasks s')
                       | None => delete i (tasks s')
                       end) s')
  | AbortLoop => if at_await (loop s) then Some (set_loop LStopped s) else None
  | Tick d => Some (MkState (now s + Z.of_N d) (shutdown s) (flows s) (last s) (next s) (loop s)
                      (tasks s) (udp s) (from_src s) (to_dest s) (from_dest s) (to_src s) (owner s))
  | Shutdown => Some (MkState (now s) true (flows s) (last s) (next s) (loop s)
                      (tasks s) (udp s) (from_src s) (to_dest s) (from_dest s) (to_src s) (owner s))
  end.

Fixpoint runs (idle : Z) (l : list action) (s : state) : option state :=
  match l with
  | [] => Some s
  | a :: l' => s' ← step idle a s; runs idle l' s'
  end.

(** Everything stopped. *)
Definition drained (s : state) : Prop := loop s = LStopped /\ tasks s = [].
End Udp.

(** ** TCP *)

Module Tcp.

(** A connection's task: dialling, relaying, or decrementing the counter. *)
Inductive conn_pc := CDial | CRelay | CDecLoad | CDecSub.

(** The bytes of each direction: what was read from the one end so far and
    written to the other, what is there to be read, whether the end closed. *)
Record conn := MkConn {
  c_pc : conn_pc;
  up_in : list Z;  up_out : list Z;  src_closed : bool;
  down_in : list Z;  down_out : list Z;  dst_closed : bool;
}.

Inductive accept_pc := AAccept | AStopped.

Record state := MkState {
  shutdown : bool;
  accept : accept_pc;
  conns : list conn;
  tcp : Z;                                     (** its share of [State::tcp_connections] *)
  ended : list conn;                           (** how the finished ones were left *)
}.

Definition start : state := MkState false AAccept [] 0 [].

Definition new_conn : conn := MkConn CDial [] [] false [] [] false.

Definition set_pc (pc : conn_pc) (c : conn) : conn :=
  MkConn pc (up_in c) (up_out c) (src_closed c) (down_in c) (down_out c) (dst_closed c).

(** What happens to a connection: its ends write or close, the task dials, copies
    [n] bytes one way, ends because a copy came to the end of its input or failed,
    decrements the counter. *)
Inductive conn_act :=
| SrcWrites (data : list Z) | SrcCloses | DstWrites (data : list Z) | DstCloses
| Dialled (ok : bool)
| CopyUp (n : nat) | CopyDown (n : nat)
| EndUp | EndDown | CopyError
| DecLoad | DecSub.

(** The bytes of the one end that are not yet written to the other. *)
Definition up_rest (c : conn) : list Z := drop (length (up_out c)) (up_in c).
Definition down_rest (c : conn) : list Z := drop (length (down_out c)) (down_in c).

Definition conn_step (a : conn_act) (c : conn) : option conn :=
  match a, c_pc c with
  | SrcWrites data, _ =>
      if src_closed c then None
      else Some (MkConn (c_pc c) (up_in c ++ data) (up_out c) (src_closed c)
                   (down_in c) (down_out c) (dst_closed c))
  | SrcCloses, _ =>
      Some (MkConn (c_pc c) (up_in c) (up_out c) true (down_in c) (down_out c) (dst_closed c))
  | DstWrites data, CRelay =>
      if dst_closed c then None
      else Some (MkConn (c_pc c) (up_in c) (up_out c) (src_closed c)
                   (down_in c ++ data) (down_out c) (dst_closed c))
  | DstCloses, CRelay =>
      Some (MkConn (c_pc c) (up_in c) (up_out c) (src_closed c) (down_in c) (down_out c) true)
  | Dialled ok, CDial => Some (set_pc (if ok then CRelay else CDecLoad) c)
  | CopyUp n, CRelay =>
      Some (MkConn (c_pc c) (up_in c) (up_out c ++ take n (up_rest c)) (src_closed c)
              (down_in c) (down_out c) (dst_closed c))
  | CopyDown n, CRelay =>
      Some (MkConn (c_pc c) (up_in c) (up_out c) (src_closed c)
              (down_in c) (down_out c ++ take n (down_rest c)) (dst_closed c))
  | EndUp, CRelay =>
      if src_closed c && bool_decide (up_rest c = []) then Some (set_pc CDecLoad c) else None
  | EndDown, CRelay =>
      if dst_closed c && bool_decide (down_rest c = []) then Some (set_pc CDecLoad c) else None
  | CopyError, CRelay => Some (set_pc CDecLoad c)
  | _, _ => None
  end.

Inductive action :=
| Accepted | AcceptFails | AcceptStops        (** the [select!] of [serve_tcp] *)
| Conn (i : nat) (a : conn_act)
| AbortAccept                                  (** [remove_forward] *)
| Shutdown.

Definition set_accept (p : accept_pc) (s : state) : state :=
  MkState (shutdown s) p (conns s) (tcp s) (ended s).
Definition set_conns (l : list conn) (s : state) : state :=
  MkState (shutdown s) (accept s) l (tcp s) (ended s).

(** A step of the [i]th connection; when its task ends the connection is gone. *)
Definition conn_part (i : nat) (a : conn_act) (s : state) : option state :=
  c ← conns s !! i;
  match a, c_pc c with
  | DecLoad, CDecLoad =>
      if tcp s >? 0 then Some (set_conns (<[i := set_pc CDecSub c]> (conns s)) s)
      else Some (MkState (shutdown s) (accept s) (delete i (conns s)) (tcp s) (ended s ++ [c]))
  | DecSub, CDecSub =>
      Some (MkState (shutdown s) (accept s) (delete i (conns s)) (wrap_i64 (tcp s - 1))
              (ended s ++ [c]))
  | _, _ => c' ← conn_step a c; Some (set_conns (<[i := c']> (conns s)) s)
  end.

Definition step (a : action) (s : state) : option state :=
  match a, accept s with
  | Accepted, AAccept =>
      Some (MkState (shutdown s) AAccept (conns s ++ [new_conn]) (wrap_i64 (tcp s + 1)) (ended s))
  | AcceptFails, AAccept => Some (set_accept AStopped s)
  | AcceptStops, AAccept => if shutdown s then Some (set_accept AStopped s) else None
  | AbortAccept, AAccept => Some (set_accept AStopped s)
  | Conn i a, _ => conn_part i a s
  | Shutdown, _ => Some (MkState true (accept s) (conns s) (tcp s) (ended s))
  | _, _ => None
  end.

Fixpoint runs (l : list action) (s : state) : option state :=
  match l with
  | [] => Some s
  | a :: l' => s' ← step a s; runs l' s'
  end.
End Tcp.
