(* ===== verification/RelayProofs.v ===== *)
(** Lemmas on the relays: what every interleaving keeps, and how they drain. *)

From stdpp Require Import base gmap strings list.
From Stdlib Require Import ZArith Lia.
From S2P Require Import Prelude ForwarderState Relay.

Local Open Scope Z_scope.

(** An entry of a list, and the list with it changed or dropped. *)
Lemma lookup_split {A} (l : list A) i x :
  l !! i = Some x ->
  exists l1 l2, l = l1 ++ x :: l2 /\ (forall y, <[i := y]> l = l1 ++ y :: l2) /\
    delete i l = l1 ++ l2.
Proof.
  intros (l1 & l2 & -> & ->)%list_elem_of_split_length. exists l1, l2. split_and!.
  - done.
  - intros y. by rewrite insert_app_r_alt, Nat.sub_diag by done.
  - apply delete_middle.
Qed.

Lemma wrap_i64_id z : - 2 ^ 63 <= z < 2 ^ 63 -> wrap_i64 z = z.
Proof. intros H. unfold wrap_i64. rewrite Z.mod_small by lia. lia. Qed.

Module UdpFacts.
Import Udp.

Definition owning (t : task) : bool :=
  match t_pc t with RDecLoad | RDecSub => false | _ => true end.

(** The sources of the tasks that still hold their flow. *)
Definition owners (ts : list task) : list string := map t_src (List.filter owning ts).

Definition task_ok (s : state) (t : task) : Prop :=
  owner s !! t_flow t = Some (t_src t) /\
  (owning t = true ->
     flows s !! t_src t = Some (t_flow t) \/ exists data, loop s = LInsert (t_src t) data (t_flow t)) /\
  match t_pc t with RWrite d => (t_flow t, d) ∈ from_dest s | _ => True end.

Definition loop_ok (s : state) : Prop :=
  match loop s with
  | LLookup src data => (src, data) ∈ from_src s
  | LBind src data => (src, data) ∈ from_src s /\ flows s !! src = None
  | LTouch src data flow => (src, data) ∈ from_src s /\ owner s !! flow = Some src
  | LConnect src data flow | LInc src data flow | LSpawn src data flow =>
      (src, data) ∈ from_src s /\ owner s !! flow = Some src /\ flows s !! src = None
  | LInsert src data flow =>
      (src, data) ∈ from_src s /\ owner s !! flow = Some src /\ flows s !! src = None
  | LSend data flow => exists src, (src, data) ∈ from_src s /\ owner s !! flow = Some src
  | _ => True
  end.

(** A socket whose task is not spawned yet, and a flow counted before it is. *)
Definition opening (l : loop_pc) : nat :=
  match l with LConnect _ _ _ | LInc _ _ _ | LSpawn _ _ _ => 1 | _ => 0 end.
Definition counted (l : loop_pc) : nat := match l with LSpawn _ _ _ => 1 | _ => 0 end.

Record inv (s : state) : Prop := {
  inv_tasks : Forall (task_ok s) (tasks s);
  inv_loop : loop_ok s;
  inv_owners : NoDup (owners (tasks s));
  inv_flows : map_Forall (fun src flow => owner s !! flow = Some src) (flows s);
  inv_fresh : map_Forall (fun flow _ => (flow < next s)%nat) (owner s);
  inv_room : (length (tasks s) + opening (loop s) <= next s)%nat;
  inv_count : Z.of_nat (next s) < 2 ^ 63 ->
              udp s = Z.of_nat (length (tasks s) + counted (loop s));
  inv_to_dest : Forall (fun '(flow, d) => exists src, owner s !! flow = Some src /\
                                            (src, d) ∈ from_src s) (to_dest s);
  inv_to_src : Forall (fun '(src, d) => exists flow, owner s !! flow = Some src /\
                                          (flow, d) ∈ from_dest s) (to_src s);
}.

Lemma inv_start t : inv (start t).
Proof. split; cbn; try constructor; try done; lia. Qed.

Lemma owners_app l1 l2 : owners (l1 ++ l2) = owners l1 ++ owners l2.
Proof. unfold owners. by rewrite List.filter_app, map_app. Qed.

Lemma owners_cons t l : owners (t :: l) = (if owning t then [t_src t] else []) ++ owners l.
Proof. unfold owners. cbn. by destruct (owning t). Qed.

#[local] Arguments owners : simpl never.

Lemma elem_of_owners src ts :
  src ∈ owners ts -> exists t, t ∈ ts /\ owning t = true /\ t_src t = src.
Proof.
  unfold owners. rewrite list_elem_of_In, in_map_iff. intros (t & <- & Ht).
  apply filter_In in Ht as [Ht Ho]. exists t. by rewrite list_elem_of_In.
Qed.

(** Nobody relays for a source that is being opened. *)
Lemma opened_alone s src :
  inv s -> flows s !! src = None -> (forall data flow, loop s <> LInsert src data flow) ->
  src ∉ owners (tasks s).
Proof.
  intros Hi Hf Hl Hin. apply elem_of_owners in Hin as (t & Ht & Ho & <-).
  pose proof (inv_tasks s Hi) as HT. rewrite Forall_forall in HT.
  destruct (HT t Ht) as (_ & H & _). destruct (H Ho) as [H'|[data H']]; [congruence|].
  by apply Hl in H'.
Qed.

(** *** What more sockets and longer logs keep *)

Definition grows (s s' : state) : Prop :=
  owner s ⊆ owner s' /\ from_src s ⊆ from_src s' /\ from_dest s ⊆ from_dest s'.

Lemma task_ok_grows s s' t :
  grows s s' -> flows s' = flows s -> (forall data, loop s <> LInsert (t_src t) data (t_flow t)) ->
  task_ok s t -> task_ok s' t.
Proof.
  intros (Ho & _ & Hd) Hf Hl (H1 & H2 & H3). split_and!.
  - by eapply lookup_weaken.
  - intros Hw. rewrite Hf. destruct (H2 Hw) as [H|[data H]]; [by left|by apply Hl in H].
  - destruct (t_pc t); try done. by apply Hd.
Qed.

Lemma tasks_grow s s' :
  grows s s' -> flows s' = flows s -> (forall src data flow, loop s <> LInsert src data flow) ->
  Forall (task_ok s) (tasks s) -> Forall (task_ok s') (tasks s).
Proof.
  intros Hg Hf Hl H. eapply Forall_impl; [exact H|]. intros t. apply task_ok_grows; try done.
Qed.

Lemma to_dest_grow s s' l :
  grows s s' ->
  Forall (fun '(flow, d) => exists src, owner s !! flow = Some src /\ (src, d) ∈ from_src s) l ->
  Forall (fun '(flow, d) => exists src, owner s' !! flow = Some src /\ (src, d) ∈ from_src s') l.
Proof.
  intros (Ho & Hs & _) H. eapply Forall_impl; [exact H|]. intros [flow d] (src & H1 & H2). exists src.
  split; [by eapply lookup_weaken|by apply Hs].
Qed.

Lemma to_src_grow s s' l :
  grows s s' ->
  Forall (fun '(src, d) => exists flow, owner s !! flow = Some src /\ (flow, d) ∈ from_dest s) l ->
  Forall (fun '(src, d) => exists flow, owner s' !! flow = Some src /\ (flow, d) ∈ from_dest s') l.
Proof.
  intros (Ho & _ & Hd) H. eapply Forall_impl; [exact H|]. intros [src d] (flow & H1 & H2). exists flow.
  split; [by eapply lookup_weaken|by apply Hd].
Qed.

Lemma grows_refl s : grows s s.
Proof. by split_and!. Qed.

(** A step that moves the loop and leaves tasks, table and counter alone. *)
Lemma inv_loop_move s s' :
  inv s -> grows s s' -> (forall src data flow, loop s <> LInsert src data flow) ->
  tasks s' = tasks s -> flows s' = flows s -> udp s' = udp s ->
  to_dest s' = to_dest s \/ (exists flow d src, to_dest s' = to_dest s ++ [(flow, d)] /\
     owner s' !! flow = Some src /\ (src, d) ∈ from_src s') ->
  to_src s' = to_src s -> loop_ok s' ->
  map_Forall (fun flow _ => (flow < next s')%nat) (owner s') ->
  (next s <= next s')%nat -> (opening (loop s') - opening (loop s) <= next s' - next s)%nat ->
  counted (loop s') = counted (loop s) -> inv s'.
Proof.
  intros Hi Hg Hl Ht Hf Hu Hd Hsrc Hlo Hfr Hn Hop Hc. split; rewrite ?Ht, ?Hf, ?Hu, ?Hc, ?Hsrc.
  - by eapply tasks_grow, inv_tasks.
  - done.
  - apply Hi.
  - eapply map_Forall_impl; [by apply inv_flows|]. intros src flow H. cbn in H.
    destruct Hg as [Ho _]. by eapply lookup_weaken.
  - done.
  - pose proof (inv_room s Hi). lia.
  - intros Hlt. apply (inv_count s Hi). lia.
  - destruct Hd as [->|(flow & d & src & -> & H1 & H2)].
    + by eapply to_dest_grow, inv_to_dest.
    + apply Forall_app. split; [by eapply to_dest_grow, inv_to_dest|].
      constructor; [by exists src|done].
  - by eapply to_src_grow, inv_to_src.
Qed.

(** *** The read loop *)

Lemma inv_spawn s src data flow :
  inv s -> loop s = LSpawn src data flow ->
  inv (set_loop (LInsert src data flow)
         (set_tasks (tasks s ++ [MkTask src flow RTop]) (touch flow s))).
Proof.
  intros Hi Hl. pose proof (inv_loop s Hi) as Hlo. unfold loop_ok in Hlo. rewrite Hl in Hlo.
  destruct Hlo as (Hin & Hown & Hnone). split; cbn.
  - apply Forall_app. split.
    + apply (tasks_grow s); [by split_and!|done|rewrite Hl; done|by apply inv_tasks].
    + constructor; [|done]. split_and!; cbn; [done| |done]. intros _. right. by exists data.
  - done.
  - rewrite owners_app. apply NoDup_app. split_and!; [by apply inv_owners| |by apply NoDup_singleton].
    intros x Hx [->|Hx']%elem_of_cons; [|by apply elem_of_nil in Hx'].
    revert Hx. apply opened_alone; [done..|]. rewrite Hl. done.
  - by apply inv_flows.
  - by apply inv_fresh.
  - pose proof (inv_room s Hi) as H. rewrite Hl in H. rewrite length_app. cbn in *. lia.
  - intros Hlt. rewrite (inv_count s Hi Hlt), Hl, length_app. cbn. lia.
  - by apply inv_to_dest.
  - by apply inv_to_src.
Qed.

Lemma inv_insert s src data flow :
  inv s -> loop s = LInsert src data flow ->
  inv (set_loop (LSend data flow) (set_flows (<[src := flow]> (flows s)) s)).
Proof.
  intros Hi Hl. pose proof (inv_loop s Hi) as Hlo. unfold loop_ok in Hlo. rewrite Hl in Hlo.
  destruct Hlo as (Hin & Hown & Hnone). split; cbn.
  - eapply Forall_impl; [by apply inv_tasks|]. intros t (H1 & H2 & H3). split_and!; [done| |done].
    intros Ho. cbn. left. destruct (H2 Ho) as [H|[d H]].
    + rewrite lookup_insert_ne by congruence. done.
    + rewrite Hl in H. injection H as -> -> ->. apply lookup_insert_eq.
  - by exists src.
  - by apply inv_owners.
  - apply map_Forall_insert_2; [done|by apply inv_flows].
  - by apply inv_fresh.
  - pose proof (inv_room s Hi) as H. rewrite Hl in H. cbn in *. lia.
  - intros Hlt. rewrite (inv_count s Hi Hlt), Hl. done.
  - by apply inv_to_dest.
  - by apply inv_to_src.
Qed.

Lemma inv_inc s src data flow :
  inv s -> loop s = LInc src data flow ->
  inv (set_loop (LSpawn src data flow) (set_udp (wrap_i64 (udp s + 1)) s)).
Proof.
  intros Hi Hl. pose proof (inv_loop s Hi) as Hlo. unfold loop_ok in Hlo. rewrite Hl in Hlo.
  pose proof (inv_room s Hi) as Hroom. rewrite Hl in Hroom. cbn in Hroom.
  split; cbn; try apply Hi; [|done|done|].
  - apply (tasks_grow s); [by split_and!|done|rewrite Hl; done|by apply inv_tasks].
  - intros Hlt. rewrite (inv_count s Hi Hlt), Hl, wrap_i64_id; cbn; lia.
Qed.

Lemma grows_open s src : inv s -> grows s (open_socket src s).
Proof.
  intros Hi. split_and!; cbn; [|done|done]. apply insert_subseteq.
  destruct (owner s !! next s) eqn:H; [|done]. apply (inv_fresh s Hi) in H. lia.
Qed.

Lemma loop_step_inv a s s' : loop_step a s = Some s' -> inv s -> inv s'.
Proof.
  intros Hstep Hi. pose proof (inv_loop s Hi) as Hlo. unfold loop_ok in Hlo.
  pose proof (inv_fresh s Hi) as Hfr.
  unfold loop_step in Hstep. destruct (loop s) eqn:Hl, a; try done;
    try (destruct (shutdown s); [|done]); injection Hstep as <-.
  all: first
    [ by eapply inv_spawn | by eapply inv_insert | by eapply inv_inc
    | eapply inv_loop_move; cbn; rewrite ?Hl; try done; try lia; try (by left) ].
  all: try (apply grows_refl).
  - split_and!; [done|by apply list_subseteq_app_l|done].
  - apply elem_of_app. right. by left.
  - unfold loop_ok. cbn. destruct (flows s !! src) as [flow|] eqn:Hf; cbn; [|done].
    split; [done|]. by apply (inv_flows s Hi) in Hf.
  - destruct (flows s !! src); cbn; lia.
  - by destruct (flows s !! src).
  - by exists src.
  - by apply grows_open.
  - split_and!; [by destruct Hlo|apply lookup_insert_eq|by destruct Hlo].
  - apply map_Forall_insert_2; [lia|]. eapply map_Forall_impl; [exact Hfr|]. cbn. lia.
  - cbn. lia.
  - right. destruct Hlo as (src & H1 & H2). by exists flow, data, src.
Qed.

(** *** A relay task *)

Lemma owners_same l1 l2 t t' :
  t_src t' = t_src t -> owning t' = owning t -> owners (l1 ++ t' :: l2) = owners (l1 ++ t :: l2).
Proof. intros H1 H2. by rewrite !owners_app, !owners_cons, H1, H2. Qed.

(** A step of a task that neither leaves the table nor ends. *)
Lemma inv_relay_move s s' l1 t t' l2 :
  inv s -> tasks s = l1 ++ t :: l2 -> grows s s' ->
  owner s' = owner s -> next s' = next s -> loop s' = loop s -> udp s' = udp s ->
  flows s' = flows s -> from_src s' = from_src s -> to_dest s' = to_dest s ->
  to_src s' = to_src s \/ (exists d, to_src s' = to_src s ++ [(t_src t, d)] /\
                             (t_flow t, d) ∈ from_dest s') ->
  t_src t' = t_src t -> t_flow t' = t_flow t -> owning t' = owning t ->
  match t_pc t' with RWrite d => (t_flow t, d) ∈ from_dest s' | _ => True end ->
  inv (set_tasks (l1 ++ t' :: l2) s').
Proof.
  intros Hi Ht Hg Hown Hn Hl Hu Hf Hfs Htd Hts E1 E2 E3 Hw.
  assert (Forall (task_ok s') (tasks s)) as HT.
  { eapply Forall_impl; [by apply inv_tasks|]. intros x (H1 & H2 & H3). split_and!.
    - by rewrite Hown.
    - rewrite Hf, Hl. done.
    - destruct (t_pc x); try done. by apply Hg. }
  rewrite Ht in HT. apply Forall_app in HT as [HT1 [HTt HT2]%Forall_cons].
  pose proof (inv_room s Hi) as Hroom. pose proof (inv_count s Hi) as Hcount.
  rewrite Ht, length_app in Hroom. rewrite Ht, length_app in Hcount. cbn in Hroom, Hcount.
  split; cbn; rewrite ?Hf, ?Hown, ?Hn, ?Hl, ?Hu, ?Hfs, ?Htd, ?length_app.
  - apply Forall_app. split; [exact HT1|]. constructor; [|exact HT2].
    destruct HTt as (H1 & H2 & _). unfold task_ok. rewrite E1, E2, E3. done.
  - unfold loop_ok. cbn. rewrite Hl, Hf, Hown, Hfs. apply (inv_loop s Hi).
  - rewrite (owners_same l1 l2 t) by done. rewrite <- Ht. by apply inv_owners.
  - by apply inv_flows.
  - by apply inv_fresh.
  - exact Hroom.
  - exact Hcount.
  - by apply inv_to_dest.
  - pose proof (to_src_grow s s' _ Hg (inv_to_src s Hi)) as H. rewrite Hown in H.
    destruct Hts as [->|(d & -> & Hd)]; [done|]. apply Forall_app. split; [done|].
    constructor; [|done]. exists (t_flow t). split; [|done].
    rewrite <- Hown. apply HTt.
Qed.

Lemma owners_nodup l1 t l2 :
  NoDup (owners (l1 ++ t :: l2)) -> owning t = true ->
  NoDup (owners (l1 ++ l2)) /\ t_src t ∉ owners (l1 ++ l2).
Proof.
  intros Hnd Ho. rewrite owners_app, owners_cons, Ho in Hnd. rewrite owners_app. cbn in Hnd.
  apply NoDup_app in Hnd as (H1 & H2 & H3). apply NoDup_cons in H3 as [H3 H4]. split.
  - apply NoDup_app. split_and!; [done| |done]. intros x Hx Hx'. apply (H2 x Hx). by right.
  - rewrite elem_of_app. intros [H|H]; [apply (H2 _ H); by left|done].
Qed.

Lemma inv_remove s l1 t l2 :
  inv s -> tasks s = l1 ++ t :: l2 -> t_pc t = RRemove ->
  inv (set_tasks (l1 ++ MkTask (t_src t) (t_flow t) RDecLoad :: l2)
         (set_flows (delete (t_src t) (flows s)) s)).
Proof.
  intros Hi Ht Hpc. pose proof (inv_tasks s Hi) as HT. pose proof (inv_owners s Hi) as Hnd.
  rewrite Ht in HT, Hnd.
  assert (owning t = true) as Ho by (unfold owning; by rewrite Hpc).
  apply owners_nodup in Hnd as [Hnd Hnot]; [|done].
  pose proof (inv_room s Hi) as Hroom. pose proof (inv_count s Hi) as Hcount.
  rewrite Ht, length_app in Hroom. rewrite Ht, length_app in Hcount.
  assert (Forall (task_ok (set_flows (delete (t_src t) (flows s)) s)) (l1 ++ l2)) as HT'.
  { assert (Forall (task_ok s) (l1 ++ l2)) as H0.
    { apply Forall_app in HT as [? [? ?]%Forall_cons]. by apply Forall_app. }
    rewrite Forall_forall in H0 |- *. intros x Hx. destruct (H0 x Hx) as (H1 & H2 & H3).
    split_and!; [done| |done]. intros Hox. cbn.
    rewrite lookup_delete_ne; [by apply H2|]. intros Heq. apply Hnot. rewrite Heq. unfold owners.
    apply list_elem_of_In, in_map_iff. exists x. split; [done|]. apply filter_In.
    by rewrite <- list_elem_of_In. }
  split; cbn; rewrite ?length_app.
  - apply Forall_app in HT as [_ [Htt _]%Forall_cons]. apply Forall_app in HT' as [HT1 HT2].
    apply Forall_app. split; [exact HT1|]. constructor; [|exact HT2].
    split_and!; [apply Htt|done|done].
  - pose proof (inv_loop s Hi) as Hlo. unfold loop_ok in *. cbn.
    destruct (loop s); try exact Hlo; destruct_and?; split_and!; try done;
      by apply lookup_delete_None; right.
  - rewrite owners_app in Hnd |- *. by rewrite owners_cons.
  - intros src flow [_ H]%lookup_delete_Some. by apply (inv_flows s Hi) in H.
  - by apply inv_fresh.
  - exact Hroom.
  - exact Hcount.
  - by apply inv_to_dest.
  - by apply inv_to_src.
Qed.

(** A task that ends; [n] is the counter it leaves. *)
Lemma inv_end n s l1 t l2 :
  inv s -> tasks s = l1 ++ t :: l2 -> owning t = false ->
  (Z.of_nat (next s) < 2 ^ 63 -> n = udp s - 1) ->
  inv (set_tasks (l1 ++ l2) (set_udp n s)).
Proof.
  intros Hi Ht Ho Hn. pose proof (inv_tasks s Hi) as HT. pose proof (inv_owners s Hi) as Hnd.
  rewrite Ht in HT, Hnd. rewrite owners_app, owners_cons, Ho in Hnd.
  pose proof (inv_room s Hi) as Hroom. pose proof (inv_count s Hi) as Hcount.
  rewrite Ht, length_app in Hroom. rewrite Ht, length_app in Hcount. cbn in Hroom, Hcount.
  split; cbn; rewrite ?length_app.
  - apply Forall_app in HT as [HT1 [_ HT2]%Forall_cons]. by apply Forall_app.
  - apply (inv_loop s Hi).
  - by rewrite owners_app.
  - by apply inv_flows.
  - by apply inv_fresh.
  - lia.
  - intros Hlt. rewrite (Hn Hlt), (Hcount Hlt). lia.
  - by apply inv_to_dest.
  - by apply inv_to_src.
Qed.

Lemma counter_positive s l1 t l2 :
  inv s -> tasks s = l1 ++ t :: l2 -> Z.of_nat (next s) < 2 ^ 63 -> 0 < udp s < 2 ^ 63.
Proof.
  intros Hi Ht Hlt. rewrite (inv_count s Hi Hlt), Ht, length_app. cbn.
  pose proof (inv_room s Hi) as Hroom. rewrite Ht, length_app in Hroom. cbn in Hroom.
  destruct (loop s); cbn in *; lia.
Qed.

Lemma set_udp_id s : set_udp (udp s) s = s.
Proof. by destruct s. Qed.

Lemma relay_step_inv idle i a s s' : step idle (Relay i a) s = Some s' -> inv s -> inv s'.
Proof.
  intros Hstep Hi. cbn [step] in Hstep. destruct (tasks s !! i) as [t|] eqn:Hi0; [|done].
  apply lookup_split in Hi0 as (l1 & l2 & Ht & Hins & Hdel). cbn [mbind option_bind] in Hstep.
  destruct (relay_step idle a t s) as [[pc s1]|] eqn:Hr; [|done].
  cbn [mbind option_bind] in Hstep. injection Hstep as <-.
  pose proof (inv_tasks s Hi) as HT. rewrite Ht in HT.
  apply Forall_app in HT as [_ [(_ & _ & Hpc) _]%Forall_cons].
  assert (owning t = match t_pc t with RDecLoad | RDecSub => false | _ => true end) as Ho by done.
  pose proof (inv_room s Hi) as Hroom. rewrite Ht, length_app in Hroom. cbn in Hroom.
  unfold relay_step in Hr. destruct (t_pc t) eqn:Hp, a; try done.
  all: repeat match type of Hr with
       | (if ?b then _ else _) = _ => destruct b; [|done]
       | Some (if ?b then _ else _, _) = _ => destruct b eqn:Hb
       end; injection Hr as <- <-.
  all: try (rewrite Hins; eapply (inv_relay_move s _ l1 t); cbn; rewrite ?Ho; try done;
            first [by left|by right; eexists|by (apply elem_of_app; right; left)
                  |split_and!; cbn; try done; by apply list_subseteq_app_l]).
  - cbn. rewrite Hins. by apply inv_remove.
  - cbn. rewrite Hdel, <- (set_udp_id s). eapply inv_end; [done..|].
    intros Hlt. pose proof (counter_positive s _ _ _ Hi Ht Hlt). lia.
  - cbn. rewrite Hdel. eapply inv_end; [done..|].
    intros Hlt. pose proof (counter_positive s _ _ _ Hi Ht Hlt). rewrite wrap_i64_id; lia.
Qed.

Lemma step_inv idle a s s' : step idle a s = Some s' -> inv s -> inv s'.
Proof.
  intros Hstep Hi. destruct a as [a|i a| |d|].
  - by eapply loop_step_inv.
  - by eapply relay_step_inv.
  - cbn [step] in Hstep. destruct (loop s) eqn:Hl; try done; injection Hstep as <-;
      eapply inv_loop_move; cbn; rewrite ?Hl; try done; try lia; try (by left);
      try apply grows_refl; by apply inv_fresh.
  - injection Hstep as <-. destruct Hi. split; done.
  - injection Hstep as <-. destruct Hi. split; done.
Qed.

Lemma runs_inv idle l s s' : runs idle l s = Some s' -> inv s -> inv s'.
Proof.
  revert s. induction l as [|a l IH]; intros s; cbn; [by intros [= <-]|].
  destruct (step idle a s) as [s1|] eqn:Hs; [|done]. cbn. intros Hr Hi.
  eapply IH; [done|]. by eapply step_inv.
Qed.

Lemma runs_app idle l1 l2 s : runs idle (l1 ++ l2) s = runs idle l1 s ≫= runs idle l2.
Proof.
  revert s. induction l1 as [|a l1 IH]; intros s; cbn; [done|].
  destruct (step idle a s); cbn; [apply IH|done].
Qed.

(** *** Draining *)

(** Steps the network causes, and steps nothing has to happen for. *)
Definition input (a : action) : bool :=
  match a with Loop (Datagram _ _) | Relay _ (Answer _) => true | _ => false end.
Definition internal (a : action) : bool :=
  match a with Loop a' => negb (input a) | Relay _ _ => negb (input a) | AbortLoop => true
  | Tick _ | Shutdown => false end.

Definition loop_cost (l : loop_pc) : nat :=
  match l with
  | LStopped => 0 | LRecv => 1 | LResolve => 2 | LSend _ _ => 2 | LTouch _ _ _ => 3
  | LInsert _ _ _ => 3 | LSpawn _ _ _ => 10 | LInc _ _ _ => 11 | LConnect _ _ _ => 12
  | LBind _ _ => 13 | LLookup _ _ => 14
  end.
Definition task_cost (t : task) : nat :=
  match t_pc t with
  | RDecSub => 1 | RDecLoad => 2 | RRemove => 3 | RSelect _ => 5 | RTop => 6 | RTouch => 7
  | RWrite _ => 8
  end.
Definition tasks_cost (l : list task) : nat := list_sum (map task_cost l).
Definition cost (s : state) : nat := loop_cost (loop s) + tasks_cost (tasks s).

#[local] Arguments tasks_cost : simpl never.

Lemma tasks_cost_app l1 l2 : tasks_cost (l1 ++ l2) = (tasks_cost l1 + tasks_cost l2)%nat.
Proof. unfold tasks_cost. by rewrite map_app, list_sum_app. Qed.

Lemma tasks_cost_cons t l : tasks_cost (t :: l) = (task_cost t + tasks_cost l)%nat.
Proof. done. Qed.

Lemma tasks_cost_nil : tasks_cost [] = 0%nat.
Proof. done. Qed.

Lemma cost_loop a s s' :
  loop_step a s = Some s' ->
  if input (Loop a) then (cost s' <= cost s + 13)%nat else (cost s' < cost s)%nat.
Proof.
  intros H. unfold cost. unfold loop_step in H.
  destruct (loop s) eqn:Hl, a; try done; try (destruct (shutdown s); [|done]);
    injection H as <-; cbn; rewrite ?tasks_cost_app, ?tasks_cost_cons, ?tasks_cost_nil; cbn; try lia.
  destruct (flows s !! _); cbn; lia.
Qed.

Lemma cost_relay idle i a s s' :
  step idle (Relay i a) s = Some s' ->
  if input (Relay i a) then (cost s' <= cost s + 13)%nat else (cost s' < cost s)%nat.
Proof.
  cbn [step]. intros H. destruct (tasks s !! i) as [t|] eqn:Hi; [|done].
  apply lookup_split in Hi as (l1 & l2 & Ht & Hins & Hdel). cbn [mbind option_bind] in H.
  destruct (relay_step idle a t s) as [[pc s1]|] eqn:Hr; [|done].
  cbn [mbind option_bind] in H. injection H as <-.
  unfold cost. rewrite Ht, tasks_cost_app, tasks_cost_cons. unfold relay_step in Hr.
  destruct (t_pc t) eqn:Hp, a; try done.
  all: repeat match type of Hr with
       | (if ?b then _ else _) = _ => destruct b; [|done]
       | Some (if ?b then _ else _, _) = _ => destruct b
       end; injection Hr as <- <-; cbn; rewrite ?Hins, ?Hdel, ?tasks_cost_app, ?tasks_cost_cons;
       unfold task_cost; cbn; rewrite ?Hp; lia.
Qed.

Lemma cost_step idle a s s' :
  step idle a s = Some s' ->
  if internal a then (cost s' < cost s)%nat
  else (cost s' <= cost s + if input a then 13 else 0)%nat.
Proof.
  intros H. destruct a as [a|i a| |d|].
  - apply cost_loop in H. cbn in *. destruct a; cbn in *; lia.
  - apply cost_relay in H. cbn in *. destruct a; cbn in *; lia.
  - cbn [step] in H. unfold cost. destruct (loop s) eqn:Hl; try done; injection H as <-; cbn; lia.
  - injection H as <-. cbn. unfold cost. cbn. lia.
  - injection H as <-. cbn. unfold cost. cbn. lia.
Qed.

Definition count (P : action -> bool) (l : list action) : nat := length (List.filter P l).

Lemma runs_cost idle l s s' :
  runs idle l s = Some s' ->
  (count internal l + cost s' <= cost s + 13 * count input l)%nat.
Proof.
  revert s. induction l as [|a l IH]; intros s; [cbn; intros [= <-]; lia|].
  cbn [runs]. destruct (step idle a s) as [s1|] eqn:Hs; [|done]. cbn [mbind option_bind].
  intros H%IH. apply cost_step in Hs.
  assert (input a = true -> internal a = false) as Hex by (by destruct a as [[]|? []| | |]).
  unfold count in *. cbn [List.filter]. destruct (input a) eqn:Hin.
  - rewrite Hex in Hs |- * by done. cbn [length]. lia.
  - destruct (internal a); cbn [length]; lia.
Qed.

Lemma progress idle s :
  shutdown s = true -> drained s \/ exists a s', internal a = true /\ step idle a s = Some s'.
Proof.
  intros Hsh. destruct (tasks s) as [|t ts] eqn:Ht.
  - destruct (loop s) eqn:Hl; [right..|by left];
      first [by exists (Loop Go); cbn; unfold loop_step; rewrite Hl; eexists
            |by exists (Loop Stop); cbn; unfold loop_step; rewrite Hl, Hsh; eexists].
  - right. destruct (t_pc t) eqn:Hp;
      first [by exists (Relay 0 Proceed); cbn; rewrite Ht; cbn; unfold relay_step; rewrite Hp; eexists
            |by exists (Relay 0 RStop); cbn; rewrite Ht; cbn; unfold relay_step; rewrite Hp, Hsh; eexists].
Qed.

Lemma shutdown_step idle a s s' :
  step idle a s = Some s' -> shutdown s = true -> shutdown s' = true.
Proof.
  intros H Hsh. destruct a as [a|i a| |d|]; cbn [step] in H.
  - unfold loop_step in H. destruct (loop s), a; try done; try (rewrite Hsh in H); by injection H as <-.
  - destruct (tasks s !! i) as [t|]; [|done]. cbn [mbind option_bind] in H.
    destruct (relay_step idle a t s) as [[pc s1]|] eqn:Hr; [|done]. injection H as <-.
    unfold relay_step in Hr. rewrite Hsh in Hr. destruct (t_pc t), a; try done;
      repeat match type of Hr with (if ?b then _ else _) = _ => destruct b; [|done] end;
      injection Hr as <- <-; exact Hsh.
  - destruct (at_await _); [|done]. by injection H as <-.
  - by injection H as <-.
  - by injection H as <-.
Qed.

Lemma drain_run idle s :
  shutdown s = true ->
  exists l s', forallb internal l = true /\ runs idle l s = Some s' /\ drained s'.
Proof.
  remember (cost s) as n eqn:Hn. revert s Hn. induction (lt_wf n) as [n _ IH].
  intros s -> Hsh. destruct (progress idle s Hsh) as [Hd|(a & s1 & Ha & Hs)].
  { by exists [], s. }
  pose proof (cost_step idle a s s1 Hs) as Hc. rewrite Ha in Hc.
  destruct (IH (cost s1) Hc s1 eq_refl) as (l & s2 & Hl & Hr & Hd).
  { by eapply shutdown_step. }
  exists (a :: l), s2. cbn. rewrite Ha, Hs. done.
Qed.

(** *** Idle flows *)

Definition loop_or_tick (a : action) : bool :=
  match a with Loop _ | Tick _ => true | _ => false end.

Lemma tasks_kept idle l s s' i t :
  runs idle l s = Some s' -> forallb loop_or_tick l = true -> tasks s !! i = Some t ->
  tasks s' !! i = Some t.
Proof.
  revert s. induction l as [|a l IH]; intros s; [by intros [= <-]|].
  cbn [runs forallb]. destruct (step idle a s) as [s1|] eqn:Hs; [|done]. cbn [mbind option_bind].
  intros Hr [Ha Hl]%andb_prop Ht. apply (IH s1); [done..|].
  destruct a as [a| | |d|]; try done; cbn [step] in Hs; [|by injection Hs as <-].
  unfold loop_step in Hs. destruct (loop s), a; try done; try (destruct (shutdown s); [|done]);
    injection Hs as <-; cbn; try done. by apply lookup_app_l_Some.
Qed.

Lemma expire_enabled idle s i t d :
  tasks s !! i = Some t -> t_pc t = RSelect d ->
  is_Some (step idle (Relay i Expire) s) <-> d <= now s.
Proof.
  intros Ht Hp. cbn [step]. rewrite Ht. cbn [mbind option_bind]. unfold relay_step. rewrite Hp.
  destruct (Z.leb_spec d (now s)); cbn; split; intros H0; [done|by eexists|by destruct H0|lia].
Qed.

(** *** A flow entered after its task has ended *)

Definition opens (l : loop_pc) (flow : nat) : Prop :=
  match l with
  | LConnect _ _ f | LInc _ _ f | LSpawn _ _ f | LInsert _ _ f => f = flow
  | _ => False
  end.

(** [src]'s entry is a flow nobody relays the answers of. *)
Definition orphan (s : state) (src : string) (flow : nat) : Prop :=
  flows s !! src = Some flow /\ Forall (fun t => t_flow t <> flow) (tasks s) /\
  ~ opens (loop s) flow.

Lemma answers_app (flow : nat) (d : string) (l : list (nat * string)) x :
  fst x <> flow -> (flow, d) ∈ l ++ [x] <-> (flow, d) ∈ l.
Proof.
  intros Hx. rewrite elem_of_app, list_elem_of_singleton. split; [|by left].
  intros [H|<-]; [done|]. by destruct Hx.
Qed.

Lemma orphan_loop a s s' src flow :
  inv s -> orphan s src flow -> loop_step a s = Some s' ->
  orphan s' src flow /\ from_dest s' = from_dest s.
Proof.
  intros Hi (Hf & HT & Hop) H. pose proof (inv_loop s Hi) as Hlo. unfold loop_ok in Hlo.
  pose proof (inv_fresh s Hi flow src (inv_flows s Hi src flow Hf)) as Hlt. cbn in Hlt.
  unfold loop_step in H. destruct (loop s) eqn:Hl, a; try done;
    try (destruct (shutdown s); [|done]); injection H as <-; (split; [|done]); split_and!; cbn;
    try done; try tauto; try (cbn in Hop; tauto); try lia.
  - case_match; cbn; tauto.
  - apply Forall_app. split; [done|]. constructor; [|done]. cbn. done.
  - rewrite lookup_insert_ne; [done|]. intros ->. destruct Hlo as (_ & _ & Hn). congruence.
Qed.

Lemma orphan_relay idle i a s s' src flow :
  inv s -> orphan s src flow -> step idle (Relay i a) s = Some s' ->
  orphan s' src flow /\ forall d, (flow, d) ∈ from_dest s' <-> (flow, d) ∈ from_dest s.
Proof.
  intros Hi (Hf & HT & Hop) H. cbn [step] in H.
  destruct (tasks s !! i) as [t|] eqn:Ht; [|done].
  pose proof (list_elem_of_lookup_2 _ _ _ Ht) as Hin.
  assert (t_flow t <> flow) as Hne by (rewrite Forall_forall in HT; by apply HT).
  assert (task_ok s t) as Hok.
  { pose proof (inv_tasks s Hi) as HT'. rewrite Forall_forall in HT'. by apply HT'. }
  assert (owning t = true -> t_src t <> src) as Hsrc.
  { intros Ho Heq. destruct Hok as (_ & Hok & _). rewrite Heq in Hok.
    destruct (Hok Ho) as [H'|[d H']]; [congruence|].
    pose proof (inv_loop s Hi) as Hlo. unfold loop_ok in Hlo. rewrite H' in Hlo.
    destruct Hlo as (_ & _ & Hn). congruence. }
  apply lookup_split in Ht as (l1 & l2 & Ht & Hins & Hdel). cbn [mbind option_bind] in H.
  destruct (relay_step idle a t s) as [[pc s1]|] eqn:Hr; [|done]. injection H as <-.
  rewrite Ht in HT. apply Forall_app in HT as [HT1 [_ HT2]%Forall_cons].
  assert (forall pc, Forall (fun t => t_flow t <> flow)
            (match pc with
             | Some pc => <[i := MkTask (t_src t) (t_flow t) pc]> (tasks s)
             | None => delete i (tasks s)
             end)) as HT'.
  { intros [pc'|]; [rewrite Hins|rewrite Hdel]; apply Forall_app; split; try done; by constructor. }
  unfold relay_step in Hr. unfold owning in Hsrc. destruct (t_pc t) eqn:Hp, a; try done.
  all: repeat match type of Hr with
       | (if ?b then _ else _) = _ => destruct b eqn:?; [|done]
       end; injection Hr as <- <-.
  all: split; [split_and!; cbn|try done; intros d].
  all: try first [exact (HT' (Some _))|exact (HT' None)|apply HT']; try done.
  - by apply answers_app.
  - rewrite lookup_delete_ne; [done|]. by apply Hsrc.
Qed.

Lemma orphan_runs idle l s s' src flow :
  inv s -> orphan s src flow -> runs idle l s = Some s' ->
  orphan s' src flow /\ forall d, (flow, d) ∈ from_dest s' <-> (flow, d) ∈ from_dest s.
Proof.
  revert s. induction l as [|a l IH]; intros s Hi Ho; [by intros [= <-]|].
  cbn [runs]. destruct (step idle a s) as [s1|] eqn:Hs; [|done]. cbn [mbind option_bind]. intros Hr.
  assert (orphan s1 src flow /\ forall d, (flow, d) ∈ from_dest s1 <-> (flow, d) ∈ from_dest s)
    as [Ho1 Hd1].
  { destruct a as [a|i a| |n|].
    - destruct (orphan_loop a s s1 src flow Hi Ho Hs) as [? ->]. done.
    - by eapply orphan_relay.
    - cbn [step] in Hs. destruct (at_await _); [|done]. injection Hs as <-.
      destruct Ho as (? & ? & _).
      split; [split_and!; [done|done|intros []]|done].
    - injection Hs as <-. by destruct Ho as (? & ? & ?).
    - injection Hs as <-. by destruct Ho as (? & ? & ?). }
  destruct (IH s1 (step_inv _ _ _ _ Hs Hi) Ho1 Hr) as [Ho2 Hd2]. split; [done|].
  intros d. by rewrite Hd2.
Qed.
End UdpFacts.

Module TcpFacts.
Import Tcp.

(** What an end received is a prefix of what the other one sent. *)
Definition relayed (c : conn) : Prop := up_out c `prefix_of` up_in c /\ down_out c `prefix_of` down_in c.

Lemma copy_prefix (o i : list Z) n :
  o `prefix_of` i -> o ++ take n (drop (length o) i) `prefix_of` i.
Proof.
  intros [k ->]. rewrite drop_app_length. apply prefix_app, prefix_take.
Qed.

Lemma write_prefix (o i k : list Z) : o `prefix_of` i -> o `prefix_of` i ++ k.
Proof. apply prefix_app_r. Qed.

Lemma conn_step_relayed a c c' : conn_step a c = Some c' -> relayed c -> relayed c'.
Proof.
  intros H [Hu Hd]. unfold conn_step in H.
  destruct a, (c_pc c); try done;
    repeat match type of H with (if ?b then _ else _) = _ => destruct b; try done end;
    injection H as <-; split; cbn; try done;
    first [by apply write_prefix|by apply copy_prefix].
Qed.

Record inv (s : state) : Prop := {
  inv_conns : Forall relayed (conns s);
  inv_ended : Forall relayed (ended s);
  inv_count : Z.of_nat (length (conns s) + length (ended s)) < 2 ^ 63 ->
              tcp s = Z.of_nat (length (conns s));
}.

Lemma tcp_inv_start : inv start.
Proof. by split. Qed.

Lemma tcp_step_inv a s s' : step a s = Some s' -> inv s -> inv s'.
Proof.
  intros H Hi. pose proof (inv_conns s Hi) as Hc. pose proof (inv_ended s Hi) as He.
  pose proof (inv_count s Hi) as Hn.
  assert (forall i c c', conns s !! i = Some c -> relayed c' ->
            inv (set_conns (<[i := c']> (conns s)) s)) as Hset.
  { intros i c c' Hi0 Hrel. split; cbn; [|done|by rewrite length_insert]. by apply Forall_insert. }
  assert (forall i c n, conns s !! i = Some c ->
            (Z.of_nat (length (conns s) + length (ended s)) < 2 ^ 63 -> n = tcp s - 1) ->
            inv (MkState (shutdown s) (accept s) (delete i (conns s)) n (ended s ++ [c]))) as Hend.
  { intros i c n Hi0 Hn'. pose proof (Forall_lookup_1 _ _ _ _ Hc Hi0) as Hrel.
    pose proof (length_delete (conns s) i (mk_is_Some _ _ Hi0)) as Hlen. pose proof (lookup_lt_Some _ _ _ Hi0) as Hlt.
    split; cbn.
    - by apply Forall_delete.
    - apply Forall_app. by split; [|constructor].
    - rewrite length_app, Hlen. cbn. intros Hb. rewrite Hn', Hn; lia. }
  assert (forall i a, conn_part i a s = Some s' -> inv s') as Hconn.
  { intros i b Hp. unfold conn_part in Hp. destruct (conns s !! i) as [c|] eqn:Hi0; [|done].
    pose proof (Forall_lookup_1 _ _ _ _ Hc Hi0) as Hrel.
    assert (0 < Z.of_nat (length (conns s))) as Hpos by (apply lookup_lt_Some in Hi0; lia).
    assert (forall c', conn_step b c = Some c' -> inv (set_conns (<[i := c']> (conns s)) s)) as Hcs.
    { intros c' Hc'. eapply Hset; [done|]. by eapply conn_step_relayed. }
    cbn [mbind option_bind] in Hp.
    destruct b, (c_pc c) eqn:Hpc; try (destruct (conn_step _ c) as [c'|]; [|done]; cbn in Hp;
      injection Hp as <-; by apply Hcs).
    - destruct (Z.gtb_spec (tcp s) 0); injection Hp as <-.
      + eapply Hset; [done|]. done.
      + apply Hend; [done|]. intros Hb. rewrite Hn in *; lia.
    - injection Hp as <-. apply Hend; [done|]. intros Hb. rewrite wrap_i64_id; rewrite Hn; lia. }
  destruct a as [| | |i a| |]; cbn in H; try (by eapply Hconn);
    try (destruct (accept s) eqn:Ha; try done);
    try (destruct (shutdown s) eqn:Hsh; [|done]); try (injection H as <-; by split).
  injection H as <-. split; cbn; [|done|].
  - apply Forall_app. split; [done|]. constructor; [|done]. by split; apply prefix_nil.
  - rewrite length_app. cbn. intros Hb. rewrite Hn by lia. rewrite wrap_i64_id; lia.
Qed.

Lemma tcp_runs_inv l s s' : runs l s = Some s' -> inv s -> inv s'.
Proof.
  revert s. induction l as [|a l IH]; intros s; cbn; [by intros [= <-]|].
  destruct (step a s) as [s1|] eqn:Hs; [|done]. cbn. intros Hr Hi.
  eapply IH; [done|]. by eapply tcp_step_inv.
Qed.

(** Nothing is accepted once the loop has stopped. *)
Lemma stopped_step a s s' :
  step a s = Some s' -> accept s = AStopped -> accept s' = AStopped /\ a <> Accepted.
Proof.
  intros H Ha. destruct a as [| | |i a| |]; cbn in H; rewrite ?Ha in H; try done.
  - split; [|done]. unfold conn_part in H. destruct (conns s !! i) as [c|]; [|done].
    cbn [mbind option_bind] in H.
    destruct a, (c_pc c); try (destruct (conn_step _ c); [|done]; cbn in H); 
      try destruct (tcp s >? 0); by injection H as <-.
  - injection H as <-. done.
Qed.

Lemma stopped_runs l s s' :
  runs l s = Some s' -> accept s = AStopped -> accept s' = AStopped /\ Forall (.≠ Accepted) l.
Proof.
  revert s. induction l as [|a l IH]; intros s; cbn; [by intros [= <-]|].
  destruct (step a s) as [s1|] eqn:Hs; [|done]. cbn. intros Hr Ha.
  destruct (stopped_step a s s1 Hs Ha) as [Ha1 Hne]. destruct (IH s1 Hr Ha1). split; [done|].
  by constructor.
Qed.
End TcpFacts.
