(* ===== verification/Dns.v ===== *)
(** DNS provisioning and reconciliation
    (crates/controlplane/src/controlplane/dns.rs).

    Two layers.  [HetznerDns] implements the trait [DnsApiClient] on top of the
    provider's record-set API, whose calls are a signature of their own here.
    The naming layer ([upsert_machine], [remove_machine], [reconcile_pass]) is
    a client of the trait, whose methods are the operations [DnsUpsertAaaa] and
    [DnsRemoveAaaa] of the edge's world (World.v). *)

From stdpp Require Import base gmap strings list pretty.
From Stdlib Require Import ZArith Lia Ascii.
From S2P Require Import Prelude Prog Addr AddrText ForwarderState World.

Local Open Scope prog_scope.

(** The [Display] of [DnsError]. *)
Definition dns_error_display (e : DnsError) : string :=
  match e with
  | DnsConfig m => "dns config: " ++ m
  | DnsHttp m => "http: " ++ m
  | DnsApi m => "dns api: " ++ m
  | DnsResolve m => "resolution failed: " ++ m
  end.

(** ** The provider client *)

Module Hetzner.

Record HetznerRrset := MkRrset { type_ : string; name : string; records : list string }.

Record HetznerDns := MkHetzner { zone_id : string; zone_name : string; token : string }.

(** The three HTTP calls.  The bearer token and the zone id go with each of
    them and do not vary. *)
Inductive api_op :=
| GetRrsets
| PostRrset (type_ name : string) (ttl : Z) (records : list string)
| DeleteRrset (name type_ : string).

Definition api_ret (o : api_op) : Type :=
  match o with
  | GetRrsets => Result (list HetznerRrset) DnsError
  | PostRrset _ _ _ _ | DeleteRrset _ _ => Result unit DnsError
  end.

Definition ApiSig : Sig := MkSig api_op api_ret.

Definition is_dot (c : ascii) : bool := Ascii.eqb c ".".

(** [HetznerDns::relative_name]. *)
Definition relative_name (h : HetznerDns) (full : string) : Result string DnsError :=
  let zone := trim_end_matches is_dot (zone_name h) in
  let full := trim_end_matches is_dot full in
  if bool_decide (full = zone) then Ok "@"
  else
    match strip_suffix ("." ++ zone) full with
    | Some rel => Ok rel
    | None => Err (DnsApi (full ++ " is not under zone " ++ zone))
    end.

Definition get_rrset (name_ : string)
    : prog ApiSig (Result (option HetznerRrset) DnsError) :=
  rrsets <-? @call ApiSig GetRrsets as (fun e => e) ;;
  Ret (Ok (List.find (fun r => bool_decide (type_ r = "AAAA"%string)
                               && bool_decide (name r = name_)) rrsets)).

Definition create_rrset (name_ : string) (ipv6 : Ipv6Addr)
    : prog ApiSig (Result unit DnsError) :=
  @call ApiSig (PostRrset "AAAA" name_ 300 [display ipv6]).

Definition delete_rrset (name_ : string) : prog ApiSig (Result unit DnsError) :=
  @call ApiSig (DeleteRrset name_ "AAAA").

Definition upsert_aaaa (h : HetznerDns) (full : string) (ipv6 : Ipv6Addr)
    : prog ApiSig (Result unit DnsError) :=
  match relative_name h full with
  | Err e => Ret (Err e)
  | Ok relative =>
      let target := display ipv6 in
      found <-? get_rrset relative as (fun e => e) ;;
      match found with
      | Some rrset =>
          if bool_decide (records rrset = [target]) then Ret (Ok tt)
          else
            _d <-? delete_rrset relative as (fun e => e) ;;
            create_rrset relative ipv6
      | None => create_rrset relative ipv6
      end
  end.

Definition remove_aaaa (h : HetznerDns) (full : string)
    : prog ApiSig (Result unit DnsError) :=
  match relative_name h full with
  | Err e => Ret (Err e)
  | Ok relative =>
      found <-? get_rrset relative as (fun e => e) ;;
      match found with
      | Some _ => delete_rrset relative
      | None => Ret (Ok tt)
      end
  end.

(** *** What the provider promises *)

(** A zone: the record values of each (name, type). *)
Abbreviation zone := (gmap (string * string) (list string)) (only parsing).

(** A call that fails may or may not have been executed; [GET] lists record
    sets of the zone, all of them when they fit on one page. *)
Definition api_spec (per_page : nat) (o : api_op) (z : zone) : api_ret o -> zone -> Prop :=
  match o return api_ret o -> zone -> Prop with
  | GetRrsets => fun r z' =>
      z' = z /\
      match r with
      | Err _ => True
      | Ok l =>
          (forall x, x ∈ l -> z !! (name x, type_ x) = Some (records x)) /\
          ((size z <= per_page)%nat ->
             forall n t rs, z !! (n, t) = Some rs -> MkRrset t n rs ∈ l)
      end
  | PostRrset t n ttl rs => fun r z' =>
      match r with
      | Ok _ => z !! (n, t) = None /\ z' = <[(n, t) := rs]> z
      | Err _ => z' = z \/ (z !! (n, t) = None /\ z' = <[(n, t) := rs]> z)
      end
  | DeleteRrset n t => fun r z' =>
      match r with
      | Ok _ => is_Some (z !! (n, t)) /\ z' = delete (n, t) z
      | Err _ => z' = z \/ z' = delete (n, t) z
      end
  end.

(** An implementation of those promises, for concrete runs. *)
Definition api_exec (o : api_op) (z : zone) : api_ret o * zone :=
  match o return api_ret o * zone with
  | GetRrsets =>
      (Ok (map (fun '((n, t), rs) => MkRrset t n rs) (map_to_list z)), z)
  | PostRrset t n ttl rs =>
      match z !! (n, t) with
      | Some _ => (Err (DnsApi "uniqueness_error"), z)
      | None => (Ok tt, <[(n, t) := rs]> z)
      end
  | DeleteRrset n t =>
      match z !! (n, t) with
      | Some _ => (Ok tt, delete (n, t) z)
      | None => (Err (DnsApi "not_found"), z)
      end
  end.

Lemma api_exec_implements per_page :
  implements (X := ApiSig) api_exec (api_spec per_page) (fun z => z).
Proof.
  intros [|t n ttl rs|n t] z; cbn.
  - split; [done|]. split.
    + intros x. rewrite list_elem_of_In, in_map_iff. intros ([[n t] rs] & <- & H).
      apply list_elem_of_In, elem_of_map_to_list in H. done.
    + intros _ n t rs H. apply list_elem_of_In, in_map_iff.
      exists ((n, t), rs). split; [done|]. by apply list_elem_of_In, elem_of_map_to_list.
  - destruct (z !! (n, t)) eqn:E; cbn; [by left|done].
  - destruct (z !! (n, t)) eqn:E; cbn; [by split; [eauto|]|by left].
Qed.

(** *** The contract of the trait [DnsApiClient] on a zone *)

Definition others_kept (n : string) (z z' : zone) : Prop :=
  forall k, k <> (n, "AAAA"%string) -> z' !! k = z !! k.

(** [upsert_aaaa] returns; on [Ok] the record holds exactly the address. *)
Definition upsert_contract (rel : string) (ipv6 : Ipv6Addr) (z : zone)
    (o : outcome (Result unit DnsError)) (z' : zone) : Prop :=
  others_kept rel z z' /\
  match o with
  | Done (Ok _) => z' !! (rel, "AAAA"%string) = Some [display ipv6]
  | Done (Err _) => True
  | _ => False
  end.

(** [remove_aaaa] returns; on [Ok] the record is gone. *)
Definition remove_contract (rel : string) (z : zone)
    (o : outcome (Result unit DnsError)) (z' : zone) : Prop :=
  others_kept rel z z' /\
  match o with
  | Done (Ok _) => z' !! (rel, "AAAA"%string) = None
  | Done (Err _) => z' = z \/ z' = delete (rel, "AAAA"%string) z
  | _ => False
  end.

Lemma others_kept_refl n z : others_kept n z z.
Proof. done. Qed.

Lemma others_kept_insert n z z' v :
  others_kept n z z' -> others_kept n z (<[(n, "AAAA"%string) := v]> z').
Proof. intros H k Hk. rewrite lookup_insert_ne by congruence. auto. Qed.

Lemma others_kept_delete n z z' :
  others_kept n z z' -> others_kept n z (delete (n, "AAAA"%string) z').
Proof. intros H k Hk. rewrite lookup_delete_ne by congruence. auto. Qed.

#[export] Hint Resolve others_kept_refl others_kept_insert others_kept_delete : fortress.

Section Api.
Context (per_page : nat).
Local Abbreviation wpz := (wp (X := ApiSig) (api_spec per_page)) (only parsing).

Lemma find_rrset l rel x :
  List.find (fun r => bool_decide (type_ r = "AAAA"%string)
                      && bool_decide (name r = rel)) l = Some x ->
  x ∈ l /\ type_ x = "AAAA"%string /\ name x = rel.
Proof.
  intros H. apply List.find_some in H as [H1 H2].
  rewrite andb_true_iff, !bool_decide_eq_true in H2.
  split; [by apply list_elem_of_In|done].
Qed.

Lemma wp_create rel ip z z0 :
  others_kept rel z0 z ->
  wpz (create_rrset rel ip) (upsert_contract rel ip z0) z.
Proof.
  intros H [u|e] z'; cbn.
  - intros [Hn ->]. split; [auto with fortress|]. by rewrite lookup_insert_eq.
  - intros [-> | [Hn ->]]; (split; [auto with fortress|done]).
Qed.

(** Whatever the provider lists and however its calls fail, [upsert_aaaa]
    meets the contract. *)
Lemma wp_upsert h full rel ip z :
  relative_name h full = Ok rel ->
  wpz (upsert_aaaa h full ip) (upsert_contract rel ip z) z.
Proof.
  intros Hrel. unfold upsert_aaaa. rewrite Hrel. cbn -[List.find create_rrset].
  intros [l|e] z1; cbn -[List.find create_rrset]; [|intros [-> _]; by split].
  intros (-> & Hl & _).
  match goal with |- context [List.find ?f l] => destruct (List.find f l) as [x|] eqn:Hx end; cbn -[create_rrset]; [|by apply wp_create].
  apply find_rrset in Hx as (Hx & Ht & Hn). apply Hl in Hx. rewrite Ht, Hn in Hx.
  case_bool_decide as Hr; cbn -[create_rrset].
  - split; [done|]. by rewrite Hx, Hr.
  - intros [u|e] z'; cbn -[create_rrset].
    + intros [_ ->]. apply wp_create. auto with fortress.
    + intros [-> | ->]; (split; [auto with fortress|done]).
Qed.

(** [remove_aaaa] finds every record of a zone that fits on one page. *)
Lemma wp_remove h full rel z :
  relative_name h full = Ok rel -> (size z <= per_page)%nat ->
  wpz (remove_aaaa h full) (remove_contract rel z) z.
Proof.
  intros Hrel Hsize. unfold remove_aaaa. rewrite Hrel. cbn -[List.find].
  intros [l|e] z1; cbn -[List.find]; [|intros [-> _]; by split; [|left]].
  intros (-> & Hl & Hall).
  match goal with |- context [List.find ?f l] => destruct (List.find f l) as [x|] eqn:Hx end; cbn.
  - intros [u|e] z'; cbn.
    + intros [_ ->]. split; [auto with fortress|]. by rewrite lookup_delete_eq.
    + intros [-> | ->]; (split; [auto with fortress|auto]).
  - split; [done|]. destruct (z !! (rel, "AAAA"%string)) as [rs|] eqn:E; [|done].
    apply (Hall Hsize) in E. apply list_elem_of_In in E.
    eapply List.find_none in Hx; [|exact E]. cbn in Hx.
    by rewrite !bool_decide_eq_true_2 in Hx.
Qed.
End Api.

(** *** Relative names *)

Lemma trim_end_matches_keep f s c :
  f c = false -> trim_end_matches f (s ++ String c "") = (s ++ String c "")%string.
Proof.
  intros Hc. unfold trim_end_matches. rewrite str_rev_app.
  rewrite trim_start_matches_none by done.
  rewrite <- (str_rev_involutive (str_rev (String c "") ++ str_rev s)).
  by rewrite str_rev_app, !str_rev_involutive.
Qed.

Lemma trim_end_matches_app f a b :
  trim_end_matches f b = b -> b <> ""%string ->
  trim_end_matches f (a ++ b) = (a ++ b)%string.
Proof.
  unfold trim_end_matches. intros H Hne.
  assert (str_rev b <> ""%string) as Hr.
  { intros E. apply Hne. by rewrite <- (str_rev_involutive b), E. }
  rewrite str_rev_app. destruct (str_rev b) as [|c r] eqn:Hb; [done|].
  rewrite trim_start_matches_none.
  - rewrite <- Hb, <- str_rev_app. by rewrite str_rev_involutive.
  - change ((String c r ++ str_rev a)%string) with (String c (r ++ str_rev a)).
    cbn in H |- *. destruct (f c); [|done]. exfalso.
    assert (forall s, (String.length (trim_start_matches f s) <= String.length s)%nat) as Hle.
    { induction s as [|d s IH]; cbn; [lia|]. destruct (f d); cbn; lia. }
    apply (f_equal str_rev) in H. rewrite str_rev_involutive, Hb in H.
    specialize (Hle r). rewrite H in Hle. cbn in Hle. lia.
Qed.

Lemma str_app_ne_r a b : (a ++ String "." b <> b)%string.
Proof.
  intros H. apply (f_equal String.length) in H.
  rewrite str_length_app in H. cbn in H. lia.
Qed.

(** A name under a zone is relative to it, and comes back. *)
Lemma relative_name_under h sub :
  trim_end_matches is_dot (zone_name h) = zone_name h -> zone_name h <> ""%string ->
  relative_name h (sub ++ "." ++ zone_name h) = Ok sub.
Proof.
  intros Hz Hne. unfold relative_name. rewrite Hz.
  assert (trim_end_matches is_dot (sub ++ "." ++ zone_name h)
            = sub ++ "." ++ zone_name h)%string as ->.
  { rewrite str_app_assoc. by apply trim_end_matches_app. }
  rewrite bool_decide_eq_false_2 by apply str_app_ne_r.
  assert (strip_suffix ("." ++ zone_name h) (sub ++ "." ++ zone_name h) = Some sub) as ->; [|done].
  by apply strip_suffix_spec.
Qed.

(** What an accepted name was. *)
Lemma relative_name_ok h full rel :
  relative_name h full = Ok rel ->
  let zone := trim_end_matches is_dot (zone_name h) in
  let full' := trim_end_matches is_dot full in
  (full' = zone /\ rel = "@"%string) \/ full' = (rel ++ "." ++ zone)%string.
Proof.
  unfold relative_name. case_bool_decide as H; [intros [= <-]; by left|].
  destruct (strip_suffix _ _) as [r|] eqn:E; [|done]. intros [= <-].
  right. by apply strip_suffix_spec in E.
Qed.

End Hetzner.

(** ** The double of the dummy boot *)

(** [MockDnsApiClient]: two logs, and a switch that makes upserts fail. *)
Module MockDns.
Record MockDnsApiClient := MkMockDns {
  upserts : list (string * Ipv6Addr);
  removes : list string;
  fail_upsert : bool;
}.

Definition new : MockDnsApiClient := MkMockDns [] [] false.

Definition fail_upserts (m : MockDnsApiClient) : MockDnsApiClient :=
  MkMockDns (upserts m) (removes m) true.

Definition upsert_aaaa (name : string) (ipv6 : Ipv6Addr) (m : MockDnsApiClient)
    : Result unit DnsError * MockDnsApiClient :=
  if fail_upsert m then (Err (DnsApi "mock provider outage"), m)
  else (Ok tt, MkMockDns (upserts m ++ [(name, ipv6)]) (removes m) (fail_upsert m)).

Definition remove_aaaa (name : string) (m : MockDnsApiClient)
    : Result unit DnsError * MockDnsApiClient :=
  (Ok tt, MkMockDns (upserts m) (removes m ++ [name]) (fail_upsert m)).
End MockDns.

(** ** The resolver *)

Inductive IpAddr := V4 (a : Ipv4Addr) | V6 (a : Ipv6Addr).

(** [resolve_aaaa], given what the resolver's [lookup_ip] answers: the operation
    [ResolveAaaa] of World.v. *)
Definition resolve_aaaa (lookup_ip : Result (list IpAddr) string)
    : Result (list Ipv6Addr) DnsError :=
  match lookup_ip with
  | Err e => Err (DnsResolve e)
  | Ok lookup => Ok (omap (fun ip => match ip with V6 v6 => Some v6 | V4 _ => None end) lookup)
  end.

(** ** The naming layer *)

Definition machine_hostname (name domain : string) : string := name ++ "." ++ domain.

(** The wildcard record beside a hostname. *)
Definition wildcard_of (host : string) : string := "*." ++ host.
#[global] Arguments wildcard_of : simpl never.

(** [upsert_machine]: both calls are made ([tokio::join!]), the first error is
    the result. *)
Definition upsert_machine (name : string) (ipv6 : Ipv6Addr) (domain : string)
    : prog EdgeSig (Result unit DnsError) :=
  let host := machine_hostname name domain in
  main <- @call EdgeSig (DnsUpsertAaaa host ipv6) ;;
  wild <- @call EdgeSig (DnsUpsertAaaa (wildcard_of host) ipv6) ;;
  Ret (match main with Err e => Err e | Ok _ => wild end).

Definition remove_machine (name domain : string) : prog EdgeSig (Result unit DnsError) :=
  let host := machine_hostname name domain in
  main <- @call EdgeSig (DnsRemoveAaaa host) ;;
  wild <- @call EdgeSig (DnsRemoveAaaa (wildcard_of host)) ;;
  Ret (match main with Err e => Err e | Ok _ => wild end).

Definition aaaa_matches (resolved : list Ipv6Addr) (expected : Ipv6Addr) : bool :=
  bool_decide (expected ∈ resolved).

(** One record of [reconcile_pass]: resolve it, re-apply it unless it is right. *)
Definition reconcile_record (name : string) (ipv6 : Ipv6Addr) (reapplied : nat)
    : prog EdgeSig nat :=
  resolved <- @call EdgeSig (ResolveAaaa name) ;;
  match resolved with
  | Err _ =>
      r <- @call EdgeSig (DnsUpsertAaaa name ipv6) ;;
      Ret (match r with Err _ => reapplied | Ok _ => S reapplied end)
  | Ok ips =>
      if aaaa_matches ips ipv6 then Ret reapplied
      else
        r <- @call EdgeSig (DnsUpsertAaaa name ipv6) ;;
        Ret (match r with Err _ => reapplied | Ok _ => S reapplied end)
  end.

Fixpoint reconcile_from (machines : list (string * Ipv6Addr)) (domain : string)
    (reapplied : nat) : prog EdgeSig nat :=
  match machines with
  | [] => Ret reapplied
  | (name, ipv6) :: ms' =>
      let host := machine_hostname name domain in
      n <- reconcile_record host ipv6 reapplied ;;
      n <- reconcile_record (wildcard_of host) ipv6 n ;;
      reconcile_from ms' domain n
  end.

(** [reconcile_pass]. *)
Definition reconcile_pass (machines : list (string * Ipv6Addr)) (domain : string)
    : prog EdgeSig nat :=
  reconcile_from machines domain 0.

(** *** What they do *)

Definition log_dnss (l : list dns_call) (s : edge) : edge :=
  {| kv := kv s; scans := scans s; wg_log := wg_log s; dns_log := dns_log s ++ l;
     mails := mails s; fws := fws s; clock := clock s |}.

Lemma log_dnss_nil s : log_dnss [] s = s.
Proof. destruct s. unfold log_dnss. cbn. by rewrite app_nil_r. Qed.

Lemma log_dns_dnss c s : log_dns c s = log_dnss [c] s.
Proof. done. Qed.

Lemma log_dnss_app l1 l2 s : log_dnss l2 (log_dnss l1 s) = log_dnss (l1 ++ l2) s.
Proof. unfold log_dnss. cbn. by rewrite app_assoc. Qed.

#[export] Hint Rewrite log_dnss_nil log_dns_dnss log_dnss_app : fortress.

(** A call that is acknowledged adds to the log, one that fails adds nothing. *)
Definition logged {E} (r : Result unit E) (c : dns_call) : list dns_call :=
  match r with Ok _ => [c] | Err _ => [] end.

Lemma acked_dns {E} (r : Result unit E) c s s' :
  acked r (log_dns c) s s' <-> s' = log_dnss (logged r c) s.
Proof. destruct r; cbn; [done|]. by rewrite log_dnss_nil. Qed.

Section Naming.
Context (verify : string -> string -> option bool).
Local Abbreviation wpe := (wp (X := EdgeSig) (edge_spec verify)) (only parsing).

(** Both records are attempted whatever happens to the other, and the result
    is [Ok] exactly when both were acknowledged. *)
Definition both_post (c1 c2 : dns_call) (s : edge)
    (o : outcome (Result unit DnsError)) (s' : edge) : Prop :=
  exists r1 r2 : Result unit DnsError,
    o = Done (match r1 with Err e => Err e | Ok _ => r2 end) /\
    s' = log_dnss (logged r1 c1 ++ logged r2 c2) s.

Lemma wp_upsert_machine name ip domain s :
  wpe (upsert_machine name ip domain)
    (both_post (DnsUpserted (machine_hostname name domain) ip)
       (DnsUpserted (wildcard_of (machine_hostname name domain)) ip) s) s.
Proof.
  cbn. intros r1 s1 H1%acked_dns r2 s2 H2%acked_dns. exists r1, r2.
  split; [done|]. subst. by rewrite log_dnss_app.
Qed.

Lemma wp_remove_machine name domain s :
  wpe (remove_machine name domain)
    (both_post (DnsRemoved (machine_hostname name domain))
       (DnsRemoved (wildcard_of (machine_hostname name domain))) s) s.
Proof.
  cbn. intros r1 s1 H1%acked_dns r2 s2 H2%acked_dns. exists r1, r2.
  split; [done|]. subst. by rewrite log_dnss_app.
Qed.

(** The resolver answers [res]; the provider accepts the upsert of a name
    exactly when [up] holds of it. *)
Context (res : string -> Result (list Ipv6Addr) DnsError) (up : string -> bool).

Definition steady_spec (o : edge_op) (s : edge) (r : edge_ret o) (s' : edge) : Prop :=
  edge_spec verify o s r s' /\
  match o return edge_ret o -> Prop with
  | ResolveAaaa n => fun r => r = res n
  | DnsUpsertAaaa n _ => fun r => is_ok r = up n
  | _ => fun _ => True
  end r.

(** The records a pass has to re-apply, and the ones it manages to. *)
Definition needs_reapply (name : string) (ip : Ipv6Addr) : bool :=
  match res name with Ok ips => negb (aaaa_matches ips ip) | Err _ => true end.

Definition machine_records (domain : string) (m : string * Ipv6Addr)
    : list (string * Ipv6Addr) :=
  let host := machine_hostname (fst m) domain in [(host, snd m); (wildcard_of host, snd m)].

Definition to_reapply (l : list (string * Ipv6Addr)) : list (string * Ipv6Addr) :=
  List.filter (fun x => needs_reapply (fst x) (snd x) && up (fst x)) l.

Definition upserts (l : list (string * Ipv6Addr)) : list dns_call :=
  map (fun x => DnsUpserted (fst x) (snd x)) l.

Lemma to_reapply_app l1 l2 : to_reapply (l1 ++ l2) = to_reapply l1 ++ to_reapply l2.
Proof. apply List.filter_app. Qed.

Lemma upserts_app l1 l2 : upserts (l1 ++ l2) = upserts l1 ++ upserts l2.
Proof. apply map_app. Qed.

Lemma wp_reconcile_record name ip n s :
  wp (X := EdgeSig) steady_spec (reconcile_record name ip n)
    (fun o s' => o = Done (n + length (to_reapply [(name, ip)]))%nat /\
                 s' = log_dnss (upserts (to_reapply [(name, ip)])) s) s.
Proof.
  unfold to_reapply, needs_reapply. cbn -[needs_reapply].
  intros r s1 [-> ->].
  destruct (res name) as [ips|e]; [destruct (aaaa_matches ips ip)|]; cbn;
    [rewrite log_dnss_nil; split; [f_equal; lia|done]|..];
    intros r2 s2 [H2 Hup]; apply (acked_dns r2) in H2; cbn in Hup; rewrite <- Hup;
    subst; destruct r2; cbn; rewrite ?log_dnss_nil; (split; [f_equal; lia|done]).
Qed.

Lemma wp_reconcile_from ms domain n s :
  wp (X := EdgeSig) steady_spec (reconcile_from ms domain n)
    (fun o s' =>
       let l := to_reapply (flat_map (machine_records domain) ms) in
       o = Done (n + length l)%nat /\ s' = log_dnss (upserts l) s) s.
Proof.
  revert n s. induction ms as [|[name ip] ms IH]; intros n s.
  { cbn. rewrite log_dnss_nil. split; [f_equal; lia|done]. }
  cbn [reconcile_from]. rewrite wp_bind.
  eapply wp_mono; [|apply wp_reconcile_record]. intros o s1 [-> ->]. cbn [andthen].
  rewrite wp_bind.
  eapply wp_mono; [|apply wp_reconcile_record]. intros o s1 [-> ->]. cbn [andthen].
  eapply wp_mono; [|apply IH]. cbn zeta. intros o s1 [-> ->].
  change (flat_map (machine_records domain) ((name, ip) :: ms))
    with ([(machine_hostname name domain, ip)]
            ++ [(wildcard_of (machine_hostname name domain), ip)]
            ++ flat_map (machine_records domain) ms).
  rewrite !to_reapply_app, !upserts_app, !length_app, !log_dnss_app.
  split; [apply (f_equal Done); lia|done].
Qed.
End Naming.
