(* ===== verification/Wg.v ===== *)
(** The WireGuard client (crates/controlplane/src/controlplane/wg.rs) and key
    generation (crates/core/src/wg.rs).

    The control plane calls the trait [WgClient] (the operations [WgAddPeer],
    [WgRemovePeer] and [WgSetPrivateKey] of World.v).  Here are its two
    implementations: [RealWgClient], as the invocations of the [wg] binary it
    makes, and the recording [MockWgClient] of dummy boots. *)

From stdpp Require Import base strings list pretty.
From Stdlib Require Import ZArith.
From S2P Require Import Prelude Prog ForwarderState World.

Local Open Scope prog_scope.

Definition WG_IFACE : string := "wg0".

(** The [Display] of [WgError]. *)
Definition wg_error_display (e : WgError) : string :=
  match e with
  | WgCommand code stderr => "wg exited with status " ++ pretty code ++ ": " ++ stderr
  | WgIo m => "failed to run wg: " ++ m
  end.

(** A finished process: its exit code ([None] when a signal ended it) and what
    it wrote to standard error. *)
Record Output := MkOutput { status_code : option Z; output_stderr : string }.

Definition status_success (o : Output) : bool := bool_decide (status_code o = Some 0%Z).

(** [checked]. *)
Definition checked (output : Output) : Result unit WgError :=
  if status_success output then Ok tt
  else Err (WgCommand (default (-1)%Z (status_code output)) (output_stderr output)).

(** Running [wg] with arguments and standard input; [Err] when the process
    could not be run. *)
Inductive cmd_op := RunWg (args : list string) (stdin : string).
Definition cmd_ret (o : cmd_op) : Type := Result Output string.
Definition CmdSig : Sig := MkSig cmd_op cmd_ret.

Module Real.
Definition run_wg (args : list string) : prog CmdSig (Result unit WgError) :=
  out <-? @call CmdSig (RunWg (["set"; WG_IFACE] ++ args) "") as WgIo ;;
  Ret (checked out).

Definition add_peer (wg_ip pubkey : string) : prog CmdSig (Result unit WgError) :=
  run_wg ["peer"; pubkey; "allowed-ips"; (wg_ip ++ "/32")%string].

Definition remove_peer (pubkey : string) : prog CmdSig (Result unit WgError) :=
  run_wg ["peer"; pubkey; "remove"].

Definition set_private_key (private_key : string) : prog CmdSig (Result unit WgError) :=
  out <-? @call CmdSig (RunWg ["set"; WG_IFACE; "private-key"; "/dev/stdin"]
                          (private_key ++ String nl "")%string) as WgIo ;;
  Ret (checked out).
End Real.

(** [MockWgClient]: three logs, never an error. *)
Module Mock.
Record MockWgClient := MkMock {
  added : list (string * string);
  removed : list string;
  private_keys : list string;
}.

Definition new : MockWgClient := MkMock [] [] [].

Definition add_peer (wg_ip pubkey : string) (m : MockWgClient)
    : Result unit WgError * MockWgClient :=
  (Ok tt, MkMock (added m ++ [(wg_ip, pubkey)]) (removed m) (private_keys m)).
Definition remove_peer (pubkey : string) (m : MockWgClient)
    : Result unit WgError * MockWgClient :=
  (Ok tt, MkMock (added m) (removed m ++ [pubkey]) (private_keys m)).
Definition set_private_key (key : string) (m : MockWgClient)
    : Result unit WgError * MockWgClient :=
  (Ok tt, MkMock (added m) (removed m) (private_keys m ++ [key])).
End Mock.

(** *** The kernel interface behind [wg set] *)

(** The peers of an interface, by public key, with their allowed IPs, and its
    private key; what the documented [wg set] sub-commands do to them when they
    exit with success. *)
Record Iface := MkIface { peers : list (string * string); iface_key : string }.

Definition drop_peer (pubkey : string) (l : list (string * string)) :=
  List.filter (fun p => negb (bool_decide (fst p = pubkey))) l.

(** An allowed IP belongs to one peer: assigning it takes it from the others. *)
Definition take_ip (ip : string) (l : list (string * string)) :=
  map (fun p => if bool_decide (snd p = ip) then (fst p, ""%string) else p) l.

Definition wg_set (args : list string) (stdin : string) (i : Iface) : option Iface :=
  match args with
  | ["set"; _; "peer"; pk; "allowed-ips"; ip] =>
      Some (MkIface ((pk, ip) :: take_ip ip (drop_peer pk (peers i))) (iface_key i))
  | ["set"; _; "peer"; pk; "remove"] => Some (MkIface (drop_peer pk (peers i)) (iface_key i))
  | ["set"; _; "private-key"; "/dev/stdin"] => Some (MkIface (peers i) (trim stdin))
  | _ => None
  end.

Definition cmd_spec (o : cmd_op) (i : Iface) : cmd_ret o -> Iface -> Prop :=
  match o return cmd_ret o -> Iface -> Prop with
  | RunWg args stdin => fun r i' =>
      match r with
      | Err _ => i' = i
      | Ok out =>
          if status_success out then wg_set args stdin i = Some i' else i' = i
      end
  end.

(** [add_peer] answers [Ok] exactly when the peer has its tunnel address and
    nothing else was dropped; every failure leaves the interface alone. *)
Lemma wp_add_peer ip pk i :
  wp (X := CmdSig) cmd_spec (Real.add_peer ip pk)
    (fun o i' =>
       match o with
       | Done (Ok _) => In (pk, (ip ++ "/32")%string) (peers i') /\
                        (forall q a, q <> pk -> In (q, a) (peers i') ->
                           a <> (ip ++ "/32")%string /\
                           exists a0, In (q, a0) (peers i))
       | Done (Err _) => i' = i
       | _ => False
       end) i.
Proof.
  cbn. intros [out|e] i'; cbn; [|done].
  unfold checked. destruct (status_success out); [|done]. cbn. intros [= <-]. cbn.
  split; [by left|]. intros q a Hq [[= -> _]|Hin]; [done|].
  unfold take_ip in Hin. apply in_map_iff in Hin as ([q' a'] & Heq & Hin).
  apply filter_In in Hin as [Hin _]. cbn in Heq.
  case_bool_decide as Ha; simplify_eq/=; split; eauto. by destruct ip.
Qed.

Lemma wp_remove_peer pk i :
  wp (X := CmdSig) cmd_spec (Real.remove_peer pk)
    (fun o i' =>
       match o with
       | Done (Ok _) => forall q a, In (q, a) (peers i') <-> In (q, a) (peers i) /\ q <> pk
       | Done (Err _) => i' = i
       | _ => False
       end) i.
Proof.
  cbn. intros [out|e] i'; cbn; [|done].
  unfold checked. destruct (status_success out); [|done]. cbn. intros [= <-]. cbn.
  intros q a. unfold drop_peer. rewrite filter_In. cbn.
  rewrite negb_true_iff, bool_decide_eq_false. done.
Qed.
