(* ===== verification/Sockets.v ===== *)
(** The listening socket of a live forward (crates/core/src/retry.rs,
    [bind_tcp_freebind]) and the address it needs on the interface
    (crates/core/src/forwarder.rs, [ensure_ipv6_local]): what the operations [BindTcp]
    with freebind and [EnsureIpv6Local] of World.v do, in system calls. *)

From stdpp Require Import base strings list pretty.
From Stdlib Require Import ZArith Lia Ascii.
From S2P Require Import Prelude Prog Addr World Retry Wg.

Local Open Scope Z_scope.
Local Open Scope prog_scope.

(** ** [std::net::SocketAddr] *)

Inductive SocketAddr :=
| V4 (ip : list Z) (port : Z)
| V6 (ip : list Z) (scope port : Z).

#[export] Instance SocketAddr_eq_dec : EqDecision SocketAddr.
Proof. solve_decision. Defined.

Definition is_ipv6 (a : SocketAddr) : bool := match a with V4 _ _ => false | V6 _ _ _ => true end.

(** [read_port]: a colon and a [u16]; leading zeros are accepted. *)
Definition read_port (s : string) : option (Z * string) :=
  s ← read_char ":" s; read_number 10 65535 (String.length s) true s.

(** [read_scope_id]: a percent sign and a [u32]. *)
Definition read_scope (s : string) : option (Z * string) :=
  s ← read_char "%" s; read_number 10 (2 ^ 32 - 1) (String.length s) true s.

Definition read_v4_addr (s : string) : option (SocketAddr * string) :=
  '(ip, s) ← read_ipv4 s; '(port, s) ← read_port s; Some (V4 ip port, s).

Definition read_v6_addr (s : string) : option (SocketAddr * string) :=
  s ← read_char "[" s;
  '(groups, s) ← read_ipv6 s;
  let '(scope, s) := default (0, s) (read_scope s) in
  s ← read_char "]" s;
  '(port, s) ← read_port s;
  Some (V6 (groups_octets groups) scope port, s).

(** [SocketAddr::from_str]: all of the text is an address. *)
Definition parse_socket_addr (s : string) : option SocketAddr :=
  match (match read_v4_addr s with Some r => Some r | None => read_v6_addr s end) with
  | Some (a, EmptyString) => Some a
  | _ => None
  end.

Example parse_v6_socket :
  parse_socket_addr "[2001:db8::2]:443"
  = Some (V6 [32; 1; 13; 184; 0; 0; 0; 0; 0; 0; 0; 0; 0; 0; 0; 2] 0 443).
Proof. vm_compute. reflexivity. Qed.

Example parse_v4_socket :
  parse_socket_addr "0.0.0.0:8081" = Some (V4 [0; 0; 0; 0] 8081) /\
  parse_socket_addr "2001:db8::2:443" = None /\ parse_socket_addr "1.2.3.4:65536" = None.
Proof. vm_compute. done. Qed.

(** ** System calls *)

Record Socket := MkSocket {
  sk_ipv6 : bool;
  sk_freebind : bool;
  sk_reuse : bool;
  sk_nonblocking : bool;
  sk_bound : option SocketAddr;
  sk_backlog : option Z;
}.

Inductive sock_op :=
| SocketNew (ipv6 : bool)
| SetFreebind
| SetReuseAddress
| SetNonblocking
| SockBind (a : SocketAddr)
| Listen (backlog : Z)
| FromStd                 (** [TcpListener::from_std]: the runtime takes the socket over *)
| DropSocket.             (** the end of [sock]'s scope *)

Definition sock_ret (o : sock_op) : Type :=
  match o with DropSocket => unit | _ => Result unit IoError end.
Definition SockSig : Sig := MkSig sock_op sock_ret.

(** A call in front of [?]: on an error the socket goes out of scope. *)
Definition or_drop (o : prog SockSig (Result unit IoError))
    (k : prog SockSig (Result unit IoError)) : prog SockSig (Result unit IoError) :=
  r <- o ;;
  match r with
  | Ok _ => k
  | Err e => @call SockSig DropSocket ;;; Ret (Err e)
  end.

(** [set_ipv6_freebind], on Linux. *)
Definition set_ipv6_freebind : prog SockSig (Result unit IoError) := @call SockSig SetFreebind.

(** [bind_tcp_freebind]; the text of [AddrParseError] is std's. *)
Definition bind_tcp_freebind (addr : string) : prog SockSig (Result unit IoError) :=
  match parse_socket_addr addr with
  | None => Ret (Err (MkIo OtherKind "invalid socket address syntax"))
  | Some sock_addr =>
      _s <-? @call SockSig (SocketNew (is_ipv6 sock_addr)) as (fun e => e) ;;
      or_drop (if is_ipv6 sock_addr then set_ipv6_freebind else Ret (Ok tt))
      (or_drop (@call SockSig SetReuseAddress)
      (or_drop (@call SockSig SetNonblocking)
      (or_drop (@call SockSig (SockBind sock_addr))
      (or_drop (@call SockSig (Listen 1024))
      (@call SockSig FromStd)))))
  end.

(** [ensure_ipv6_local]: the commands it runs, with their outcome ignored. *)
Inductive ip_op := RunIp (args : list string).
Definition IpSig : Sig := MkSig ip_op (fun _ => Result Output string).

Definition ensure_ipv6_local (iface listen_addr : string) : prog IpSig unit :=
  match parse_socket_addr listen_addr with
  | Some (V6 ip _ _) =>
      @call IpSig (RunIp ["-6"; "addr"; "add"; (display_v6 ip ++ "/128")%string; "dev"; iface]) ;;;
      Ret tt
  | _ => Ret tt
  end.

(** ** What the system promises *)

Section Sockets.
(** The addresses an interface of the host has. *)
Context (local : SocketAddr -> Prop).

(** The socket in hand, and whether the runtime has it. *)
Record sockets := MkSockets { in_hand : option Socket; served : option Socket }.

Definition with_socket (s : sockets) (f : Socket -> Socket) (r : Result unit IoError)
    (s' : sockets) : Prop :=
  match r with
  | Ok _ => exists k, in_hand s = Some k /\ s' = MkSockets (Some (f k)) (served s)
  | Err _ => s' = s
  end.

(** Each call succeeds with its effect or fails without one.  A bind needs an
    address of the host, unless freebind was set before it; [from_std] takes the
    socket over, and drops it when it fails. *)
Definition sock_spec (o : sock_op) (s : sockets) : sock_ret o -> sockets -> Prop :=
  match o return sock_ret o -> sockets -> Prop with
  | SocketNew v6 => fun r s' =>
      match r with
      | Ok _ => s' = MkSockets (Some (MkSocket v6 false false false None None)) (served s)
      | Err _ => s' = s
      end
  | SetFreebind => with_socket s (fun k =>
      MkSocket (sk_ipv6 k) true (sk_reuse k) (sk_nonblocking k) (sk_bound k) (sk_backlog k))
  | SetReuseAddress => with_socket s (fun k =>
      MkSocket (sk_ipv6 k) (sk_freebind k) true (sk_nonblocking k) (sk_bound k) (sk_backlog k))
  | SetNonblocking => with_socket s (fun k =>
      MkSocket (sk_ipv6 k) (sk_freebind k) (sk_reuse k) true (sk_bound k) (sk_backlog k))
  | SockBind a => fun r s' =>
      with_socket s (fun k =>
        MkSocket (sk_ipv6 k) (sk_freebind k) (sk_reuse k) (sk_nonblocking k) (Some a) (sk_backlog k))
        r s' /\
      (r = Ok tt -> local a \/ exists k, in_hand s = Some k /\ sk_freebind k = true)
  | Listen n => with_socket s (fun k =>
      MkSocket (sk_ipv6 k) (sk_freebind k) (sk_reuse k) (sk_nonblocking k) (sk_bound k) (Some n))
  | FromStd => fun r s' =>
      match r with
      | Ok _ => s' = MkSockets None (in_hand s)
      | Err _ => s' = MkSockets None (served s)
      end
  | DropSocket => fun _ s' => s' = MkSockets None (served s)
  end.

Local Abbreviation wps := (wp (X := SockSig) sock_spec) (only parsing).

Lemma wp_or_drop p k Q s :
  wps p (fun o s' => match o with
                     | Done (Ok _) => wps k Q s'
                     | Done (Err e) => Q (Done (Err e)) (MkSockets None (served s'))
                     | _ => False
                     end) s ->
  wps (or_drop p k) Q s.
Proof.
  intros H. unfold or_drop. rewrite wp_bind. eapply wp_mono; [|exact H].
  intros [[[]|e]|m|] s' Hs; cbn [andthen]; [exact Hs| |done|done].
  cbn. by intros _ s2 ->.
Qed.

(** The listener the runtime is left with. *)
Definition listening (a : SocketAddr) : Socket :=
  MkSocket (is_ipv6 a) (is_ipv6 a) true true (Some a) (Some 1024).

(** One call of the chain: it fails and the socket goes, or it has its effect. *)
Local Ltac chain_call :=
  apply wp_or_drop; intros [[]|?] ? Hcall;
  [cbn in Hcall; first [destruct Hcall as (k & [= <-] & ->)
                       |destruct Hcall as [(k & [= <-] & ->) Hlocal]]; cbv beta iota
  |cbn in Hcall; first [destruct Hcall as [-> _]; done|subst; done]].

(** [bind_tcp_freebind] answers with a listener exactly as the relay needs it: bound
    to the address that was parsed, listening, not blocking, with freebind set, and set
    before the bind, if and only if the address is IPv6; or with an error and
    no socket left open.  An address that does not parse is not retried. *)
Lemma wp_bind_tcp_freebind addr l :
  wps (bind_tcp_freebind addr)
    (fun o s' =>
       match o with
       | Done (Ok _) => exists a, parse_socket_addr addr = Some a /\
           s' = MkSockets None (Some (listening a)) /\ (is_ipv6 a = true \/ local a)
       | Done (Err e) => s' = MkSockets None l /\
           (parse_socket_addr addr = None -> is_transient_bind_err e = false)
       | _ => False
       end) (MkSockets None l).
Proof.
  unfold bind_tcp_freebind. destruct (parse_socket_addr addr) as [a|] eqn:Ha; [|done].
  unfold bind_try. intros [[]|e] s' Hs; cbn in Hs; subst s'; [|done]. cbn [bind].
  apply wp_or_drop.
  assert (forall s1, s1 = MkSockets (Some (MkSocket (is_ipv6 a) (is_ipv6 a) false false None None)) l ->
    wps (or_drop (@call SockSig SetReuseAddress) (or_drop (@call SockSig SetNonblocking)
      (or_drop (@call SockSig (SockBind a)) (or_drop (@call SockSig (Listen 1024))
      (@call SockSig FromStd)))))
      (fun o s' =>
       match o with
       | Done (Ok _) => exists a0, Some a = Some a0 /\
           s' = MkSockets None (Some (listening a0)) /\ (is_ipv6 a0 = true \/ local a0)
       | Done (Err e) => s' = MkSockets None l /\
           (Some a = None -> is_transient_bind_err e = false)
       | _ => False
       end) s1) as Hrest.
  { intros s1 ->. do 4 chain_call. intros [[]|e] s' Hs; cbn in Hs; subst s'; [|done].
    exists a. split; [done|]. split; [done|]. destruct (Hlocal eq_refl) as [?|(k & [= <-] & Hk)]; auto. }
  destruct (is_ipv6 a) eqn:Hv6; [|by apply Hrest].
  intros [[]|e] s' Hs; cbn in Hs; [|by subst].
  destruct Hs as (k & [= <-] & ->). cbv beta iota. by apply Hrest.
Qed.
End Sockets.

(** [ensure_ipv6_local] runs one command for an IPv6 address and none otherwise,
    and always returns, whatever the command did. *)
Lemma wp_ensure_ipv6_local iface listen_addr (s : list (list string)) :
  wp (X := IpSig) (fun o s r s' => match o with RunIp args => s' = (s ++ [args])%list end)
    (ensure_ipv6_local iface listen_addr)
    (fun o s' => o = Done tt /\
       s' = (s ++ match parse_socket_addr listen_addr with
                  | Some (V6 ip _ _) =>
                      [["-6"; "addr"; "add"; (display_v6 ip ++ "/128")%string; "dev"; iface]]
                  | _ => []
                  end)%list) s.
Proof.
  unfold ensure_ipv6_local. destruct (parse_socket_addr listen_addr) as [[ip p|ip sc p]|];
    cbn; rewrite ?app_nil_r; [done|by intros _ s' ->|done].
Qed.
