(* ===== verification/Store.v ===== *)
(** Reasoning about programs that work on the Redis store.

    Two specifications of the world are used.  [edge_spec] lets every call fail,
    a failing Redis command included; [healthy_spec] is the same world while
    Redis answers every command, and lets everything else fail.  Under the
    second the store commands of a program are executed symbolically
    ([wp_healthy_redis]); under the first a store invariant is carried through a
    program by the [stable] rules. *)

From stdpp Require Import base gmap strings list.
From Stdlib Require Import ZArith Lia.
From S2P Require Import Prelude Prog Addr ForwarderState World Retry Forwarder.

Local Open Scope prog_scope.

(** The key a command works on. *)
Definition cmd_key (c : rcmd) : string :=
  match c with
  | RGet k | RSet k _ | RSetEx k _ _ | RSetNx k _ | RSetExNx k _ _ | RDel k | RGetDel k
  | RExists k | RIncr k _ | RDecr k _ | RRPush k _ | RLRem1 k _ | RLRange k => k
  | RScan _ _ => ""
  end.

Lemma redis_apply_other c m k :
  k <> cmd_key c -> snd (redis_apply c m) !! k = m !! k.
Proof.
  intros Hk. destruct c; cbn -[decide] in *; unfold add_checked;
    repeat (first [ progress cbn [snd]
                  | rewrite lookup_insert_ne by congruence
                  | rewrite lookup_delete_ne by congruence
                  | reflexivity
                  | match goal with |- context [match ?x with _ => _ end] => destruct x end ]).
Qed.

(** The keys of [P] hold what they held in [m0]. *)
Definition keeps_keys (P : string -> Prop) (m0 m : gmap string rval) : Prop :=
  forall k, P k -> m !! k = m0 !! k.

Section Store.
Context (verify : string -> string -> option bool).
Local Abbreviation wpe := (wp (X := EdgeSig) (edge_spec verify)) (only parsing).

Definition is_scan (c : rcmd) : bool := match c with RScan _ _ => true | _ => false end.

Definition healthy_spec (o : edge_op) (s : edge) (r : edge_ret o) (s' : edge) : Prop :=
  edge_spec verify o s r s' /\
  match o return edge_ret o -> Prop with
  | RedisConn => fun r => r = Ok tt
  | Redis c => fun r =>
      if is_scan c then is_ok r = true
      else r = fst (redis_apply c (kv s)) /\ s' = set_kv (snd (redis_apply c (kv s))) s
  | _ => fun _ => True
  end r.

Local Abbreviation wph := (wp (X := EdgeSig) healthy_spec) (only parsing).

Lemma healthy_edge o s r s' : healthy_spec o s r s' -> edge_spec verify o s r s'.
Proof. by intros [H _]. Qed.

Lemma wp_healthy {A} (p : prog EdgeSig A) Q s : wpe p Q s -> wph p Q s.
Proof. apply wp_spec_mono, healthy_edge. Qed.

(** *** Healthy Redis: the commands are executed *)

Lemma wp_healthy_redis {A} c (k : Result (rok c) RedisError -> prog EdgeSig A) Q s :
  is_scan c = false ->
  wph (k (fst (redis_apply c (kv s)))) Q (set_kv (snd (redis_apply c (kv s))) s) ->
  wph (bind (redis c) k) Q s.
Proof.
  intros Hc H r s' [_ Hr]. cbn in r, Hr. rewrite Hc in Hr. by destruct Hr as [-> ->].
Qed.

Lemma wp_healthy_conn {A} (k : Result unit RedisError -> prog EdgeSig A) Q s :
  wph (k (Ok tt)) Q s -> wph (bind conn k) Q s.
Proof. intros H r s' [Hs Hr]. cbn in Hs, Hr. by subst. Qed.

(** *** Any Redis: what the state can be after a command *)

Lemma redis_spec_cases c s r s' :
  is_scan c = false -> edge_spec verify (Redis c) s r s' ->
  (exists e, r = Err e /\ (s' = s \/ s' = set_kv (snd (redis_apply c (kv s))) s)) \/
  (r = fst (redis_apply c (kv s)) /\ s' = set_kv (snd (redis_apply c (kv s))) s).
Proof. by destruct c. Qed.

(** A command in front of [?]. *)
Lemma wp_redis_try {B E} c (conv : RedisError -> E)
    (k : rok c -> prog EdgeSig (Result B E)) Q s :
  is_scan c = false ->
  (forall e s', s' = s \/ s' = set_kv (snd (redis_apply c (kv s))) s ->
     Q (Done (Err (conv e))) s') ->
  (forall a, fst (redis_apply c (kv s)) = Ok a ->
     wpe (k a) Q (set_kv (snd (redis_apply c (kv s))) s)) ->
  wpe (bind_try conv (redis c) k) Q s.
Proof.
  intros Hc He Ha. unfold bind_try. intros r s' Hr. apply redis_spec_cases in Hr; [|done].
  destruct Hr as [(e & -> & Hs) | [-> ->]]; [by apply He|].
  destruct (fst (redis_apply c (kv s))) as [a|e] eqn:Hf; [by apply Ha|].
  apply He. by right.
Qed.

(** *** Store invariants *)

(** Every operation of [p] keeps the property [I] of the store, whatever fails and
    whatever others, who keep it too, do to the store between two operations. *)
Fixpoint stable {A} (I : gmap string rval -> Prop) (p : prog EdgeSig A) : Prop :=
  match p with
  | Vis o k => forall s r s', I (kv s) -> edge_spec verify o s r s' -> I (kv s') /\ stable I (k r)
  | _ => True
  end.

(** In particular when [p] runs alone. *)
Lemma stable_wp {A} I (p : prog EdgeSig A) s :
  stable I p -> I (kv s) -> wpe p (fun _ s' => I (kv s')) s.
Proof.
  revert s. induction p as [a|m| |o k IH]; intros s Hp Hs; [done..|].
  intros r s' Hr. destruct (Hp s r s' Hs Hr) as [Hs' Hk]. by apply IH.
Qed.

(** Operations that do not touch the store. *)
Definition off_store (o : edge_op) : bool :=
  match o with Redis _ => false | _ => true end.

Lemma off_store_kv o s r s' :
  off_store o = true -> edge_spec verify o s r s' -> kv s' = kv s.
Proof.
  destruct o; try done; intros _; cbn;
    repeat match goal with
           | |- acked ?r _ _ _ -> _ => destruct r; cbn
           | |- taken ?r _ _ _ -> _ => destruct r; cbn
           end;
    try (by intros ->); try (by intros [-> | ->]); try (by intros [_ ->]);
    [by intros (_ & _ & ->)|by intros (t & _ & _ & ->)].
Qed.

Section Stable.
Context (I : gmap string rval -> Prop).

Lemma stable_ret {A} (a : A) : stable I (Ret a).
Proof. done. Qed.

Lemma stable_panic {A} m : stable I (Panic m : prog EdgeSig A).
Proof. done. Qed.

Lemma stable_fuel {A} : stable I (OutOfFuel : prog EdgeSig A).
Proof. done. Qed.

Lemma stable_bind {A B} (p : prog EdgeSig A) (k : A -> prog EdgeSig B) :
  stable I p -> (forall a, stable I (k a)) -> stable I (bind p k).
Proof.
  intros Hp Hk. induction p as [a|m| |o f IH]; cbn in *; [apply Hk|done..|].
  intros s r s' Hs Hr. destruct (Hp s r s' Hs Hr). auto.
Qed.

Lemma stable_try {A B E F} (conv : E -> F) (p : prog EdgeSig (Result A E))
    (k : A -> prog EdgeSig (Result B F)) :
  stable I p -> (forall a, stable I (k a)) -> stable I (bind_try conv p k).
Proof.
  intros Hp Hk. apply stable_bind; [done|]. intros [a|e]; [done|apply stable_ret].
Qed.

Lemma stable_off o : off_store o = true -> stable I (@call EdgeSig o).
Proof. intros Ho s r s' Hs Hr. split; [|done]. by rewrite (off_store_kv o s r s' Ho Hr). Qed.

Lemma stable_redis c :
  is_scan c = false -> (forall m, I m -> I (snd (redis_apply c m))) ->
  stable I (redis c).
Proof.
  intros Hc HI s r s' Hs Hr. split; [|done]. apply redis_spec_cases in Hr; [|done].
  destruct Hr as [(e & _ & [-> | ->]) | [_ ->]]; cbn; auto.
Qed.

Lemma stable_scan cur pat : stable I (redis (RScan cur pat)).
Proof.
  intros s r s' Hs [(e & _ & ->) | (n & pg & rest & ow & _ & _ & _ & _ & _ & ->)]; done.
Qed.

(** A value that was read was there in some state that kept [I]. *)
Lemma stable_get_try {B E} key (conv : RedisError -> E)
    (k : option string -> prog EdgeSig (Result B E)) :
  (forall o, (exists s, I (kv s) /\ read_str (kv s !! key) = Ok o) -> stable I (k o)) ->
  stable I (bind_try conv (redis (RGet key)) k).
Proof.
  intros Hk s r s' Hs Hr. pose proof (stable_redis (RGet key) eq_refl (fun m Hm => Hm)) as Hg.
  split; [by apply (Hg s r s')|]. apply redis_spec_cases in Hr; [|done].
  destruct Hr as [(e & -> & _)|[-> _]]; [done|]. cbn [redis_apply fst].
  destruct (read_str (kv s !! key)) as [o|e] eqn:Ek; [|done]. apply Hk. eauto.
Qed.

(** Commands that only read. *)
Lemma stable_get k : stable I (redis (RGet k)).
Proof. by apply stable_redis. Qed.
Lemma stable_exists k : stable I (redis (RExists k)).
Proof. by apply stable_redis. Qed.
Lemma stable_lrange k : stable I (redis (RLRange k)).
Proof. by apply stable_redis. Qed.

Lemma stable_expect {A B} (o : option A) m (k : A -> prog EdgeSig B) :
  (forall a, o = Some a -> stable I (k a)) -> stable I (expect o m k).
Proof. destruct o; cbn [expect]; [auto|]. intros _. apply stable_panic. Qed.

Lemma stable_assert {A} b m (k : prog EdgeSig A) :
  (b = true -> stable I k) -> stable I (assert_ b m k).
Proof. destruct b; cbn [assert_]; [auto|]. intros _. apply stable_panic. Qed.
End Stable.

(** A command on another key keeps the keys of [P]. *)
Lemma stable_keeps (P : string -> Prop) m0 c :
  is_scan c = false -> ~ P (cmd_key c) -> stable (keeps_keys P m0) (redis c).
Proof.
  intros Hs Hc. apply stable_redis; [done|]. intros m Hm k Hk.
  rewrite redis_apply_other; [by apply Hm|]. by intros ->.
Qed.

Lemma wp_keeps {A} P (p : prog EdgeSig A) s :
  (forall m0, stable (keeps_keys P m0) p) ->
  wpe p (fun _ s' => keeps_keys P (kv s) (kv s')) s.
Proof. intros H. by apply stable_wp. Qed.
End Store.
#[global] Arguments stable : simpl never.

Create HintDb stable.
#[export] Hint Resolve stable_ret stable_panic stable_fuel stable_bind stable_try
  stable_get stable_exists stable_lrange stable_scan : stable.
#[export] Hint Extern 1 (stable _ _ (call _)) => apply stable_off; reflexivity : stable.
#[export] Hint Extern 1 (stable _ _ (Vis _ _)) => apply stable_off; reflexivity : stable.
#[export] Hint Extern 1 (stable _ _ conn) => apply stable_off; reflexivity : stable.

(** Walk through a program whose store commands are dealt with by the [stable]
    hints, splitting on the matches in its way. *)
Ltac stable_step :=
  match goal with
  | |- stable _ _ (bind _ _) => apply stable_bind; [|intros ?]
  | |- stable _ _ (bind_try _ _ _) => apply stable_try; [|intros ?]
  | |- stable _ _ (expect _ _ _) => apply stable_expect; intros ? ?
  | |- stable _ _ (assert_ _ _ _) => apply stable_assert; intros ?
  | |- stable _ _ (match ?x with _ => _ end) => destruct x eqn:?
  | |- stable _ _ _ => solve [eauto with stable]
  end.
Ltac stable_walk := repeat stable_step.

Section Off.
Context (verify : string -> string -> option bool) (I : gmap string rval -> Prop).

Lemma stable_update f : stable verify I (update f).
Proof. unfold update. stable_walk. Qed.

Lemma stable_retry_loop fuel b net addr t dl d n :
  stable verify I b -> stable verify I (retry_loop fuel b net addr t dl d n).
Proof.
  intros Hb. revert d n. induction fuel as [|fuel IH]; intros d n; cbn [retry_loop].
  - apply stable_fuel.
  - stable_walk.
Qed.

Lemma stable_bind_listener f fb fwd : stable verify I (bind_listener f fb fwd).
Proof.
  unfold bind_listener, retry_bind_tcp_freebind, retry_bind_tcp, retry_bind_udp,
    retry_with_backoff.
  destruct (proto fwd), fb; stable_walk; apply stable_retry_loop; by apply stable_off.
Qed.
Hint Resolve stable_update stable_bind_listener : stable.

Lemma stable_add_forward f fwd : stable verify I (add_forward f fwd).
Proof.
  unfold add_forward, get_state, ensure_local, bind_failed. stable_walk.
Qed.

Lemma stable_remove_forward fwd : stable verify I (remove_forward_prog fwd).
Proof. unfold remove_forward_prog. stable_walk. Qed.
End Off.
#[export] Hint Resolve stable_update stable_bind_listener stable_add_forward
  stable_remove_forward : stable.

(** ** Programs along a preorder of states *)

(** Every run of [p], whatever fails, takes the state along [R]. *)
Section Along.
Context (verify : string -> string -> option bool).
Context (R : edge -> edge -> Prop) `{!PreOrder R}.
Local Abbreviation wpe := (wp (X := EdgeSig) (edge_spec verify)) (only parsing).

Definition along {A} (p : prog EdgeSig A) : Prop := forall s, wpe p (fun _ s' => R s s') s.

Lemma along_ret {A} (a : A) : along (Ret a).
Proof. intros s. cbn. reflexivity. Qed.
Lemma along_panic {A} m : along (Panic m : prog EdgeSig A).
Proof. intros s. cbn. reflexivity. Qed.
Lemma along_fuel {A} : along (OutOfFuel : prog EdgeSig A).
Proof. intros s. cbn. reflexivity. Qed.

Lemma along_bind {A B} (p : prog EdgeSig A) (k : A -> prog EdgeSig B) :
  along p -> (forall a, along (k a)) -> along (bind p k).
Proof.
  intros Hp Hk s. rewrite wp_bind. eapply wp_mono; [|apply Hp].
  intros [a|m|] s1 H1; cbn; [|done..]. eapply wp_mono; [|apply Hk].
  intros o s2 H2. by transitivity s1.
Qed.

Lemma along_try {A B E F} (conv : E -> F) (p : prog EdgeSig (Result A E))
    (k : A -> prog EdgeSig (Result B F)) :
  along p -> (forall a, along (k a)) -> along (bind_try conv p k).
Proof. intros Hp Hk. apply along_bind; [done|]. intros [a|e]; [done|apply along_ret]. Qed.

Lemma along_op o : (forall s r s', edge_spec verify o s r s' -> R s s') -> along (@call EdgeSig o).
Proof. intros Ho s r s' Hr. by apply (Ho s r). Qed.

Lemma along_expect {A B} (o : option A) m (k : A -> prog EdgeSig B) :
  (forall a, along (k a)) -> along (expect o m k).
Proof. destruct o; cbn; [auto|]. intros _. apply along_panic. Qed.

Lemma along_assert {A} b m (k : prog EdgeSig A) : along k -> along (assert_ b m k).
Proof. destruct b; cbn; [auto|]. intros _. apply along_panic. Qed.
End Along.

(** ** Programs that wire nothing *)

(** Operations that leave the WireGuard interface, the DNS zone and the
    forwarder alone. *)
Definition wireless (o : edge_op) : bool :=
  match o with
  | WgAddPeer _ _ | WgRemovePeer _ | WgSetPrivateKey _ | DnsUpsertAaaa _ _
  | DnsRemoveAaaa _ | FwdUpdate _ => false
  | _ => true
  end.

(** The wiring a state shows. *)
Definition same_wiring (s s' : edge) : Prop :=
  wg_log s' = wg_log s /\ dns_log s' = dns_log s /\ fws s' = fws s.

#[export] Instance same_wiring_preorder : PreOrder same_wiring.
Proof.
  split; [by intros s|]. intros s1 s2 s3 (E1 & E2 & E3) (F1 & F2 & F3).
  split_and!; congruence.
Qed.

Abbreviation quiet verify := (along verify same_wiring).

(** ** Programs that only read *)

Definition read_op (o : edge_op) : bool :=
  match o with
  | RedisConn | Redis (RGet _) | Redis (RExists _) | Redis (RLRange _) | Redis (RScan _ _) => true
  | _ => false
  end.

(** The same store, outbox and wiring. *)
Definition same_data (s s' : edge) : Prop :=
  kv s' = kv s /\ mails s' = mails s /\ same_wiring s s'.

#[export] Instance same_data_preorder : PreOrder same_data.
Proof.
  split; [by intros s|]. intros s1 s2 s3 (E1 & E2 & E3) (F1 & F2 & F3).
  split_and!; [congruence..|]. by transitivity s2.
Qed.

Abbreviation read_only verify := (along verify same_data).

Section Ops.
Context (verify : string -> string -> option bool).

Lemma wireless_same o s r s' :
  wireless o = true -> edge_spec verify o s r s' -> same_wiring s s'.
Proof.
  destruct o as [|c| | | | | | |to_ sb bd| | | | | | | |d| |]; try done; intros _.
  - by intros ->.
  - destruct (is_scan c) eqn:Hc.
    + destruct c; try done.
      by intros [(e & _ & ->) | (n & pg & rest & ow & _ & _ & _ & _ & _ & ->)].
    + intros Hr. apply redis_spec_cases in Hr; [|done].
      by destruct Hr as [(e & _ & [-> | ->]) | [_ ->]].
  - by intros ->.
  - cbn. destruct r; cbn; [by intros ->|by intros [-> | ->]].
  - by intros (_ & _ & ->).
  - by intros ->.
  - by intros [_ ->].
  - by intros ->.
  - by intros ->.
  - by intros ->.
  - by intros [_ ->].
  - by intros (t & _ & _ & ->).
  - by intros ->.
Qed.

Lemma read_same o s r s' : read_op o = true -> edge_spec verify o s r s' -> same_data s s'.
Proof.
  destruct o as [|c| | | | | | | | | | | | | | | | |]; try done; [by intros _ ->|].
  intros Ho Hr.
  destruct (is_scan c) eqn:Hc.
  - destruct c; try done.
    by destruct Hr as [(e & _ & ->) | (n & pg & rest & ow & _ & _ & _ & _ & _ & ->)].
  - assert (s' = s \/ s' = set_kv (snd (redis_apply c (kv s))) s) as [-> | ->].
    { apply redis_spec_cases in Hr; [|done].
      destruct Hr as [(e & _ & [-> | ->]) | [_ ->]]; auto. }
    + done.
    + by destruct c.
Qed.

Lemma quiet_op o : wireless o = true -> quiet verify (@call EdgeSig o).
Proof. intros Ho. apply along_op. intros s r s'. by apply wireless_same. Qed.

Lemma read_only_op o : read_op o = true -> read_only verify (@call EdgeSig o).
Proof. intros Ho. apply along_op. intros s r s'. by apply read_same. Qed.

Lemma quiet_redis c : quiet verify (redis c).
Proof. by apply quiet_op. Qed.
End Ops.

Create HintDb along.
#[export] Hint Resolve along_ret along_panic along_fuel quiet_redis : along.
#[export] Hint Extern 1 (along _ same_wiring (redis _)) => apply quiet_redis : along.
#[export] Hint Extern 1 (along _ same_wiring conn) => apply quiet_op; reflexivity : along.
#[export] Hint Extern 1 (along _ same_wiring (call _)) => apply quiet_op; reflexivity : along.
#[export] Hint Extern 1 (along _ same_data (redis _)) => apply read_only_op; reflexivity : along.
#[export] Hint Extern 1 (along _ same_data conn) => apply read_only_op; reflexivity : along.

(** Walk through a program whose operations are dealt with by the [along] hints. *)
Ltac along_step :=
  match goal with
  | |- along _ _ (bind _ _) => apply along_bind; [typeclasses eauto| |intros ?]
  | |- along _ _ (bind_try _ _ _) => apply along_try; [typeclasses eauto| |intros ?]
  | |- along _ _ (expect _ _ _) => apply along_expect; [typeclasses eauto|intros ?]
  | |- along _ _ (assert_ _ _ _) => apply along_assert; [typeclasses eauto|]
  | |- along _ _ (match ?x with _ => _ end) => destruct x eqn:?
  | |- along _ _ _ => solve [eauto with along typeclass_instances]
  end.
Ltac along_walk := repeat along_step.
