(* ===== verification/Crates.v ===== *)
(** Third-party code the program calls as pure functions, as parameters.

    Nothing is said of these crates beyond what their documentation promises:
    serde_json reads back what it wrote, and so on; the promises are the laws
    below, and a theorem that needs one says so.  [Concrete] gives one instance
    of each, for running the program on concrete inputs. *)

From stdpp Require Import base strings list countable pretty.
From Stdlib Require Import ZArith Ascii Lia.
From S2P Require Import Prelude Addr World.

(** serde_json for one type. *)
Class Serde (A : Type) := {
  to_json : A -> string;
  from_json : string -> Result A string;
}.

Class SerdeLaws (A : Type) `{Serde A} := {
  from_to_json (a : A) : from_json (to_json a) = Ok a;
}.

#[export] Hint Rewrite @from_to_json using typeclasses eauto : fortress.

Class Crates := {
  (** base64's STANDARD engine *)
  b64_decode : string -> option (list Z);
  b64_encode : list Z -> string;
  (** x25519_dalek: the public key of a secret *)
  x25519_public : list Z -> list Z;
  (** sha2::Sha256::digest *)
  sha256 : string -> list Z;
  (** the hex crate *)
  hex_encode : list Z -> string;
  hex_decode : string -> option (list Z);
  (** bcrypt::verify; [None] is an error (a malformed hash) *)
  bcrypt_verify : string -> string -> option bool;
  (** lettre::message::Mailbox::from_str accepts the address *)
  mailbox_ok : string -> bool;
  (** redis::Client::open accepts the URL *)
  redis_url_ok : string -> bool;
  (** Display of a Redis error *)
  redis_display : RedisError -> string;
}.

(** The digits the hex crate writes. *)
Definition is_hex_lower (c : ascii) : bool := is_ascii_digit c || ch_between "a" "f" c.

Class CratesLaws `{Crates} := {
  b64_roundtrip l : b64_decode (b64_encode l) = Some l;
  hex_roundtrip l : forallb is_byte l = true -> hex_decode (hex_encode l) = Some l;
  x25519_length l : length (x25519_public l) = 32%nat;
  sha256_length s : length (sha256 s) = 32%nat;
  b64_text l : str_forallb (fun c => negb (is_whitespace c)) (b64_encode l) = true;
  hex_text l : str_forallb is_hex_lower (hex_encode l) = true;
  hex_length l : String.length (hex_encode l) = (2 * length l)%nat;
}.

(** ** One concrete instance *)

Module Concrete.
Fixpoint bits_to_string (p : positive) : string :=
  match p with
  | xH => "e"
  | xO p' => String "0"%char (bits_to_string p')
  | xI p' => String "1"%char (bits_to_string p')
  end.

Fixpoint string_to_bits (s : string) : option positive :=
  match s with
  | String "e"%char EmptyString => Some xH
  | String "0"%char s' => xO <$> string_to_bits s'
  | String "1"%char s' => xI <$> string_to_bits s'
  | _ => None
  end.

Lemma string_to_bits_to_string p : string_to_bits (bits_to_string p) = Some p.
Proof. induction p as [p IH|p IH|]; cbn; by rewrite ?IH. Qed.

(** A text encoding of any countable type. *)
Definition serde (A : Type) `{Countable A} : Serde A := {|
  to_json a := bits_to_string (encode a);
  from_json s :=
    match string_to_bits s with
    | Some p => match decode p with Some a => Ok a | None => Err "no such value"%string end
    | None => Err "expected value"%string
    end;
|}.

Lemma serde_laws (A : Type) `{Countable A} : @SerdeLaws A (serde A).
Proof.
  split. intros a. cbn. by rewrite string_to_bits_to_string, decode_encode.
Qed.

(** Bytes as text, and back. *)
Definition enc : list Z -> string := to_json (Serde := serde (list Z)).
Definition dec (s : string) : option (list Z) :=
  match from_json (Serde := serde (list Z)) s with Ok l => Some l | Err _ => None end.

Lemma dec_enc l : dec (enc l) = Some l.
Proof. unfold dec, enc. by rewrite (@from_to_json _ _ (serde_laws (list Z))). Qed.

Fixpoint str_bytes (s : string) : list Z :=
  match s with
  | EmptyString => []
  | String c s' => Z.of_N (Ascii.N_of_ascii c) :: str_bytes s'
  end.

Definition pad32 (l : list Z) : list Z := take 32 (l ++ replicate 32 0%Z).

Lemma pad32_length l : length (pad32 l) = 32%nat.
Proof. unfold pad32. rewrite length_take, length_app, length_replicate. lia. Qed.

(** Hexadecimal. *)
Fixpoint hex_enc (l : list Z) : string :=
  match l with
  | [] => ""
  | b :: l' => String (hex_digit (b / 16 mod 16)) (String (hex_digit (b mod 16)) (hex_enc l'))
  end.

Fixpoint hex_dec (s : string) : option (list Z) :=
  match s with
  | EmptyString => Some []
  | String a (String b s') =>
      x ← digit_val a; y ← digit_val b; l ← hex_dec s'; Some ((16 * x + y)%Z :: l)
  | _ => None
  end.

Lemma hex_digit_ok d :
  (0 <= d < 16)%Z -> digit_val (hex_digit d) = Some d /\ is_hex_lower (hex_digit d) = true.
Proof.
  intros Hd.
  assert (d ∈ [0; 1; 2; 3; 4; 5; 6; 7; 8; 9; 10; 11; 12; 13; 14; 15]%Z) as H
    by (rewrite !elem_of_cons; lia).
  rewrite !elem_of_cons, elem_of_nil in H. by naive_solver.
Qed.

Lemma hex_dec_enc l : forallb is_byte l = true -> hex_dec (hex_enc l) = Some l.
Proof.
  induction l as [|b l IH]; cbn [hex_enc hex_dec forallb]; [done|].
  rewrite andb_true_iff. unfold is_byte. rewrite andb_true_iff, Z.leb_le, Z.ltb_lt.
  intros [Hb Hl].
  rewrite !(proj1 (hex_digit_ok _ (Z.mod_pos_bound _ 16 ltac:(lia)))). cbn [mbind option_bind].
  rewrite (IH Hl). cbn [mbind option_bind]. do 2 f_equal.
  rewrite (Z.mod_small (b / 16)) by (split; [apply Z.div_pos|apply Z.div_lt_upper_bound]; lia).
  symmetry. apply Z.div_mod. lia.
Qed.

Lemma hex_enc_text l : str_forallb is_hex_lower (hex_enc l) = true.
Proof.
  induction l as [|b l IH]; cbn [hex_enc str_forallb]; [done|].
  by rewrite !(proj2 (hex_digit_ok _ (Z.mod_pos_bound _ 16 ltac:(lia)))), IH.
Qed.

Lemma hex_enc_length l : String.length (hex_enc l) = (2 * length l)%nat.
Proof. induction l as [|b l IH]; cbn [hex_enc String.length length]; [done|]. rewrite IH. lia. Qed.

Definition crates : Crates := {|
  b64_decode s := dec s;
  b64_encode := enc;
  x25519_public := pad32;
  sha256 s := pad32 (str_bytes s);
  hex_encode := hex_enc;
  hex_decode := hex_dec;
  bcrypt_verify pw h := Some (bool_decide (h = ("$2b$" ++ pw)%string));
  mailbox_ok s := contains_char "@" s;
  redis_url_ok _ := true;
  redis_display e :=
    match e with
    | RedisServer m => m
    | RedisResponse d m => (d ++ ": " ++ m)%string
    end;
|}.

Definition bcrypt_hash (pw : string) : string := "$2b$" ++ pw.

Lemma bits_text p : str_forallb (fun c => negb (is_whitespace c)) (bits_to_string p) = true.
Proof. induction p as [p IH|p IH|]; cbn; [exact IH..|done]. Qed.

Lemma crates_laws : @CratesLaws crates.
Proof. split; intros; first [apply dec_enc | by apply hex_dec_enc | apply pad32_length | apply bits_text | apply hex_enc_text
                              | apply hex_enc_length]. Qed.

Lemma bcrypt_hash_ok pw : bcrypt_verify (Crates := crates) pw (bcrypt_hash pw) = Some true.
Proof. cbn. by rewrite bool_decide_eq_true_2. Qed.

(** 32 bytes of key material, and its text. *)
Definition key32 (b : Z) : string := enc (replicate 32 b).
End Concrete.
