(* ===== verification/Errors.v ===== *)
(** The error types of the control plane, their texts and their conversions
    (controlplane/mod.rs, account.rs, pairing.rs, mail.rs). *)

From stdpp Require Import base strings.
From S2P Require Import Prelude World Crates Dns Wg.

Inductive AccountError :=
| AccInvalidEmail (email : string)
| AccInvalidPassword (why : string)
| AccDuplicateEmail (email : string)
| AccNotFound
| AccInvalidCredentials
| AccNotVerified (email : string)
| AccInvalidToken
| AccCorrupt (what : string)
| AccRedis (e : RedisError)
| AccMail (e : MailerError).

Inductive ControlPlaneError :=
| CpRedis (e : RedisError)
| CpNotFound (name : string)
| CpAllocExhausted (what : string)
| CpForward (what : string)
| CpWg (e : WgError)
| CpDns (e : DnsError)
| CpInvalidName (name : string)
| CpInvalidPubkey (key : string)
| CpDuplicate (name : string)
| CpAccount (e : AccountError).

Inductive InviteError :=
| InvInvalidCode (code : string)
| InvUnknown (code : string)
| InvForbidden (code : string)
| InvNotWaiting (code : string)
| InvNotBegun (code : string)
| InvNameTaken (name : string)
| InvInvalidName (name : string)
| InvInvalidPubkey (key : string)
| InvCorrupt (what : string)
| InvAccount (e : AccountError)
| InvRedis (e : RedisError).

Definition mailer_error_display (e : MailerError) : string :=
  match e with
  | MailAddress m => "address: " ++ m
  | MailBuild m => "message: " ++ m
  | MailSmtp m => "smtp: " ++ m
  | MockFailure => "mock mailer: injected send failure"
  end.

Section Display.
Context `{CR : Crates}.

Definition account_error_display (e : AccountError) : string :=
  match e with
  | AccInvalidEmail m => "invalid email: " ++ m
  | AccInvalidPassword m => "invalid password: " ++ m
  | AccDuplicateEmail m => "account already exists: " ++ m
  | AccNotFound => "account not found"
  | AccInvalidCredentials => "invalid credentials"
  | AccNotVerified m => "account not verified: " ++ m
  | AccInvalidToken => "invalid or expired token"
  | AccCorrupt m => "corrupt account record: " ++ m
  | AccRedis e => "redis error: " ++ redis_display e
  | AccMail e => "mailer: " ++ mailer_error_display e
  end.

Definition cp_error_display (e : ControlPlaneError) : string :=
  match e with
  | CpRedis e => "redis error: " ++ redis_display e
  | CpNotFound m => "machine not found: " ++ m
  | CpAllocExhausted m => "allocation exhausted: " ++ m
  | CpForward m => "forwarder: " ++ m
  | CpWg e => "wg: " ++ wg_error_display e
  | CpDns e => "dns: " ++ dns_error_display e
  | CpInvalidName m => "invalid machine name: " ++ m
  | CpInvalidPubkey m => "invalid wireguard public key: " ++ m
  | CpDuplicate m => "machine name already taken: " ++ m
  | CpAccount e => "account: " ++ account_error_display e
  end.

(** [impl From<ControlPlaneError> for AccountError]. *)
Definition account_of_cp (e : ControlPlaneError) : AccountError :=
  match e with
  | CpRedis e => AccRedis e
  | other => AccCorrupt (cp_error_display other)
  end.

(** [impl From<ControlPlaneError> for InviteError]. *)
Definition invite_of_cp (e : ControlPlaneError) : InviteError :=
  match e with
  | CpRedis e => InvRedis e
  | CpDuplicate name => InvNameTaken name
  | CpInvalidName name => InvInvalidName name
  | CpInvalidPubkey key => InvInvalidPubkey key
  | other => InvCorrupt (cp_error_display other)
  end.

Definition invite_error_display (e : InviteError) : string :=
  match e with
  | InvInvalidCode m => "invalid invite code: " ++ m
  | InvUnknown m => "invite not found: " ++ m
  | InvForbidden m => "not the inviting account: " ++ m
  | InvNotWaiting m => "invite is not waiting: " ++ m
  | InvNotBegun m => "no machine has claimed this invite yet: " ++ m
  | InvNameTaken m => "machine name already taken: " ++ m
  | InvInvalidName m => "invalid machine name: " ++ m
  | InvInvalidPubkey m => "invalid wireguard public key: " ++ m
  | InvCorrupt m => "corrupt invite record: " ++ m
  | InvAccount e => "account: " ++ account_error_display e
  | InvRedis e => "redis error: " ++ redis_display e
  end.
End Display.
