(* ===== verification/ControlPlane.v ===== *)
(** The control plane's core (crates/controlplane/src/controlplane/mod.rs):
    machines, their allocation, the boot-time rehydration, deletion, and the
    DNS reconciliation.  The proofs about it are in Allocation.v and
    Machines.v. *)

From stdpp Require Import base gmap strings list pretty countable.
From Stdlib Require Import ZArith Lia Ascii.
From S2P Require Import Prelude Prog Addr AddrText ForwarderState World Retry Forwarder.
From S2P Require Import Dns Wg Crates Errors.

Local Open Scope prog_scope.

Definition MACHINE_KEY : string := "fortress:machine:".
Definition ALLOC_COUNTER : string := "fortress:alloc:next".
Definition MACHINE_INDEX : string := "fortress:machines".
Definition EDGE_FORWARDS : list (Z * Z) := [(80, 8080); (443, 8443)]%Z.
Definition WG_ENDPOINT_PORT : Z := 51820.
Definition DUMMY_ROOT_DOMAIN : string := "dev.local".
Definition DUMMY_EDGE_WG_PRIV : string := "KKwuhbBylIlBdWtTEa0Krl5NoYGTUrKTkZf7VEsXXGA=".

Definition machine_forward (ipv6 wg_ip : string) (ports : Z * Z) : Forward := {|
  listen_addr := "[" ++ ipv6 ++ "]:" ++ pretty (fst ports);
  proto := Tcp;
  dest_addr := wg_ip ++ ":" ++ pretty (snd ports);
|}.

Record TunnelInfo := MkTunnelInfo {
  ti_public_key : string;
  ti_endpoint : string;
  ti_allowed_ips : string;
}.

Record Machine := MkMachine {
  m_name : string;
  m_owner : option string;
  m_hostname : string;
  m_ipv6 : string;
  m_wg_ip : string;
  m_wg_public_key : string;
  m_device_token_hash : option string;
}.

#[export] Instance Machine_eq_dec : EqDecision Machine.
Proof. solve_decision. Defined.

#[export] Instance Machine_countable : Countable Machine.
Proof.
  refine (inj_countable'
    (fun m => (m_name m, m_owner m, m_hostname m, m_ipv6 m, m_wg_ip m,
               m_wg_public_key m, m_device_token_hash m))
    (fun '(a, b, c, d, e, f, g) => MkMachine a b c d e f g) _).
  by intros [].
Defined.

Definition set_pubkey (k : string) (m : Machine) : Machine :=
  MkMachine (m_name m) (m_owner m) (m_hostname m) (m_ipv6 m) (m_wg_ip m) k
    (m_device_token_hash m).
Definition set_token_hash (h : string) (m : Machine) : Machine :=
  MkMachine (m_name m) (m_owner m) (m_hostname m) (m_ipv6 m) (m_wg_ip m)
    (m_wg_public_key m) (Some h).

Record SignupResponse := MkSignup { machine : Machine; edge_public_key_ : string }.

Inductive SignupOutcome :=
| Created (r : SignupResponse)
| Existing (r : SignupResponse).

(** The fields of [ControlPlane] that are data; its clients are the operations
    of the world. *)
Record ControlPlane := MkControlPlane {
  subnet : Subnet64;
  wg_subnet : WgSubnet;
  root_domain_ : string;
  edge_wg_private_key : string;
  alloc_key : string;
}.

Definition RESERVED : list string :=
  ["www"; "mail"; "mx"; "smtp"; "imap"; "webmail"; "autodiscover"; "ns"; "ns1";
   "ns2"; "ftp"; "api"; "admin"; "edge"; "fortress"; "redis"; "vault"; "status";
   "docs"; "vpn"; "jellyfin"; "cryptpad"; "radarr"; "sonarr"; "seerr"; "media";
   "caddy"; "dex"].

Definition name_char (b : ascii) : bool :=
  is_ascii_lowercase b || is_ascii_digit b || Ascii.eqb b "-".

Definition validate_machine_name (name : string) : Result unit ControlPlaneError :=
  let ok := Nat.leb 6 (String.length name)
            && Nat.leb (String.length name) 63
            && negb (starts_with "-" name)
            && negb (ends_with "-" name)
            && negb (contains_str "--" name)
            && negb (bool_decide (name ∈ RESERVED))
            && str_forallb name_char name in
  if ok then Ok tt else Err (CpInvalidName name).

Definition machine_key (name : string) : string := MACHINE_KEY ++ name.

#[global] Arguments machine_key : simpl never.
#[global] Arguments MACHINE_INDEX : simpl never.
#[global] Arguments ALLOC_COUNTER : simpl never.
#[global] Arguments machine_forward : simpl never.
#[global] Arguments machine_hostname : simpl never.

Section ControlPlane.
Context `{CR : Crates} `{SM : Serde Machine}.

Definition validate_wg_pubkey (public_key : string) : Result unit ControlPlaneError :=
  let ok := match b64_decode public_key with
            | Some b => Nat.eqb (length b) 32
            | None => false
            end in
  if ok then Ok tt else Err (CpInvalidPubkey public_key).

(** [ControlPlane::edge_public_key]; [None] is the panic on a key that is not
    base64. *)
Definition edge_public_key (cp : ControlPlane) : option (Result string ControlPlaneError) :=
  priv ← b64_decode (edge_wg_private_key cp);
  if Nat.eqb (length priv) 32
  then Some (Ok (b64_encode (x25519_public priv)))
  else Some (Err (CpWg (WgIo "edge private key is not 32 bytes"))).

Definition root_domain {A} (cp : ControlPlane) (k : string -> prog EdgeSig A)
    : prog EdgeSig A :=
  assert_ (negb (is_empty (root_domain_ cp))) "root domain must be non-empty"
    (k (root_domain_ cp)).

(** [edge_public_key()?] in a handler. *)
Definition with_edge_key {A E} (cp : ControlPlane) (conv : ControlPlaneError -> E)
    (k : string -> prog EdgeSig (Result A E)) : prog EdgeSig (Result A E) :=
  expect (edge_public_key cp) "store-held edge key is base64" (fun r =>
    match r with Ok key => k key | Err e => Ret (Err (conv e)) end).

Definition tunnel_info (cp : ControlPlane)
    : prog EdgeSig (Result TunnelInfo ControlPlaneError) :=
  with_edge_key cp (fun e => e) (fun key =>
    root_domain cp (fun domain =>
      expect (to_string (wg_subnet cp)) "prefix is byte-aligned by construction" (fun ips =>
        let info := MkTunnelInfo key (domain ++ ":" ++ pretty WG_ENDPOINT_PORT) ips in
        assert_ (ends_with (":" ++ pretty WG_ENDPOINT_PORT) (ti_endpoint info))
          "the endpoint carries the wg dial port"
        (assert_ (contains_char "/" (ti_allowed_ips info))
          "allowed-ips is a CIDR range, e.g. 10.10.0.0/24"
        (Ret (Ok info)))))).

Definition install_edge_identity (cp : ControlPlane)
    : prog EdgeSig (Result unit ControlPlaneError) :=
  x <-? @call EdgeSig (WgSetPrivateKey (edge_wg_private_key cp)) as CpWg ;;
  Ret (Ok x).

(** [serde_json::from_str] of a machine record, its error wrapped. *)
Definition machine_from_json (json : string) : Result Machine ControlPlaneError :=
  map_err (fun err => CpRedis (RedisResponse "corrupt machine record" (json ++ ": " ++ err)))
    (from_json json).

(** The rollback's unwiring, and [delete]'s. *)
Fixpoint remove_forwards (ipv6 wg_ip : string) (ports : list (Z * Z))
    : prog EdgeSig unit :=
  match ports with
  | [] => Ret tt
  | p :: ports' =>
      remove_forward_prog (machine_forward ipv6 wg_ip p) ;;;
      remove_forwards ipv6 wg_ip ports'
  end.

(** [rollback_allocation]. *)
Definition rollback_allocation (name : string) (m : Machine) : prog EdgeSig unit :=
  c <- conn ;;
  match c with
  | Err _ => Ret tt
  | Ok _ =>
      d <- redis (RDel (machine_key name)) ;;
      match d with
      | Err _ => Ret tt
      | Ok _ =>
          r <- redis (RLRem1 MACHINE_INDEX name) ;;
          match r with
          | Err _ => Ret tt
          | Ok _ =>
              @call EdgeSig (WgRemovePeer (m_wg_public_key m)) ;;;
              remove_forwards (m_ipv6 m) (m_wg_ip m) EDGE_FORWARDS
          end
      end
  end.

(** The idempotent / rotate path of [allocate_machine]: the name has a record. *)
Definition allocate_existing (key public_key json edge_key : string)
    : prog EdgeSig (Result SignupOutcome ControlPlaneError) :=
  match machine_from_json json with
  | Err e => Ret (Err e)
  | Ok m =>
      if bool_decide (m_wg_public_key m = public_key) then
        @call EdgeSig (WgAddPeer (m_wg_ip m) public_key) ;;;
        Ret (Ok (Existing (MkSignup m edge_key)))
      else
        @call EdgeSig (WgRemovePeer (m_wg_public_key m)) ;;;
        _a <-? @call EdgeSig (WgAddPeer (m_wg_ip m) public_key) as CpWg ;;
        let m := set_pubkey public_key m in
        _s <-? redis (RSet key (to_json m)) as CpRedis ;;
        Ret (Ok (Existing (MkSignup m edge_key)))
  end.

(** The wiring loop: add each forward, roll back at the first failure. *)
Fixpoint wire_forwards (fwdr : Forwarder) (name : string) (m : Machine)
    (ports : list (Z * Z)) : prog EdgeSig (Result unit ControlPlaneError) :=
  match ports with
  | [] => Ret (Ok tt)
  | p :: ports' =>
      let fwd := machine_forward (m_ipv6 m) (m_wg_ip m) p in
      r <- add_forward fwdr fwd ;;
      match r with
      | Err err =>
          rollback_allocation name m ;;;
          Ret (Err (CpForward ("add forward " ++ listen_addr fwd ++ ": "
                                 ++ run_error_display err)))
      | Ok _ => wire_forwards fwdr name m ports'
      end
  end.

(** The live wiring of a committed record: peer, forwards, DNS. *)
Definition wire_machine (cp : ControlPlane) (fwdr : Forwarder) (name : string)
    (m : Machine) (edge_key : string)
    : prog EdgeSig (Result SignupOutcome ControlPlaneError) :=
  w <- @call EdgeSig (WgAddPeer (m_wg_ip m) (m_wg_public_key m)) ;;
  match w with
  | Err err => rollback_allocation name m ;;; Ret (Err (CpWg err))
  | Ok _ =>
      _f <-? wire_forwards fwdr name m EDGE_FORWARDS as (fun e => e) ;;
      expect (parse (m_ipv6 m) : option Ipv6Addr) "allocated /128 parses" (fun ip =>
        upsert_machine name ip (root_domain_ cp) ;;;
        Ret (Ok (Created (MkSignup m edge_key))))
  end.

(** The fresh-allocation path. *)
Definition allocate_fresh (cp : ControlPlane) (fwdr : Forwarder)
    (owner : option string) (name public_key edge_key : string)
    : prog EdgeSig (Result SignupOutcome ControlPlaneError) :=
  _n <-? redis (RSetNx (alloc_key cp) (RInt 1)) as CpRedis ;;
  index <-? redis (RIncr (alloc_key cp) 1) as CpRedis ;;
  if (index <? 2)%Z
  then Ret (Err (CpAllocExhausted "allocation counter below host 2"))
  else
    expect (host_string (subnet cp) index) "host index exceeds capacity" (fun ipv6 =>
    expect (host_string (wg_subnet cp) index) "host index exceeds capacity" (fun wg_ip =>
      let m := MkMachine name owner (machine_hostname name (root_domain_ cp)) ipv6 wg_ip
                 public_key None in
      set <-? redis (RSetNx (machine_key name) (RStr (to_json m) None)) as CpRedis ;;
      if negb set then
        _d <-? redis (RDecr (alloc_key cp) 1) as CpRedis ;;
        Ret (Err (CpDuplicate name))
      else
        _p <-? redis (RRPush MACHINE_INDEX name) as CpRedis ;;
        wire_machine cp fwdr name m edge_key)).

(** [ControlPlane::allocate_machine]. *)
Definition allocate_machine (cp : ControlPlane) (FORWARDER : option Forwarder)
    (owner : option string) (name public_key : string)
    : prog EdgeSig (Result SignupOutcome ControlPlaneError) :=
  match validate_machine_name name with
  | Err e => Ret (Err e)
  | Ok _ =>
      match validate_wg_pubkey public_key with
      | Err e => Ret (Err e)
      | Ok _ =>
          expect FORWARDER "forwarder not initialized" (fun fwdr =>
            _c <-? conn as CpRedis ;;
            existing <-? redis (RGet (machine_key name)) as CpRedis ;;
            with_edge_key cp (fun e => e) (fun edge_key =>
              match existing with
              | Some json => allocate_existing (machine_key name) public_key json edge_key
              | None => allocate_fresh cp fwdr owner name public_key edge_key
              end))
      end
  end.

Definition store_machine (m : Machine) : prog EdgeSig (Result unit ControlPlaneError) :=
  _c <-? conn as CpRedis ;;
  _s <-? redis (RSet (machine_key (m_name m)) (to_json m)) as CpRedis ;;
  Ret (Ok tt).

Fixpoint list_from (names : list string) : prog EdgeSig (Result (list Machine) ControlPlaneError) :=
  match names with
  | [] => Ret (Ok [])
  | name :: names' =>
      json <-? redis (RGet (machine_key name)) as CpRedis ;;
      match json with
      | None => list_from names'
      | Some json =>
          match machine_from_json json with
          | Err e => Ret (Err e)
          | Ok m =>
              ms' <-? list_from names' as (fun e => e) ;;
              Ret (Ok (m :: ms'))
          end
      end
  end.

(** [ControlPlane::list]. *)
Definition list_machines : prog EdgeSig (Result (list Machine) ControlPlaneError) :=
  _c <-? conn as CpRedis ;;
  names <-? redis (RLRange MACHINE_INDEX) as CpRedis ;;
  list_from names.

Fixpoint rehydrate_forwards (fwdr : Forwarder) (m : Machine) (ports : list (Z * Z))
    : prog EdgeSig unit :=
  match ports with
  | [] => Ret tt
  | p :: ports' =>
      add_forward fwdr (machine_forward (m_ipv6 m) (m_wg_ip m) p) ;;;
      rehydrate_forwards fwdr m ports'
  end.

Fixpoint rehydrate_from (fwdr : Forwarder) (l : list Machine) (count : nat)
    : prog EdgeSig nat :=
  match l with
  | [] => Ret count
  | m :: l' =>
      match (parse (m_ipv6 m) : option Ipv6Addr) with
      | None => rehydrate_from fwdr l' count
      | Some _ =>
          @call EdgeSig (WgAddPeer (m_wg_ip m) (m_wg_public_key m)) ;;;
          rehydrate_forwards fwdr m EDGE_FORWARDS ;;;
          rehydrate_from fwdr l' (S count)
      end
  end.

(** [ControlPlane::rehydrate]. *)
Definition rehydrate (fwdr : Forwarder) : prog EdgeSig (Result nat ControlPlaneError) :=
  machines <-? list_machines as (fun e => e) ;;
  count <- rehydrate_from fwdr machines 0 ;;
  Ret (Ok count).

(** The store side of [delete]. *)
Definition drop_entry (name : string) : prog EdgeSig (Result unit ControlPlaneError) :=
  _d <-? redis (RDel (machine_key name)) as CpRedis ;;
  _r <-? redis (RLRem1 MACHINE_INDEX name) as CpRedis ;;
  Ret (Ok tt).

(** [ControlPlane::delete]. *)
Definition delete_machine (cp : ControlPlane) (FORWARDER : option Forwarder) (name : string)
    : prog EdgeSig (Result unit ControlPlaneError) :=
  expect FORWARDER "forwarder not initialized" (fun _fwdr =>
    _c <-? conn as CpRedis ;;
    json <-? redis (RGet (machine_key name)) as CpRedis ;;
    match json with
    | None => Ret (Err (CpNotFound name))
    | Some json =>
        match (from_json json : Result Machine string) with
        | Err _ => drop_entry name
        | Ok m =>
            @call EdgeSig (WgRemovePeer (m_wg_public_key m)) ;;;
            remove_forwards (m_ipv6 m) (m_wg_ip m) EDGE_FORWARDS ;;;
            remove_machine name (root_domain_ cp) ;;;
            drop_entry name
        end
    end).

(** The pairs [reconcile_dns_once] passes on: records whose address parses. *)
Definition reconcile_pairs (l : list Machine) : list (string * Ipv6Addr) :=
  omap (fun m => (fun ip => (m_name m, ip)) <$> (parse (m_ipv6 m) : option Ipv6Addr)) l.

(** [ControlPlane::reconcile_dns_once]. *)
Definition reconcile_dns_once (cp : ControlPlane)
    : prog EdgeSig (Result nat ControlPlaneError) :=
  machines <-? list_machines as (fun e => e) ;;
  n <- reconcile_pass (reconcile_pairs machines) (root_domain_ cp) ;;
  Ret (Ok n).

(** ** Boot *)

(** The process globals: [OnceCell]s that keep their first value. *)
Record Globals := MkGlobals {
  G_FORWARDER : option Forwarder;
  G_CONTROL_PLANE : option ControlPlane;
}.

(** [ControlPlane::new] and [with_deps]: the URL must open. *)
Definition open_control_plane (redis_url : string) (sub : Subnet64) (wgsub : WgSubnet)
    (domain wg_key : string) : Result ControlPlane ControlPlaneError :=
  if redis_url_ok redis_url
  then Ok (MkControlPlane sub wgsub domain wg_key ALLOC_COUNTER)
  else Err (CpRedis (RedisServer redis_url)).

Definition build_cp (redis_url : string) (sub : Subnet64) (wgsub : WgSubnet)
    (domain wg_key : string) : prog EdgeSig (Result ControlPlane ControlPlaneError) :=
  match open_control_plane redis_url sub wgsub domain wg_key with
  | Err e => Ret (Err e)
  | Ok cp => _i <-? install_edge_identity cp as (fun e => e) ;; Ret (Ok cp)
  end.

(** [init_forwarder_and_store]: the globals it leaves, and its result. *)
Definition init_forwarder_and_store (g : Globals) (redis_url : string) (sub : Subnet64)
    (wgsub : WgSubnet) (iface : option string) (domain wg_key : string)
    : prog EdgeSig (Globals * Result unit ControlPlaneError) :=
  now <- @call EdgeSig Now ;;
  let fwd :=
    match G_FORWARDER g with
    | Some f => Ok f
    | None =>
        match new_live
                {| cfg_forwards := cfg_forwards Config_default;
                   shutdown_timeout := shutdown_timeout Config_default;
                   bind_timeout := bind_timeout Config_default;
                   udp_flow_idle := udp_flow_idle Config_default;
                   component := component Config_default;
                   ipv6_iface := iface |} now with
        | Ok f => Ok f
        | Err err => Err (CpForward ("forwarder init: " ++ config_error_display err))
        end
    end in
  match fwd with
  | Err e => Ret (g, Err e)
  | Ok f =>
      let g := MkGlobals (Some f) (G_CONTROL_PLANE g) in
      cp <- match G_CONTROL_PLANE g with
            | Some cp => Ret (Ok cp)
            | None => build_cp redis_url sub wgsub domain wg_key
            end ;;
      match cp with
      | Err e => Ret (g, Err e)
      | Ok cp =>
          let g := MkGlobals (Some f) (Some cp) in
          r <- rehydrate f ;;
          Ret (g, match r with Ok _ => Ok tt | Err e => Err e end)
      end
  end.

(** [init_globals]: the dummy boot injects its own domain and key. *)
Definition init_globals (g : Globals) (redis_url : string) (sub : Subnet64)
    (wgsub : WgSubnet) (iface : option string) (dummy : bool)
    (secret_domain secret_key : string)
    : prog EdgeSig (Globals * Result unit ControlPlaneError) :=
  if dummy
  then init_forwarder_and_store g redis_url sub wgsub iface DUMMY_ROOT_DOMAIN
         DUMMY_EDGE_WG_PRIV
  else init_forwarder_and_store g redis_url sub wgsub iface secret_domain secret_key.
End ControlPlane.
