(* ===== verification/Allocation.v ===== *)
(** Allocation: names are DNS labels, and the store never gives two machines
    one address.  The invariant [alloc_inv] is kept by [allocate_machine],
    [store_machine] and [delete_machine] whatever fails, each run on its own;
    EdgeProps.v shows what interleaving does to it. *)

From stdpp Require Import base gmap strings list pretty.
From Stdlib Require Import ZArith Lia Ascii.
From S2P Require Import Prelude Prog Addr NumText AddrText ForwarderState World Retry.
From S2P Require Import Forwarder Dns Wg Store Crates Errors ControlPlane.

Local Open Scope prog_scope.
Local Open Scope Z_scope.

(** ** Names *)

Lemma contains_str_spec p s :
  contains_str p s = true <-> exists a b, s = (a ++ p ++ b)%string.
Proof.
  induction s as [|c s IH]; cbn [contains_str]; rewrite orb_true_iff.
  - rewrite starts_with_spec. split.
    + intros [[t Ht]|]; [|done]. by exists ""%string, t.
    + intros (a & b & H). left. destruct a; [|done]. by exists b.
  - rewrite starts_with_spec, IH. split.
    + intros [[t Ht] | (a & b & ->)]; [by exists ""%string, t|by exists (String c a), b].
    + intros ([|d a] & b & H); [left; by exists b|]. right.
      change ((String d a ++ p ++ b)%string) with (String d (a ++ p ++ b)) in H.
      injection H as -> ->. by exists a, b.
Qed.

Lemma ends_with_spec p s : ends_with p s = true <-> exists t, s = (t ++ p)%string.
Proof.
  unfold ends_with. rewrite starts_with_spec. split; intros [t Ht].
  - exists (str_rev t). apply (f_equal str_rev) in Ht.
    by rewrite str_rev_app, !str_rev_involutive in Ht.
  - exists (str_rev t). by rewrite Ht, str_rev_app.
Qed.

(** A DNS label of at least six characters that no infrastructure uses. *)
Definition machine_label (name : string) : Prop :=
  (6 <= String.length name <= 63)%nat /\
  str_forallb name_char name = true /\
  (forall t, name <> ("-" ++ t)%string) /\
  (forall t, name <> (t ++ "-")%string) /\
  (forall a b, name <> (a ++ "--" ++ b)%string) /\
  name ∉ RESERVED.

Lemma validate_machine_name_spec name :
  validate_machine_name name = Ok tt <-> machine_label name.
Proof.
  unfold validate_machine_name, machine_label.
  assert (forall b : bool, (if b then Ok tt else Err (CpInvalidName name)) = Ok tt
                           <-> b = true) as -> by (by intros []).
  rewrite !andb_true_iff, !negb_true_iff, !Nat.leb_le, bool_decide_eq_false.
  rewrite <- !not_true_iff_false, starts_with_spec, ends_with_spec, contains_str_spec.
  naive_solver.
Qed.

Lemma validate_machine_name_err name e :
  validate_machine_name name = Err e -> e = CpInvalidName name.
Proof. unfold validate_machine_name. destruct (_ && _); naive_solver. Qed.

(** ** Addresses of a subnet as text *)

Section HostString.
Context {A : Type} `{AB : AddrBytes A, AL : !AddrBytesLaws A, AT : !AddrTextLaws A}.

Lemma display_inj (a b : A) : display a = display b -> a = b.
Proof. intros H. apply (f_equal parse) in H. rewrite !parse_display in H. by injection H. Qed.

Lemma host_string_inj (s : Subnet A) i j t :
  subnet_wf s -> 0 <= i -> 0 <= j ->
  host_string s i = Some t -> host_string s j = Some t -> i = j.
Proof.
  unfold host_string. intros Hwf Hi Hj H1 H2.
  apply fmap_Some in H1 as (a & Ha & ->). apply fmap_Some in H2 as (b & Hb & Heq).
  apply display_inj in Heq as <-. by eapply host_inj.
Qed.

Lemma host_string_parse (s : Subnet A) i t :
  host_string s i = Some t -> exists a : A, parse t = Some a /\ display a = t.
Proof.
  unfold host_string. intros H. apply fmap_Some in H as (a & _ & ->).
  exists a. by rewrite parse_display.
Qed.

Lemma host_string_total (s : Subnet A) i :
  subnet_wf s -> is_Some (host_string s i) <-> i <= max_host s.
Proof. intros Hwf. unfold host_string. rewrite fmap_is_Some. by apply host_total. Qed.
End HostString.

(** ** The store *)

Section Alloc.
Context `{CR : Crates} `{SM : Serde Machine} `{SL : !SerdeLaws Machine}.
Context (cp : ControlPlane).

Definition cp_wf : Prop :=
  subnet_wf (subnet cp) /\ subnet_wf (wg_subnet cp) /\ alloc_key cp = ALLOC_COUNTER.

(** The allocation counter is at [n]; absent counts as 1. *)
Definition counter_at (m : gmap string rval) (n : Z) : Prop :=
  (m !! alloc_key cp = None /\ n = 1) \/ m !! alloc_key cp = Some (RInt n).

Definition record_of (m : gmap string rval) (name : string) (mc : Machine) : Prop :=
  m !! machine_key name = Some (RStr (to_json mc) None) /\ m_name mc = name.

(** The two addresses of host index [i]. *)
Definition routed (mc : Machine) (i : Z) : Prop :=
  host_string (subnet cp) i = Some (m_ipv6 mc) /\
  host_string (wg_subnet cp) i = Some (m_wg_ip mc).

(** Counter at [n], every record routed by an index of [2..bound], no two
    records with an address in common. *)
Definition alloc_ok (m : gmap string rval) (n bound : Z) : Prop :=
  1 <= bound <= n /\ counter_at m n /\
  (forall name v, m !! machine_key name = Some v ->
     exists mc i, record_of m name mc /\ 2 <= i <= bound /\ routed mc i) /\
  (forall n1 n2 mc1 mc2, record_of m n1 mc1 -> record_of m n2 mc2 ->
     m_ipv6 mc1 = m_ipv6 mc2 \/ m_wg_ip mc1 = m_wg_ip mc2 -> n1 = n2).

Definition alloc_inv (m : gmap string rval) : Prop := exists n, alloc_ok m n n.

Lemma to_json_inj (a b : Machine) : to_json a = to_json b -> a = b.
Proof.
  intros H. apply (f_equal from_json) in H. rewrite !from_to_json in H. by injection H.
Qed.

Lemma record_of_unique m name mc mc' :
  record_of m name mc -> record_of m name mc' -> mc = mc'.
Proof. intros [H1 _] [H2 _]. rewrite H1 in H2. injection H2 as H. by apply to_json_inj. Qed.

Lemma machine_key_inj a b : machine_key a = machine_key b -> a = b.
Proof. apply str_app_inj_l. Qed.

Lemma machine_key_index name : machine_key name <> MACHINE_INDEX.
Proof. done. Qed.

Lemma machine_key_alloc name : cp_wf -> machine_key name <> alloc_key cp.
Proof. intros (_ & _ & ->). done. Qed.

Lemma index_alloc : cp_wf -> MACHINE_INDEX <> alloc_key cp.
Proof. intros (_ & _ & ->). done. Qed.

(** [alloc_ok] looks at the counter and at the records. *)
Lemma alloc_ok_ext m m' n bound :
  m' !! alloc_key cp = m !! alloc_key cp ->
  (forall name, m' !! machine_key name = m !! machine_key name) ->
  alloc_ok m n bound -> alloc_ok m' n bound.
Proof.
  intros Hc Hm. unfold alloc_ok, counter_at, record_of. rewrite Hc. setoid_rewrite Hm. done.
Qed.

Lemma alloc_ok_index m n bound v :
  cp_wf -> alloc_ok m n bound -> alloc_ok (<[MACHINE_INDEX := v]> m) n bound.
Proof.
  intros Hwf. apply alloc_ok_ext.
  - apply lookup_insert_ne, index_alloc, Hwf.
  - intros name. by apply lookup_insert_ne.
Qed.

Lemma alloc_ok_index_del m n bound :
  cp_wf -> alloc_ok m n bound -> alloc_ok (delete MACHINE_INDEX m) n bound.
Proof.
  intros Hwf. apply alloc_ok_ext.
  - apply lookup_delete_ne, index_alloc, Hwf.
  - intros name. by apply lookup_delete_ne.
Qed.

Lemma alloc_ok_counter m n n' bound :
  cp_wf -> n <= n' -> alloc_ok m n bound -> alloc_ok (<[alloc_key cp := RInt n']> m) n' bound.
Proof.
  intros Hwf Hn (Hb & _ & Hr & Hu).
  assert (forall name, (<[alloc_key cp := RInt n']> m) !! machine_key name
                       = m !! machine_key name) as Hm
    by (intros; apply lookup_insert_ne, not_eq_sym, machine_key_alloc, Hwf).
  unfold alloc_ok, record_of in *. split_and!; [lia|lia| |..].
  - right. apply lookup_insert_eq.
  - setoid_rewrite Hm. done.
  - setoid_rewrite Hm. done.
Qed.

Lemma alloc_ok_weaken m n b b' : b <= b' <= n -> alloc_ok m n b -> alloc_ok m n b'.
Proof.
  intros Hb (H1 & H2 & H3 & H4). split_and!; try done; [lia|lia|].
  intros name v Hv. destruct (H3 name v Hv) as (mc & i & ? & ? & ?).
  exists mc, i. split_and!; try done; lia.
Qed.

Lemma record_insert_eq m name mc mc' :
  record_of (<[machine_key name := RStr (to_json mc) None]> m) name mc' -> mc' = mc.
Proof. intros [H _]. rewrite lookup_insert_eq in H. injection H as H. by apply to_json_inj. Qed.

Lemma record_insert_ne m name name' v mc :
  name' <> name ->
  record_of (<[machine_key name := v]> m) name' mc <-> record_of m name' mc.
Proof.
  intros Hne. unfold record_of. rewrite lookup_insert_ne; [done|].
  intros H. by apply machine_key_inj in H.
Qed.

(** Storing a record of a fresh index, or over a record of the same route. *)
Lemma alloc_ok_insert m n b b' name mc i :
  cp_wf -> alloc_ok m n b -> b <= b' <= n -> m_name mc = name -> 2 <= i <= b' ->
  routed mc i ->
  (forall other mc' , other <> name -> record_of m other mc' ->
     m_ipv6 mc' <> m_ipv6 mc /\ m_wg_ip mc' <> m_wg_ip mc) ->
  alloc_ok (<[machine_key name := RStr (to_json mc) None]> m) n b'.
Proof.
  intros Hwf (H1 & H2 & H3 & H4) Hb Hname Hi Hr Hnew. split_and!; [lia|lia| | |].
  - unfold counter_at. rewrite lookup_insert_ne by (by apply machine_key_alloc). done.
  - intros name' v. destruct (decide (name' = name)) as [->|Hne].
    + intros _. exists mc, i. split_and!; try done; try lia. split; [|done].
      apply lookup_insert_eq.
    + rewrite lookup_insert_ne by (intros H; by apply machine_key_inj in H).
      intros Hv. destruct (H3 name' v Hv) as (mc' & j & ? & ? & ?).
      exists mc', j. rewrite record_insert_ne by done. split_and!; try done; lia.
  - intros n1 n2 mc1 mc2 Hm1 Hm2 Heq.
    destruct (decide (n1 = name)) as [->|Hn1], (decide (n2 = name)) as [->|Hn2]; [done|..].
    + apply record_insert_eq in Hm1 as ->. apply record_insert_ne in Hm2; [|done].
      destruct (Hnew n2 mc2 Hn2 Hm2). naive_solver.
    + apply record_insert_eq in Hm2 as ->. apply record_insert_ne in Hm1; [|done].
      destruct (Hnew n1 mc1 Hn1 Hm1). naive_solver.
    + apply record_insert_ne in Hm1, Hm2; [|done..]. by eapply H4.
Qed.

Lemma alloc_ok_fresh m n name mc :
  cp_wf -> alloc_ok m (n + 1) n -> m_name mc = name -> routed mc (n + 1) ->
  alloc_ok (<[machine_key name := RStr (to_json mc) None]> m) (n + 1) (n + 1).
Proof.
  intros Hwf Hok Hname Hr. pose proof Hok as (Hb & _ & H3 & _).
  apply (alloc_ok_insert m (n + 1) n (n + 1) name mc (n + 1)); try done; try lia.
  intros other mc' Hne Hrec. destruct (H3 other _ (proj1 Hrec)) as (mc2 & i & Hrec2 & Hi & Hr').
  rewrite (record_of_unique _ _ _ _ Hrec2 Hrec) in Hr'.
  destruct Hwf as (Hw1 & Hw2 & _), Hr as [Hr1 Hr2], Hr' as [Hr1' Hr2'].
  split; intros Heq.
  - rewrite Heq in Hr1'. pose proof (host_string_inj (subnet cp) i (n + 1) _ Hw1
      ltac:(lia) ltac:(lia) Hr1' Hr1). lia.
  - rewrite Heq in Hr2'. pose proof (host_string_inj (wg_subnet cp) i (n + 1) _ Hw2
      ltac:(lia) ltac:(lia) Hr2' Hr2). lia.
Qed.

(** Storing over a record without changing its route. *)
Lemma alloc_ok_update m n name mc mc' :
  cp_wf -> alloc_ok m n n -> record_of m name mc ->
  m_name mc' = name -> m_ipv6 mc' = m_ipv6 mc -> m_wg_ip mc' = m_wg_ip mc ->
  alloc_ok (<[machine_key name := RStr (to_json mc') None]> m) n n.
Proof.
  intros Hwf Hok Hrec Hn H6 H4. pose proof Hok as (Hb & _ & H3 & Hu).
  destruct (H3 name _ (proj1 Hrec)) as (mc2 & i & Hrec2 & Hi & Hr).
  rewrite (record_of_unique _ _ _ _ Hrec2 Hrec) in Hr.
  apply (alloc_ok_insert m n n n name mc' i); try done; try lia.
  - unfold routed. by rewrite H6, H4.
  - intros other mo Hne Ho. rewrite H6, H4.
    split; intros Heq; apply Hne; eapply (Hu other name mo mc); eauto.
Qed.

Lemma alloc_ok_delete m n b name :
  cp_wf -> alloc_ok m n b -> alloc_ok (delete (machine_key name) m) n b.
Proof.
  intros Hwf (H1 & H2 & H3 & H4).
  assert (forall k v, delete (machine_key name) m !! k = Some v -> m !! k = Some v) as Hd
    by (intros k v H; by apply lookup_delete_Some in H as [_ H]).
  split_and!; [lia|lia| | |].
  - unfold counter_at. rewrite lookup_delete_ne by (by apply machine_key_alloc). done.
  - intros name' v Hv. destruct (H3 name' v (Hd _ _ Hv)) as (mc & i & [Hrec ?] & ? & ?).
    exists mc, i. split_and!; try done; try lia. split; [|done].
    apply lookup_delete_Some in Hv as [Hne _]. by rewrite lookup_delete_ne.
  - intros n1 n2 mc1 mc2 [Hr1 ?] [Hr2 ?]. apply (H4 n1 n2 mc1 mc2); split; eauto.
Qed.
End Alloc.

(** ** The programs keep the invariant *)

Section Preserve.
Context `{CR : Crates} `{SM : Serde Machine} `{SL : !SerdeLaws Machine}.
Context (verify : string -> string -> option bool) (cp : ControlPlane) (Hwf : cp_wf cp).
Local Abbreviation wpe := (wp (X := EdgeSig) (edge_spec verify)) (only parsing).
Local Abbreviation I := (alloc_inv cp) (only parsing).

Lemma stable_inv_del name : stable verify I (redis (RDel (machine_key name))).
Proof.
  apply stable_redis; [done|]. intros m [n Hn]. cbn.
  destruct (m !! machine_key name); exists n; cbn; [by apply alloc_ok_delete|done].
Qed.

Lemma stable_inv_push name : stable verify I (redis (RRPush MACHINE_INDEX name)).
Proof.
  apply stable_redis; [done|]. intros m [n Hn]. cbn.
  destruct (read_list _); exists n; cbn; [by apply alloc_ok_index|done].
Qed.

Lemma stable_inv_rem name : stable verify I (redis (RLRem1 MACHINE_INDEX name)).
Proof.
  apply stable_redis; [done|]. intros m [n Hn]. cbn.
  destruct (read_list _) as [l|]; [case_decide|]; exists n; cbn; try done.
  destruct (remove_first name l); [by apply alloc_ok_index_del|by apply alloc_ok_index].
Qed.
Hint Resolve stable_inv_del stable_inv_push stable_inv_rem : stable.

Lemma stable_inv_remove_forwards ip wg l : stable verify I (remove_forwards ip wg l).
Proof. induction l as [|p l IH]; cbn [remove_forwards]; stable_walk. Qed.
Hint Resolve stable_inv_remove_forwards : stable.

Lemma stable_inv_rollback name m : stable verify I (rollback_allocation name m).
Proof. unfold rollback_allocation. stable_walk. Qed.
Hint Resolve stable_inv_rollback : stable.

Lemma stable_inv_wire fwdr name m key :
  stable verify I (wire_machine cp fwdr name m key).
Proof.
  assert (forall l, stable verify I (wire_forwards fwdr name m l)) as Hwf'.
  { induction l as [|p l IH]; cbn [wire_forwards]; stable_walk. }
  unfold wire_machine, upsert_machine. stable_walk.
Qed.

Lemma stable_inv_delete fwd name : stable verify I (delete_machine cp fwd name).
Proof. unfold delete_machine, drop_entry, remove_machine. stable_walk. Qed.

Lemma set_same_route name mc mc' :
  m_name mc' = name -> m_ipv6 mc' = m_ipv6 mc -> m_wg_ip mc' = m_wg_ip mc ->
  forall m, alloc_inv cp m -> record_of m name mc ->
  alloc_inv cp (<[machine_key name := RStr (to_json mc') None]> m).
Proof. intros Hn H6 H4 m [n Hok] Hrec. exists n. by eapply alloc_ok_update. Qed.

(** [store_machine] over a record of the same route. *)
Lemma wp_store_machine_inv m mc s :
  alloc_inv cp (kv s) -> record_of (kv s) (m_name m) mc ->
  m_ipv6 m = m_ipv6 mc -> m_wg_ip m = m_wg_ip mc ->
  wpe (store_machine m) (fun _ s' => alloc_inv cp (kv s')) s.
Proof.
  intros Hinv Hrec H6 H4. unfold store_machine. cbn [bind_try].
  intros r s' ->. destruct r as [[]|e]; [|done]. apply wp_redis_try; [done| |].
  - intros e s' [-> | ->]; [done|]. by eapply set_same_route.
  - intros a _. cbn. by eapply set_same_route.
Qed.

(** The path of an existing name: it keeps the record's route. *)
Lemma wp_existing_inv name key edge_key json s :
  alloc_inv cp (kv s) -> read_str (kv s !! machine_key name) = Ok (Some json) ->
  wpe (allocate_existing (machine_key name) key json edge_key)
    (fun _ s' => alloc_inv cp (kv s')) s.
Proof.
  intros Hinv Hread. pose proof Hinv as [n (_ & _ & Hrec & _)].
  destruct (kv s !! machine_key name) as [v|] eqn:Hv; [|done].
  destruct (Hrec name v Hv) as (mc & i & Hmc & _ & _).
  destruct Hmc as [Hk Hname]. rewrite Hv in Hk. injection Hk as ->.
  cbn in Hread. injection Hread as <-.
  assert (record_of (kv s) name mc) as Hmc by done.
  unfold allocate_existing, machine_from_json. rewrite from_to_json. cbn [map_err].
  case_bool_decide as Heq.
  { intros r s' Hr. cbn in Hr. destruct r; cbn in Hr; by subst. }
  intros r s1 Hr1. apply (off_store_kv verify (WgRemovePeer _)) in Hr1; [|done].
  intros r2 s2 Hr2. apply (off_store_kv verify (WgAddPeer _ _)) in Hr2; [|done].
  destruct r2 as [[]|e]; [|cbn; by rewrite Hr2, Hr1].
  cbn [bind]. apply wp_redis_try; [done| |].
  - intros e s' [-> | ->]; cbn; rewrite Hr2, Hr1; [done|]. by apply (set_same_route name mc).
  - intros a _. cbn. rewrite Hr2, Hr1. by apply (set_same_route name mc).
Qed.

Lemma counter_after_setnx m n b :
  alloc_ok cp m n b -> alloc_ok cp (snd (redis_apply (RSetNx (alloc_key cp) (RInt 1)) m)) n b.
Proof.
  intros Hok. pose proof Hok as (Hb & [[Hc ->]|Hc] & _); cbn; rewrite Hc; cbn; [|done].
  apply (alloc_ok_counter cp m 1 1 b); [done|lia|done].
Qed.

Lemma counter_value m n b :
  alloc_ok cp m n b ->
  snd (redis_apply (RSetNx (alloc_key cp) (RInt 1)) m) !! alloc_key cp = Some (RInt n).
Proof.
  intros (_ & [[Hc ->]|Hc] & _); cbn; rewrite Hc; [apply lookup_insert_eq|done].
Qed.

(** What [INCR] answers, and the state it leaves. *)
Lemma counter_incr m n :
  alloc_ok cp m n n -> m !! alloc_key cp = Some (RInt n) ->
  redis_apply (RIncr (alloc_key cp) 1) m = (Ok (n + 1), <[alloc_key cp := RInt (n + 1)]> m)
  /\ alloc_ok cp (<[alloc_key cp := RInt (n + 1)]> m) (n + 1) n
  \/ exists e, redis_apply (RIncr (alloc_key cp) 1) m = (Err e, m).
Proof.
  intros Hok Hc. cbn. unfold add_checked. rewrite Hc. cbn.
  case_bool_decide; [left|right; eauto].
  split; [done|]. apply (alloc_ok_counter cp m n (n + 1)); [done|lia|done].
Qed.

Lemma alloc_inv_bumped m n : alloc_ok cp m (n + 1) n -> alloc_inv cp m.
Proof.
  intros Hok. exists (n + 1). pose proof Hok as (? & _).
  apply (alloc_ok_weaken cp m (n + 1) n); [lia|done].
Qed.

Lemma setnx_counter_other m name :
  snd (redis_apply (RSetNx (alloc_key cp) (RInt 1)) m) !! machine_key name
    = m !! machine_key name.
Proof.
  cbn. destruct (m !! alloc_key cp); [done|].
  apply lookup_insert_ne, not_eq_sym, machine_key_alloc, Hwf.
Qed.

Lemma wp_fresh_inv fwdr owner name key edge_key s :
  alloc_inv cp (kv s) -> kv s !! machine_key name = None ->
  wpe (allocate_fresh cp fwdr owner name key edge_key)
    (fun _ s' => alloc_inv cp (kv s')) s.
Proof.
  intros [n Hok] Hnone. unfold allocate_fresh.
  pose proof (counter_after_setnx _ _ _ Hok) as Hok1.
  pose proof (counter_value _ _ _ Hok) as Hc1.
  pose proof (setnx_counter_other (kv s) name) as Hn1. rewrite Hnone in Hn1.
  apply wp_redis_try; [done| |].
  { intros e s' [-> | ->]; [by exists n|]. by exists n. }
  intros _ _. set (s1 := set_kv _ s).
  change (alloc_ok cp (kv s1) n n) in Hok1. change (kv s1 !! alloc_key cp = Some (RInt n)) in Hc1.
  change (kv s1 !! machine_key name = None) in Hn1. clearbody s1.
  destruct (counter_incr _ _ Hok1 Hc1) as [[Hi Hok2]|[e Hi]].
  2:{ apply wp_redis_try; rewrite ?Hi; cbn; [done| |done].
      intros e' s' [-> | ->]; by exists n. }
  apply wp_redis_try; rewrite ?Hi; [done| |].
  { intros e' s' [-> | ->]; [by exists n|]. by eapply alloc_inv_bumped. }
  intros index [= <-]. pose proof Hok1 as (Hb & _).
  destruct (Z.ltb_spec (n + 1) 2) as [|_]; [lia|].
  cbn [snd] in *. set (s2 := set_kv _ s1).
  change (alloc_ok cp (kv s2) (n + 1) n) in Hok2.
  assert (kv s2 !! machine_key name = None) as Hn2.
  { subst s2. cbn. rewrite lookup_insert_ne; [done|].
    by apply not_eq_sym, machine_key_alloc. }
  clearbody s2. clear Hi Hok1 Hc1 Hn1.
  destruct (host_string (subnet cp) (n + 1)) as [ip|] eqn:H6; cbn [expect];
    [|by eapply alloc_inv_bumped].
  destruct (host_string (wg_subnet cp) (n + 1)) as [wg|] eqn:H4; cbn [expect];
    [|by eapply alloc_inv_bumped].
  set (mc := MkMachine _ _ _ _ _ _ _).
  assert (alloc_ok cp (<[machine_key name := RStr (to_json mc) None]> (kv s2)) (n + 1) (n + 1))
    as Hok3 by (by apply alloc_ok_fresh).
  assert (redis_apply (RSetNx (machine_key name) (RStr (to_json mc) None)) (kv s2)
          = (Ok true, <[machine_key name := RStr (to_json mc) None]> (kv s2))) as Hset
    by (cbn; by rewrite Hn2).
  apply wp_redis_try; rewrite ?Hset; [done| |].
  { intros e' s' [-> | ->]; [by eapply alloc_inv_bumped|by exists (n + 1)]. }
  intros set [= <-]. cbn [negb snd].
  apply (stable_wp verify I); [|by exists (n + 1)].
  apply stable_try; [apply stable_inv_push|]. intros _. apply stable_inv_wire.
Qed.

Lemma wp_allocate_inv fwd owner name key s :
  alloc_inv cp (kv s) ->
  wpe (allocate_machine cp fwd owner name key) (fun _ s' => alloc_inv cp (kv s')) s.
Proof.
  intros Hinv. unfold allocate_machine.
  destruct (validate_machine_name name); [|done]. destruct (validate_wg_pubkey key); [|done].
  destruct fwd as [fwdr|]; cbn [expect]; [|done].
  intros r s1 Hs1. cbn in Hs1. subst s1. destruct r as [[]|e]; [|done].
  cbn [bind]. apply wp_redis_try; [done| |].
  { intros e s' [-> | ->]; [done|]. by cbn. }
  intros o Ho. cbn in Ho |- *. rewrite set_kv_id.
  unfold with_edge_key. destruct (edge_public_key cp) as [[ek|e]|]; cbn [expect]; [|done..].
  destruct o as [json|]; [by apply wp_existing_inv|]. apply wp_fresh_inv; [done|].
  destruct (kv s !! machine_key name) as [[]|]; done.
Qed.
End Preserve.
