(* ===== verification/Machines.v ===== *)
(** What the machine operations do while Redis answers: listing, rehydration,
    allocation with its rollback, deletion.  Everything else (the [wg] binary,
    the DNS provider, the binds) may still fail at any point. *)

From stdpp Require Import base gmap strings list pretty.
From Stdlib Require Import ZArith Lia Ascii.
From S2P Require Import Prelude Prog Addr NumText AddrText ForwarderState World Retry.
From S2P Require Import Forwarder Dns Wg Store Crates Errors ControlPlane Allocation.

Local Open Scope prog_scope.

(** ** Forwards: the running set *)

(** A key is either served or shown as failed. *)
Definition served_or_failed (key : string) (st : FState) : Prop :=
  key ∈ handles st \/ exists row, forwards st !! key = Some row /\ bound row = false.

Lemma forward_key_machine ip wg p :
  forward_key (machine_forward ip wg p) = ("tcp://[" ++ ip ++ "]:" ++ pretty (fst p))%string.
Proof. done. Qed.

Section Fwd.
Context (verify : string -> string -> option bool).
Local Abbreviation wpe := (wp (X := EdgeSig) (edge_spec verify)) (only parsing).

(** [add_forward] never takes a served key away, and accounts for its own. *)
Lemma add_forward_post_served f fwd s o s' key :
  add_forward_post f fwd s o s' ->
  served_or_failed key (fws s) -> served_or_failed key (fws s').
Proof.
  intros (_ & Hpost) Hkey. destruct o as [[u|e]|m|]; try done.
  - case_decide as Hd; [by rewrite Hpost|]. destruct Hpost as [(H1 & H2 & _) [Hl _]].
    destruct (decide (key = forward_key fwd)) as [->|Hne]; [by left|].
    destruct Hkey as [Hk|(row & Hr & Hb)]; [left; by apply H1|].
    right. exists row. by rewrite H2.
  - destruct Hpost as (Hd & (H1 & H2 & _) & Hn & _ & row & Hr & Hb & _).
    destruct (decide (key = forward_key fwd)) as [->|Hne]; [right; eauto|].
    destruct Hkey as [Hk|(row' & Hr' & Hb')]; [left; by apply H1|].
    right. exists row'. by rewrite H2.
Qed.

Lemma add_forward_post_own f fwd s o s' :
  add_forward_post f fwd s o s' -> served_or_failed (forward_key fwd) (fws s').
Proof.
  intros (_ & Hpost). destruct o as [[u|e]|m|]; try done.
  - case_decide; [rewrite Hpost; by left|]. destruct Hpost as [_ [Hl _]]. by left.
  - destruct Hpost as (_ & _ & _ & _ & row & Hr & Hb & _). right. eauto.
Qed.

Lemma add_forward_post_keeps f fwd s o s' key :
  add_forward_post f fwd s o s' -> key ∈ handles (fws s) -> key ∈ handles (fws s').
Proof.
  intros (_ & Hpost) Hk. destruct o as [[u|e]|m|]; try done.
  - case_decide as Hd; [by rewrite Hpost|]. destruct Hpost as [(H1 & _) [Hl _]].
    destruct (decide (key = forward_key fwd)) as [->|Hne]; [done|]. by apply H1.
  - destruct Hpost as (Hd & (H1 & _) & _). apply H1; [|done]. congruence.
Qed.

Lemma add_forward_post_frame f fwd s o s' :
  add_forward_post f fwd s o s' ->
  s' = set_clock (clock s') (set_fws (fws s') s) /\ exists r, o = Done r.
Proof.
  intros (H & Hpost). split; [done|]. by destruct o as [r| |]; eauto.
Qed.
End Fwd.

(** States that agree on everything but the forwarder and the clock. *)
Definition fwd_frame (s s' : edge) : Prop :=
  kv s' = kv s /\ scans s' = scans s /\ wg_log s' = wg_log s /\ dns_log s' = dns_log s
  /\ mails s' = mails s.

Lemma fwd_frame_refl s : fwd_frame s s.
Proof. done. Qed.

Lemma fwd_frame_trans s1 s2 s3 : fwd_frame s1 s2 -> fwd_frame s2 s3 -> fwd_frame s1 s3.
Proof. unfold fwd_frame. intros (-> & -> & -> & -> & ->) (-> & -> & -> & -> & ->). done. Qed.

Lemma fwd_frame_eq s s' : s' = set_clock (clock s') (set_fws (fws s') s) -> fwd_frame s s'.
Proof. intros ->. done. Qed.

#[export] Hint Resolve fwd_frame_refl fwd_frame_eq : fortress.

Section Machines.
Context `{CR : Crates} `{SM : Serde Machine} `{SL : !SerdeLaws Machine}.
Context (verify : string -> string -> option bool).
Local Abbreviation wpe := (wp (X := EdgeSig) (edge_spec verify)) (only parsing).
Local Abbreviation wph := (wp (X := EdgeSig) (healthy_spec verify)) (only parsing).

(** *** Listing *)

(** The list the store holds, read off it. *)
Fixpoint listed_from (m : gmap string rval) (names : list string)
    : Result (list Machine) ControlPlaneError :=
  match names with
  | [] => Ok []
  | name :: names' =>
      match read_str (m !! machine_key name) with
      | Err e => Err (CpRedis e)
      | Ok None => listed_from m names'
      | Ok (Some json) =>
          match machine_from_json json with
          | Err e => Err e
          | Ok mc =>
              match listed_from m names' with
              | Ok l => Ok (mc :: l)
              | Err e => Err e
              end
          end
      end
  end.

Definition listed (m : gmap string rval) : Result (list Machine) ControlPlaneError :=
  match read_list (m !! MACHINE_INDEX) with
  | Err e => Err (CpRedis e)
  | Ok names => listed_from m names
  end.

Lemma wp_list_from names s (Q : outcome _ -> edge -> Prop) :
  Q (Done (listed_from (kv s) names)) s -> wph (list_from names) Q s.
Proof.
  revert Q. induction names as [|name names IH]; intros Q HQ; [done|].
  cbn [list_from listed_from] in *. unfold bind_try. apply wp_healthy_redis; [done|].
  cbn [redis_apply fst snd]. rewrite set_kv_id.
  destruct (read_str _) as [[json|]|e]; [|by apply IH|done].
  destruct (machine_from_json json) as [mc|e]; [|done].
  rewrite wp_bind. apply IH. by destruct (listed_from (kv s) names).
Qed.

Lemma wp_list s (Q : outcome _ -> edge -> Prop) :
  Q (Done (listed (kv s))) s -> wph list_machines Q s.
Proof.
  intros HQ. unfold list_machines, bind_try. apply wp_healthy_conn.
  apply wp_healthy_redis; [done|]. cbn [redis_apply fst snd]. rewrite set_kv_id.
  unfold listed in HQ. destruct (read_list _) as [names|e]; [|done]. by apply wp_list_from.
Qed.

(** *** Rehydration *)

Definition routable (m : Machine) : bool :=
  match (parse (m_ipv6 m) : option Ipv6Addr) with Some _ => true | None => false end.

Definition machine_keys (m : Machine) : list string :=
  map (fun p => forward_key (machine_forward (m_ipv6 m) (m_wg_ip m) p)) EDGE_FORWARDS.

(** After the boot pass the wired machines' keys are accounted for and nothing
    that was served stopped being served. *)
Definition wired (keys : list string) (s s' : edge) : Prop :=
  kv s' = kv s /\ dns_log s' = dns_log s /\ mails s' = mails s /\
  (forall key, key ∈ keys -> served_or_failed key (fws s')) /\
  (forall key, key ∈ handles (fws s) -> key ∈ handles (fws s')) /\
  (forall key, served_or_failed key (fws s) -> served_or_failed key (fws s')).

Lemma wired_nil s : wired [] s s.
Proof. unfold wired. split_and!; try done. intros key Hk. by apply elem_of_nil in Hk. Qed.

Lemma wired_app k1 k2 s1 s2 s3 :
  wired k1 s1 s2 -> wired k2 s2 s3 -> wired (k1 ++ k2) s1 s3.
Proof.
  intros (A1 & A2 & A3 & A4 & A5 & A6) (B1 & B2 & B3 & B4 & B5 & B6).
  unfold wired. split_and!; try congruence; [|by auto..].
  intros key [Hk|Hk]%elem_of_app; auto.
Qed.

Lemma wired_off s s' :
  kv s' = kv s -> dns_log s' = dns_log s -> mails s' = mails s -> fws s' = fws s ->
  wired [] s s'.
Proof.
  intros H1 H2 H3 H4. unfold wired. rewrite H4.
  split_and!; try done. intros key Hk. by apply elem_of_nil in Hk.
Qed.

Lemma wp_rehydrate_forwards f m ports s :
  (0 <= bind_timeout (cfg f))%Z ->
  wpe (rehydrate_forwards f m ports)
    (fun o s' => o = Done tt /\
       wired (map (fun p => forward_key (machine_forward (m_ipv6 m) (m_wg_ip m) p)) ports) s s') s.
Proof.
  intros Hto. revert s. induction ports as [|p ports IH]; intros s; cbn [rehydrate_forwards].
  { split; [done|]. apply wired_nil. }
  rewrite wp_bind. eapply wp_mono; [|by apply wp_add_forward].
  intros o s1 Hpost.
  pose proof (add_forward_post_frame _ _ _ _ _ Hpost) as [Hfr [r ->]]. cbn [andthen].
  eapply wp_mono; [|apply IH]. intros o s2 [-> Hw]. split; [done|].
  change (map ?f (p :: ports)) with ([f p] ++ map f ports).
  eapply wired_app; [|exact Hw]. rewrite Hfr. unfold wired. cbn.
  pose proof (add_forward_post_own _ _ _ _ _ Hpost).
  split_and!; try done.
  - intros key ->%list_elem_of_singleton. done.
  - intros key. by eapply add_forward_post_keeps.
  - intros key. by eapply add_forward_post_served.
Qed.

Lemma wp_rehydrate_from f l n s :
  (0 <= bind_timeout (cfg f))%Z ->
  wpe (rehydrate_from f l n)
    (fun o s' => o = Done (n + length (List.filter routable l))%nat /\
       wired (flat_map machine_keys (List.filter routable l)) s s') s.
Proof.
  intros Hto. revert n s. induction l as [|m l IH]; intros n s; cbn [rehydrate_from List.filter].
  { split; [apply (f_equal Done); cbn; lia|apply wired_nil]. }
  destruct (routable m) eqn:Hrt; unfold routable in Hrt;
    (destruct (parse (m_ipv6 m) : option Ipv6Addr); try done).
  intros r s1 Hr. cbn [bind].
  assert (wired [] s s1) as Hw1.
  { destruct r; cbn in Hr; subst s1; [by apply wired_off|apply wired_nil]. }
  rewrite wp_bind. eapply wp_mono; [|by apply wp_rehydrate_forwards].
  intros o s2 [-> Hw2]. cbn [andthen].
  eapply wp_mono; [|apply IH]. intros o s3 [-> Hw3].
  split; [apply (f_equal Done); cbn; lia|].
  exact (wired_app _ _ _ _ _ Hw1 (wired_app _ _ _ _ _ Hw2 Hw3)).
Qed.

(** [rehydrate] returns the number of machines whose address is readable, and
    accounts for each of their forwards. *)
Lemma wp_rehydrate f s :
  (0 <= bind_timeout (cfg f))%Z ->
  wph (rehydrate f)
    (fun o s' =>
       match listed (kv s) with
       | Err e => o = Done (Err e) /\ s' = s
       | Ok l => o = Done (Ok (length (List.filter routable l))) /\
                 wired (flat_map machine_keys (List.filter routable l)) s s'
       end) s.
Proof.
  intros Hto. unfold rehydrate, bind_try. rewrite wp_bind. apply wp_list. cbn [andthen].
  destruct (listed (kv s)) as [l|e]; [|done].
  rewrite wp_bind. apply wp_healthy. eapply wp_mono; [|by apply wp_rehydrate_from].
  intros o s' [-> Hw]. done.
Qed.

(** *** Removing forwards *)

(** The forwards' keys are not served any more; other keys are untouched. *)
Definition unserved (keys : list string) (st st' : FState) : Prop :=
  (forall key, key ∈ keys -> key ∉ handles st') /\
  (forall key, key ∉ keys ->
     (iff (key ∈ handles st') (key ∈ handles st)) /\ forwards st' !! key = forwards st !! key) /\
  (forall key, key ∈ handles st' -> key ∈ handles st).

Definition port_keys (ip wg : string) (ports : list (Z * Z)) : list string :=
  map (fun p => forward_key (machine_forward ip wg p)) ports.

Lemma remove_forward_unserved fwd st :
  unserved [forward_key fwd] st (snd (remove_forward fwd st)).
Proof.
  assert (forward_key fwd ∉ handles (snd (remove_forward fwd st))) as Hown.
  { unfold remove_forward, abort_handle. case_decide; cbn; set_solver. }
  split_and!.
  - intros key ->%list_elem_of_singleton. done.
  - intros key Hk. rewrite list_elem_of_singleton in Hk. by apply remove_forward_other.
  - intros key Hk. destruct (decide (key = forward_key fwd)) as [->|Hne]; [done|].
    by apply remove_forward_other in Hk.
Qed.

Lemma unserved_app k1 k2 st1 st2 st3 :
  unserved k1 st1 st2 -> unserved k2 st2 st3 -> unserved (k1 ++ k2) st1 st3.
Proof.
  intros (A1 & A2 & A3) (B1 & B2 & B3). split_and!; [| |auto].
  - intros key [Hk|Hk]%elem_of_app; [|auto]. intros H. by apply (A1 key Hk), B3.
  - intros key. rewrite not_elem_of_app. intros [H1 H2].
    destruct (A2 key H1) as [A A'], (B2 key H2) as [B B'].
    rewrite B'. split; [|done]. by rewrite B.
Qed.

Lemma wp_remove_forwards ip wg ports s :
  wpe (remove_forwards ip wg ports)
    (fun o s' => o = Done tt /\ s' = set_fws (fws s') s /\
       unserved (port_keys ip wg ports) (fws s) (fws s')) s.
Proof.
  revert s. induction ports as [|p ports IH]; intros s; cbn [remove_forwards].
  { split; [done|]. split; [by rewrite set_fws_id|]. split_and!; [|done..].
    intros key Hk. by apply elem_of_nil in Hk. }
  rewrite wp_bind. apply wp_remove_forward. cbn [andthen].
  eapply wp_mono; [|apply IH]. intros o s' (-> & Hs' & Hu). split; [done|].
  split; [rewrite Hs'; done|].
  change (port_keys ip wg (p :: ports))
    with ([forward_key (machine_forward ip wg p)] ++ port_keys ip wg ports).
  eapply unserved_app; [|exact Hu]. apply remove_forward_unserved.
Qed.

(** *** Deletion *)

Definition drop_store (name : string) (m : gmap string rval) : gmap string rval :=
  let m := snd (redis_apply (RDel (machine_key name)) m) in
  snd (redis_apply (RLRem1 MACHINE_INDEX name) m).

Lemma wp_drop_entry name s (Q : outcome _ -> edge -> Prop) :
  is_ok (read_list (kv s !! MACHINE_INDEX)) = true ->
  Q (Done (Ok tt)) (set_kv (drop_store name (kv s)) s) ->
  wph (drop_entry name) Q s.
Proof.
  intros Hidx HQ. unfold drop_entry, bind_try.
  apply wp_healthy_redis; [done|]. unfold drop_store in HQ.
  set (m1 := snd (redis_apply (RDel (machine_key name)) (kv s))) in *.
  assert (is_ok (read_list (m1 !! MACHINE_INDEX)) = true) as Hidx1.
  { subst m1. cbn. destruct (kv s !! machine_key name); cbn; [|done].
    rewrite lookup_delete_ne; [done|apply machine_key_index]. }
  assert (exists z, fst (redis_apply (RDel (machine_key name)) (kv s)) = Ok z) as [z ->].
  { cbn. destruct (kv s !! machine_key name); eauto. }
  apply wp_healthy_redis; [done|]. cbn [kv set_kv].
  assert (exists z, fst (redis_apply (RLRem1 MACHINE_INDEX name) m1) = Ok z) as [z' ->].
  { cbn [redis_apply fst]. destruct (read_list (m1 !! MACHINE_INDEX)) as [l|]; [|done].
    destruct (decide (name ∈ l)); eauto. }
  exact HQ.
Qed.

(** The effects of [delete_machine] on an existing, readable record. *)
Definition deleted (cp : ControlPlane) (name : string) (mc : Machine) (s s' : edge) : Prop :=
  kv s' = drop_store name (kv s) /\
  unserved (machine_keys mc) (fws s) (fws s') /\
  (wg_log s' = wg_log s \/ wg_log s' = wg_log s ++ [WgRemoved (m_wg_public_key mc)]) /\
  mails s' = mails s.

Lemma wp_delete cp fwdr name s :
  is_ok (read_list (kv s !! MACHINE_INDEX)) = true ->
  wph (delete_machine cp (Some fwdr) name)
    (fun o s' =>
       match read_str (kv s !! machine_key name) with
       | Err e => o = Done (Err (CpRedis e)) /\ s' = s
       | Ok None => o = Done (Err (CpNotFound name)) /\ s' = s
       | Ok (Some json) =>
           o = Done (Ok tt) /\
           match from_json json with
           | Err _ => s' = set_kv (drop_store name (kv s)) s
           | Ok mc => deleted cp name mc s s'
           end
       end) s.
Proof.
  intros Hidx. unfold delete_machine. cbn [expect]. unfold bind_try.
  apply wp_healthy_conn, wp_healthy_redis; [done|].
  cbn [redis_apply fst snd]. rewrite set_kv_id.
  destruct (read_str _) as [[json|]|e]; [|done..].
  destruct (from_json json) as [mc|e]; [|by apply wp_drop_entry].
  intros r s1 [Hr _]. cbn [bind].
  rewrite wp_bind. apply wp_healthy. eapply wp_mono; [|apply wp_remove_forwards].
  intros o s2 (-> & Hs2 & Hu). cbn [andthen].
  rewrite wp_bind. apply wp_healthy. eapply wp_mono; [|apply wp_remove_machine].
  intros o s3 (r1 & r2 & -> & Hs3). cbn [andthen].
  assert (kv s1 = kv s /\ fws s1 = fws s /\ mails s1 = mails s /\
          (wg_log s1 = wg_log s \/ wg_log s1 = wg_log s ++ [WgRemoved (m_wg_public_key mc)]))
    as (E1 & E2 & E3 & E4) by (destruct r; cbn in Hr; subst s1; cbn; auto).
  apply wp_drop_entry.
  - rewrite Hs3. cbn. rewrite Hs2. cbn. by rewrite E1.
  - split; [done|]. unfold deleted. rewrite Hs3. cbn. rewrite Hs2. cbn.
    rewrite E1, E3, <- E2. done.
Qed.

(** *** Allocation *)

(** Taking a committed record back. *)
Definition rolled_back (name : string) (m : Machine) (s s' : edge) : Prop :=
  kv s' = drop_store name (kv s) /\
  (forall key, key ∈ machine_keys m -> key ∉ handles (fws s')) /\
  (wg_log s' = wg_log s \/ wg_log s' = wg_log s ++ [WgRemoved (m_wg_public_key m)]) /\
  dns_log s' = dns_log s /\ mails s' = mails s.

Lemma wp_rollback name m s :
  is_ok (read_list (kv s !! MACHINE_INDEX)) = true ->
  wph (rollback_allocation name m) (fun o s' => o = Done tt /\ rolled_back name m s s') s.
Proof.
  intros Hidx. unfold rollback_allocation. apply wp_healthy_conn.
  apply wp_healthy_redis; [done|].
  set (m1 := snd (redis_apply (RDel (machine_key name)) (kv s))).
  assert (exists z, fst (redis_apply (RDel (machine_key name)) (kv s)) = Ok z) as [z ->].
  { cbn. destruct (kv s !! machine_key name); eauto. }
  assert (is_ok (read_list (m1 !! MACHINE_INDEX)) = true) as Hidx1.
  { subst m1. cbn. destruct (kv s !! machine_key name); cbn; [|done].
    rewrite lookup_delete_ne; [done|apply machine_key_index]. }
  apply wp_healthy_redis; [done|]. cbn [kv set_kv].
  assert (exists z, fst (redis_apply (RLRem1 MACHINE_INDEX name) m1) = Ok z) as [z' ->].
  { cbn [redis_apply fst]. destruct (read_list (m1 !! MACHINE_INDEX)) as [l|]; [|done].
    destruct (decide (name ∈ l)); eauto. }
  intros r s1 [Hr _]. cbn [bind]. apply wp_healthy.
  eapply wp_mono; [|apply wp_remove_forwards].
  intros o s2 (-> & Hs2 & Hu & _). split; [done|]. unfold rolled_back.
  rewrite Hs2. cbn.
  destruct r; cbn in Hr; subst s1; cbn; (split_and!; [done|exact Hu|auto|done|done]).
Qed.

Definition wire_post (name : string) (m : Machine) (ports : list (Z * Z)) (s : edge)
    (o : outcome (Result unit ControlPlaneError)) (s' : edge) : Prop :=
  match o with
  | Done (Ok _) =>
      fwd_frame s s' /\
      Forall (fun p => live (machine_forward (m_ipv6 m) (m_wg_ip m) p) (fws s')) ports /\
      (forall key, key ∉ port_keys (m_ipv6 m) (m_wg_ip m) ports ->
         (iff (key ∈ handles (fws s')) (key ∈ handles (fws s))) /\
         forwards (fws s') !! key = forwards (fws s) !! key)
  | Done (Err (CpForward _)) => rolled_back name m s s'
  | _ => False
  end.

Lemma live_others fwd st st' :
  (iff (forward_key fwd ∈ handles st') (forward_key fwd ∈ handles st)) ->
  forwards st' !! forward_key fwd = forwards st !! forward_key fwd ->
  live fwd st -> live fwd st'.
Proof. unfold live. intros H1 H2. rewrite H1, H2. done. Qed.

Lemma rolled_back_frame name m s s1 s' :
  fwd_frame s s1 -> rolled_back name m s1 s' -> rolled_back name m s s'.
Proof.
  intros (E1 & _ & E3 & E4 & E5) (H1 & H2 & H3 & H4 & H5). unfold rolled_back.
  rewrite E1 in H1. rewrite E3 in H3. split_and!; try done; congruence.
Qed.

Lemma wp_wire_forwards f name m ports s :
  (0 <= bind_timeout (cfg f))%Z ->
  is_ok (read_list (kv s !! MACHINE_INDEX)) = true ->
  NoDup (port_keys (m_ipv6 m) (m_wg_ip m) ports) ->
  (forall key, key ∈ port_keys (m_ipv6 m) (m_wg_ip m) ports -> key ∉ handles (fws s)) ->
  wph (wire_forwards f name m ports) (wire_post name m ports s) s.
Proof.
  intros Hto. revert s. induction ports as [|p ports IH]; intros s Hidx Hnd Hfree.
  { cbn. split_and!; done. }
  cbn [wire_forwards]. rewrite wp_bind. apply wp_healthy.
  eapply wp_mono; [|by apply wp_add_forward].
  set (fwd := machine_forward (m_ipv6 m) (m_wg_ip m) p).
  change (port_keys (m_ipv6 m) (m_wg_ip m) (p :: ports))
    with (forward_key fwd :: port_keys (m_ipv6 m) (m_wg_ip m) ports) in *.
  apply NoDup_cons in Hnd as [Hni Hnd].
  assert (forward_key fwd ∉ handles (fws s)) as Hfk by (apply Hfree; by left).
  intros o s1 [Hfr Hpost]. apply fwd_frame_eq in Hfr as Hframe.
  assert (kv s1 = kv s) as Hkv by (by destruct Hframe).
  destruct o as [[u|e]| |]; cbn [andthen]; [| |done..].
  - rewrite decide_False in Hpost by done. destruct Hpost as [(Ho1 & Ho2 & _) Hlive].
    eapply wp_mono; [|apply IH; [by rewrite Hkv|done|]].
    + intros o s2. unfold wire_post. destruct o as [[[]|e]| |]; try done.
      * intros (Hf2 & Hl2 & Hk2). split_and!; [by eapply fwd_frame_trans| |].
        -- constructor; [|done]. destruct (Hk2 _ Hni). by eapply live_others.
        -- intros key Hk. apply not_elem_of_cons in Hk as [Hk1 Hk3].
           destruct (Hk2 key Hk3) as [-> ->]. split; [by apply Ho1|by apply Ho2].
      * destruct e; try done. by apply rolled_back_frame.
    + intros key Hk. rewrite Ho1 by (intros ->; done). apply Hfree. by right.
  - rewrite wp_bind. eapply wp_mono; [|apply wp_rollback; by rewrite Hkv].
    intros o s2 [-> Hrb]. cbn. by eapply rolled_back_frame.
Qed.

(** The state after the store part of a fresh allocation. *)
Definition committed (cp : ControlPlane) (m : Machine) (n : Z) (l : list string)
    (st : gmap string rval) : gmap string rval :=
  <[MACHINE_INDEX := RList (l ++ [m_name m])]>
    (<[machine_key (m_name m) := RStr (to_json m) None]>
      (<[alloc_key cp := RInt n]> st)).

(** Undoing it: everything but the counter is as before. *)
Lemma drop_committed cp m n l st k :
  cp_wf cp -> st !! machine_key (m_name m) = None -> read_list (st !! MACHINE_INDEX) = Ok l ->
  m_name m ∉ l -> k <> alloc_key cp ->
  read_list (drop_store (m_name m) (committed cp m n l st) !! MACHINE_INDEX) = Ok l /\
  (k <> MACHINE_INDEX -> drop_store (m_name m) (committed cp m n l st) !! k = st !! k).
Proof.
  intros Hwf Hnone Hidx Hnl Hk. unfold drop_store, committed.
  set (name := m_name m) in *.
  pose proof (machine_key_index name) as Hmi.
  pose proof (machine_key_alloc cp name Hwf) as Hma.
  cbn [redis_apply snd].
  rewrite (lookup_insert_ne _ _ (machine_key name)) by congruence.
  rewrite lookup_insert_eq. cbn [snd].
  rewrite lookup_delete_ne by congruence. rewrite lookup_insert_eq. cbn [read_list].
  rewrite decide_True by set_solver. cbn [snd].
  assert (remove_first name (l ++ [name]) = l) as ->.
  { clear -Hnl. induction l as [|x l IH]; cbn; [by rewrite decide_True|].
    rewrite decide_False by set_solver. f_equal. apply IH. set_solver. }
  destruct l as [|x l]; split; rewrite ?lookup_delete_eq, ?lookup_insert_eq; try done;
    intros Hki; rewrite ?(lookup_delete_ne _ MACHINE_INDEX), ?(lookup_insert_ne _ MACHINE_INDEX)
      by congruence;
    (destruct (decide (k = machine_key name)) as [->|Hkm];
     [rewrite lookup_delete_eq; by rewrite Hnone|]);
    rewrite lookup_delete_ne, !lookup_insert_ne by congruence; done.
Qed.

Definition allocated (cp : ControlPlane) (m : Machine) (edge_key : string) (n : Z)
    (l : list string) (s : edge) (o : outcome (Result SignupOutcome ControlPlaneError))
    (s' : edge) : Prop :=
  match o with
  | Done (Ok (Created r)) =>
      r = MkSignup m edge_key /\
      kv s' = committed cp m n l (kv s) /\
      wg_log s' = wg_log s ++ [WgAdded (m_wg_ip m) (m_wg_public_key m)] /\
      Forall (fun p => live (machine_forward (m_ipv6 m) (m_wg_ip m) p) (fws s')) EDGE_FORWARDS /\
      mails s' = mails s
  | Done (Err (CpWg _)) | Done (Err (CpForward _)) =>
      kv s' = drop_store (m_name m) (committed cp m n l (kv s)) /\
      (forall key, key ∈ machine_keys m -> key ∉ handles (fws s')) /\
      dns_log s' = dns_log s /\ mails s' = mails s
  | _ => False
  end.

Lemma machine_keys_nodup ip wg : NoDup (port_keys ip wg EDGE_FORWARDS).
Proof.
  unfold port_keys, EDGE_FORWARDS. cbn [map]. rewrite !forward_key_machine. cbn [fst].
  apply NoDup_cons. split; [|apply NoDup_singleton].
  rewrite list_elem_of_singleton. intros H. do 2 apply str_app_inj_l in H. done.
Qed.

Lemma wp_wire_machine cp f m edge_key s :
  (0 <= bind_timeout (cfg f))%Z ->
  is_ok (read_list (kv s !! MACHINE_INDEX)) = true ->
  (forall key, key ∈ machine_keys m -> key ∉ handles (fws s)) ->
  is_Some (parse (m_ipv6 m) : option Ipv6Addr) ->
  wph (wire_machine cp f (m_name m) m edge_key)
    (fun o s' =>
       match o with
       | Done (Ok (Created r)) =>
           r = MkSignup m edge_key /\ kv s' = kv s /\
           wg_log s' = wg_log s ++ [WgAdded (m_wg_ip m) (m_wg_public_key m)] /\
           Forall (fun p => live (machine_forward (m_ipv6 m) (m_wg_ip m) p) (fws s'))
             EDGE_FORWARDS /\ mails s' = mails s
       | Done (Err (CpWg _)) | Done (Err (CpForward _)) =>
           kv s' = drop_store (m_name m) (kv s) /\
           (forall key, key ∈ machine_keys m -> key ∉ handles (fws s')) /\
           dns_log s' = dns_log s /\ mails s' = mails s
       | _ => False
       end) s.
Proof.
  intros Hto Hidx Hfree [ip Hip]. unfold wire_machine. intros r s1 [Hr _].
  cbn [bind]. destruct r as [u|e]; cbn in Hr; subst s1.
  2:{ rewrite wp_bind. eapply wp_mono; [|by apply wp_rollback].
      intros o s' [-> (H1 & H2 & _ & H4 & H5)]. done. }
  unfold bind_try. rewrite wp_bind.
  eapply wp_mono; [|apply wp_wire_forwards; [done|done|apply machine_keys_nodup|done]].
  intros o s2 Hpost. unfold wire_post in Hpost. destruct o as [[u'|e]| |]; cbn [andthen]; try done.
  - destruct Hpost as ((E1 & E2 & E3 & E4 & E5) & Hl & _).
    rewrite Hip. cbn [expect]. rewrite wp_bind. apply wp_healthy.
    eapply wp_mono; [|apply wp_upsert_machine].
    intros o s3 (r1 & r2 & -> & ->). cbn. rewrite E1, E3, E5. done.
  - destruct e; try done. destruct Hpost as (H1 & H2 & _ & H4 & H5). cbn in *. done.
Qed.

(** The record a fresh allocation writes. *)
Definition fresh_machine (cp : ControlPlane) (owner : option string)
    (name key ip wg : string) : Machine :=
  MkMachine name owner (machine_hostname name (root_domain_ cp)) ip wg key None.

Lemma wp_allocate_fresh cp f owner name key edge_key n l ip wg s :
  cp_wf cp -> (0 <= bind_timeout (cfg f))%Z ->
  counter_at cp (kv s) n -> (1 <= n)%Z -> (n + 1 <= i64_max)%Z ->
  kv s !! machine_key name = None ->
  read_list (kv s !! MACHINE_INDEX) = Ok l ->
  host_string (subnet cp) (n + 1) = Some ip -> host_string (wg_subnet cp) (n + 1) = Some wg ->
  let m := fresh_machine cp owner name key ip wg in
  (forall k, k ∈ machine_keys m -> k ∉ handles (fws s)) ->
  wph (allocate_fresh cp f owner name key edge_key)
    (allocated cp m edge_key (n + 1) l s) s.
Proof.
  intros Hwf Hto Hc Hn Hmax Hnone Hidx H6 H4 m Hfree.
  pose proof (machine_key_alloc cp name Hwf) as Hma. pose proof (index_alloc cp Hwf) as Hia.
  pose proof (machine_key_index name) as Hmi.
  unfold allocate_fresh, bind_try. apply wp_healthy_redis; [done|].
  assert (exists b m1, redis_apply (RSetNx (alloc_key cp) (RInt 1)) (kv s) = (Ok b, m1) /\
            <[alloc_key cp := RInt (n + 1)]> m1 = <[alloc_key cp := RInt (n + 1)]> (kv s) /\
            m1 !! alloc_key cp = Some (RInt n)) as (b & m1 & -> & Hm1 & Hm1n).
  { cbn. destruct Hc as [[Hc ->]|Hc]; rewrite Hc; do 2 eexists; (split; [done|]).
    - by rewrite insert_insert_eq, lookup_insert_eq.
    - done. }
  cbn [fst snd]. apply wp_healthy_redis; [done|]. cbn [kv set_kv].
  assert (redis_apply (RIncr (alloc_key cp) 1) m1
          = (Ok (n + 1)%Z, <[alloc_key cp := RInt (n + 1)]> (kv s))) as ->.
  { cbn. unfold add_checked. rewrite Hm1n. cbn.
    rewrite bool_decide_eq_true_2 by (unfold i64_min; lia). by rewrite Hm1. }
  cbn [fst snd]. destruct (Z.ltb_spec (n + 1) 2) as [|_]; [lia|].
  rewrite H6, H4. cbn [expect]. apply wp_healthy_redis; [done|]. cbn [kv set_kv].
  assert (redis_apply (RSetNx (machine_key name) (RStr (to_json m) None))
            (<[alloc_key cp := RInt (n + 1)]> (kv s))
          = (Ok true, <[machine_key name := RStr (to_json m) None]>
                        (<[alloc_key cp := RInt (n + 1)]> (kv s)))) as Hset.
  { cbn. rewrite lookup_insert_ne by congruence. by rewrite Hnone. }
  change (MkMachine name owner (machine_hostname name (root_domain_ cp)) ip wg key None) with m.
  rewrite Hset. cbn [fst snd negb]. apply wp_healthy_redis; [done|]. cbn [kv set_kv].
  assert (redis_apply (RRPush MACHINE_INDEX name)
            (<[machine_key name := RStr (to_json m) None]>
               (<[alloc_key cp := RInt (n + 1)]> (kv s)))
          = (Ok (Z.of_nat (S (length l))), committed cp m (n + 1) l (kv s))) as ->.
  { cbn. rewrite !lookup_insert_ne by congruence. by rewrite Hidx. }
  cbn [fst snd]. eapply wp_mono; [|apply (wp_wire_machine cp f m edge_key); try done].
  - intros o s'. unfold allocated. destruct o as [[[r|r]|[]]| |]; done.
  - cbn. unfold committed. by rewrite lookup_insert_eq.
  - apply host_string_parse in H6 as (a & Ha & _). by exists a.
Qed.

(** An existing name: the same key changes nothing in the store, another key
    is written over the old one, on the same route. *)
Definition existing_post (name key edge_key : string) (mc : Machine) (s : edge)
    (o : outcome (Result SignupOutcome ControlPlaneError)) (s' : edge) : Prop :=
  fws s' = fws s /\ dns_log s' = dns_log s /\ mails s' = mails s /\
  if decide (m_wg_public_key mc = key)
  then o = Done (Ok (Existing (MkSignup mc edge_key))) /\ kv s' = kv s
  else
    match o with
    | Done (Ok (Existing r)) =>
        r = MkSignup (set_pubkey key mc) edge_key /\
        kv s' = <[machine_key name := RStr (to_json (set_pubkey key mc)) None]> (kv s) /\
        exists l, wg_log s' = wg_log s ++ l ++ [WgAdded (m_wg_ip mc) key] /\
                  (l = [] \/ l = [WgRemoved (m_wg_public_key mc)])
    | Done (Err (CpWg _)) => kv s' = kv s
    | _ => False
    end.

Lemma wp_allocate_existing name key edge_key mc s :
  wph (allocate_existing (machine_key name) key (to_json mc) edge_key)
    (existing_post name key edge_key mc s) s.
Proof.
  unfold allocate_existing, machine_from_json. rewrite from_to_json. cbn [map_err].
  unfold existing_post. case_bool_decide as Hk.
  - intros r s' [Hr _]. cbn [bind wp]. rewrite decide_True by done.
    destruct r; cbn in Hr; subst s'; done.
  - destruct (decide (m_wg_public_key mc = key)) as [|_]; [done|].
    intros r s1 [Hr _]. cbn in Hr.
    intros r2 s2 [Hr2 _]. cbn in Hr2.
    assert (fws s1 = fws s /\ dns_log s1 = dns_log s /\ mails s1 = mails s /\ kv s1 = kv s /\
            exists l, wg_log s1 = wg_log s ++ l /\
                      (l = [] \/ l = [WgRemoved (m_wg_public_key mc)]))
      as (E1 & E2 & E3 & E4 & l & E5 & E6).
    { destruct r; cbn in Hr; subst s1; cbn; split_and!; try done; [by exists [WgRemoved (m_wg_public_key mc)]; auto|].
      exists []. rewrite app_nil_r. auto. }
    destruct r2 as [u|e]; cbn in Hr2; subst s2; [|cbn; by rewrite E1, E2, E3, E4].
    cbn [bind]. unfold bind_try. apply wp_healthy_redis; [done|]. cbn.
    rewrite E1, E2, E3, E4, E5. split_and!; try done.
    exists l. by rewrite <- app_assoc.
Qed.

(** [allocate_machine] on inputs that pass validation. *)
Lemma wp_allocate_valid cp f owner name key edge_key s (Q : outcome _ -> edge -> Prop) :
  validate_machine_name name = Ok tt -> validate_wg_pubkey key = Ok tt ->
  edge_public_key cp = Some (Ok edge_key) ->
  (match kv s !! machine_key name with
   | None => wph (allocate_fresh cp f owner name key edge_key) Q s
   | Some (RStr json _) => wph (allocate_existing (machine_key name) key json edge_key) Q s
   | Some _ => Q (Done (Err (CpRedis wrongtype))) s
   end) ->
  wph (allocate_machine cp (Some f) owner name key) Q s.
Proof.
  intros H1 H2 H3 HQ. unfold allocate_machine. rewrite H1, H2. cbn [expect].
  unfold bind_try. apply wp_healthy_conn, wp_healthy_redis; [done|].
  cbn [redis_apply fst snd]. rewrite set_kv_id. unfold with_edge_key.
  destruct (kv s !! machine_key name) as [[]|]; cbn [read_str];
    rewrite ?H3; cbn [expect]; done.
Qed.
End Machines.
