(* ===== verification/Account.v ===== *)
(** Accounts, sessions and magic links
    (crates/controlplane/src/controlplane/account.rs).  [account_delete], which
    also walks the machines and the invites, is in Invite.v. *)

From stdpp Require Import base gmap strings list pretty countable.
From Stdlib Require Import ZArith Lia Ascii.
From S2P Require Import Prelude Prog Addr ForwarderState World Retry Forwarder Store.
From S2P Require Import Crates Errors ControlPlane.

Local Open Scope prog_scope.

Definition VERIFY_TOKEN_TTL_SECS : Z := 24 * 60 * 60.
Definition RESET_TOKEN_TTL_SECS : Z := 24 * 60 * 60.
Definition SESSION_TTL_SECS : Z := 7 * 24 * 60 * 60.

Definition account_key (email : string) : string := "fortress:account:" ++ email.
Definition verify_key (token : string) : string := "fortress:verify:" ++ token.
Definition reset_key (token : string) : string := "fortress:reset:" ++ token.
Definition session_key (token : string) : string := "fortress:session:" ++ token.

#[global] Arguments account_key : simpl never.
#[global] Arguments verify_key : simpl never.
#[global] Arguments reset_key : simpl never.
#[global] Arguments session_key : simpl never.

Inductive ResetOutcome := ResetSent | ResetUnknownEmail.
Inductive ResendVerifyOutcome := ResendSent | AlreadyActive | ResendUnknownEmail.

Inductive AccountStatus := Pending | Active.

#[export] Instance AccountStatus_eq_dec : EqDecision AccountStatus.
Proof. solve_decision. Defined.

#[export] Instance AccountStatus_countable : Countable AccountStatus.
Proof.
  refine (inj_countable' (fun s => match s with Pending => true | Active => false end)
            (fun b : bool => if b then Pending else Active) _).
  by intros [].
Defined.

Record AccountRecord := MkAccount {
  uuid : string;
  status : AccountStatus;
  password_hash : string;
  plan : option string;
}.

#[export] Instance AccountRecord_eq_dec : EqDecision AccountRecord.
Proof. solve_decision. Defined.

#[export] Instance AccountRecord_countable : Countable AccountRecord.
Proof.
  refine (inj_countable' (fun a => (uuid a, status a, password_hash a, plan a))
            (fun '(u, s, p, l) => MkAccount u s p l) _).
  by intros [].
Defined.

Definition set_status (st : AccountStatus) (a : AccountRecord) : AccountRecord :=
  MkAccount (uuid a) st (password_hash a) (plan a).
Definition set_password_hash (h : string) (a : AccountRecord) : AccountRecord :=
  MkAccount (uuid a) (status a) h (plan a).

Definition verify_link (domain token : string) : string :=
  "https://" ++ domain ++ "/verify?token=" ++ token.
Definition reset_link (domain token : string) : string :=
  "https://" ++ domain ++ "/reset?token=" ++ token.

Definition nl2 : string := String nl (String nl "").

Definition verify_body (link : string) : string :=
  "Verify your fortress account:" ++ nl2 ++ link ++ nl2 ++ "This link expires in 24 hours.".
Definition reset_body (link : string) : string :=
  "Reset your fortress password:" ++ nl2 ++ link ++ nl2 ++ "This link expires in 24 hours.".

Definition validate_password (password : string) : Result unit AccountError :=
  if is_empty password then Err (AccInvalidPassword "empty")
  else if Nat.ltb 72 (String.length password)
  then Err (AccInvalidPassword "longer than bcrypt's 72-byte limit")
  else Ok tt.

(** The form every handler gives an email first. *)
Definition norm_email (email : string) : string := to_lowercase (trim email).

Section Account.
Context `{CR : Crates} `{SA : Serde AccountRecord}.

Definition validate_email (email : string) : Result unit AccountError :=
  if mailbox_ok email then Ok tt else Err (AccInvalidEmail email).

Definition account_from_json (json : string) : Result AccountRecord AccountError :=
  map_err AccCorrupt (from_json json).

(** [conn().await?] in an account method. *)
Definition acc_conn (e : RedisError) : AccountError := account_of_cp (CpRedis e).

(** [random_token]: 32 random bytes in hexadecimal. *)
Definition random_token : prog EdgeSig string :=
  bytes <- @call EdgeSig (OsRng 32) ;;
  Ret (hex_encode bytes).

(** [account_signup]. *)
Definition account_signup (cp : ControlPlane) (email password : string)
    : prog EdgeSig (Result unit AccountError) :=
  let email := norm_email email in
  match validate_email email with
  | Err e => Ret (Err e)
  | Ok _ =>
      match validate_password password with
      | Err e => Ret (Err e)
      | Ok _ =>
          _c <-? conn as acc_conn ;;
          exists_ <-? redis (RExists (account_key email)) as AccRedis ;;
          if exists_ : bool then Ret (Err (AccDuplicateEmail email))
          else
            password_hash <- @call EdgeSig (BcryptHash password) ;;
            uuid <- @call EdgeSig UuidV4 ;;
            let account := MkAccount uuid Pending password_hash None in
            _s <-? redis (RSet (account_key email) (to_json account)) as AccRedis ;;
            token <- random_token ;;
            _v <-? redis (RSetEx (verify_key token) email VERIFY_TOKEN_TTL_SECS) as AccRedis ;;
            let link := verify_link (root_domain_ cp) token in
            sent <- @call EdgeSig (MailSend email "Verify your fortress account"
                                     (verify_body link)) ;;
            match sent with
            | Err err =>
                redis (RDel (account_key email)) ;;;
                redis (RDel (verify_key token)) ;;;
                Ret (Err (AccMail err))
            | Ok _ => Ret (Ok tt)
            end
      end
  end.

(** [account_uuid]. *)
Definition account_uuid (email : string) : prog EdgeSig (Result (option string) AccountError) :=
  let email := norm_email email in
  _c <-? conn as acc_conn ;;
  json <-? redis (RGet (account_key email)) as AccRedis ;;
  match json with
  | None => Ret (Ok None)
  | Some json =>
      match account_from_json json with
      | Err e => Ret (Err e)
      | Ok a => Ret (Ok (Some (uuid a)))
      end
  end.

(** [account_verify]. *)
Definition account_verify (token : string) : prog EdgeSig (Result unit AccountError) :=
  _c <-? conn as acc_conn ;;
  email <-? redis (RGetDel (verify_key token)) as AccRedis ;;
  match email with
  | None => Ret (Err AccInvalidToken)
  | Some email =>
      json <-? redis (RGet (account_key email)) as AccRedis ;;
      match json with
      | None => Ret (Err AccNotFound)
      | Some json =>
          match account_from_json json with
          | Err e => Ret (Err e)
          | Ok a =>
              _s <-? redis (RSet (account_key email) (to_json (set_status Active a)))
                as AccRedis ;;
              Ret (Ok tt)
          end
      end
  end.

(** [account_login]. *)
Definition account_login (email password : string)
    : prog EdgeSig (Result string AccountError) :=
  let email := norm_email email in
  _c <-? conn as acc_conn ;;
  json <-? redis (RGet (account_key email)) as AccRedis ;;
  match json with
  | None => Ret (Err AccInvalidCredentials)
  | Some json =>
      match account_from_json json with
      | Err e => Ret (Err e)
      | Ok a =>
          match bcrypt_verify password (password_hash a) with
          | None => Ret (Err (AccCorrupt "bcrypt"))
          | Some false => Ret (Err AccInvalidCredentials)
          | Some true =>
              if negb (bool_decide (status a = Active))
              then Ret (Err (AccNotVerified email))
              else
                session <- random_token ;;
                _s <-? redis (RSetEx (session_key session) email SESSION_TTL_SECS) as AccRedis ;;
                Ret (Ok session)
          end
      end
  end.

(** [account_logout]. *)
Definition account_logout (session : string) : prog EdgeSig (Result unit AccountError) :=
  _c <-? conn as acc_conn ;;
  _d <-? redis (RDel (session_key session)) as AccRedis ;;
  Ret (Ok tt).

(** [session_account]. *)
Definition session_account (session : string)
    : prog EdgeSig (Result (option string) AccountError) :=
  _c <-? conn as acc_conn ;;
  e <-? redis (RGet (session_key session)) as AccRedis ;;
  Ret (Ok e).

(** [resend_verification]. *)
Definition resend_verification (cp : ControlPlane) (email : string)
    : prog EdgeSig (Result ResendVerifyOutcome AccountError) :=
  let email := norm_email email in
  _c <-? conn as acc_conn ;;
  json <-? redis (RGet (account_key email)) as AccRedis ;;
  match json with
  | None => Ret (Ok ResendUnknownEmail)
  | Some json =>
      match account_from_json json with
      | Err e => Ret (Err e)
      | Ok a =>
          if bool_decide (status a = Active) then Ret (Ok AlreadyActive)
          else
            token <- random_token ;;
            _s <-? redis (RSetEx (verify_key token) email VERIFY_TOKEN_TTL_SECS) as AccRedis ;;
            let link := verify_link (root_domain_ cp) token in
            _m <-? @call EdgeSig (MailSend email "Verify your fortress account"
                                    (verify_body link)) as AccMail ;;
            Ret (Ok ResendSent)
      end
  end.

(** [request_password_reset]. *)
Definition request_password_reset (cp : ControlPlane) (email : string)
    : prog EdgeSig (Result ResetOutcome AccountError) :=
  let email := norm_email email in
  _c <-? conn as acc_conn ;;
  exists_ <-? redis (RExists (account_key email)) as AccRedis ;;
  if negb exists_ then Ret (Ok ResetUnknownEmail)
  else
    token <- random_token ;;
    _s <-? redis (RSetEx (reset_key token) email RESET_TOKEN_TTL_SECS) as AccRedis ;;
    let link := reset_link (root_domain_ cp) token in
    _m <-? @call EdgeSig (MailSend email "Reset your fortress password"
                            (reset_body link)) as AccMail ;;
    Ret (Ok ResetSent).

(** [reset_password]. *)
Definition reset_password (token new_password : string)
    : prog EdgeSig (Result unit AccountError) :=
  match validate_password new_password with
  | Err e => Ret (Err e)
  | Ok _ =>
      _c <-? conn as acc_conn ;;
      email <-? redis (RGetDel (reset_key token)) as AccRedis ;;
      match email with
      | None => Ret (Err AccInvalidToken)
      | Some email =>
          json <-? redis (RGet (account_key email)) as AccRedis ;;
          match json with
          | None => Ret (Err AccNotFound)
          | Some json =>
              match account_from_json json with
              | Err e => Ret (Err e)
              | Ok a =>
                  h <- @call EdgeSig (BcryptHash new_password) ;;
                  _s <-? redis (RSet (account_key email)
                                  (to_json (set_password_hash h a))) as AccRedis ;;
                  Ret (Ok tt)
              end
          end
      end
  end.
End Account.
