(* ===== verification/AccountProofs.v ===== *)
(** What the account operations do while Redis answers: the effects of each
    branch, single use of the magic-link tokens, and login. *)

From stdpp Require Import base gmap strings list pretty.
From Stdlib Require Import ZArith Lia Ascii.
From S2P Require Import Prelude Prog Addr ForwarderState World Retry Forwarder Store.
From S2P Require Import Crates Errors ControlPlane Account.

Local Open Scope prog_scope.

(** Everything but the store and the outbox. *)
Definition app_frame (s s' : edge) : Prop :=
  wg_log s' = wg_log s /\ dns_log s' = dns_log s /\ fws s' = fws s.

Lemma app_frame_refl s : app_frame s s.
Proof. done. Qed.
#[export] Hint Resolve app_frame_refl : fortress.

(** The key spaces do not meet. *)
Lemma account_verify_ne e t : account_key e <> verify_key t.
Proof. done. Qed.
Lemma account_reset_ne e t : account_key e <> reset_key t.
Proof. done. Qed.
Lemma account_session_ne e t : account_key e <> session_key t.
Proof. done. Qed.

Section Proofs.
Context `{CR : Crates} `{SA : Serde AccountRecord} `{SL : !SerdeLaws AccountRecord}.
Local Abbreviation wph := (wp (X := EdgeSig) (healthy_spec bcrypt_verify)) (only parsing).

(** [random_token] touches nothing. *)
Lemma wp_random_token {A} (k : string -> prog EdgeSig A) Q s :
  (forall bytes, length bytes = 32%nat -> wph (k (hex_encode bytes)) Q s) ->
  wph (bind random_token k) Q s.
Proof.
  intros H. unfold random_token. intros bytes s' [(Hl & _ & ->) _]. cbn. by apply H.
Qed.

Lemma wp_bcrypt {A} pw (k : string -> prog EdgeSig A) Q s :
  (forall h, bcrypt_verify pw h = Some true -> wph (k h) Q s) ->
  wph (bind (@call EdgeSig (BcryptHash pw)) k) Q s.
Proof. intros H h s' [[Hv ->] _]. cbn. by apply H. Qed.

Lemma wp_uuid {A} (k : string -> prog EdgeSig A) Q s :
  (forall u, wph (k u) Q s) -> wph (bind (@call EdgeSig UuidV4) k) Q s.
Proof. intros H u s' [-> _]. cbn. by apply H. Qed.

Lemma wp_mail {A} to_ subj body (k : Result unit MailerError -> prog EdgeSig A) Q s :
  wph (k (Ok tt)) Q (log_mail (MkMail to_ subj body) s) ->
  (forall e s', s' = s \/ s' = log_mail (MkMail to_ subj body) s -> wph (k (Err e)) Q s') ->
  wph (bind (@call EdgeSig (MailSend to_ subj body)) k) Q s.
Proof. intros H1 H2 [[]|e] s' [Hs _]; cbn in Hs; [by subst s'|by apply H2]. Qed.

(** *** Signup *)

Definition pending_account (email password : string) (s : edge) (u h token : string)
    : gmap string rval :=
  <[verify_key token := RStr email (Some VERIFY_TOKEN_TTL_SECS)]>
    (<[account_key email := RStr (to_json (MkAccount u Pending h None)) None]> (kv s)).

Definition signup_post (cp : ControlPlane) (email password : string) (s : edge)
    (o : outcome (Result unit AccountError)) (s' : edge) : Prop :=
  app_frame s s' /\
  match o with
  | Done (Ok _) =>
      kv s !! account_key email = None /\
      exists u h token,
        bcrypt_verify password h = Some true /\
        kv s' = pending_account email password s u h token /\
        mails s' = mails s ++ [MkMail email "Verify your fortress account"
                                 (verify_body (verify_link (root_domain_ cp) token))]
  | Done (Err (AccInvalidEmail _)) => mailbox_ok email = false /\ s' = s
  | Done (Err (AccInvalidPassword _)) => s' = s
  | Done (Err (AccDuplicateEmail _)) => is_Some (kv s !! account_key email) /\ s' = s
  | Done (Err (AccMail _)) =>
      kv s !! account_key email = None /\
      (exists token, kv s' = delete (verify_key token) (kv s) /\
         (mails s' = mails s \/
          mails s' = mails s ++ [MkMail email "Verify your fortress account"
                                   (verify_body (verify_link (root_domain_ cp) token))]))
  | _ => False
  end.

Lemma validate_password_err pw e :
  validate_password pw = Err e -> exists m, e = AccInvalidPassword m.
Proof.
  unfold validate_password. destruct (is_empty pw), (Nat.ltb 72 (String.length pw));
    intros [= <-]; eauto.
Qed.

Lemma wp_del {A} k0 (k : Result Z RedisError -> prog EdgeSig A) Q s :
  (forall r, wph (k r) Q (set_kv (delete k0 (kv s)) s)) ->
  wph (bind (redis (RDel k0)) k) Q s.
Proof.
  intros H. apply wp_healthy_redis; [done|]. cbn [redis_apply].
  destruct (kv s !! k0) eqn:E; cbn [fst snd].
  - apply H.
  - specialize (H (Ok 0%Z)). by rewrite delete_id in H.
Qed.

Lemma wp_signup cp email password s :
  wph (account_signup cp email password)
    (signup_post cp (norm_email email) password s) s.
Proof.
  unfold account_signup. set (e := norm_email email). unfold validate_email.
  destruct (mailbox_ok e) eqn:Hm; [|done].
  destruct (validate_password password) as [[]|err] eqn:Hp.
  2:{ apply validate_password_err in Hp as [m ->]. done. }
  unfold bind_try. apply wp_healthy_conn, wp_healthy_redis; [done|].
  cbn [redis_apply fst snd]. rewrite set_kv_id. case_bool_decide as Hex; [done|].
  apply eq_None_not_Some in Hex.
  apply wp_bcrypt. intros h Hh. apply wp_uuid. intros u.
  apply wp_healthy_redis; [done|]. cbn [redis_apply fst snd].
  apply wp_random_token. intros bytes _.
  apply wp_healthy_redis; [done|]. cbn [redis_apply fst snd kv set_kv].
  set (token := hex_encode bytes).
  apply wp_mail; [|intros err s' Hs'].
  - split; [done|]. split; [done|]. exists u, h, token. done.
  - apply wp_del. intros _. apply wp_del. intros _. split; [by destruct Hs' as [-> | ->]|].
    split; [done|]. exists token. split; [|destruct Hs' as [-> | ->]; [by left|by right]].
    assert (kv s' = <[verify_key token := RStr e (Some VERIFY_TOKEN_TTL_SECS)]>
              (<[account_key e := RStr (to_json (MkAccount u Pending h None)) None]> (kv s)))
      as Hkv by (by destruct Hs' as [-> | ->]). cbn [kv set_kv]. rewrite Hkv.
    rewrite (delete_insert_ne _ (account_key e) (verify_key token)) by done.
    rewrite !delete_insert_eq. by rewrite (delete_id (kv s)).
Qed.

(** *** Magic links *)

(** Consuming a token: the account its email names, if any, is rewritten. *)
Definition consume_post (tkey : string) (upd : AccountRecord -> AccountRecord -> Prop)
    (s : edge) (o : outcome (Result unit AccountError)) (s' : edge) : Prop :=
  s' = set_kv (kv s') s /\
  match read_str (kv s !! tkey) with
  | Err e => o = Done (Err (AccRedis e)) /\ kv s' = kv s
  | Ok None => o = Done (Err AccInvalidToken) /\ kv s' = kv s
  | Ok (Some email) =>
      let m := delete tkey (kv s) in
      match read_str (kv s !! account_key email) with
      | Err e => o = Done (Err (AccRedis e)) /\ kv s' = m
      | Ok None => o = Done (Err AccNotFound) /\ kv s' = m
      | Ok (Some json) =>
          match account_from_json json with
          | Err e => o = Done (Err e) /\ kv s' = m
          | Ok a => o = Done (Ok tt) /\
              exists a', upd a a' /\ kv s' = <[account_key email := RStr (to_json a') None]> m
          end
      end
  end.

Lemma wp_getdel {A} tkey (k : Result (option string) RedisError -> prog EdgeSig A) Q s :
  match read_str (kv s !! tkey) with
  | Ok (Some e) => wph (k (Ok (Some e))) Q (set_kv (delete tkey (kv s)) s)
  | r => wph (k r) Q s
  end ->
  wph (bind (redis (RGetDel tkey)) k) Q s.
Proof.
  intros H. apply wp_healthy_redis; [done|]. cbn [redis_apply].
  destruct (read_str (kv s !! tkey)) as [[e|]|e]; cbn [fst snd]; [done|..];
    by rewrite set_kv_id.
Qed.

Lemma wp_verify token s :
  wph (account_verify token)
    (consume_post (verify_key token) (fun a a' => a' = set_status Active a) s) s.
Proof.
  unfold account_verify, bind_try. apply wp_healthy_conn, wp_getdel. unfold consume_post.
  destruct (read_str (kv s !! verify_key token)) as [[email|]|e];
    [|cbn; by rewrite set_kv_id..].
  apply wp_healthy_redis; [done|]. cbn [redis_apply fst snd kv set_kv].
  rewrite lookup_delete_ne by done.
  destruct (read_str (kv s !! account_key email)) as [[json|]|e]; [|done..].
  destruct (account_from_json json) as [a|e]; [|done].
  apply wp_healthy_redis; [done|]. cbn. split; [done|]. split; [done|]. eauto.
Qed.

Lemma wp_reset_password token pw s :
  wph (reset_password token pw)
    (fun o s' =>
       match validate_password pw with
       | Err e => o = Done (Err e) /\ s' = s
       | Ok _ => consume_post (reset_key token)
                   (fun a a' => exists h, bcrypt_verify pw h = Some true /\
                                          a' = set_password_hash h a) s o s'
       end) s.
Proof.
  unfold reset_password. destruct (validate_password pw) as [[]|e]; [|done].
  unfold bind_try. apply wp_healthy_conn, wp_getdel. unfold consume_post.
  destruct (read_str (kv s !! reset_key token)) as [[email|]|e];
    [|cbn; by rewrite set_kv_id..].
  apply wp_healthy_redis; [done|]. cbn [redis_apply fst snd kv set_kv].
  rewrite lookup_delete_ne by done.
  destruct (read_str (kv s !! account_key email)) as [[json|]|e]; [|done..].
  destruct (account_from_json json) as [a|e]; [|done].
  apply wp_bcrypt. intros h Hh.
  apply wp_healthy_redis; [done|]. cbn. split; [done|]. split; [done|]. eauto.
Qed.

(** A token is gone once it was presented. *)
Lemma consumed_gone tkey upd s o s' :
  (forall e, tkey <> account_key e) ->
  is_ok (read_str (kv s !! tkey)) = true ->
  consume_post tkey upd s o s' -> kv s' !! tkey = None.
Proof.
  intros Hne Hok (_ & Hpost).
  destruct (kv s !! tkey) as [[email ttl| |]|] eqn:Hk; cbn in Hok; try done; cbn [read_str] in Hpost.
  2:{ by destruct Hpost as [_ ->]. }
  assert (delete tkey (kv s) !! tkey = None) as Hd by apply lookup_delete_eq.
  destruct (read_str (kv s !! account_key email)) as [[json|]|e];
    [|by destruct Hpost as [_ ->]..].
  destruct (account_from_json json) as [a|e]; [|by destruct Hpost as [_ ->]].
  destruct Hpost as (_ & a' & _ & ->). rewrite lookup_insert_ne; [done|].
  by apply not_eq_sym.
Qed.

(** *** Login *)

Definition login_post (email password : string) (s : edge)
    (o : outcome (Result string AccountError)) (s' : edge) : Prop :=
  match o with
  | Done (Ok session) =>
      (exists bytes, session = hex_encode bytes) /\
      exists json ttl a,
        kv s !! account_key email = Some (RStr json ttl) /\ from_json json = Ok a /\
        bcrypt_verify password (password_hash a) = Some true /\ status a = Active /\
        s' = set_kv (<[session_key session := RStr email (Some SESSION_TTL_SECS)]> (kv s)) s
  | Done (Err e) =>
      s' = s /\
      match read_str (kv s !! account_key email) with
      | Err e' => e = AccRedis e'
      | Ok None => e = AccInvalidCredentials
      | Ok (Some json) =>
          match account_from_json json with
          | Err e' => e = e'
          | Ok a =>
              match bcrypt_verify password (password_hash a) with
              | Some true => status a = Pending /\ e = AccNotVerified email
              | Some false => e = AccInvalidCredentials
              | None => exists m, e = AccCorrupt m
              end
          end
      end
  | _ => False
  end.

Lemma wp_login email password s :
  wph (account_login email password) (login_post (norm_email email) password s) s.
Proof.
  unfold account_login, bind_try. set (e := norm_email email).
  apply wp_healthy_conn, wp_healthy_redis; [done|].
  cbn [redis_apply fst snd]. rewrite set_kv_id. unfold login_post.
  destruct (kv s !! account_key e) as [[json ttl| |]|] eqn:Hk; cbn [read_str]; try done.
  unfold account_from_json. destruct (from_json json) as [a|err] eqn:Ha; cbn [map_err]; [|done].
  destruct (bcrypt_verify password (password_hash a)) as [[]|] eqn:Hb; [| |cbn; eauto]; try done.
  case_bool_decide as Hs; cbn [negb].
  - apply wp_random_token. intros bytes _.
    apply wp_healthy_redis; [done|]. cbn. split; [by eexists|]. exists json, ttl, a. done.
  - cbn. split; [done|]. split; [|done]. by destruct (status a).
Qed.

Lemma wp_session_account token s (Q : outcome _ -> edge -> Prop) :
  Q (Done (map_err AccRedis (read_str (kv s !! session_key token)))) s ->
  wph (session_account token) Q s.
Proof.
  intros HQ. unfold session_account, bind_try. apply wp_healthy_conn, wp_healthy_redis; [done|].
  cbn [redis_apply fst snd]. rewrite set_kv_id. by destruct (read_str _).
Qed.

Lemma wp_logout token s (Q : outcome _ -> edge -> Prop) :
  Q (Done (Ok tt)) (set_kv (delete (session_key token) (kv s)) s) ->
  wph (account_logout token) Q s.
Proof.
  intros HQ. unfold account_logout, bind_try. apply wp_healthy_conn.
  apply wp_healthy_redis; [done|]. cbn [redis_apply].
  destruct (kv s !! session_key token) eqn:E; cbn; [done|]. by rewrite delete_id in HQ.
Qed.

(** *** Resends *)

Lemma wp_resend cp email s :
  wph (resend_verification cp email)
    (fun o s' =>
       let e := norm_email email in
       match o with
       | Done (Ok ResendUnknownEmail) => kv s !! account_key e = None /\ s' = s
       | Done (Ok AlreadyActive) => s' = s
       | Done (Ok ResendSent) =>
           exists token,
             kv s' = <[verify_key token := RStr e (Some VERIFY_TOKEN_TTL_SECS)]> (kv s) /\
             mails s' = mails s ++ [MkMail e "Verify your fortress account"
                                      (verify_body (verify_link (root_domain_ cp) token))]
       | Done (Err (AccMail _)) =>
           exists token,
             kv s' = <[verify_key token := RStr e (Some VERIFY_TOKEN_TTL_SECS)]> (kv s) /\
             (mails s' = mails s \/
              mails s' = mails s ++ [MkMail e "Verify your fortress account"
                                       (verify_body (verify_link (root_domain_ cp) token))])
       | Done (Err _) => s' = s
       | _ => False
       end) s.
Proof.
  unfold resend_verification, bind_try. set (e := norm_email email).
  apply wp_healthy_conn, wp_healthy_redis; [done|].
  cbn [redis_apply fst snd]. rewrite set_kv_id.
  destruct (kv s !! account_key e) as [[json ttl| |]|]; cbn [read_str]; try done.
  unfold account_from_json. destruct (from_json json) as [a|err]; cbn [map_err]; [|done].
  case_bool_decide; [done|]. apply wp_random_token. intros bytes _.
  apply wp_healthy_redis; [done|]. cbn [redis_apply fst snd].
  apply wp_mail; [by eexists|]. intros err s' Hs'. eexists. destruct Hs' as [-> | ->]; auto.
Qed.
End Proofs.
