(* ===== verification/Invite.v ===== *)
(** Invite-based enrollment (crates/controlplane/src/controlplane/pairing.rs):
    codes, the invite record's state machine, approval, one-time delivery and
    key rotation by device token.  The HTTP surface is in Api.v. *)

From stdpp Require Import base gmap strings list pretty countable.
From Stdlib Require Import ZArith Lia Ascii.
From S2P Require Import Prelude Prog Addr ForwarderState World Retry Forwarder Store.
From S2P Require Import Crates Errors ControlPlane Account.

Local Open Scope prog_scope.

Definition INVITE_TTL_SECS : Z := 30 * 24 * 60 * 60.
Definition DELIVERY_TTL_SECS : Z := 24 * 60 * 60.
Definition CODE_WORDS : nat := 4.

Definition invite_key (code : string) : string := "fortress:invite:" ++ code.
Definition delivery_key (code : string) : string := "fortress:invite-delivery:" ++ code.

#[global] Arguments invite_key : simpl never.
#[global] Arguments delivery_key : simpl never.

Inductive InviteStatus := Dormant | Waiting | Approved | Denied.

#[export] Instance InviteStatus_eq_dec : EqDecision InviteStatus.
Proof. solve_decision. Defined.

#[export] Instance InviteStatus_countable : Countable InviteStatus.
Proof.
  refine (inj_countable'
    (fun s => match s with Dormant => (true, true) | Waiting => (true, false)
                         | Approved => (false, true) | Denied => (false, false) end)
    (fun p => match p with (true, true) => Dormant | (true, false) => Waiting
                         | (false, true) => Approved | (false, false) => Denied end) _).
  by intros [].
Defined.

Record InviteRecord := MkInvite {
  owner_email : string;
  inv_status : InviteStatus;
  device_pubkey : option string;
}.

#[export] Instance InviteRecord_eq_dec : EqDecision InviteRecord.
Proof. solve_decision. Defined.

#[export] Instance InviteRecord_countable : Countable InviteRecord.
Proof.
  refine (inj_countable' (fun r => (owner_email r, inv_status r, device_pubkey r))
            (fun '(e, s, k) => MkInvite e s k) _).
  by intros [].
Defined.

Record EnrollmentDelivery := MkDelivery { del_machine : Machine; del_token : string }.

#[export] Instance EnrollmentDelivery_eq_dec : EqDecision EnrollmentDelivery.
Proof. solve_decision. Defined.

#[export] Instance EnrollmentDelivery_countable : Countable EnrollmentDelivery.
Proof.
  refine (inj_countable' (fun d => (del_machine d, del_token d))
            (fun '(m, t) => MkDelivery m t) _).
  by intros [].
Defined.

Record PollOutcome := MkPoll {
  poll_status : string;
  poll_machine : option Machine;
  poll_token : option string;
}.

Definition constant_time_eq (a b : string) : bool :=
  Nat.eqb (String.length a) (String.length b)
  && forallb (fun '(x, y) => Ascii.eqb x y)
       (combine (String.list_ascii_of_string a) (String.list_ascii_of_string b)).

(** [str::trim_start_matches] of a string pattern: every leading copy of it. *)
Fixpoint trim_start_str (fuel : nat) (p s : string) : string :=
  match fuel with
  | O => s
  | S fuel' => match strip_prefix p s with Some t => trim_start_str fuel' p t | None => s end
  end.

Definition is_dash (c : ascii) : bool := Ascii.eqb c "-".

Section Codes.
(** The vendored word list (src/words.txt), non-empty lines in order. *)
Context (WORDS : list string).

Definition WORD_SET : gset string :=
  dom (list_to_map (map (fun w => (w, tt)) WORDS) : gmap string unit).

(** The assertions that guard [WORDS] and [WORD_SET]. *)
Definition words_ok : bool :=
  (16384 <=? Z.of_nat (length WORDS))%Z
  && forallb (fun w => Nat.leb 4 (String.length w) && Nat.leb (String.length w) 9
                       && str_forallb is_ascii_lowercase w) WORDS
  && Nat.eqb (size WORD_SET) (length WORDS).

(** [u64::from_le_bytes]. *)
Fixpoint from_le_bytes (l : list Z) : Z :=
  match l with
  | [] => 0
  | b :: l' => b + 256 * from_le_bytes l'
  end.

Definition pick_word (bytes : list Z) : option string :=
  WORDS !! Z.to_nat (from_le_bytes bytes mod Z.of_nat (length WORDS)).

Fixpoint code_words (n : nat) : prog EdgeSig (list string) :=
  match n with
  | O => Ret []
  | S n' =>
      bytes <- @call EdgeSig (OsRng 8) ;;
      expect (pick_word bytes) "index out of bounds" (fun w =>
        ws <- code_words n' ;;
        Ret (w :: ws))
  end.

(** [random_invite_code]. *)
Definition random_invite_code : prog EdgeSig string :=
  assert_ words_ok "wordlist"
    (ws <- code_words CODE_WORDS ;;
     let code := join "-" ws in
     assert_ (Nat.eqb (length (split_on is_dash code)) CODE_WORDS) "a code is exactly 4 words"
       (Ret code)).

(** [canonical_invite_code]. *)
Definition canonical_invite_code (code : string) : option string :=
  let lowered := to_lowercase code in
  let words := split_on is_dash lowered in
  if negb (Nat.eqb (length words) CODE_WORDS) then None
  else if negb (forallb (fun w => bool_decide (w ∈ WORD_SET)) words) then None
  else Some lowered.
End Codes.

Section Invite.
Context `{CR : Crates}.
Context `{SM : Serde Machine} `{SA : Serde AccountRecord}.
Context `{SI : Serde InviteRecord} `{SD : Serde EnrollmentDelivery}.
Context (WORDS : list string).

Definition token_hash (token : string) : string := hex_encode (sha256 token).

Definition random_token_hex : prog EdgeSig string :=
  bytes <- @call EdgeSig (OsRng 32) ;;
  Ret (hex_encode bytes).

Definition record_from_json (json code : string) : Result InviteRecord InviteError :=
  map_err (fun e => InvCorrupt (code ++ ": " ++ e)) (from_json json).

Definition inv_conn (e : RedisError) : InviteError := invite_of_cp (CpRedis e).

(** The canonical code or [InvalidCode]. *)
Definition with_code {A} (code : string) (k : string -> prog EdgeSig (Result A InviteError))
    : prog EdgeSig (Result A InviteError) :=
  match canonical_invite_code WORDS code with
  | None => Ret (Err (InvInvalidCode code))
  | Some code => k code
  end.

(** Reading the record of a code, in front of [?]. *)
Definition with_record {A} (code : string)
    (k : InviteRecord -> prog EdgeSig (Result A InviteError))
    : prog EdgeSig (Result A InviteError) :=
  _c <-? conn as inv_conn ;;
  json <-? redis (RGet (invite_key code)) as InvRedis ;;
  match json with
  | None => Ret (Err (InvUnknown code))
  | Some json =>
      match record_from_json json code with
      | Err e => Ret (Err e)
      | Ok record => k record
      end
  end.

Definition set_record (code : string) (r : InviteRecord)
    : prog EdgeSig (Result unit RedisError) :=
  redis (RSetEx (invite_key code) (to_json r) INVITE_TTL_SECS).

Fixpoint invite_create_loop (n : nat) (email : string)
    : prog EdgeSig (Result string InviteError) :=
  match n with
  | O => Panic "32^10 collisions 16 times in a row is not a real probability"
  | S n' =>
      code <- random_invite_code WORDS ;;
      let record := MkInvite email Dormant None in
      set <-? redis (RSetExNx (invite_key code) (to_json record) INVITE_TTL_SECS)
        as InvRedis ;;
      if set : bool then Ret (Ok code) else invite_create_loop n' email
  end.

(** [invite_create]. *)
Definition invite_create (email : string) : prog EdgeSig (Result string InviteError) :=
  _c <-? conn as inv_conn ;;
  invite_create_loop 16 email.

(** One page of [invites_of]. *)
Fixpoint invites_page (email : string) (keys : list string)
    (out : list (string * InviteRecord))
    : prog EdgeSig (Result (list (string * InviteRecord)) InviteError) :=
  match keys with
  | [] => Ret (Ok out)
  | key :: keys' =>
      if starts_with "fortress:invite-delivery:" key then invites_page email keys' out
      else
        let code := trim_start_str (String.length key) "fortress:invite:" key in
        json <-? redis (RGet key) as InvRedis ;;
        match json with
        | None => invites_page email keys' out
        | Some json =>
            match record_from_json json code with
            | Err e => Ret (Err e)
            | Ok record =>
                if bool_decide (owner_email record = email)
                then invites_page email keys' (out ++ [(code, record)])
                else invites_page email keys' out
            end
        end
  end.

Fixpoint invites_scan (fuel : nat) (email cursor : string)
    (out : list (string * InviteRecord))
    : prog EdgeSig (Result (list (string * InviteRecord)) InviteError) :=
  match fuel with
  | O => OutOfFuel
  | S fuel' =>
      page <-? redis (RScan cursor "fortress:invite:*") as InvRedis ;;
      out <-? invites_page email (snd page) out as (fun e => e) ;;
      if bool_decide (fst page = "0"%string) then Ret (Ok out)
      else invites_scan fuel' email (fst page) out
  end.

(** [invites_of]; [fuel] bounds the number of [SCAN] pages. *)
Definition invites_of (fuel : nat) (email : string)
    : prog EdgeSig (Result (list (string * InviteRecord)) InviteError) :=
  _c <-? conn as inv_conn ;;
  invites_scan fuel email "0" [].

(** [machines_of]. *)
Definition machines_of (email : string) : prog EdgeSig (Result (list Machine) InviteError) :=
  uuid <-? account_uuid email as InvAccount ;;
  match uuid with
  | None => Ret (Ok [])
  | Some uuid =>
      machines <-? list_machines as invite_of_cp ;;
      Ret (Ok (List.filter (fun m => bool_decide (m_owner m = Some uuid)) machines))
  end.

(** [invite_revoke]. *)
Definition invite_revoke (email code : string) : prog EdgeSig (Result unit InviteError) :=
  with_code code (fun code =>
    with_record code (fun record =>
      if negb (bool_decide (owner_email record = email))
      then Ret (Err (InvForbidden code))
      else
        match inv_status record with
        | Dormant | Waiting =>
            _d <-? redis (RDel (invite_key code)) as InvRedis ;;
            Ret (Ok tt)
        | Approved | Denied => Ret (Err (InvNotWaiting code))
        end)).

(** [rearm_delivery]. *)
Definition rearm_delivery (code : string) (record : InviteRecord)
    : prog EdgeSig (Result unit InviteError) :=
  expect (device_pubkey record) "approved invite carries a device pubkey" (fun pubkey =>
    machines <-? list_machines as invite_of_cp ;;
    expect (List.find (fun m => bool_decide (m_wg_public_key m = pubkey)) machines)
      "an approved invite's machine exists" (fun m =>
      device_token <- random_token_hex ;;
      let m := set_token_hash (token_hash device_token) m in
      _s <-? store_machine m as invite_of_cp ;;
      _c <-? conn as inv_conn ;;
      _d <-? redis (RSetEx (delivery_key code) (to_json (MkDelivery m device_token))
                      DELIVERY_TTL_SECS) as InvRedis ;;
      Ret (Ok tt))).

(** [invite_begin]. *)
Definition invite_begin (code public_key : string) : prog EdgeSig (Result PollOutcome InviteError) :=
  with_code code (fun code =>
    match validate_wg_pubkey public_key with
    | Err _ => Ret (Err (InvInvalidPubkey public_key))
    | Ok _ =>
        with_record code (fun record =>
          match inv_status record with
          | Approved =>
              if bool_decide (device_pubkey record = Some public_key) then
                _r <-? rearm_delivery code record as (fun e => e) ;;
                Ret (Ok (MkPoll "approved" None None))
              else Ret (Err (InvNotWaiting code))
          | Denied => Ret (Err (InvNotWaiting code))
          | Dormant | Waiting =>
              let record := MkInvite (owner_email record) Waiting (Some public_key) in
              assert_ (Bool.eqb (bool_decide (inv_status record = Waiting))
                         (bool_decide (is_Some (device_pubkey record))))
                "a waiting invite always carries the candidate's pubkey"
                (_s <-? set_record code record as InvRedis ;;
                 Ret (Ok (MkPoll "waiting" None None)))
          end)
    end).

(** [invite_poll]. *)
Definition invite_poll (code : string) : prog EdgeSig (Result PollOutcome InviteError) :=
  with_code code (fun code =>
    with_record code (fun record =>
      match inv_status record with
      | Dormant => Ret (Ok (MkPoll "dormant" None None))
      | Waiting => Ret (Ok (MkPoll "waiting" None None))
      | Denied => Ret (Ok (MkPoll "denied" None None))
      | Approved =>
          payload <-? redis (RGetDel (delivery_key code)) as InvRedis ;;
          match payload with
          | None => Ret (Ok (MkPoll "approved" None None))
          | Some payload =>
              match (from_json payload : Result EnrollmentDelivery string) with
              | Err e => Ret (Err (InvCorrupt ("delivery " ++ code ++ ": " ++ e)))
              | Ok d => Ret (Ok (MkPoll "approved" (Some (del_machine d)) (Some (del_token d))))
              end
          end
      end)).

(** [invite_approve]. *)
Definition invite_approve (cp : ControlPlane) (FORWARDER : option Forwarder)
    (email code name : string) : prog EdgeSig (Result Machine InviteError) :=
  with_code code (fun code =>
    with_record code (fun record =>
      if negb (bool_decide (owner_email record = email))
      then Ret (Err (InvForbidden code))
      else
        match inv_status record with
        | Dormant => Ret (Err (InvNotBegun code))
        | Approved | Denied => Ret (Err (InvNotWaiting code))
        | Waiting =>
            match device_pubkey record with
            | None => Ret (Err (InvNotBegun code))
            | Some pubkey =>
                uuid <-? account_uuid email as InvAccount ;;
                expect uuid "invite owner email resolves to an active account" (fun uuid =>
                  outcome <-? allocate_machine cp FORWARDER (Some uuid) name pubkey
                    as invite_of_cp ;;
                  match outcome with
                  | Existing _ => Ret (Err (InvNameTaken name))
                  | Created resp =>
                      let m := machine resp in
                      device_token <- random_token_hex ;;
                      let enrolled := set_token_hash (token_hash device_token) m in
                      _s <-? store_machine enrolled as invite_of_cp ;;
                      _d <-? redis (RSetEx (delivery_key code)
                                      (to_json (MkDelivery enrolled device_token))
                                      DELIVERY_TTL_SECS) as InvRedis ;;
                      let record := MkInvite (owner_email record) Approved
                                      (device_pubkey record) in
                      _r <-? set_record code record as InvRedis ;;
                      Ret (Ok m)
                  end)
            end
        end)).

(** [invite_deny]. *)
Definition invite_deny (email code : string) : prog EdgeSig (Result unit InviteError) :=
  with_code code (fun code =>
    with_record code (fun record =>
      if negb (bool_decide (owner_email record = email))
      then Ret (Err (InvForbidden code))
      else
        match inv_status record with
        | Dormant => Ret (Err (InvNotBegun code))
        | Approved | Denied => Ret (Err (InvNotWaiting code))
        | Waiting =>
            let record := MkInvite (owner_email record) Denied (device_pubkey record) in
            _s <-? set_record code record as InvRedis ;;
            Ret (Ok tt)
        end)).

(** [device_register]. *)
Definition device_register (cp : ControlPlane) (FORWARDER : option Forwarder)
    (device_token public_key : string) : prog EdgeSig (Result Machine ControlPlaneError) :=
  assert_ (negb (is_empty device_token)) "device token is required"
    match validate_wg_pubkey public_key with
    | Err e => Ret (Err e)
    | Ok _ =>
        machines <-? list_machines as (fun e => e) ;;
        let digest := token_hash device_token in
        match List.find (fun m => match m_device_token_hash m with
                                  | Some stored => constant_time_eq stored digest
                                  | None => false
                                  end) machines with
        | None => Ret (Err (CpNotFound "no machine for this device token"))
        | Some target =>
            outcome <-? allocate_machine cp FORWARDER (m_owner target) (m_name target) public_key
              as (fun e => e) ;;
            match outcome with
            | Existing resp => Ret (Ok (machine resp))
            | Created _ => Panic "re-registering an enrolled machine is always Existing"
            end
        end
    end.

(** The session scan of [account_delete]: one page. *)
Fixpoint sessions_page (email : string) (keys : list string)
    : prog EdgeSig (Result unit AccountError) :=
  match keys with
  | [] => Ret (Ok tt)
  | skey :: keys' =>
      value <-? redis (RGet skey) as AccRedis ;;
      if bool_decide (value = Some email) then
        _d <-? redis (RDel skey) as AccRedis ;;
        sessions_page email keys'
      else sessions_page email keys'
  end.

Fixpoint sessions_scan (fuel : nat) (email cursor : string)
    : prog EdgeSig (Result unit AccountError) :=
  match fuel with
  | O => OutOfFuel
  | S fuel' =>
      page <-? redis (RScan cursor (session_key "*")) as AccRedis ;;
      _p <-? sessions_page email (snd page) as (fun e => e) ;;
      if bool_decide (fst page = "0"%string) then Ret (Ok tt)
      else sessions_scan fuel' email (fst page)
  end.

Fixpoint delete_machines (cp : ControlPlane) (FORWARDER : option Forwarder)
    (l : list Machine) : prog EdgeSig unit :=
  match l with
  | [] => Ret tt
  | m :: l' => delete_machine cp FORWARDER (m_name m) ;;; delete_machines cp FORWARDER l'
  end.

Fixpoint delete_invites (l : list (string * InviteRecord))
    : prog EdgeSig (Result unit AccountError) :=
  match l with
  | [] => Ret (Ok tt)
  | (code, _) :: l' =>
      _d <-? redis (RDel (invite_key code)) as AccRedis ;;
      delete_invites l'
  end.

(** [unwrap_or_default] on a listing. *)
Definition or_default {A E} (r : Result (list A) E) : list A :=
  match r with Ok l => l | Err _ => [] end.

(** [account_delete]; [fuel] bounds the pages of each [SCAN]. *)
Definition account_delete (fuel : nat) (cp : ControlPlane) (FORWARDER : option Forwarder)
    (email : string) : prog EdgeSig (Result unit AccountError) :=
  let email := norm_email email in
  _c <-? conn as acc_conn ;;
  json <-? redis (RGet (account_key email)) as AccRedis ;;
  match json with
  | None => Ret (Err AccNotFound)
  | Some json =>
      match account_from_json json with
      | Err e => Ret (Err e)
      | Ok _ =>
          machines <- machines_of email ;;
          delete_machines cp FORWARDER (or_default machines) ;;;
          invites <- invites_of fuel email ;;
          _i <-? delete_invites (or_default invites) as (fun e => e) ;;
          _s <-? sessions_scan fuel email "0" as (fun e => e) ;;
          _d <-? redis (RDel (account_key email)) as AccRedis ;;
          Ret (Ok tt)
      end
  end.
End Invite.
