(* ===== verification/InviteCodes.v ===== *)
(** Invite codes: what [canonical_invite_code] accepts, and that every generated
    code is accepted as it is. *)

From stdpp Require Import base gmap strings list pretty.
From Stdlib Require Import ZArith Lia Ascii.
From S2P Require Import Prelude Prog Addr ForwarderState World Retry Forwarder Store.
From S2P Require Import Crates Errors ControlPlane Account AccountProofs Invite.

Local Open Scope prog_scope.

Lemma lower_ascii_idem c : lower_ascii (lower_ascii c) = lower_ascii c.
Proof.
  destruct c as [[] [] [] [] [] [] [] []]; vm_compute; reflexivity.
Qed.

Lemma to_lowercase_idem s : to_lowercase (to_lowercase s) = to_lowercase s.
Proof.
  unfold to_lowercase. induction s as [|c s IH]; cbn [str_map]; [done|].
  by rewrite lower_ascii_idem, IH.
Qed.

Lemma lower_ascii_lowercase c : is_ascii_lowercase c = true -> lower_ascii c = c.
Proof. destruct c as [[] [] [] [] [] [] [] []]; vm_compute; congruence. Qed.

Lemma to_lowercase_app a b : to_lowercase (a ++ b) = (to_lowercase a ++ to_lowercase b)%string.
Proof.
  unfold to_lowercase. induction a as [|c a IH]; [done|]. cbn [String.append str_map].
  by rewrite IH.
Qed.

Lemma to_lowercase_lower s : str_forallb is_ascii_lowercase s = true -> to_lowercase s = s.
Proof.
  unfold to_lowercase. induction s as [|c s IH]; cbn [str_forallb str_map]; [done|].
  rewrite andb_true_iff. intros [Hc Hs]. by rewrite lower_ascii_lowercase, IH.
Qed.

Lemma constant_time_eq_spec a b : constant_time_eq a b = true <-> a = b.
Proof.
  unfold constant_time_eq. rewrite andb_true_iff, Nat.eqb_eq. split.
  - revert b. induction a as [|x a IH]; intros [|y b]; cbn; try (by intros [? _]).
    intros [H1 H2]. apply andb_true_iff in H2 as [Hx H2]. apply Ascii.eqb_eq in Hx as ->.
    f_equal. apply IH. split; [congruence|done].
  - intros <-. split; [done|]. induction a as [|x a IH]; cbn; [done|].
    by rewrite Ascii.eqb_refl.
Qed.

Section Canonical.
Context (WORDS : list string).

Lemma elem_of_words w : w ∈ WORD_SET WORDS <-> w ∈ WORDS.
Proof.
  unfold WORD_SET. rewrite dom_list_to_map_L, elem_of_list_to_set.
  assert (forall l : list string, (map (fun w => (w, tt)) l).*1 = l) as ->; [|done].
  intros l. induction l as [|x l IH]; [done|]. cbn. by rewrite IH.
Qed.

(** What an accepted code is: its lowercase form, four words of the list. *)
Lemma canonical_spec code c :
  canonical_invite_code WORDS code = Some c <->
  c = to_lowercase code /\ length (split_on is_dash c) = CODE_WORDS /\
  Forall (fun w => w ∈ WORDS) (split_on is_dash c).
Proof.
  unfold canonical_invite_code.
  destruct (Nat.eqb_spec (length (split_on is_dash (to_lowercase code))) CODE_WORDS)
    as [Hl|Hl]; cbn [negb]; [|split; [done|by intros (-> & H & _)]].
  assert (iff (forallb (fun w => bool_decide (w ∈ WORD_SET WORDS))
            (split_on is_dash (to_lowercase code)) = true)
          (Forall (fun w => w ∈ WORDS) (split_on is_dash (to_lowercase code)))) as Hb.
  { rewrite forallb_forall, Forall_forall. setoid_rewrite list_elem_of_In.
    split; intros H w Hw; specialize (H w Hw);
      rewrite ?bool_decide_eq_true, ?elem_of_words, ?list_elem_of_In in *; done. }
  destruct (forallb _ _); cbn [negb].
  - split; [intros [= <-]; split; [done|]; split; [done|by apply Hb]|by intros (-> & _)].
  - split; [done|]. intros (-> & _ & HF). by apply Hb in HF.
Qed.

Lemma canonical_idem code c :
  canonical_invite_code WORDS code = Some c -> canonical_invite_code WORDS c = Some c.
Proof.
  rewrite !canonical_spec. intros (-> & H1 & H2). by rewrite to_lowercase_idem.
Qed.

(** Case does not matter. *)
Lemma canonical_case code :
  canonical_invite_code WORDS (to_lowercase code) = canonical_invite_code WORDS code.
Proof. unfold canonical_invite_code. by rewrite to_lowercase_idem. Qed.
End Canonical.

Section Codes.
Context (WORDS : list string) (HW : words_ok WORDS = true).
Context (verify : string -> string -> option bool).

Lemma words_facts :
  (0 < length WORDS)%nat /\
  Forall (fun w => str_forallb is_ascii_lowercase w = true /\ w <> ""%string) WORDS.
Proof.
  pose proof HW as H. apply andb_prop in H as [H _]. apply andb_prop in H as [H1 H2].
  split; [apply Z.leb_le in H1; lia|]. clear H1. rewrite forallb_forall in H2.
  apply Forall_forall. intros w Hw. apply list_elem_of_In, H2 in Hw.
  rewrite !andb_true_iff, Nat.leb_le in Hw. destruct Hw as [[Hl _] Hc].
  split; [done|]. intros ->. cbn in Hl. lia.
Qed.

Lemma is_dash_lower w :
  str_forallb is_ascii_lowercase w = true -> str_forallb (fun c => negb (is_dash c)) w = true.
Proof.
  apply str_forallb_impl. intros c. unfold is_dash.
  destruct (Ascii.eqb_spec c "-") as [->|]; done.
Qed.

Lemma join_lower l :
  Forall (fun w => str_forallb is_ascii_lowercase w = true) l ->
  to_lowercase (join "-" l) = join "-" l.
Proof.
  intros Hl. unfold join. induction Hl as [|w l Hw Hl IH]; [done|].
  destruct l as [|w' l]; [by apply to_lowercase_lower|].
  change (String.concat "-" (w :: w' :: l)) with (w ++ "-" ++ String.concat "-" (w' :: l))%string.
  rewrite !to_lowercase_app, IH, (to_lowercase_lower w) by done. done.
Qed.

(** Any four words of the list, joined, are a code, and the canonical one. *)
Lemma canonical_words l :
  length l = CODE_WORDS -> Forall (fun w => w ∈ WORDS) l ->
  canonical_invite_code WORDS (join "-" l) = Some (join "-" l) /\
  length (split_on is_dash (join "-" l)) = CODE_WORDS.
Proof.
  intros Hlen Hl. destruct words_facts as [_ Hw]. rewrite Forall_forall in Hw.
  assert (Forall (fun w => str_forallb is_ascii_lowercase w = true) l) as Hlow.
  { eapply Forall_impl; [exact Hl|]. intros w H. by apply Hw. }
  assert (split_on is_dash (join "-" l) = l) as Hs.
  { apply (split_on_join is_dash "-"); [done|by destruct l|].
    eapply Forall_impl; [exact Hlow|]. intros w. apply is_dash_lower. }
  split; [|by rewrite Hs]. apply canonical_spec. by rewrite join_lower, Hs.
Qed.

Lemma pick_word_some bytes : is_Some (pick_word WORDS bytes).
Proof.
  unfold pick_word. apply lookup_lt_is_Some. destruct words_facts as [H _].
  pose proof (Z.mod_pos_bound (from_le_bytes bytes) (Z.of_nat (length WORDS)) ltac:(lia)). lia.
Qed.

Lemma wp_code_words n s :
  wp (X := EdgeSig) (edge_spec verify) (code_words WORDS n)
    (fun o s' => s' = s /\ exists l, o = Done l /\ length l = n /\ Forall (fun w => w ∈ WORDS) l) s.
Proof.
  revert s. induction n as [|n IH]; intros s; cbn [code_words].
  { split; [done|]. by exists []. }
  intros bytes s' (_ & _ & ->). cbn [bind]. destruct (pick_word_some bytes) as [w Hw].
  rewrite Hw. cbn [expect]. rewrite wp_bind.
  eapply wp_mono; [|apply IH]. intros o s' (-> & l & -> & Hl & Hin). cbn.
  split; [done|]. exists (w :: l). split_and!; [done|cbn; congruence|].
  constructor; [|done]. by eapply list_elem_of_lookup_2.
Qed.

(** A generated code is canonical as it is. *)
Lemma wp_random_code s :
  wp (X := EdgeSig) (edge_spec verify) (random_invite_code WORDS)
    (fun o s' => s' = s /\ exists code, o = Done code /\
                 canonical_invite_code WORDS code = Some code) s.
Proof.
  unfold random_invite_code. rewrite HW. cbn [assert_]. rewrite wp_bind.
  eapply wp_mono; [|apply wp_code_words].
  intros o s' (-> & l & -> & Hl & Hin). cbn [andthen].
  destruct (canonical_words l Hl Hin) as [H1 H2]. rewrite H2. cbn. eauto.
Qed.
End Codes.
