(* ===== verification/InviteMoves.v ===== *)
(** The invite state machine.  [invite_move] lists the transitions a record may
    make; every handler's effect on every record is one of them, whatever
    fails, and the invariants of the record follow by induction on the steps of
    a run. *)

From stdpp Require Import base gmap strings list pretty.
From Stdlib Require Import ZArith Lia Ascii.
From S2P Require Import Prelude Prog Addr ForwarderState World Retry Forwarder Dns.
From S2P Require Import Store Crates Errors ControlPlane Allocation Account.
From S2P Require Import AccountProofs Invite InviteCodes.

Local Open Scope prog_scope.

Definition is_invite_key (k : string) : Prop := exists code, k = invite_key code.

Lemma invite_key_inj a b : invite_key a = invite_key b -> a = b.
Proof. apply str_app_inj_l. Qed.

#[export] Hint Extern 2 (stable _ (keeps_keys is_invite_key _) (redis _)) =>
  apply stable_keeps; [reflexivity|by intros [? ?]] : stable.

Section Frame.
Context `{CR : Crates} `{SM : Serde Machine} `{SA : Serde AccountRecord}.
Context `{SI : Serde InviteRecord} `{SD : Serde EnrollmentDelivery}.
Context (verify : string -> string -> option bool) (m0 : gmap string rval).
Local Abbreviation I := (keeps_keys is_invite_key m0) (only parsing).

Lemma frame_remove_forwards ip wg l : stable verify I (remove_forwards ip wg l).
Proof. induction l as [|p l IH]; cbn [remove_forwards]; stable_walk. Qed.
Hint Resolve frame_remove_forwards : stable.

Lemma frame_rollback name m : stable verify I (rollback_allocation name m).
Proof. unfold rollback_allocation. stable_walk. Qed.
Hint Resolve frame_rollback : stable.

Lemma frame_wire_forwards f name m l : stable verify I (wire_forwards f name m l).
Proof. induction l as [|p l IH]; cbn [wire_forwards]; stable_walk. Qed.
Hint Resolve frame_wire_forwards : stable.

Lemma frame_allocate cp fwd owner name key :
  (forall code, alloc_key cp <> invite_key code) ->
  stable verify I (allocate_machine cp fwd owner name key).
Proof.
  intros Ha.
  assert (forall c, cmd_key c = alloc_key cp -> is_scan c = false ->
            stable verify I (redis c)) as Hc.
  { intros c Hk Hs. apply stable_keeps; [done|]. rewrite Hk. intros [code H]. by apply (Ha code). }
  unfold allocate_machine, with_edge_key, allocate_existing, allocate_fresh, wire_machine,
    upsert_machine. stable_walk; by apply Hc.
Qed.

Lemma frame_list_from l : stable verify I (list_from l).
Proof. induction l as [|n l IH]; cbn [list_from]; stable_walk. Qed.
Hint Resolve frame_list_from : stable.

Lemma frame_list : stable verify I list_machines.
Proof. unfold list_machines. stable_walk. Qed.
Hint Resolve frame_list : stable.

Lemma frame_store m : stable verify I (store_machine m).
Proof. unfold store_machine. stable_walk. Qed.
Hint Resolve frame_store : stable.

Lemma frame_uuid e : stable verify I (account_uuid e).
Proof. unfold account_uuid. stable_walk. Qed.

Lemma frame_token : stable verify I random_token_hex.
Proof. unfold random_token_hex. stable_walk. Qed.
Hint Resolve frame_token : stable.

Lemma frame_rearm code r : stable verify I (rearm_delivery code r).
Proof. unfold rearm_delivery. stable_walk. Qed.
End Frame.
#[export] Hint Resolve frame_allocate frame_list frame_store frame_uuid frame_token
  frame_rearm : stable.

(** ** Moves of a record *)

Definition invite_open (st : InviteStatus) : Prop := st = Dormant \/ st = Waiting.

Inductive invite_move : option InviteRecord -> option InviteRecord -> Prop :=
| mv_stay r : invite_move r r
| mv_create e : invite_move None (Some (MkInvite e Dormant None))
| mv_begin e st k0 k :
    invite_open st -> invite_move (Some (MkInvite e st k0)) (Some (MkInvite e Waiting (Some k)))
| mv_approve e k :
    invite_move (Some (MkInvite e Waiting (Some k))) (Some (MkInvite e Approved (Some k)))
| mv_deny e k0 :
    invite_move (Some (MkInvite e Waiting k0)) (Some (MkInvite e Denied k0))
| mv_revoke e st k0 : invite_open st -> invite_move (Some (MkInvite e st k0)) None.

Section Moves.
Context `{CR : Crates} `{SM : Serde Machine} `{SA : Serde AccountRecord}.
Context `{SI : Serde InviteRecord} `{SD : Serde EnrollmentDelivery}.
Context `{SL : !SerdeLaws InviteRecord}.
Context (WORDS : list string) (verify : string -> string -> option bool).
Context (cp : ControlPlane) (fwd : option Forwarder).
Context (Halloc : forall code, alloc_key cp <> invite_key code).
Local Abbreviation wpe := (wp (X := EdgeSig) (edge_spec verify)) (only parsing).

(** The readable record of a code. *)
Definition rec_at (m : gmap string rval) (code : string) : option InviteRecord :=
  match m !! invite_key code with
  | Some (RStr json _) => match from_json json with Ok r => Some r | Err _ => None end
  | _ => None
  end.

Definition moves (m m' : gmap string rval) : Prop :=
  forall code, invite_move (rec_at m code) (rec_at m' code).

Lemma moves_refl m : moves m m.
Proof. intros code. constructor. Qed.

Lemma moves_keeps m m' : keeps_keys is_invite_key m m' -> moves m m'.
Proof. intros H code. unfold rec_at. rewrite H by (by eexists). constructor. Qed.

(** Only the record of [code] changes, by a move. *)
Lemma moves_at m m' code :
  (forall c, c <> code -> m' !! invite_key c = m !! invite_key c) ->
  invite_move (rec_at m code) (rec_at m' code) -> moves m m'.
Proof.
  intros Ho Hm c. destruct (decide (c = code)) as [->|Hne]; [done|].
  unfold rec_at. rewrite Ho by done. constructor.
Qed.

Lemma rec_at_insert m code r ttl :
  rec_at (<[invite_key code := RStr (to_json r) ttl]> m) code = Some r.
Proof. unfold rec_at. by rewrite lookup_insert_eq, from_to_json. Qed.

Lemma moves_insert m code r r' ttl :
  rec_at m code = r -> invite_move r (Some r') ->
  moves m (<[invite_key code := RStr (to_json r') ttl]> m).
Proof.
  intros <- Hm. apply (moves_at _ _ code).
  - intros c Hne. apply lookup_insert_ne. by intros H%invite_key_inj.
  - by rewrite rec_at_insert.
Qed.

Lemma moves_delete m code r :
  rec_at m code = Some r -> invite_open (inv_status r) -> moves m (delete (invite_key code) m).
Proof.
  intros Hr Hst. apply (moves_at _ _ code).
  - intros c Hne. apply lookup_delete_ne. by intros H%invite_key_inj.
  - rewrite Hr. unfold rec_at. rewrite lookup_delete_eq. destruct r. by apply mv_revoke.
Qed.

Lemma wp_frame_moves {A} (p : prog EdgeSig A) s :
  (forall m0, stable verify (keeps_keys is_invite_key m0) p) ->
  wpe p (fun _ s' => moves (kv s) (kv s')) s.
Proof.
  intros Hp. eapply wp_mono; [|apply wp_keeps; exact Hp].
  intros o s' H. by apply moves_keeps.
Qed.

(** Reading the record in front of a handler's body. *)
Lemma wp_with_record {A} code (k : InviteRecord -> prog EdgeSig (Result A InviteError))
    (Q : outcome _ -> edge -> Prop) s :
  (forall e, Q (Done (Err e)) s) ->
  (forall r, rec_at (kv s) code = Some r -> wpe (k r) Q s) ->
  wpe (with_record code k) Q s.
Proof.
  intros He Hk. unfold with_record. intros r s' Hs. cbn in Hs. subst s'.
  destruct r as [[]|e]; [|apply He]. cbn [bind]. apply wp_redis_try; [done| |].
  - intros e s' [-> | ->]; cbn; rewrite ?set_kv_id; apply He.
  - intros [json|] Ha; cbn in Ha |- *; rewrite set_kv_id; [|apply He].
    unfold record_from_json. destruct (from_json json) as [r|e] eqn:Hj; cbn; [|apply He].
    apply Hk. unfold rec_at. destruct (kv s !! invite_key code) as [[j t| |]|]; cbn in Ha;
      try done. injection Ha as ->. by rewrite Hj.
Qed.

(** Writing the record back: the store is as before, or has the new record. *)
Lemma wp_set_record {A} code r (k : unit -> prog EdgeSig (Result A InviteError))
    (Q : outcome _ -> edge -> Prop) s :
  (forall e s', kv s' = kv s \/
     kv s' = <[invite_key code := RStr (to_json r) (Some INVITE_TTL_SECS)]> (kv s) ->
     Q (Done (Err e)) s') ->
  wpe (k tt) Q
    (set_kv (<[invite_key code := RStr (to_json r) (Some INVITE_TTL_SECS)]> (kv s)) s) ->
  wpe (bind_try InvRedis (set_record code r) k) Q s.
Proof.
  intros He Hk. unfold set_record. apply wp_redis_try; [done| |].
  - intros e s' [-> | ->]; apply He; auto.
  - intros [] _. exact Hk.
Qed.

Lemma moves_create email n s :
  wpe (invite_create_loop WORDS n email) (fun _ s' => moves (kv s) (kv s')) s.
Proof.
  induction n as [|n IH]; cbn [invite_create_loop]; [apply moves_refl|].
  rewrite wp_bind.
  apply (wp_mono (X := EdgeSig) (edge_spec verify) (random_invite_code WORDS)
           (fun _ s' => s' = s)).
  2:{ unfold random_invite_code, assert_. destruct (words_ok WORDS); [|done].
      assert (forall k s, wpe (code_words WORDS k) (fun _ s' => s' = s) s) as Hc.
      { clear s IH. induction k as [|k IHk]; intros s; [done|]. cbn [code_words].
        intros b s' (_ & _ & ->). cbn [bind]. destruct (pick_word WORDS b); [|done].
        cbn [expect]. rewrite wp_bind. eapply wp_mono; [|apply IHk].
        by intros [l|m|] s' ->. }
      rewrite wp_bind. eapply wp_mono; [|apply Hc].
      intros [l|m|] s' ->; cbn; [|done..]. by destruct (Nat.eqb _ _). }
  intros [code|m|] s1 ->; cbn [andthen]; [|apply moves_refl..].
  set (rec := MkInvite email Dormant None).
  assert (moves (kv s) (snd (redis_apply
            (RSetExNx (invite_key code) (to_json rec) INVITE_TTL_SECS) (kv s)))) as Hm.
  { cbn. destruct (kv s !! invite_key code) eqn:E; [apply moves_refl|].
    eapply moves_insert; [done|]. unfold rec_at. rewrite E. apply mv_create. }
  apply wp_redis_try; [done| |].
  - intros e s' [-> | ->]; [apply moves_refl|exact Hm].
  - intros b Hb. destruct b; [exact Hm|].
    cbn in Hb |- *. destruct (kv s !! invite_key code) eqn:E; [|done].
    cbn. rewrite set_kv_id. exact IH.
Qed.

Lemma wp_with_code {A} code (k : string -> prog EdgeSig (Result A InviteError)) s :
  (forall c, wpe (k c) (fun _ s' => moves (kv s) (kv s')) s) ->
  wpe (with_code WORDS code k) (fun _ s' => moves (kv s) (kv s')) s.
Proof.
  intros Hk. unfold with_code. destruct (canonical_invite_code WORDS code); [auto|].
  apply moves_refl.
Qed.
End Moves.

(** ** The handlers as steps *)

Inductive invite_call :=
| CallCreate (email : string)
| CallList (email : string)
| CallRevoke (email code : string)
| CallBegin (code public_key : string)
| CallPoll (code : string)
| CallApprove (email code name : string)
| CallDeny (email code : string)
| CallRegister (device_token public_key : string).

Definition done_ {A} (p : prog EdgeSig A) : prog EdgeSig unit := bind p (fun _ => Ret tt).

Section Handlers.
Context `{CR : Crates} `{SM : Serde Machine} `{SA : Serde AccountRecord}.
Context `{SI : Serde InviteRecord} `{SD : Serde EnrollmentDelivery}.
Context `{SL : !SerdeLaws InviteRecord}.
Context (WORDS : list string) (verify : string -> string -> option bool).
Context (cp : ControlPlane) (fwd : option Forwarder) (fuel : nat).
Context (Halloc : forall code, alloc_key cp <> invite_key code).
Local Abbreviation wpe := (wp (X := EdgeSig) (edge_spec verify)) (only parsing).

(** The dispatch of the routes to the handlers. *)
Definition handle (c : invite_call) : prog EdgeSig unit :=
  match c with
  | CallCreate email => done_ (invite_create WORDS email)
  | CallList email => done_ (invites_of fuel email)
  | CallRevoke email code => done_ (invite_revoke WORDS email code)
  | CallBegin code key => done_ (invite_begin WORDS code key)
  | CallPoll code => done_ (invite_poll WORDS code)
  | CallApprove email code name => done_ (invite_approve WORDS cp fwd email code name)
  | CallDeny email code => done_ (invite_deny WORDS email code)
  | CallRegister token key => done_ (device_register cp fwd token key)
  end.

Definition moving {A} (p : prog EdgeSig A) : Prop :=
  forall s, wpe p (fun _ s' => moves (kv s) (kv s')) s.

Lemma moving_done {A} (p : prog EdgeSig A) : moving p -> moving (done_ p).
Proof.
  intros H s. unfold done_. rewrite wp_bind. eapply wp_mono; [|apply H].
  by intros [a|m|] s'.
Qed.

Lemma moving_invites_of n email : moving (invites_of n email).
Proof.
  intros s. apply wp_frame_moves. intros m0. unfold invites_of.
  assert (forall l out, stable verify (keeps_keys is_invite_key m0)
                          (invites_page email l out)) as Hp.
  { induction l as [|k l IH]; intros out; cbn [invites_page]; [stable_walk|].
    destruct (starts_with _ _); [apply IH|]. apply stable_try; [apply stable_get|].
    intros [j|]; [|apply IH]. destruct (record_from_json _ _); [|stable_walk].
    case_bool_decide; apply IH. }
  assert (forall k c out, stable verify (keeps_keys is_invite_key m0)
                            (invites_scan k email c out)) as Hs.
  { induction k as [|k IH]; intros c out; cbn [invites_scan]; stable_walk. }
  stable_walk.
Qed.

Lemma moving_revoke email code : moving (invite_revoke WORDS email code).
Proof.
  intros s. apply wp_with_code. intros c. apply wp_with_record; [intros; apply moves_refl|].
  intros r Hr. case_bool_decide; cbn [negb]; [|apply moves_refl].
  assert (invite_open (inv_status r) ->
          wpe (bind_try InvRedis (redis (RDel (invite_key c))) (fun _ => Ret (Ok tt)))
            (fun _ s' => moves (kv s) (kv s')) s) as Hdel.
  { intros Ho.
    assert (moves (kv s) (snd (redis_apply (RDel (invite_key c)) (kv s)))) as Hm.
    { cbn. destruct (kv s !! invite_key c); [by eapply moves_delete|apply moves_refl]. }
    apply wp_redis_try; [done| |by intros].
    intros e s' [-> | ->]; [apply moves_refl|exact Hm]. }
  destruct (inv_status r) eqn:Hst; [apply Hdel; by left|apply Hdel; by right|apply moves_refl..].
Qed.

Lemma moving_begin code key : moving (invite_begin WORDS code key).
Proof.
  intros s. apply wp_with_code. intros c.
  destruct (validate_wg_pubkey key); [|apply moves_refl].
  apply wp_with_record; [intros; apply moves_refl|]. intros r Hr.
  assert (invite_open (inv_status r) ->
          moves (kv s) (<[invite_key c := RStr (to_json (MkInvite (owner_email r) Waiting (Some key)))
                                            (Some INVITE_TTL_SECS)]> (kv s))) as Hm.
  { intros Ho. eapply moves_insert; [exact Hr|]. destruct r as [e st k0]. by apply mv_begin. }
  destruct (inv_status r) eqn:Hst; [| | |apply moves_refl].
  3:{ case_bool_decide; [|apply moves_refl]. apply wp_frame_moves. intros m0. stable_walk. }
  all: (cbn [assert_ Bool.eqb bool_decide inv_status device_pubkey];
    apply (wp_set_record verify); [intros e s' [-> | ->]; [apply moves_refl|apply Hm; hnf; auto]|
      apply Hm; hnf; auto]).
Qed.

Lemma moving_poll code : moving (invite_poll WORDS code).
Proof.
  intros s. apply wp_with_code. intros c. apply wp_with_record; [intros; apply moves_refl|].
  intros r Hr. destruct (inv_status r); [apply moves_refl..| |apply moves_refl].
  apply wp_frame_moves. intros m0. stable_walk.
Qed.

Lemma moving_deny email code : moving (invite_deny WORDS email code).
Proof.
  intros s. apply wp_with_code. intros c. apply wp_with_record; [intros; apply moves_refl|].
  intros r Hr. case_bool_decide; cbn [negb]; [|apply moves_refl].
  destruct (inv_status r) eqn:Hst; [apply moves_refl| |apply moves_refl..].
  assert (moves (kv s) (<[invite_key c := RStr (to_json (MkInvite (owner_email r) Denied
            (device_pubkey r))) (Some INVITE_TTL_SECS)]> (kv s))) as Hm.
  { eapply moves_insert; [exact Hr|]. destruct r as [e st k0]. cbn in Hst |- *. subst st.
    apply mv_deny. }
  apply wp_set_record; [intros e s' [-> | ->]; [apply moves_refl|exact Hm]|exact Hm].
Qed.

(** The record is read, then everything up to the last write leaves the
    invites alone. *)
Lemma wp_frame_then {A B} (p : prog EdgeSig A) (k : A -> prog EdgeSig B)
    (Q : outcome B -> edge -> Prop) s :
  (forall m0, stable verify (keeps_keys is_invite_key m0) p) ->
  (forall a s', keeps_keys is_invite_key (kv s) (kv s') -> wpe (k a) Q s') ->
  (forall m s', keeps_keys is_invite_key (kv s) (kv s') -> Q (Panicked m) s' /\ Q Stuck s') ->
  wpe (bind p k) Q s.
Proof.
  intros Hp Hk Hd. rewrite wp_bind. eapply wp_mono; [|apply wp_keeps; exact Hp].
  intros [a|m|] s' H; cbn; [by apply Hk|by apply (Hd m)|by apply (Hd "")].
Qed.

Lemma moving_approve email code name : moving (invite_approve WORDS cp fwd email code name).
Proof.
  intros s. apply wp_with_code. intros c. apply wp_with_record; [intros; apply moves_refl|].
  intros r Hr. case_bool_decide; cbn [negb]; [|apply moves_refl].
  destruct (inv_status r) eqn:Hst; [apply moves_refl| |apply moves_refl..].
  destruct (device_pubkey r) as [pk|] eqn:Hpk; [|apply moves_refl].
  unfold bind_try at 1. apply wp_frame_then; [intros m0; apply frame_uuid| |auto using moves_keeps].
  intros [[u|]|e] s1 H1; cbn [expect]; [|by apply moves_keeps..].
  assert (forall s2, keeps_keys is_invite_key (kv s) (kv s2) ->
            moves (kv s) (kv s2) /\
            moves (kv s) (<[invite_key c := RStr (to_json (MkInvite (owner_email r) Approved
              (Some pk))) (Some INVITE_TTL_SECS)]> (kv s2))) as Hm.
  { intros s2 H2. split; [by apply moves_keeps|]. apply (moves_at _ _ c).
    - intros c' Hne. rewrite lookup_insert_ne by (by intros E%invite_key_inj).
      apply H2. by eexists.
    - rewrite rec_at_insert, Hr. destruct r as [e st k0]. cbn in *. subst. apply mv_approve. }
  set (p := bind_try _ (allocate_machine _ _ _ _ _) _).
  assert (wpe p (fun _ s' => exists s2, keeps_keys is_invite_key (kv s1) (kv s2) /\
            (kv s' = kv s2 \/
             kv s' = <[invite_key c := RStr (to_json (MkInvite (owner_email r) Approved
               (Some pk))) (Some INVITE_TTL_SECS)]> (kv s2))) s1) as Hp.
  2:{ eapply wp_mono; [|exact Hp]. intros o s' (s2 & H2 & Hs').
      destruct (Hm s2) as [A1 A2]; [intros k Hk; rewrite H2 by done; by apply H1|].
      destruct Hs' as [-> | ->]; done. }
  subst p. unfold bind_try at 1.
  apply wp_frame_then; [intros m0; by apply frame_allocate| |intros m s2 K; split; exists s2; auto].
  intros [[resp|resp]|e] s2 H2; [|by exists s2; auto..].
  apply wp_frame_then; [intros m0; apply frame_token| |].
  2:{ intros m s3 H3. assert (keeps_keys is_invite_key (kv s1) (kv s3)) as K; [|split; exists s3; auto].
      intros k Hk. rewrite H3 by done. by apply H2. }
  intros tok s3 H3. unfold bind_try at 1.
  apply wp_frame_then; [intros m0; apply frame_store| |].
  2:{ intros m s4 H4. assert (keeps_keys is_invite_key (kv s1) (kv s4)) as K; [|split; exists s4; auto].
      intros k Hk. rewrite H4, H3 by done. by apply H2. }
  intros [u'|e] s4 H4.
  2:{ cbn. exists s4. split; [|auto]. intros k Hk. rewrite H4, H3 by done. by apply H2. }
  unfold bind_try at 1.
  apply wp_frame_then; [intros m0; stable_walk| |].
  2:{ intros m s5 H5. assert (keeps_keys is_invite_key (kv s1) (kv s5)) as K; [|split; exists s5; auto].
      intros k Hk. rewrite H5, H4, H3 by done. by apply H2. }
  intros [u''|e] s5 H5;
    (assert (keeps_keys is_invite_key (kv s1) (kv s5)) as H15;
     [intros k Hk; rewrite H5, H4, H3 by done; by apply H2|]); [|by exists s5; auto].
  apply wp_set_record; [intros e s' [E|E]; exists s5; auto|]. exists s5. auto.
Qed.

Lemma moving_register token key : moving (device_register cp fwd token key).
Proof.
  intros s. apply wp_frame_moves. intros m0. unfold device_register. stable_walk.
Qed.

(** Every handler moves every record by a transition of the state machine. *)
Lemma moving_handle c : moving (handle c).
Proof.
  destruct c; cbn [handle]; apply moving_done;
    auto using moving_invites_of, moving_revoke, moving_begin, moving_poll,
      moving_approve, moving_deny, moving_register.
  intros s. unfold invite_create. intros r s' Hs. cbn in Hs. subst s'.
  destruct r as [[]|e]; [|apply moves_refl]. apply moves_create.
Qed.

(** *** Runs *)

(** A run of handlers, and keys expiring between them. *)
Inductive reach (s0 : edge) : edge -> Prop :=
| reach_start : reach s0 s0
| reach_call c s o s' :
    reach s0 s -> may (X := EdgeSig) (edge_spec verify) (handle c) s o s' -> reach s0 s'
| reach_expire s k v t :
    reach s0 s -> kv s !! k = Some (RStr v (Some t)) -> reach s0 (set_kv (delete k (kv s)) s).

(** What holds of a record in every reachable state: it is dormant and has no
    candidate, or it has one. *)
Definition record_wf (r : InviteRecord) : Prop :=
  inv_status r = Dormant /\ device_pubkey r = None \/
  inv_status r <> Dormant /\ is_Some (device_pubkey r).

Definition records_wf (m : gmap string rval) : Prop :=
  forall code r, rec_at m code = Some r -> record_wf r.

Lemma move_wf r r' :
  (forall x, r = Some x -> record_wf x) -> invite_move r (Some r') -> record_wf r'.
Proof.
  intros Hr Hm. inversion Hm; subst; [by apply Hr|by left|by right; eauto..|].
  right. split; [done|]. cbn.
  by destruct (Hr _ eq_refl) as [[? _]|[_ ?]].
Qed.

Lemma reach_wf s0 s : reach s0 s -> records_wf (kv s0) -> records_wf (kv s).
Proof.
  intros Hr Hwf. induction Hr as [|c s o s' Hr IH Hmay|s k v t Hr IH Hk]; [done|..].
  - pose proof (moving_handle c s) as Hmv. rewrite wp_may in Hmv.
    specialize (Hmv _ _ Hmay). intros code r Hrec.
    eapply move_wf; [|rewrite <- Hrec; apply Hmv]. intros x Hx. by eapply IH.
  - intros code r Hrec. apply (IH code). revert Hrec. unfold rec_at. cbn.
    destruct (decide (k = invite_key code)) as [->|Hne]; [by rewrite lookup_delete_eq|].
    by rewrite lookup_delete_ne.
Qed.

(** Burned codes stay burned: a terminal record never changes again, except
    by expiring. *)
Definition burned (st : InviteStatus) : Prop := st = Approved \/ st = Denied.

Lemma move_burned r r' :
  burned (inv_status r) -> invite_move (Some r) r' -> r' = Some r.
Proof.
  intros Hb Hm. inversion Hm; subst; try done; cbn in Hb;
    repeat match goal with H : invite_open _ |- _ => destruct H end;
    destruct Hb; congruence.
Qed.

Lemma reach_burned s0 s code r :
  reach s0 s -> rec_at (kv s0) code = Some r -> burned (inv_status r) ->
  rec_at (kv s) code = Some r \/
  (exists s1, reach s0 s1 /\ kv s1 !! invite_key code = None).
Proof.
  intros Hr H0 Hb. induction Hr as [|c s o s' Hr IH Hmay|s k v t Hr IH Hk]; [by left|..].
  - destruct IH as [IH|IH]; [|by right]. left.
    pose proof (moving_handle c s) as Hmv. rewrite wp_may in Hmv.
    specialize (Hmv _ _ Hmay code). rewrite IH in Hmv. by apply move_burned in Hmv.
  - destruct IH as [IH|IH]; [|by right].
    destruct (decide (k = invite_key code)) as [->|Hne].
    + right. eexists. split; [eapply reach_expire; [exact Hr|exact Hk]|].
      cbn. apply lookup_delete_eq.
    + left. revert IH. unfold rec_at. cbn. by rewrite lookup_delete_ne.
Qed.
End Handlers.
