(* ===== verification/Typed.v ===== *)
(** The types of the stored values.  Every key the control plane writes belongs to
    a family, and the values of a family decode to the record of that family; each
    operation keeps it so, whatever fails. *)

From stdpp Require Import base gmap strings list pretty relations.
From Stdlib Require Import ZArith Lia Ascii.
From S2P Require Import Prelude Prog Addr ForwarderState World Retry Forwarder Dns.
From S2P Require Import Store Crates Errors ControlPlane Allocation Account Invite.
From S2P Require Import InviteMoves.

Local Open Scope prog_scope.

Section Typed.
Context `{CR : Crates} `{SM : Serde Machine} `{SA : Serde AccountRecord}.
Context `{SI : Serde InviteRecord} `{SD : Serde EnrollmentDelivery}.

(** A value under a key: an encoded record, a text with a lifetime, a list, a number. *)
Record well_typed (k : string) (v : rval) : Prop := {
  wt_account email : k = account_key email ->
    exists a : AccountRecord, v = RStr (to_json a) None;
  wt_machine name : k = machine_key name -> exists m : Machine, v = RStr (to_json m) None;
  wt_invite code : k = invite_key code ->
    exists r : InviteRecord, v = RStr (to_json r) (Some INVITE_TTL_SECS) /\ record_wf r;
  wt_delivery code : k = delivery_key code ->
    exists d : EnrollmentDelivery, v = RStr (to_json d) (Some DELIVERY_TTL_SECS);
  wt_session token : k = session_key token ->
    exists email, v = RStr email (Some SESSION_TTL_SECS);
  wt_verify token : k = verify_key token ->
    exists email, v = RStr email (Some VERIFY_TOKEN_TTL_SECS);
  wt_reset token : k = reset_key token ->
    exists email, v = RStr email (Some RESET_TOKEN_TTL_SECS);
  wt_index : k = MACHINE_INDEX -> exists names, v = RList names;
  wt_counter : k = ALLOC_COUNTER -> exists n, v = RInt n;
}.

Definition typed (m : gmap string rval) : Prop := map_Forall well_typed m.

(** What a command may put under its key. *)
Inductive writes : rcmd -> rval -> Prop :=
| w_set k v : writes (RSet k v) (RStr v None)
| w_setex k v t : writes (RSetEx k v t) (RStr v (Some t))
| w_setnx k v : writes (RSetNx k v) v
| w_setexnx k v t : writes (RSetExNx k v t) (RStr v (Some t))
| w_incr k d n : writes (RIncr k d) (RInt n)
| w_decr k d n : writes (RDecr k d) (RInt n)
| w_push k v l : writes (RRPush k v) (RList l)
| w_rem k v l : writes (RLRem1 k v) (RList l).
#[local] Hint Constructors writes : core.

Lemma redis_apply_writes c m :
  let m' := snd (redis_apply c m) in
  m' = m \/ m' = delete (cmd_key c) m \/ exists v, writes c v /\ m' = <[cmd_key c := v]> m.
Proof.
  destruct c; cbn -[decide]; unfold add_checked;
    repeat (cbn [snd]; try match goal with |- context [match ?x with _ => _ end] => destruct x end);
    eauto 6.
Qed.

Lemma typed_redis verify c :
  is_scan c = false -> (forall v, writes c v -> well_typed (cmd_key c) v) ->
  stable verify typed (redis c).
Proof.
  intros Hs Hw. apply stable_redis; [done|]. intros m Hm.
  destruct (redis_apply_writes c m) as [-> | [-> | (v & Hv & ->)]]; [done|..].
  - by apply map_Forall_delete.
  - apply map_Forall_insert_2; auto.
Qed.
End Typed.

#[global] Arguments typed {SM SA SI SD}.
#[global] Arguments well_typed {SM SA SI SD}.

(** Keys of different families differ in the fixed part. *)
Ltac unfold_keys :=
  unfold account_key, machine_key, invite_key, delivery_key, session_key, verify_key,
    reset_key, MACHINE_KEY, MACHINE_INDEX, ALLOC_COUNTER in *.

Ltac wf_record :=
  unfold record_wf in *; cbn in *;
  first [ left; split; reflexivity
        | right; split; [discriminate|first [by eexists|intuition congruence]] ].

Ltac entry :=
  split; intros; eauto;
  first [ match goal with Hk : _ = _ |- _ => unfold_keys; discriminate Hk end
        | eexists; split; [reflexivity|solve [assumption|wf_record]] ].

Ltac well_typed_write :=
  let Hv := fresh in
  intros ? Hv; inversion Hv; subst; cbn [cmd_key]; entry.

(** Single entries. *)
Section Entries.
Context `{SM : Serde Machine} `{SA : Serde AccountRecord}.
Context `{SI : Serde InviteRecord} `{SD : Serde EnrollmentDelivery}.

Lemma account_entry email (a : AccountRecord) : well_typed (account_key email) (RStr (to_json a) None).
Proof. entry. Qed.
Lemma machine_entry name (m : Machine) : well_typed (machine_key name) (RStr (to_json m) None).
Proof. entry. Qed.
Lemma invite_entry code (r : InviteRecord) :
  record_wf r -> well_typed (invite_key code) (RStr (to_json r) (Some INVITE_TTL_SECS)).
Proof. intros Hr. entry. Qed.
Lemma session_entry token email :
  well_typed (session_key token) (RStr email (Some SESSION_TTL_SECS)).
Proof. entry. Qed.
Lemma index_entry names : well_typed MACHINE_INDEX (RList names).
Proof. entry. Qed.
End Entries.

#[export] Hint Extern 2 (stable _ typed (redis _)) =>
  apply typed_redis; [reflexivity|solve [well_typed_write]] : stable.

(** ** Every operation keeps the types *)

Section Kept.
Context `{CR : Crates} `{SM : Serde Machine} `{SA : Serde AccountRecord}.
Context `{SI : Serde InviteRecord} `{SD : Serde EnrollmentDelivery}.
Context (WORDS : list string) (verify : string -> string -> option bool).
Context (cp : ControlPlane) (fwd : option Forwarder) (fuel : nat).
Context (Halloc : alloc_key cp = ALLOC_COUNTER) `{LI : !SerdeLaws InviteRecord}.
Local Abbreviation kept := (stable verify typed) (only parsing).

Lemma kept_remove_forwards ip wg l : kept (remove_forwards ip wg l).
Proof. induction l as [|p l IH]; cbn [remove_forwards]; stable_walk. Qed.
Hint Resolve kept_remove_forwards : stable.

Lemma kept_rollback name m : kept (rollback_allocation name m).
Proof. unfold rollback_allocation. stable_walk. Qed.
Hint Resolve kept_rollback : stable.

Lemma kept_wire_forwards f name m l : kept (wire_forwards f name m l).
Proof. induction l as [|p l IH]; cbn [wire_forwards]; stable_walk. Qed.
Hint Resolve kept_wire_forwards : stable.

Lemma kept_allocate owner name key : kept (allocate_machine cp fwd owner name key).
Proof.
  unfold allocate_machine, with_edge_key, allocate_existing, allocate_fresh, wire_machine,
    upsert_machine. rewrite Halloc. stable_walk.
Qed.
Hint Resolve kept_allocate : stable.

Lemma kept_list_from l : kept (list_from l).
Proof. induction l as [|n l IH]; cbn [list_from]; stable_walk. Qed.
Hint Resolve kept_list_from : stable.

Lemma kept_list : kept list_machines.
Proof. unfold list_machines. stable_walk. Qed.
Hint Resolve kept_list : stable.

Lemma kept_store m : kept (store_machine m).
Proof. unfold store_machine. stable_walk. Qed.
Hint Resolve kept_store : stable.

Lemma kept_delete name : kept (delete_machine cp fwd name).
Proof. unfold delete_machine, drop_entry, remove_machine. stable_walk. Qed.
Hint Resolve kept_delete : stable.

Lemma kept_signup email pw : kept (account_signup cp email pw).
Proof. unfold account_signup, random_token. stable_walk. Qed.

Lemma kept_verify token : kept (account_verify token).
Proof. unfold account_verify. stable_walk. Qed.

Lemma kept_login email pw : kept (account_login email pw).
Proof. unfold account_login, random_token. stable_walk. Qed.

Lemma kept_logout token : kept (account_logout token).
Proof. unfold account_logout. stable_walk. Qed.

Lemma kept_resend email : kept (resend_verification cp email).
Proof. unfold resend_verification, random_token. stable_walk. Qed.

Lemma kept_forgot email : kept (request_password_reset cp email).
Proof. unfold request_password_reset, random_token. stable_walk. Qed.

Lemma kept_reset token pw : kept (reset_password token pw).
Proof. unfold reset_password. stable_walk. Qed.

Lemma kept_uuid email : kept (account_uuid email).
Proof. unfold account_uuid. stable_walk. Qed.
Hint Resolve kept_uuid : stable.

Lemma kept_token : kept random_token_hex.
Proof. unfold random_token_hex. stable_walk. Qed.
Hint Resolve kept_token : stable.

Lemma kept_set_record code r : record_wf r -> kept (set_record code r).
Proof. intros Hr. unfold set_record. stable_walk. Qed.

Lemma kept_words n : kept (code_words WORDS n).
Proof. induction n as [|n IH]; cbn [code_words]; stable_walk. Qed.
Hint Resolve kept_words : stable.

Lemma kept_create_loop n email : kept (invite_create_loop WORDS n email).
Proof. induction n as [|n IH]; cbn [invite_create_loop]; unfold random_invite_code; stable_walk. Qed.
Hint Resolve kept_create_loop : stable.

Lemma kept_with_code {A} code (k : string -> prog EdgeSig (Result A InviteError)) :
  (forall c, kept (k c)) -> kept (with_code WORDS code k).
Proof. intros Hk. unfold with_code. stable_walk. Qed.

Lemma kept_with_record {A} code (k : InviteRecord -> prog EdgeSig (Result A InviteError)) :
  (forall r, record_wf r -> kept (k r)) -> kept (with_record code k).
Proof.
  intros Hk. unfold with_record. apply stable_try; [stable_walk|]. intros _.
  apply stable_get_try. intros [json|] (s & Hs & Hj); [|stable_walk].
  unfold record_from_json. destruct (from_json json) as [r|e] eqn:Er; cbn; [|stable_walk].
  apply Hk. destruct (kv s !! invite_key code) as [v|] eqn:E; [|done].
  destruct (wt_invite _ _ (map_Forall_lookup_1 _ _ _ _ Hs E) code eq_refl) as (r' & -> & Hr').
  cbn in Hj. injection Hj as <-. rewrite from_to_json in Er. by injection Er as <-.
Qed.

Lemma kept_page email keys out : kept (invites_page email keys out).
Proof.
  revert out. induction keys as [|k keys IH]; intros out; cbn [invites_page]; stable_walk.
Qed.
Hint Resolve kept_page : stable.

Lemma kept_scan n email cur out : kept (invites_scan n email cur out).
Proof.
  revert cur out. induction n as [|n IH]; intros cur out; cbn [invites_scan]; stable_walk.
Qed.
Hint Resolve kept_scan : stable.

Lemma kept_invites_of email : kept (invites_of fuel email).
Proof. unfold invites_of. stable_walk. Qed.
Hint Resolve kept_invites_of : stable.

(** Inside a handler: the code, then the record, which is well formed. *)
Local Ltac at_record :=
  apply kept_with_code; intros ?;
  try match goal with |- kept (match ?x with _ => _ end) => destruct x eqn:?; [|stable_walk] end;
  apply kept_with_record; intros ? Hr;
  stable_walk; try (apply kept_set_record; wf_record).

Lemma kept_rearm code r : kept (rearm_delivery code r).
Proof. unfold rearm_delivery. stable_walk. Qed.
Hint Resolve kept_rearm : stable.

Lemma kept_revoke email code : kept (invite_revoke WORDS email code).
Proof. unfold invite_revoke. at_record. Qed.

Lemma kept_begin code key : kept (invite_begin WORDS code key).
Proof. unfold invite_begin. at_record. Qed.

Lemma kept_poll code : kept (invite_poll WORDS code).
Proof. unfold invite_poll. at_record. Qed.

Lemma kept_deny email code : kept (invite_deny WORDS email code).
Proof. unfold invite_deny. at_record. Qed.

Lemma kept_approve email code name : kept (invite_approve WORDS cp fwd email code name).
Proof. unfold invite_approve. at_record. Qed.

Lemma kept_register token key : kept (device_register cp fwd token key).
Proof. unfold device_register. stable_walk. Qed.

Lemma kept_handle c : kept (handle WORDS cp fwd fuel c).
Proof.
  destruct c; cbn [handle]; unfold done_; (apply stable_bind; [|intros; apply stable_ret]);
    auto using kept_revoke, kept_begin, kept_poll, kept_deny, kept_approve, kept_register,
      kept_invites_of.
  unfold invite_create. stable_walk.
Qed.

(** *** Account deletion *)

Lemma kept_sessions_page email keys : kept (sessions_page email keys).
Proof. induction keys as [|k keys IH]; cbn [sessions_page]; stable_walk. Qed.
Hint Resolve kept_sessions_page : stable.

Lemma kept_sessions_scan n email cur : kept (sessions_scan n email cur).
Proof. revert cur. induction n as [|n IH]; intros cur; cbn [sessions_scan]; stable_walk. Qed.
Hint Resolve kept_sessions_scan : stable.

Lemma kept_delete_machines l : kept (delete_machines cp fwd l).
Proof. induction l as [|m l IH]; cbn [delete_machines]; stable_walk. Qed.
Hint Resolve kept_delete_machines : stable.

Lemma kept_delete_invites l : kept (delete_invites l).
Proof. induction l as [|[c r] l IH]; cbn [delete_invites]; stable_walk. Qed.
Hint Resolve kept_delete_invites : stable.

Lemma kept_account_delete email : kept (account_delete fuel cp fwd email).
Proof. unfold account_delete, machines_of. stable_walk. Qed.
End Kept.

(** ** Runs of requests *)

(** The operations of the control plane. *)
Inductive request :=
| ReqSignup (email password : string)
| ReqVerify (token : string)
| ReqLogin (email password : string)
| ReqLogout (session : string)
| ReqResend (email : string)
| ReqForgot (email : string)
| ReqReset (token password : string)
| ReqDeleteAccount (email : string)
| ReqAllocate (owner : option string) (name public_key : string)
| ReqDeleteMachine (name : string)
| ReqInvite (c : invite_call).

Section Requests.
Context `{CR : Crates} `{SM : Serde Machine} `{SA : Serde AccountRecord}.
Context `{SI : Serde InviteRecord} `{SD : Serde EnrollmentDelivery}.
Context (WORDS : list string) (verify : string -> string -> option bool).
Context (cp : ControlPlane) (fwd : option Forwarder) (fuel : nat).

Definition serve (r : request) : prog EdgeSig unit :=
  match r with
  | ReqSignup email password => done_ (account_signup cp email password)
  | ReqVerify token => done_ (account_verify token)
  | ReqLogin email password => done_ (account_login email password)
  | ReqLogout session => done_ (account_logout session)
  | ReqResend email => done_ (resend_verification cp email)
  | ReqForgot email => done_ (request_password_reset cp email)
  | ReqReset token password => done_ (reset_password token password)
  | ReqDeleteAccount email => done_ (account_delete fuel cp fwd email)
  | ReqAllocate owner name key => done_ (allocate_machine cp fwd owner name key)
  | ReqDeleteMachine name => done_ (delete_machine cp fwd name)
  | ReqInvite c => handle WORDS cp fwd fuel c
  end.

(** The edge with the requests that are being served: a request arrives, a
    request performs its next operation, a key with a lifetime expires. *)
Abbreviation serving := (list (prog EdgeSig unit) * edge)%type (only parsing).

Inductive edge_step : serving -> serving -> Prop :=
| es_arrive r ts s : edge_step (ts, s) (ts ++ [serve r], s)
| es_op i o k r ts s s' :
    ts !! i = Some (@Vis EdgeSig unit o k) -> edge_spec verify o s r s' ->
    edge_step (ts, s) (<[i := k r]> ts, s')
| es_expire k v t ts s :
    kv s !! k = Some (RStr v (Some t)) -> edge_step (ts, s) (ts, set_kv (delete k (kv s)) s).

(** Every interleaving of any requests. *)
Definition concurrent : serving -> serving -> Prop := rtc edge_step.

Context `{LI : !SerdeLaws InviteRecord}.

Lemma kept_serve r : alloc_key cp = ALLOC_COUNTER -> stable verify typed (serve r).
Proof.
  intros Ha. destruct r; cbn [serve]; unfold done_; try (apply stable_bind; [|intros; apply stable_ret]);
    auto using kept_signup, kept_verify, kept_login, kept_logout, kept_resend, kept_forgot,
      kept_reset, kept_account_delete, kept_allocate, kept_delete, kept_handle.
Qed.

Lemma edge_step_typed c c' :
  alloc_key cp = ALLOC_COUNTER -> edge_step c c' ->
  Forall (stable verify typed) (fst c) /\ typed (kv (snd c)) ->
  Forall (stable verify typed) (fst c') /\ typed (kv (snd c')).
Proof.
  intros Ha Hstep. destruct Hstep as [r ts s|i o k r ts s s' Hi Hr|k v t ts s Hk];
    cbn [fst snd]; intros [Hts Hs].
  - split; [|done]. apply Forall_app. split; [done|]. constructor; [by apply kept_serve|done].
  - pose proof (Forall_lookup_1 _ _ _ _ Hts Hi) as Hv.
    destruct (Hv s r s' Hs Hr) as [Hs' Hk]. split; [by apply Forall_insert|done].
  - split; [done|]. by apply map_Forall_delete.
Qed.

Lemma concurrent_typed s0 ts s :
  alloc_key cp = ALLOC_COUNTER -> concurrent ([], s0) (ts, s) -> typed (kv s0) -> typed (kv s).
Proof.
  intros Ha Hr H0.
  enough (Forall (stable verify typed) ts /\ typed (kv s)) as [_ H] by exact H.
  refine (rtc_ind_r (R := edge_step)
           (fun c => Forall (stable verify typed) (fst c) /\ typed (kv (snd c))) ([], s0)
           _ _ (ts, s) Hr); [by split; [constructor|]|].
  intros c c' _ Hstep. by apply edge_step_typed.
Qed.

(** The interleavings of [sched] are among them. *)
Lemma sched_concurrent {W} (exec : forall o : edge_op, W -> edge_ret o * W) (view : W -> edge)
    sch ts w :
  implements (X := EdgeSig) exec (edge_spec verify) view ->
  concurrent (ts, view w)
    (fst (sched (X := EdgeSig) exec sch ts w), view (snd (sched (X := EdgeSig) exec sch ts w))).
Proof.
  intros Hx. revert ts w. induction sch as [|i sch IH]; intros ts w; cbn [sched]; [apply rtc_refl|].
  destruct (ts !! i) as [p|] eqn:Hi; [|apply IH].
  destruct p as [a|m| |o k]; cbn [step1];
    try (rewrite list_insert_id by done; apply IH).
  specialize (Hx o w). destruct (exec o w) as [r w'] eqn:E. cbn [fst snd] in Hx.
  eapply rtc_l; [by eapply es_op|]. apply IH.
Qed.
End Requests.

(** ** What typed values read as *)

(** Read and decoded, a value gives a record or is absent. *)
Definition decodes {A E} (f : string -> Result A E) (o : option rval) : Prop :=
  match read_str o with
  | Ok (Some json) => is_ok (f json) = true
  | Ok None => True
  | Err _ => False
  end.
