(* ===== verification/InviteProofs.v ===== *)
(** What the invite handlers do while Redis answers: approval and one-time
    delivery, the machine operations that need no approval, key rotation, and
    the two places where approval goes wrong (an existing name, a re-begin
    whose machine is gone). *)

From stdpp Require Import base gmap strings list pretty.
From Stdlib Require Import ZArith Lia Ascii.
From S2P Require Import Prelude Prog Addr AddrText ForwarderState World Retry Forwarder.
From S2P Require Import Dns Store Crates Errors ControlPlane Allocation Machines.
From S2P Require Import Account AccountProofs Invite InviteCodes InviteMoves.

Local Open Scope prog_scope.

(** Everything a new route needs. *)
Record fresh_route `{CR : Crates} (cp : ControlPlane) (f : Forwarder) (name key : string)
    (n : Z) (l : list string) (ip wg edge_key : string) (s : edge) : Prop := {
  fr_wf : cp_wf cp;
  fr_timeout : (0 <= bind_timeout (cfg f))%Z;
  fr_name : validate_machine_name name = Ok tt;
  fr_key : validate_wg_pubkey key = Ok tt;
  fr_edge : edge_public_key cp = Some (Ok edge_key);
  fr_counter : counter_at cp (kv s) n;
  fr_low : (1 <= n)%Z;
  fr_high : (n + 1 <= i64_max)%Z;
  fr_free : kv s !! machine_key name = None;
  fr_index : read_list (kv s !! MACHINE_INDEX) = Ok l;
  fr_new : name ∉ l;
  fr_ip : host_string (subnet cp) (n + 1) = Some ip;
  fr_wg : host_string (wg_subnet cp) (n + 1) = Some wg;
  fr_keys : forall k, k ∈ port_keys ip wg EDGE_FORWARDS -> k ∉ handles (fws s);
}.

Section Proofs.
Context `{CR : Crates}.
Context `{SM : Serde Machine} `{SA : Serde AccountRecord}.
Context `{SI : Serde InviteRecord} `{SD : Serde EnrollmentDelivery}.
Context `{LM : !SerdeLaws Machine} `{LA : !SerdeLaws AccountRecord}.
Context `{LI : !SerdeLaws InviteRecord} `{LD : !SerdeLaws EnrollmentDelivery}.
Context (WORDS : list string).
Local Abbreviation wph := (wp (X := EdgeSig) (healthy_spec bcrypt_verify)) (only parsing).

(** The invite of a canonical code is stored as [r]. *)
Definition invite_is (s : edge) (code : string) (r : InviteRecord) : Prop :=
  canonical_invite_code WORDS code = Some code /\
  exists ttl, kv s !! invite_key code = Some (RStr (to_json r) ttl).

Lemma wp_invite {A} s code r
    (k : string -> InviteRecord -> prog EdgeSig (Result A InviteError))
    (Q : outcome _ -> edge -> Prop) :
  invite_is s code r -> wph (k code r) Q s ->
  wph (with_code WORDS code (fun c => with_record c (k c))) Q s.
Proof.
  intros [Hc [ttl Hr]] HQ. unfold with_code. rewrite Hc. unfold with_record, bind_try.
  apply wp_healthy_conn, wp_healthy_redis; [done|].
  cbn [redis_apply fst snd]. rewrite set_kv_id, Hr. cbn [read_str].
  unfold record_from_json. by rewrite from_to_json.
Qed.

(** *** Poll *)

(** One poll of an approved invite: the delivery, if there is one, and then it
    is gone. *)
Lemma wp_poll_approved s code r (Q : outcome (Result PollOutcome InviteError) -> edge -> Prop) :
  invite_is s code r -> inv_status r = Approved ->
  (match kv s !! delivery_key code with
   | None => Q (Done (Ok (MkPoll "approved" None None))) s
   | Some (RStr json _) =>
       match from_json json with
       | Ok d => Q (Done (Ok (MkPoll "approved" (Some (del_machine d)) (Some (del_token d)))))
                   (set_kv (delete (delivery_key code) (kv s)) s)
       | Err e => Q (Done (Err (InvCorrupt ("delivery " ++ code ++ ": " ++ e))))
                    (set_kv (delete (delivery_key code) (kv s)) s)
       end
   | Some _ => Q (Done (Err (InvRedis wrongtype))) s
   end) ->
  wph (invite_poll WORDS code) Q s.
Proof.
  intros Hi Hst HQ. unfold invite_poll. apply (wp_invite _ _ _ _ _ Hi). rewrite Hst.
  unfold bind_try. apply wp_getdel.
  destruct (kv s !! delivery_key code) as [[json ttl| |]|]; cbn [read_str]; try done.
  by destruct (from_json json).
Qed.

(** *** Approval *)

Definition enrolled_machine (m : Machine) (token : string) : Machine :=
  set_token_hash (token_hash token) m.

(** A token drawn from 32 random bytes. *)
Definition drawn_token (token : string) : Prop :=
  exists bytes, length bytes = 32%nat /\ token = hex_encode bytes.

(** The store after a successful approval. *)
Definition approved_store (cp : ControlPlane) (code email pk : string) (m : Machine)
    (token : string) (n : Z) (l : list string) (st : gmap string rval) : gmap string rval :=
  <[invite_key code := RStr (to_json (MkInvite email Approved (Some pk))) (Some INVITE_TTL_SECS)]>
    (<[delivery_key code := RStr (to_json (MkDelivery (enrolled_machine m token) token))
                              (Some DELIVERY_TTL_SECS)]>
      (<[machine_key (m_name m) := RStr (to_json (enrolled_machine m token)) None]>
        (committed cp m n l st))).

Definition approve_post (cp : ControlPlane) (code email pk : string) (m : Machine)
    (n : Z) (l : list string) (s : edge) (o : outcome (Result Machine InviteError))
    (s' : edge) : Prop :=
  match o with
  | Done (Ok m') =>
      m' = m /\
      (exists token, drawn_token token /\
         kv s' = approved_store cp code email pk m token n l (kv s)) /\
      wg_log s' = wg_log s ++ [WgAdded (m_wg_ip m) pk] /\
      Forall (fun p => live (machine_forward (m_ipv6 m) (m_wg_ip m) p) (fws s')) EDGE_FORWARDS
  | Done (Err (InvCorrupt _)) =>
      kv s' = drop_store (m_name m) (committed cp m n l (kv s)) /\
      (forall key, key ∈ machine_keys m -> key ∉ handles (fws s'))
  | _ => False
  end.

Lemma wp_account_uuid email (a : AccountRecord) ttl s (Q : outcome _ -> edge -> Prop) :
  kv s !! account_key (norm_email email) = Some (RStr (to_json a) ttl) ->
  Q (Done (Ok (Some (uuid a)))) s -> wph (account_uuid email) Q s.
Proof.
  intros Ha HQ. unfold account_uuid, bind_try.
  apply wp_healthy_conn, wp_healthy_redis; [done|].
  cbn [redis_apply fst snd]. rewrite set_kv_id, Ha. cbn [read_str].
  unfold account_from_json. by rewrite from_to_json.
Qed.

Lemma wp_token_hex {A} (k : string -> prog EdgeSig A) Q s :
  (forall token, drawn_token token -> wph (k token) Q s) -> wph (bind random_token_hex k) Q s.
Proof.
  intros H. unfold random_token_hex. intros bytes s' [(Hl & _ & ->) _]. cbn. apply H.
  by exists bytes.
Qed.

Lemma wp_store_machine {A B} (m : Machine) (conv : ControlPlaneError -> B)
    (k : unit -> prog EdgeSig (Result A B)) Q s :
  wph (k tt) Q (set_kv (<[machine_key (m_name m) := RStr (to_json m) None]> (kv s)) s) ->
  wph (bind_try conv (store_machine m) k) Q s.
Proof.
  intros H. unfold bind_try. rewrite wp_bind. unfold store_machine, bind_try.
  apply wp_healthy_conn, wp_healthy_redis; [done|]. cbn. exact H.
Qed.

Lemma wp_approve cp f email code name pk (a : AccountRecord) ttl n l ip wg edge_key s :
  let m := fresh_machine cp (Some (uuid a)) name pk ip wg in
  invite_is s code (MkInvite email Waiting (Some pk)) ->
  kv s !! account_key (norm_email email) = Some (RStr (to_json a) ttl) ->
  fresh_route cp f name pk n l ip wg edge_key s ->
  wph (invite_approve WORDS cp (Some f) email code name)
    (approve_post cp code email pk m (n + 1) l s) s.
Proof.
  intros m Hi Ha Hfr. destruct Hfr. unfold invite_approve.
  apply (wp_invite _ _ _ _ _ Hi). cbn [owner_email inv_status device_pubkey].
  rewrite bool_decide_eq_true_2 by done. cbn [negb]. unfold bind_try at 1.
  rewrite wp_bind. eapply wp_account_uuid; [exact Ha|]. cbn [andthen expect].
  unfold bind_try at 1. rewrite wp_bind.
  eapply (wp_allocate_valid bcrypt_verify); [done..|]. rewrite fr_free0.
  eapply wp_mono; [|by apply (wp_allocate_fresh bcrypt_verify)].
  fold m. intros o s1 Hpost. unfold allocated in Hpost.
  destruct o as [[[r|r]|e]| |]; cbn [andthen]; [|done| |done..].
  - destruct Hpost as (-> & Hkv & Hwg & Hl & _). cbn [machine].
    apply wp_token_hex. intros token Htoken. apply wp_store_machine.
    unfold bind_try, set_record.
    apply wp_healthy_redis; [done|]. cbn [redis_apply fst snd].
    apply wp_healthy_redis; [done|]. cbn [redis_apply fst snd kv set_kv].
    cbn. split; [done|]. split; [|done]. exists token. by rewrite Hkv.
  - destruct e; try done; destruct Hpost as (H1 & H2 & _); done.
Qed.

(** *** An existing name *)

(** Approving with the name of an existing machine answers [NameTaken], and by
    then the existing machine's key has been replaced by the candidate's. *)
Lemma wp_approve_existing cp f email code name pk (a : AccountRecord) ttl edge_key
    (mc : Machine) ttl' s :
  invite_is s code (MkInvite email Waiting (Some pk)) ->
  kv s !! account_key (norm_email email) = Some (RStr (to_json a) ttl) ->
  validate_machine_name name = Ok tt -> validate_wg_pubkey pk = Ok tt ->
  edge_public_key cp = Some (Ok edge_key) ->
  kv s !! machine_key name = Some (RStr (to_json mc) ttl') -> m_wg_public_key mc <> pk ->
  wph (invite_approve WORDS cp (Some f) email code name)
    (fun o s' =>
       match o with
       | Done (Err (InvNameTaken n)) =>
           n = name /\
           kv s' = <[machine_key name := RStr (to_json (set_pubkey pk mc)) None]> (kv s) /\
           exists l, wg_log s' = wg_log s ++ l ++ [WgAdded (m_wg_ip mc) pk]
       | Done (Err (InvCorrupt _)) => kv s' = kv s
       | _ => False
       end) s.
Proof.
  intros Hi Ha Hn Hk Hek Hmc Hne. unfold invite_approve.
  apply (wp_invite _ _ _ _ _ Hi). cbn [owner_email inv_status device_pubkey].
  rewrite bool_decide_eq_true_2 by done. cbn [negb]. unfold bind_try at 1.
  rewrite wp_bind. eapply wp_account_uuid; [exact Ha|]. cbn [andthen expect].
  unfold bind_try at 1. rewrite wp_bind.
  eapply (wp_allocate_valid bcrypt_verify); [done..|]. rewrite Hmc.
  eapply wp_mono; [|by apply (wp_allocate_existing bcrypt_verify)].
  intros o s1 (_ & _ & _ & Hpost). rewrite decide_False in Hpost by done.
  destruct o as [[[r|r]|e]| |]; cbn [andthen]; try done.
  - destruct Hpost as (_ & Hkv & l & Hwg & _). cbn. eauto.
  - destruct e; done.
Qed.

(** *** Re-begin of an approved invite *)

Lemma wp_rearm code r pk l s (Q : outcome (Result unit InviteError) -> edge -> Prop) :
  device_pubkey r = Some pk -> listed (kv s) = Ok l ->
  (match List.find (fun m => bool_decide (m_wg_public_key m = pk)) l with
   | None => Q (Panicked "an approved invite's machine exists") s
   | Some m => forall token,
       Q (Done (Ok tt))
         (set_kv (<[delivery_key code := RStr (to_json (MkDelivery (enrolled_machine m token) token))
                                           (Some DELIVERY_TTL_SECS)]>
                   (<[machine_key (m_name m) := RStr (to_json (enrolled_machine m token)) None]>
                      (kv s))) s)
   end) ->
  wph (rearm_delivery code r) Q s.
Proof.
  intros Hk Hl HQ. unfold rearm_delivery. rewrite Hk. cbn [expect]. unfold bind_try at 1.
  rewrite wp_bind. apply wp_list. rewrite Hl. cbn [andthen].
  destruct (List.find _ l) as [m|]; cbn [expect]; [|done].
  apply wp_token_hex. intros token Htoken. apply wp_store_machine.
  unfold bind_try. apply wp_healthy_conn, wp_healthy_redis; [done|]. cbn. apply HQ.
Qed.

Lemma wp_begin_approved code pk r l s (Q : outcome (Result PollOutcome InviteError) -> edge -> Prop) :
  invite_is s code r -> inv_status r = Approved -> device_pubkey r = Some pk ->
  validate_wg_pubkey pk = Ok tt -> listed (kv s) = Ok l ->
  (match List.find (fun m => bool_decide (m_wg_public_key m = pk)) l with
   | None => Q (Panicked "an approved invite's machine exists") s
   | Some m => forall token,
       Q (Done (Ok (MkPoll "approved" None None)))
         (set_kv (<[delivery_key code := RStr (to_json (MkDelivery (enrolled_machine m token) token))
                                           (Some DELIVERY_TTL_SECS)]>
                   (<[machine_key (m_name m) := RStr (to_json (enrolled_machine m token)) None]>
                      (kv s))) s)
   end) ->
  wph (invite_begin WORDS code pk) Q s.
Proof.
  intros Hi Hst Hpk Hv Hl HQ. unfold invite_begin.
  assert (forall k : string -> InviteRecord -> prog EdgeSig (Result PollOutcome InviteError),
            wph (k code r) Q s ->
            wph (with_code WORDS code (fun c =>
              match validate_wg_pubkey pk with
              | Err _ => Ret (Err (InvInvalidPubkey pk))
              | Ok _ => with_record c (k c)
              end)) Q s) as Hgo by (intros k Hw; rewrite Hv; by eapply wp_invite).
  apply Hgo. rewrite Hst. rewrite bool_decide_eq_true_2 by done.
  unfold bind_try. rewrite wp_bind. eapply wp_rearm; [done|done|].
  by destruct (List.find _ l).
Qed.

(** *** Key rotation by device token *)

Definition holds_token (token : string) (m : Machine) : bool :=
  match m_device_token_hash m with
  | Some stored => constant_time_eq stored (token_hash token)
  | None => false
  end.

Lemma wp_device_register cp f token key edge_key l s :
  validate_wg_pubkey key = Ok tt -> edge_public_key cp = Some (Ok edge_key) ->
  listed (kv s) = Ok l -> token <> ""%string ->
  (forall m, m ∈ l -> validate_machine_name (m_name m) = Ok tt /\
                      kv s !! machine_key (m_name m) = Some (RStr (to_json m) None)) ->
  wph (device_register cp (Some f) token key)
    (fun o s' =>
       match List.find (holds_token token) l with
       | None => o = Done (Err (CpNotFound "no machine for this device token")) /\ s' = s
       | Some m =>
           fws s' = fws s /\ dns_log s' = dns_log s /\ mails s' = mails s /\
           match o with
           | Done (Ok m') =>
               m' = set_pubkey key m /\
               kv s' = <[machine_key (m_name m) := RStr (to_json m') None]> (kv s)
           | Done (Err (CpWg _)) => kv s' = kv s
           | _ => False
           end
       end) s.
Proof.
  intros Hk Hek Hl Hne Hm. unfold device_register.
  assert (is_empty token = false) as -> by (by destruct token).
  cbn [negb assert_]. rewrite Hk. unfold bind_try at 1. rewrite wp_bind. apply wp_list.
  rewrite Hl. cbn [andthen].
  change (fun m => match m_device_token_hash m with
                   | Some stored => constant_time_eq stored (token_hash token)
                   | None => false
                   end) with (holds_token token).
  destruct (List.find (holds_token token) l) as [m|] eqn:Hf; [|done].
  apply List.find_some in Hf as [Hin _]. apply list_elem_of_In in Hin.
  destruct (Hm m Hin) as [Hn Hrec]. unfold bind_try. rewrite wp_bind.
  eapply (wp_allocate_valid bcrypt_verify); [done..|]. rewrite Hrec.
  eapply wp_mono; [|by apply (wp_allocate_existing bcrypt_verify)].
  intros o s1 (H1 & H2 & H3 & Hpost).
  destruct (decide (m_wg_public_key m = key)) as [<-|Hne'].
  - destruct Hpost as [-> Hkv]. cbn. split_and!; try done; [by destruct m|].
    by rewrite Hkv, insert_id.
  - destruct o as [[[r|r]|e]| |]; cbn [andthen]; try done.
    by destruct Hpost as (-> & Hkv & _).
Qed.
End Proofs.
