(* ===== verification/Erasure.v ===== *)
(** Deleting an account: what is left of it in the store.  The loops over the
    store's pages end when the cursors do, which is a promise of the store
    ([paging]). *)

From stdpp Require Import base gmap strings list pretty.
From Stdlib Require Import ZArith Lia Ascii.
From S2P Require Import Prelude Prog Addr ForwarderState World Retry Forwarder.
From S2P Require Import Store Crates Errors ControlPlane Allocation Machines Account.
From S2P Require Import Invite InviteMoves Typed InviteProofs.

Local Open Scope prog_scope.

(** ** Normal forms of addresses *)

Section Norm.
Local Abbreviation start := (trim_start_matches is_whitespace) (only parsing).

Lemma start_cases f s :
  trim_start_matches f s = EmptyString \/
  exists c s', trim_start_matches f s = String c s' /\ f c = false.
Proof.
  induction s as [|c s IH]; cbn; [by left|]. destruct (f c) eqn:Hc; [done|right; eauto].
Qed.

Lemma start_idem f s : trim_start_matches f (trim_start_matches f s) = trim_start_matches f s.
Proof. destruct (start_cases f s) as [-> | (c & s' & -> & Hc)]; cbn; by rewrite ?Hc. Qed.

Lemma start_suffix f s : exists w, s = (w ++ trim_start_matches f s)%string.
Proof.
  induction s as [|c s [w IH]]; cbn; [by exists ""%string|].
  destruct (f c); [|by exists ""%string]. exists (String c w). cbn. by rewrite <- IH.
Qed.

(** Cutting at the end leaves a start that needs no cut. *)
Lemma start_end f g s :
  trim_start_matches f s = s -> trim_start_matches f (trim_end_matches g s) = trim_end_matches g s.
Proof.
  intros Hs. destruct (start_suffix g (str_rev s)) as [w Hw].
  assert (s = trim_end_matches g s ++ str_rev w)%string as He.
  { unfold trim_end_matches. rewrite <- str_rev_app, <- Hw. by rewrite str_rev_involutive. }
  destruct (trim_end_matches g s) as [|c x] eqn:E; [done|]. cbn in He |- *.
  destruct (start_cases f s) as [H|(d & s' & H & Hd)]; rewrite Hs in H; rewrite H in He; [done|].
  injection He as -> _. by rewrite Hd.
Qed.

Lemma end_idem f s : trim_end_matches f (trim_end_matches f s) = trim_end_matches f s.
Proof. unfold trim_end_matches. by rewrite str_rev_involutive, start_idem. Qed.

Lemma trim_idem s : trim (trim s) = trim s.
Proof. unfold trim. by rewrite start_end, end_idem by apply start_idem. Qed.

Lemma start_lower s : start (to_lowercase s) = to_lowercase (start s).
Proof.
  induction s as [|c s IH]; cbn; [done|].
  assert (is_whitespace (lower_ascii c) = is_whitespace c) as ->
    by (destruct c as [[] [] [] [] [] [] [] []]; reflexivity).
  by destruct (is_whitespace c).
Qed.

Lemma lower_app a b : to_lowercase (a ++ b) = (to_lowercase a ++ to_lowercase b)%string.
Proof. induction a as [|c a IH]; cbn; by rewrite ?IH. Qed.

Lemma lower_rev s : str_rev (to_lowercase s) = to_lowercase (str_rev s).
Proof.
  induction s as [|c s IH]; [done|]. change (to_lowercase (String c s)) with
    (String (lower_ascii c) (to_lowercase s)).
  by rewrite !str_rev_cons, IH, lower_app.
Qed.

Lemma lower_idem s : to_lowercase (to_lowercase s) = to_lowercase s.
Proof.
  induction s as [|c s IH]; cbn; [done|]. f_equal; [|done].
  by destruct c as [[] [] [] [] [] [] [] []].
Qed.

Lemma trim_lower s : trim (to_lowercase s) = to_lowercase (trim s).
Proof.
  unfold trim, trim_end_matches. by rewrite start_lower, lower_rev, start_lower, lower_rev.
Qed.

Lemma norm_idem e : norm_email (norm_email e) = norm_email e.
Proof. unfold norm_email. by rewrite trim_lower, trim_idem, lower_idem. Qed.
End Norm.

(** ** Keys *)

Lemma session_matches k : glob_match (session_key "*") k = true -> exists t, k = session_key t.
Proof.
  unfold glob_match. change (strip_suffix "*" (session_key "*")) with (Some "fortress:session:").
  intros [t ->]%starts_with_spec. by exists t.
Qed.

Lemma session_matched t : glob_match (session_key "*") (session_key t) = true.
Proof.
  unfold glob_match. change (strip_suffix "*" (session_key "*")) with (Some "fortress:session:").
  apply starts_with_spec. by exists t.
Qed.

Lemma invite_matches k : glob_match "fortress:invite:*" k = true -> exists c, k = invite_key c.
Proof.
  unfold glob_match. change (strip_suffix "*" "fortress:invite:*") with (Some "fortress:invite:").
  intros [t ->]%starts_with_spec. by exists t.
Qed.

Lemma invite_matched c : glob_match "fortress:invite:*" (invite_key c) = true.
Proof.
  unfold glob_match. change (strip_suffix "*" "fortress:invite:*") with (Some "fortress:invite:").
  apply starts_with_spec. by exists c.
Qed.

(** ** Scans that end *)

Section Scan.
Context (verify : string -> string -> option bool) (left_ : string -> nat).

(** The store answers, and the cursors of a scan count down: [left_ c] bounds the
    pages still to come after cursor [c].  Redis promises that a scan ends; how
    soon is not its caller's to say. *)
Definition paging (o : edge_op) (s : edge) (r : edge_ret o) (s' : edge) : Prop :=
  healthy_spec verify o s r s' /\
  match o return edge_ret o -> Prop with
  | Redis (RScan cursor _) => fun r =>
      match r with
      | Ok (next, _) => next = "0"%string \/ (left_ next < left_ cursor)%nat
      | Err _ => True
      end
  | _ => fun _ => True
  end r.

Local Abbreviation wpp := (wp (X := EdgeSig) paging) (only parsing).
Local Abbreviation wph := (wp (X := EdgeSig) (healthy_spec verify)) (only parsing).

Lemma wp_paging {A} (p : prog EdgeSig A) Q s : wph p Q s -> wpp p Q s.
Proof. apply wp_spec_mono. intros o s0 r s' H. exact (proj1 H). Qed.

Lemma wp_paging_redis {A} c (k : Result (rok c) RedisError -> prog EdgeSig A) Q s :
  is_scan c = false ->
  wpp (k (fst (redis_apply c (kv s)))) Q (set_kv (snd (redis_apply c (kv s))) s) ->
  wpp (bind (redis c) k) Q s.
Proof.
  intros Hc H r s' [[_ Hr] _]. cbn in r, Hr. rewrite Hc in Hr. by destruct Hr as [-> ->].
Qed.

Lemma wp_paging_conn {A} (k : Result unit RedisError -> prog EdgeSig A) Q s :
  wpp (k (Ok tt)) Q s -> wpp (bind conn k) Q s.
Proof. intros H r s' [[Hs Hr] _]. cbn in Hs, Hr. by subst. Qed.

(** The keys a cursor still owes. *)
Definition owes (cursor : string) (s : edge) (k : string) : Prop :=
  if decide (cursor = "0"%string) then k ∈ dom (kv s) else k ∈ default ∅ (scans s !! cursor).

Lemma owes_set_kv cursor m s k :
  cursor <> "0"%string -> owes cursor (set_kv m s) k <-> owes cursor s k.
Proof. intros Hc. unfold owes. rewrite !decide_False by done. done. Qed.

(** One page of a scan: its keys match, and what was owed is on it or owed by the
    next cursor. *)
Lemma wp_scan {A E} cursor pat (conv : RedisError -> E)
    (k : string * list string -> prog EdgeSig (Result A E)) Q s :
  (forall next page rest,
     let s1 := set_scans (<[next := rest]> (scans s)) s in
     next = "0"%string \/ (left_ next < left_ cursor)%nat ->
     (forall key, key ∈ page -> glob_match pat key = true) ->
     (forall key, glob_match pat key = true -> owes cursor s key ->
        key ∈ page \/ next <> "0"%string /\ owes next s1 key) ->
     wpp (k (next, page)) Q s1) ->
  wpp (bind_try conv (redis (RScan cursor pat)) k) Q s.
Proof.
  intros Hk r s' [[Hs Hok] Hleft]. cbn in Hs, Hok.
  destruct Hs as [(e & -> & _)|(next & page & rest & owed & -> & -> & Hpage & Howed & Hend & ->)];
    [done|].
  cbn. apply (Hk next page rest); [done|done|].
  intros key Hm Ho.
  assert (key ∈ list_to_set page ∪ rest) as [H|H]%elem_of_union.
  { apply Howed. apply elem_of_filter. split; [done|]. unfold owes in Ho.
    destruct (decide (cursor = "0"%string)); [|done]. apply elem_of_filter. done. }
  - left. by apply elem_of_list_to_set in H.
  - right. destruct (decide (next = "0"%string)) as [E0|Hne]; [by rewrite (Hend E0) in H|].
    split; [done|]. unfold owes. rewrite decide_False by done. cbn. by rewrite lookup_insert_eq.
Qed.
End Scan.

(** ** Sessions *)

(** The value is a text that holds this address. *)
Definition holds (email : string) (o : option rval) : bool :=
  match o with Some (RStr v _) => bool_decide (v = email) | _ => false end.

(** The outside of the store is as it was. *)
Definition same_outside (s s' : edge) : Prop :=
  wg_log s' = wg_log s /\ dns_log s' = dns_log s /\ mails s' = mails s /\ fws s' = fws s.

Section Sessions.
Context `{CR : Crates} `{SM : Serde Machine} `{SA : Serde AccountRecord}.
Context `{SI : Serde InviteRecord} `{SD : Serde EnrollmentDelivery}.
Context (verify : string -> string -> option bool) (left_ : string -> nat) (email : string).
Local Abbreviation wpp := (wp (X := EdgeSig) (paging verify left_)) (only parsing).
Local Abbreviation wph := (wp (X := EdgeSig) (healthy_spec verify)) (only parsing).

(** From [m] to [m'] only sessions of the address went, at least those of [P]. *)
Definition sessions_gone (P : string -> Prop) (m m' : gmap string rval) : Prop :=
  forall k, (m' !! k = m !! k /\ (P k -> holds email (m !! k) = false)) \/
            (m' !! k = None /\ holds email (m !! k) = true /\ exists t, k = session_key t).

Lemma wp_sessions_page keys s :
  typed (kv s) -> Forall (fun k => exists t, k = session_key t) keys ->
  wph (sessions_page email keys)
    (fun o s' => o = Done (Ok tt) /\ exists m, s' = set_kv m s /\ typed m /\
                 sessions_gone (fun k => k ∈ keys) (kv s) m) s.
Proof.
  revert s. induction keys as [|k keys IH]; intros s Ht Hk; cbn [sessions_page].
  { split; [done|]. exists (kv s). rewrite set_kv_id. split_and!; [done..|].
    intros k. left. split; [done|]. intros H. by apply elem_of_nil in H. }
  apply Forall_cons in Hk as [[t Hkt] Hks]. unfold bind_try.
  apply wp_healthy_redis; [done|]. cbn [redis_apply fst snd]. rewrite set_kv_id.
  assert (exists v, read_str (kv s !! k) = Ok v /\
            (v = Some email -> holds email (kv s !! k) = true) /\
            (v <> Some email -> holds email (kv s !! k) = false)) as (v & -> & Hy & Hn).
  { destruct (kv s !! k) as [x|] eqn:E; [|by exists None].
    destruct (wt_session _ _ (map_Forall_lookup_1 _ _ _ _ Ht E) t Hkt) as [e ->].
    exists (Some e). cbn. rewrite bool_decide_eq_true, bool_decide_eq_false. naive_solver. }
  case_bool_decide as Hb; [apply Hy in Hb|apply Hn in Hb].
  - apply wp_healthy_redis; [done|].
    assert (redis_apply (RDel k) (kv s) = (Ok 1%Z, delete k (kv s))) as ->.
    { cbn. by destruct (kv s !! k). }
    cbn [fst snd]. eapply wp_mono; [|apply IH; [by apply map_Forall_delete|done]].
    intros o s' (-> & m & -> & Hm & Hg). split; [done|]. exists m. cbn.
    split_and!; [done..|]. intros k'. destruct (decide (k' = k)) as [->|Hne].
    + right. destruct (Hg k) as [[-> _]|[-> _]]; cbn; rewrite ?lookup_delete_eq; eauto.
    + destruct (Hg k') as [[E1 E2]|(E1 & E2 & E3)]; cbn in *;
        rewrite lookup_delete_ne in * by done; [left|right; done].
      split; [done|]. intros [?|?]%elem_of_cons; [done|auto].
  - eapply wp_mono; [|by apply IH]. intros o s' (-> & m & -> & Hm & Hg). split; [done|].
    exists m. split_and!; [done..|]. intros k'. destruct (Hg k') as [[E1 E2]|?]; [left|by right].
    split; [done|]. by intros [->|?]%elem_of_cons; [|auto].
Qed.

Lemma sessions_gone_trans (P Q : string -> Prop) m1 m2 m3 :
  sessions_gone P m1 m2 -> sessions_gone Q m2 m3 ->
  sessions_gone (fun k => P k \/ Q k) m1 m3.
Proof.
  intros H1 H2 k. destruct (H1 k) as [[A1 A2]|(A1 & A2 & A3)], (H2 k) as [[B1 B2]|(B1 & B2 & B3)].
  - left. split; [congruence|]. rewrite A1 in B2. intros [|]; auto.
  - right. rewrite A1 in B2. auto.
  - right. rewrite B1. auto.
  - right. auto.
Qed.

Lemma wp_sessions_scan fuel cursor s :
  typed (kv s) -> (left_ cursor < fuel)%nat ->
  wpp (sessions_scan fuel email cursor)
    (fun o s' => o = Done (Ok tt) /\ same_outside s s' /\
       sessions_gone (fun k => (exists t, k = session_key t) /\ owes cursor s k) (kv s) (kv s')) s.
Proof.
  revert cursor s. induction fuel as [|fuel IH]; intros cursor s Ht Hf; [lia|].
  cbn [sessions_scan]. apply wp_scan. intros next page rest s1 Hl Hp Ho.
  unfold bind_try at 1. rewrite wp_bind. eapply wp_mono; [|apply wp_paging, wp_sessions_page].
  2:{ exact Ht. }
  2:{ apply Forall_forall. intros k Hk. by apply session_matches, Hp. }
  intros o s2 (-> & m & -> & Hm & Hg). cbn [andthen]. cbn in Hg.
  assert (forall k, (exists t, k = session_key t) -> owes cursor s k ->
            k ∈ page \/ next <> "0"%string /\ owes next (set_kv m s1) k) as Ho'.
  { intros k [t ->] Hk. destruct (Ho _ (session_matched t) Hk) as [?|[Hn Hr]]; [by left|right].
    split; [done|]. by apply owes_set_kv. }
  case_bool_decide as Hn.
  - split; [done|]. split; [done|]. intros k. destruct (Hg k) as [[E1 E2]|?]; [left|by right].
    split; [done|]. intros [Hs Hk]. apply E2. by destruct (Ho' k Hs Hk) as [?|[? _]].
  - destruct Hl as [?|Hl]; [done|].
    eapply wp_mono; [|apply (IH next (set_kv m s1)); [exact Hm|lia]].
    intros o s' (-> & Hw & Hg2). split; [done|]. split; [done|]. cbn in Hg2.
    intros k. destruct (sessions_gone_trans _ _ _ _ _ Hg Hg2 k) as [[E1 E2]|?]; [left|by right].
    split; [done|]. intros [Hs Hk]. apply E2.
    destruct (Ho' k Hs Hk) as [?|[_ ?]]; [by left|by right].
Qed.
End Sessions.

(** ** Invites *)

Section Invites.
Context `{CR : Crates} `{SM : Serde Machine} `{SA : Serde AccountRecord}.
Context `{SI : Serde InviteRecord} `{SD : Serde EnrollmentDelivery}.
Context `{LI : !SerdeLaws InviteRecord}.
Context (verify : string -> string -> option bool) (left_ : string -> nat) (email : string).
Local Abbreviation wpp := (wp (X := EdgeSig) (paging verify left_)) (only parsing).
Local Abbreviation wph := (wp (X := EdgeSig) (healthy_spec verify)) (only parsing).

(** An invite of the address. *)
Definition invite_of (m : gmap string rval) (code : string) (r : InviteRecord) : Prop :=
  rec_at m code = Some r /\ owner_email r = email.

(** The stored codes do not repeat their key's prefix. *)
Definition codes_plain (m : gmap string rval) : Prop :=
  forall code, is_Some (m !! invite_key code) -> starts_with "fortress:invite:" code = false.

Lemma trim_invite_key code :
  starts_with "fortress:invite:" code = false ->
  trim_start_str (String.length (invite_key code)) "fortress:invite:" (invite_key code) = code.
Proof.
  intros Hc.
  assert (strip_prefix "fortress:invite:" code = None) as Hn
    by (unfold starts_with in Hc; by destruct (strip_prefix _ code)).
  assert (strip_prefix "fortress:invite:" (invite_key code) = Some code) as Hs
    by (by apply strip_prefix_spec).
  change (String.length (invite_key code)) with (S (S (14 + String.length code))).
  cbn [trim_start_str]. rewrite Hs. by rewrite Hn.
Qed.

Lemma wp_invites_page keys out s :
  typed (kv s) -> codes_plain (kv s) -> Forall (fun k => exists c, k = invite_key c) keys ->
  wph (invites_page email keys out)
    (fun o s' => s' = s /\ exists l, o = Done (Ok (out ++ l)%list) /\
       forall code r, (code, r) ∈ l <-> invite_key code ∈ keys /\ invite_of (kv s) code r) s.
Proof.
  intros Ht Hc. revert out. induction keys as [|k keys IH]; intros out Hk; cbn [invites_page].
  { split; [done|]. exists []. rewrite app_nil_r. split; [done|]. set_solver. }
  apply Forall_cons in Hk as [[c ->] Hks].
  change (starts_with "fortress:invite-delivery:" (invite_key c)) with false. cbv iota.
  unfold bind_try. apply wp_healthy_redis; [done|]. cbn [redis_apply fst snd]. rewrite set_kv_id.
  destruct (kv s !! invite_key c) as [x|] eqn:E.
  - pose proof (Hc c ltac:(by rewrite E)) as Hpc.
    destruct (wt_invite _ _ (map_Forall_lookup_1 _ _ _ _ Ht E) c eq_refl) as (r & -> & _).
    cbn [read_str]. rewrite trim_invite_key by done.
    unfold record_from_json. rewrite from_to_json. cbn [map_err].
    assert (rec_at (kv s) c = Some r) as Hr by (unfold rec_at; by rewrite E, from_to_json).
    case_bool_decide as Ho.
    + eapply wp_mono; [|by apply IH]. intros o s' (-> & l & -> & Hl). split; [done|].
      exists ((c, r) :: l). split; [by rewrite <- app_assoc|]. intros code r'.
      rewrite elem_of_cons, Hl, elem_of_cons. unfold invite_of. split.
      * intros [[= -> ->]|[H1 H2]]; [|tauto]. tauto.
      * intros [[H1%invite_key_inj|H1] H2]; [subst|tauto]. left. destruct H2. congruence.
    + eapply wp_mono; [|by apply IH]. intros o s' (-> & l & -> & Hl). split; [done|].
      exists l. split; [done|]. intros code r'. rewrite Hl, elem_of_cons. unfold invite_of.
      split; [tauto|]. intros [[H1%invite_key_inj|H1] [H2 H3]]; [|tauto]. subst code. congruence.
  - cbn [read_str]. eapply wp_mono; [|by apply IH]. intros o s' (-> & l & -> & Hl).
    split; [done|]. exists l. split; [done|]. intros code r'. rewrite Hl, elem_of_cons.
    unfold invite_of. split; [tauto|]. intros [[H1%invite_key_inj|H1] [H2 H3]]; [|tauto].
    subst code. unfold rec_at in H2. by rewrite E in H2.
Qed.

Lemma wp_invites_scan fuel cursor out s :
  typed (kv s) -> codes_plain (kv s) -> (left_ cursor < fuel)%nat ->
  wpp (invites_scan fuel email cursor out)
    (fun o s' => kv s' = kv s /\ same_outside s s' /\ exists l, o = Done (Ok (out ++ l)%list) /\
       (forall code r, (code, r) ∈ l -> invite_of (kv s) code r) /\
       (forall code r, invite_of (kv s) code r -> owes cursor s (invite_key code) ->
          (code, r) ∈ l)) s.
Proof.
  revert cursor out s. induction fuel as [|fuel IH]; intros cursor out s Ht Hc Hf; [lia|].
  cbn [invites_scan]. apply wp_scan. intros next page rest s1 Hl Hp Ho.
  unfold bind_try at 1. rewrite wp_bind. eapply wp_mono; [|apply wp_paging, wp_invites_page].
  2:{ exact Ht. }
  2:{ exact Hc. }
  2:{ apply Forall_forall. intros k Hk. by apply invite_matches, Hp. }
  intros o s2 (-> & l & -> & Hin). cbn [andthen]. cbn in Hin.
  case_bool_decide as Hn.
  - split; [done|]. split; [done|]. exists l. split; [done|]. split; [intros code r; apply Hin|].
    intros code r Hi Hk. apply Hin. split; [|done].
    by destruct (Ho _ (invite_matched code) Hk) as [?|[? _]].
  - destruct Hl as [?|Hl]; [done|].
    eapply wp_mono; [|apply (IH next (out ++ l)%list s1); [exact Ht|exact Hc|lia]].
    intros o s' (Hkv & Hw & l' & -> & H1 & H2). split; [done|]. split; [done|].
    exists (l ++ l')%list. split; [by rewrite app_assoc|]. cbn in H1, H2. split.
    + intros code r [H|H]%elem_of_app; [by apply Hin|by apply H1].
    + intros code r Hi Hk. apply elem_of_app.
      destruct (Ho _ (invite_matched code) Hk) as [?|[_ ?]]; [left; by apply Hin|right; by apply H2].
Qed.

Lemma wp_delete_invites l s :
  typed (kv s) ->
  wph (delete_invites l)
    (fun o s' => o = Done (Ok tt) /\ exists m, s' = set_kv m s /\ typed m /\
       (forall code r, (code, r) ∈ l -> m !! invite_key code = None) /\
       (forall k, m !! k = None \/ m !! k = kv s !! k) /\
       (forall k, (forall code r, (code, r) ∈ l -> k <> invite_key code) -> m !! k = kv s !! k)) s.
Proof.
  revert s. induction l as [|[c r] l IH]; intros s Ht; cbn [delete_invites].
  { split; [done|]. exists (kv s). rewrite set_kv_id. split_and!; [done..| |by right|done].
    set_solver. }
  unfold bind_try. apply wp_healthy_redis; [done|].
  assert (exists z, redis_apply (RDel (invite_key c)) (kv s) = (Ok z, delete (invite_key c) (kv s)))
    as [z ->].
  { cbn. destruct (kv s !! invite_key c) eqn:E; [by eexists|]. exists 0%Z.
    by rewrite delete_id by done. }
  cbn [fst snd]. eapply wp_mono; [|apply IH; by apply map_Forall_delete].
  intros o s' (-> & m & -> & Hm & H1 & H2 & H3). split; [done|]. exists m. cbn in *.
  split_and!; [done..| | |].
  - intros code r' [[= -> ->]|H]%elem_of_cons; [|by eapply H1].
    destruct (H2 (invite_key c)) as [?|E]; [done|]. by rewrite E, lookup_delete_eq.
  - intros k. destruct (H2 k) as [?|E]; [by left|]. destruct (decide (k = invite_key c)) as [->|Hne].
    + left. by rewrite E, lookup_delete_eq.
    + right. by rewrite E, lookup_delete_ne.
  - intros k Hk. rewrite H3 by (intros code r' H; apply (Hk code r'); by right).
    rewrite lookup_delete_ne; [done|]. intros <-. by apply (Hk c r); [left|].
Qed.
End Invites.

(** ** Machines *)

Section Machines.
Context `{CR : Crates} `{SM : Serde Machine} `{SL : !SerdeLaws Machine}.
Context (verify : string -> string -> option bool) (cp : ControlPlane) (fwdr : Forwarder).
Local Abbreviation wph := (wp (X := EdgeSig) (healthy_spec verify)) (only parsing).

Lemma drop_store_record name m : drop_store name m !! machine_key name = None.
Proof.
  unfold drop_store. rewrite redis_apply_other by apply machine_key_index.
  cbn. destruct (m !! machine_key name) eqn:E; cbn; [apply lookup_delete_eq|done].
Qed.

Lemma drop_store_other name m k :
  k <> machine_key name -> k <> MACHINE_INDEX -> drop_store name m !! k = m !! k.
Proof. intros H1 H2. unfold drop_store. by rewrite !redis_apply_other. Qed.

Lemma remove_first_absent v l : v ∉ l -> remove_first v l = l.
Proof.
  induction l as [|x l IH]; cbn; [done|]. rewrite not_elem_of_cons. intros [H1 H2].
  rewrite decide_False by done. by rewrite IH.
Qed.

Lemma drop_store_index name m ns :
  read_list (m !! MACHINE_INDEX) = Ok ns ->
  read_list (drop_store name m !! MACHINE_INDEX) = Ok (remove_first name ns).
Proof.
  intros H. unfold drop_store.
  set (m1 := snd (redis_apply (RDel (machine_key name)) m)).
  assert (m1 !! MACHINE_INDEX = m !! MACHINE_INDEX) as E.
  { apply redis_apply_other. cbn. intros Hk. by apply (machine_key_index name). }
  cbn [redis_apply snd]. rewrite E, H. case_decide as Hin; cbn [snd].
  - destruct (remove_first name ns) as [|x l]; [by rewrite lookup_delete_eq|].
    by rewrite lookup_insert_eq.
  - by rewrite E, remove_first_absent.
Qed.

(** A name without a record counts for nothing in the index. *)
Lemma listed_from_remove m name ns :
  m !! machine_key name = None -> listed_from m (remove_first name ns) = listed_from m ns.
Proof.
  intros Hn. induction ns as [|x ns IH]; cbn [remove_first]; [done|].
  case_decide as Hx; cbn [listed_from].
  - subst x. by rewrite Hn.
  - by rewrite IH.
Qed.

Definition records_named (m : gmap string rval) : Prop :=
  forall name v, m !! machine_key name = Some v -> exists mc, record_of m name mc.

(** What is left when some of the listed machines are deleted. *)
Lemma listed_from_filter m m' (gone : Machine -> bool) ns l :
  records_named m -> listed_from m ns = Ok l ->
  (forall name mc, name ∈ ns -> record_of m name mc ->
     m' !! machine_key name = if gone mc then None else m !! machine_key name) ->
  (forall name, m !! machine_key name = None -> m' !! machine_key name = None) ->
  listed_from m' ns = Ok (List.filter (fun mc => negb (gone mc)) l).
Proof.
  intros Hn Hl Hrec Hnone. revert l Hl.
  induction ns as [|x ns IH]; cbn [listed_from]; intros l Hl; [by injection Hl as <-|].
  specialize (IH (fun name mc H => Hrec name mc (list_elem_of_further _ _ _ H))).
  destruct (m !! machine_key x) as [v|] eqn:E.
  - destruct (Hn x v E) as [mc Hmc]. pose proof Hmc as [E' _]. rewrite E in E'. injection E' as ->.
    cbn [read_str] in Hl. unfold machine_from_json in Hl. rewrite from_to_json in Hl. cbn [map_err] in Hl.
    destruct (listed_from m ns) as [l'|] eqn:El; [|done]. injection Hl as <-.
    rewrite (Hrec x mc ltac:(by left) Hmc). cbn [List.filter]. destruct (gone mc); cbn [negb].
    + cbn [read_str]. by apply IH.
    + rewrite E. cbn [read_str]. unfold machine_from_json. rewrite from_to_json. cbn [map_err].
      by rewrite (IH l' eq_refl).
  - rewrite (Hnone x E). cbn [read_str] in *. by apply IH.
Qed.

(** Every listed machine has its record. *)
Lemma listed_from_records m ns l mc :
  records_named m -> listed_from m ns = Ok l -> mc ∈ l -> record_of m (m_name mc) mc.
Proof.
  intros Hn. revert l. induction ns as [|x ns IH]; cbn [listed_from]; intros l Hl Hin.
  { injection Hl as <-. by apply elem_of_nil in Hin. }
  destruct (m !! machine_key x) as [v|] eqn:E; [|by eapply IH].
  destruct (Hn x v E) as [mc' Hmc]. pose proof Hmc as [E' Hname]. rewrite E in E'. injection E' as ->.
  cbn [read_str] in Hl. unfold machine_from_json in Hl. rewrite from_to_json in Hl. cbn [map_err] in Hl.
  destruct (listed_from m ns) as [l'|] eqn:El; [|done]. injection Hl as <-.
  apply elem_of_cons in Hin as [->|Hin]; [by rewrite Hname|by eapply IH].
Qed.

Lemma listed_from_in m ns l name mc :
  listed_from m ns = Ok l -> name ∈ ns -> record_of m name mc -> mc ∈ l.
Proof.
  revert l. induction ns as [|x ns IH]; cbn [listed_from]; intros l Hl Hin Hmc.
  { by apply elem_of_nil in Hin. }
  apply elem_of_cons in Hin as [<-|Hin].
  - destruct Hmc as [E _]. rewrite E in Hl. cbn [read_str] in Hl.
    unfold machine_from_json in Hl. rewrite from_to_json in Hl. cbn [map_err] in Hl.
    destruct (listed_from m ns); [|done]. injection Hl as <-. by left.
  - destruct (read_str _) as [[json|]|]; [|by eapply IH|done].
    destruct (machine_from_json json); [|done].
    destruct (listed_from m ns) as [l'|]; [|done]. injection Hl as <-. right. by eapply IH.
Qed.

(** A machine's record is there, or it was deleted before. *)
Definition there_or_gone (s : edge) (mc : Machine) : Prop :=
  record_of (kv s) (m_name mc) mc \/
  kv s !! machine_key (m_name mc) = None /\
  (forall key, key ∈ machine_keys mc -> key ∉ handles (fws s)).

Definition machines_gone (ms : list Machine) (s s' : edge) : Prop :=
  mails s' = mails s /\
  unserved (flat_map machine_keys ms) (fws s) (fws s') /\
  (forall mc, mc ∈ ms -> kv s' !! machine_key (m_name mc) = None) /\
  (forall k, kv s !! k = None -> k <> MACHINE_INDEX -> kv s' !! k = None) /\
  (forall k, k <> MACHINE_INDEX -> (forall mc, mc ∈ ms -> k <> machine_key (m_name mc)) ->
     kv s' !! k = kv s !! k) /\
  (forall ns, read_list (kv s !! MACHINE_INDEX) = Ok ns ->
     exists ns', read_list (kv s' !! MACHINE_INDEX) = Ok ns' /\
       forall m, (forall mc, mc ∈ ms -> m !! machine_key (m_name mc) = None) ->
         listed_from m ns' = listed_from m ns).

Lemma machines_gone_cons mc ms s s1 s' :
  machines_gone [mc] s s1 -> machines_gone ms s1 s' -> machines_gone (mc :: ms) s s'.
Proof.
  intros (A1 & A2 & A3 & A4 & A5 & A6) (B1 & B2 & B3 & B4 & B5 & B6). split_and!.
  - congruence.
  - cbn [flat_map] in *. rewrite app_nil_r in A2. by eapply unserved_app.
  - intros mc' [->|H]%elem_of_cons; [|auto].
    apply B4; [apply A3; by left|apply machine_key_index].
  - intros k H Hk. by apply B4, Hk; apply A4.
  - intros k Hk Hms. rewrite B5, A5; [done|done| |done|].
    + intros mc' ->%list_elem_of_singleton. apply Hms. by left.
    + intros mc' H. apply Hms. by right.
  - intros ns Hns. destruct (A6 ns Hns) as (n1 & H1 & E1), (B6 n1 H1) as (n2 & H2 & E2).
    exists n2. split; [done|]. intros m Hm. rewrite E2, E1; [done| |].
    + intros mc' ->%list_elem_of_singleton. apply Hm. by left.
    + intros mc' H. apply Hm. by right.
Qed.

(** One deletion. *)
Lemma wp_delete_one mc s :
  is_ok (read_list (kv s !! MACHINE_INDEX)) = true -> there_or_gone s mc ->
  wph (delete_machine cp (Some fwdr) (m_name mc))
    (fun o s' => (exists r, o = Done r) /\ machines_gone [mc] s s') s.
Proof.
  intros Hidx Hmc. eapply wp_mono; [|by apply wp_delete]. intros o s' Hpost.
  destruct Hmc as [[Hr _]|[Hr Hu]]; rewrite Hr in Hpost; cbn [read_str] in Hpost.
  - rewrite from_to_json in Hpost. destruct Hpost as (-> & Hkv & Hu & _ & Hmail).
    split; [by eexists|]. unfold machines_gone. rewrite Hkv. split_and!; [done| | | | |].
    + cbn [flat_map]. by rewrite app_nil_r.
    + intros mc' ->%list_elem_of_singleton. apply drop_store_record.
    + intros k Hk Hi. destruct (decide (k = machine_key (m_name mc))) as [->|Hne];
        [apply drop_store_record|by rewrite drop_store_other].
    + intros k Hi Hk. apply drop_store_other; [apply Hk; by left|done].
    + intros ns Hns. eexists. split; [by apply drop_store_index|]. intros m Hm.
      apply listed_from_remove, Hm. by left.
  - destruct Hpost as [-> ->]. split; [by eexists|]. unfold machines_gone. split_and!; try done.
    + intros mc' ->%list_elem_of_singleton. done.
    + intros ns Hns. eauto.
Qed.

Lemma there_or_gone_step mc mc' s s' :
  machines_gone [mc] s s' -> there_or_gone s mc -> there_or_gone s mc' -> there_or_gone s' mc'.
Proof.
  intros (_ & (U1 & _ & U3) & A3 & A4 & A5 & _) Hmc [H'|[H1 H2]].
  - destruct (decide (m_name mc' = m_name mc)) as [E|Hne].
    + right. rewrite E. split; [apply A3; by left|]. intros key Hk. apply U1. cbn [flat_map].
      rewrite app_nil_r. destruct Hmc as [Hmc|[Hmc _]].
      * rewrite E in H'. by rewrite (record_of_unique _ _ _ _ Hmc H').
      * destruct H' as [H' _]. rewrite E, Hmc in H'. done.
    + left. destruct H' as [H' H'']. split; [|done]. rewrite A5; [done|apply machine_key_index|].
      intros x ->%list_elem_of_singleton E. by apply Hne, machine_key_inj.
  - right. split; [by apply A4, machine_key_index|]. intros key Hk Hh. by apply (H2 key Hk), U3.
Qed.

Lemma machines_gone_nil s : machines_gone [] s s.
Proof.
  unfold machines_gone. split_and!; [done| |set_solver|done|done|eauto].
  split_and!; [set_solver|done|done].
Qed.

Lemma wp_delete_machines ms s :
  is_ok (read_list (kv s !! MACHINE_INDEX)) = true -> Forall (there_or_gone s) ms ->
  wph (delete_machines cp (Some fwdr) ms)
    (fun o s' => o = Done tt /\ machines_gone ms s s') s.
Proof.
  revert s. induction ms as [|mc ms IH]; intros s Hidx Hms; cbn [delete_machines].
  { split; [done|apply machines_gone_nil]. }
  apply Forall_cons in Hms as [Hmc Hms].
  rewrite wp_bind. eapply wp_mono; [|by apply wp_delete_one].
  intros o s1 ([r ->] & H1). cbn [andthen].
  eapply wp_mono; [|apply IH].
  - intros o s' [-> H2]. split; [done|]. by eapply machines_gone_cons.
  - destruct H1 as (_ & _ & _ & _ & _ & H6). destruct (read_list (kv s !! _)) as [ns|]; [|done].
    by destruct (H6 ns eq_refl) as (ns' & -> & _).
  - eapply Forall_impl; [exact Hms|]. intros x Hx. by eapply there_or_gone_step.
Qed.
End Machines.

(** ** The account *)

Section Account.
Context `{CR : Crates} `{SM : Serde Machine} `{SA : Serde AccountRecord}.
Context `{SI : Serde InviteRecord} `{SD : Serde EnrollmentDelivery}.
Context `{LM : !SerdeLaws Machine} `{LA : !SerdeLaws AccountRecord} `{LI : !SerdeLaws InviteRecord}.
Context (left_ : string -> nat).
Context (cp : ControlPlane) (fwdr : Forwarder).
Local Abbreviation wpp := (wp (X := EdgeSig) (paging bcrypt_verify left_)) (only parsing).
Local Abbreviation wph := (wp (X := EdgeSig) (healthy_spec bcrypt_verify)) (only parsing).

Definition owned (u : string) (mc : Machine) : bool := bool_decide (m_owner mc = Some u).

(** What a store has to be for its accounts to be deleted whole: typed, with
    records under their own names, and codes that do not repeat the prefix. *)
Definition store_ok (m : gmap string rval) : Prop :=
  typed m /\ records_named m /\ codes_plain m.

Lemma typed_index m : typed m -> is_ok (read_list (m !! MACHINE_INDEX)) = true.
Proof.
  intros Ht. destruct (m !! MACHINE_INDEX) as [v|] eqn:E; [|done].
  by destruct (wt_index _ _ (map_Forall_lookup_1 _ _ _ _ Ht E) eq_refl) as [l ->].
Qed.

Lemma typed_machine m name v :
  typed m -> m !! machine_key name = Some v -> exists mc : Machine, v = RStr (to_json mc) None.
Proof. intros Ht E. by apply (wt_machine _ _ (map_Forall_lookup_1 _ _ _ _ Ht E) name). Qed.

Lemma typed_listed m : typed m -> exists l, listed m = Ok l.
Proof.
  intros Ht. unfold listed. pose proof (typed_index m Ht) as Hi.
  destruct (read_list _) as [ns|]; [|done]. clear Hi.
  induction ns as [|x ns [l IH]]; cbn [listed_from]; [by eexists|].
  destruct (m !! machine_key x) as [v|] eqn:E; cbn [read_str]; [|by eexists].
  destruct (typed_machine m x v Ht E) as [mc ->]. cbn [read_str].
  unfold machine_from_json. rewrite from_to_json. cbn [map_err]. rewrite IH. by eexists.
Qed.

Lemma wp_machines_of email (a : AccountRecord) l s :
  norm_email email = email -> kv s !! account_key email = Some (RStr (to_json a) None) ->
  listed (kv s) = Ok l ->
  wph (machines_of email)
    (fun o s' => o = Done (Ok (List.filter (owned (uuid a)) l)) /\ s' = s) s.
Proof.
  intros He Ha Hl. unfold machines_of, bind_try. rewrite wp_bind.
  eapply wp_account_uuid; [by rewrite He|]. cbn [andthen].
  rewrite wp_bind. apply wp_list. rewrite Hl. done.
Qed.

(** The account, its machines, invites and sessions are gone; the rest is there. *)
Record erased (email u : string) (l : list Machine) (s s' : edge) : Prop := {
  er_account : kv s' !! account_key email = None;
  er_machines : listed (kv s') = Ok (List.filter (fun mc => negb (owned u mc)) l);
  er_forwards : unserved (flat_map machine_keys (List.filter (owned u) l)) (fws s) (fws s');
  er_invites code r : ~ invite_of email (kv s') code r;
  er_sessions token : holds email (kv s' !! session_key token) = false;
  er_mails : mails s' = mails s;
  er_rest k :
    k <> MACHINE_INDEX -> k <> account_key email ->
    (forall mc, mc ∈ l -> owned u mc = true -> k <> machine_key (m_name mc)) ->
    (forall code r, invite_of email (kv s) code r -> k <> invite_key code) ->
    (forall token, holds email (kv s !! k) = true -> k <> session_key token) ->
    kv s' !! k = kv s !! k;
}.

Lemma owned_in u l mc : mc ∈ List.filter (owned u) l <-> mc ∈ l /\ owned u mc = true.
Proof. by rewrite !list_elem_of_In, List.filter_In. Qed.

(** The phases put together. *)
Lemma erased_phases email u l s s1 m2 m3 s4 :
  store_ok (kv s) -> listed (kv s) = Ok l ->
  machines_gone (List.filter (owned u) l) s s1 ->
  (forall code r, invite_of email (kv s1) code r -> m2 !! invite_key code = None) ->
  (forall k, m2 !! k = None \/ m2 !! k = kv s1 !! k) ->
  (forall k, (forall code r, invite_of email (kv s1) code r -> k <> invite_key code) ->
     m2 !! k = kv s1 !! k) ->
  sessions_gone email (fun k => exists t, k = session_key t) m2 m3 ->
  kv s4 = delete (account_key email) m3 -> fws s4 = fws s1 -> mails s4 = mails s1 ->
  erased email u l s s4.
Proof.
  intros (Ht & Hn & Hc) Hl (G1 & G2 & G3 & G4 & G5 & G6) I1 I2 I3 Hs Hkv Hf Hm.
  assert (forall k, (forall t, k <> session_key t) -> m3 !! k = m2 !! k) as Hs'.
  { intros k Hk. destruct (Hs k) as [[? _]|(_ & _ & t & E)]; [done|by apply Hk in E]. }
  assert (forall code, rec_at (kv s1) code = rec_at (kv s) code) as Hrec1.
  { intros code. unfold rec_at. by rewrite G5. }
  assert (forall k, (forall t, k <> session_key t) -> (forall c, k <> invite_key c) ->
            k <> account_key email -> kv s4 !! k = kv s1 !! k) as Hk4.
  { intros k H1 H2 H3. rewrite Hkv, lookup_delete_ne, Hs', I3 by done. done. }
  split.
  - by rewrite Hkv, lookup_delete_eq.
  - unfold listed in Hl |- *. destruct (read_list (kv s !! MACHINE_INDEX)) as [ns|] eqn:E; [|done].
    destruct (G6 ns eq_refl) as (ns' & E' & Hns).
    rewrite Hk4 by done. rewrite E', Hns.
    2:{ intros mc Hmc. rewrite Hk4 by done. by apply G3. }
    eapply listed_from_filter; [exact Hn|exact Hl| |].
    + intros name mc Hin Hmc. rewrite Hk4 by done. pose proof Hmc as [_ Hname].
      assert (mc ∈ l) as Hmcl by (by eapply listed_from_in). destruct (owned u mc) eqn:Ho.
      * rewrite <- Hname. apply G3, owned_in. done.
      * apply G5; [apply machine_key_index|]. intros mc' [Hl' Ho']%owned_in Ek%machine_key_inj.
        eapply listed_from_records in Hl'; [|exact Hn|exact Hl].
        rewrite <- Ek in Hl'. rewrite (record_of_unique _ _ _ _ Hmc Hl') in Ho. congruence.
    + intros name Hnone. rewrite Hk4 by done. apply G4; [done|apply machine_key_index].
  - by rewrite Hf.
  - intros code r [Hr Ho]. assert (kv s4 !! invite_key code = m2 !! invite_key code) as E4
      by (by rewrite Hkv, lookup_delete_ne, Hs').
    unfold rec_at in Hr. rewrite E4 in Hr.
    destruct (I2 (invite_key code)) as [E2|E2]; rewrite E2 in Hr; [done|].
    rewrite (I1 code r) in E2; [|done]. rewrite <- E2 in Hr. done.
  - intros token. rewrite Hkv, lookup_delete_ne by done.
    destruct (Hs (session_key token)) as [[-> H]|[-> _]]; [|done]. apply H. by eexists.
  - congruence.
  - intros k H1 H2 H3 H4 H5. rewrite Hkv, lookup_delete_ne by done.
    assert (kv s1 !! k = kv s !! k) as E1.
    { apply G5; [done|]. intros mc [Hin Ho]%owned_in. by apply H3. }
    assert (m2 !! k = kv s1 !! k) as E2.
    { apply I3. intros code r [Hr Ho]. apply (H4 code r). split; [by rewrite <- Hrec1|done]. }
    destruct (Hs k) as [[-> _]|(_ & Hh & t & Et)]; [congruence|].
    exfalso. rewrite E2, E1 in Hh. by apply (H5 t Hh).
Qed.
Lemma machines_gone_typed ms s s' :
  machines_gone ms s s' -> typed (kv s) -> typed (kv s').
Proof.
  intros (_ & _ & G3 & _ & G5 & G6) Ht k v Hk.
  destruct (decide (k = MACHINE_INDEX)) as [->|Hi].
  - pose proof (typed_index _ Ht) as Hidx. destruct (read_list (kv s !! _)) as [ns|]; [|done].
    destruct (G6 ns eq_refl) as (ns' & E & _). rewrite Hk in E. destruct v; try done.
    split; intros; eauto; unfold_keys; discriminate.
  - destruct (decide (k ∈ map (fun mc => machine_key (m_name mc)) ms)) as [Hin|Hin].
    + apply list_elem_of_In, in_map_iff in Hin as (mc & <- & Hin).
      rewrite G3 in Hk; [done|]. by apply list_elem_of_In.
    + rewrite G5 in Hk; [by apply Ht|done|]. intros mc Hmc ->. apply Hin, list_elem_of_In.
      apply in_map_iff. exists mc. split; [done|]. by apply list_elem_of_In.
Qed.

(** [account_delete] on an address in its normal form. *)
Lemma wp_account_delete fuel email (a : AccountRecord) l s :
  norm_email email = email -> (left_ "0" < fuel)%nat -> store_ok (kv s) ->
  kv s !! account_key email = Some (RStr (to_json a) None) -> listed (kv s) = Ok l ->
  wpp (account_delete fuel cp (Some fwdr) email)
    (fun o s' => o = Done (Ok tt) /\ erased email (uuid a) l s s') s.
Proof.
  intros He Hf Hok Ha Hl. pose proof Hok as (Ht & Hn & Hc).
  unfold account_delete. rewrite He. unfold bind_try at 1. apply wp_paging_conn.
  unfold bind_try at 1. apply wp_paging_redis; [done|]. cbn [redis_apply fst snd].
  rewrite set_kv_id, Ha. cbn [read_str]. unfold account_from_json. rewrite from_to_json. cbn [map_err].
  rewrite wp_bind. eapply wp_mono; [|apply wp_paging; by apply wp_machines_of].
  intros o s0 [-> ->]. cbn [andthen or_default].
  rewrite wp_bind. eapply wp_mono; [|apply wp_paging, wp_delete_machines].
  2:{ by apply typed_index. }
  2:{ apply Forall_forall. intros mc [Hin _]%owned_in. left. unfold listed in Hl.
      destruct (read_list _) as [ns|]; [|done]. by eapply listed_from_records. }
  intros o s1 [-> Hg]. cbn [andthen].
  pose proof (machines_gone_typed _ _ _ Hg Ht) as Ht1.
  assert (codes_plain (kv s1)) as Hc1.
  { intros code Hd. apply Hc. destruct Hg as (_ & _ & _ & _ & G5 & _).
    by rewrite G5 in Hd. }
  rewrite wp_bind. unfold invites_of, bind_try at 1. apply wp_paging_conn.
  eapply wp_mono; [|by apply wp_invites_scan].
  intros o s2 (Hkv2 & Hw2 & linv & -> & J1 & J2). cbn [andthen or_default app].
  unfold bind_try at 1. rewrite wp_bind.
  eapply wp_mono; [|apply wp_paging, wp_delete_invites; by rewrite Hkv2].
  intros o s3 (-> & m2 & -> & Ht2 & K1 & K2 & K3). cbn [andthen]. rewrite Hkv2 in K2, K3.
  unfold bind_try at 1. rewrite wp_bind.
  eapply wp_mono; [|by apply wp_sessions_scan].
  intros o s4 (-> & Hw4 & Hs). cbn [andthen]. cbn in Hs.
  unfold bind_try. apply wp_paging_redis; [done|].
  assert (exists z, redis_apply (RDel (account_key email)) (kv s4)
                    = (Ok z, delete (account_key email) (kv s4))) as [z ->].
  { cbn. destruct (kv s4 !! account_key email) eqn:E; [by eexists|]. exists 0%Z.
    by rewrite delete_id by done. }
  cbn [fst snd]. split; [done|]. destruct Hw2 as (_ & _ & M2 & F2), Hw4 as (_ & _ & M4 & F4).
  cbn in M4, F4. eapply (erased_phases _ _ _ s s1 m2 (kv s4));
    [done|done|done| |exact K2| | |done|cbn; congruence|cbn; congruence].
  - intros code r Hi. eapply K1, J2; [exact Hi|]. unfold owes. cbn.
    apply elem_of_dom. destruct Hi as [Hr _]. unfold rec_at in Hr. by destruct (kv s1 !! _).
  - intros k Hk. apply K3. intros code r Hin. by apply (Hk code r), J1.
  - intros k. destruct (Hs k) as [[E1 E2]|?]; [left|by right]. split; [done|].
    intros Hsk. destruct (m2 !! k) as [v|] eqn:Ev; [|done]. rewrite <- Ev at 1.
    rewrite Ev. apply E2. split; [done|]. unfold owes. cbn. by apply elem_of_dom.
Qed.

Lemma wp_delete_unknown fuel email s :
  kv s !! account_key (norm_email email) = None ->
  wpp (account_delete fuel cp (Some fwdr) email)
    (fun o s' => o = Done (Err AccNotFound) /\ s' = s) s.
Proof.
  intros Hn. unfold account_delete. unfold bind_try at 1. apply wp_paging_conn.
  unfold bind_try at 1. apply wp_paging_redis; [done|]. cbn [redis_apply fst snd].
  by rewrite set_kv_id, Hn.
Qed.
End Account.
