(* ===== verification/InviteSafety.v ===== *)
(** The code alone grants nothing: no invite operation but the owner's approval
    (and the device token's key rotation) touches a route. *)

From stdpp Require Import base gmap strings list pretty.
From Stdlib Require Import ZArith Lia Ascii.
From S2P Require Import Prelude Prog Addr ForwarderState World Retry Forwarder Dns.
From S2P Require Import Store Crates Errors ControlPlane Allocation Account.
From S2P Require Import AccountProofs Invite InviteCodes InviteMoves.

Local Open Scope prog_scope.

Definition is_machine_key (k : string) : Prop := exists name, k = machine_key name.

#[export] Hint Extern 2 (stable _ (keeps_keys is_machine_key _) (redis _)) =>
  apply stable_keeps; [reflexivity|by intros [? ?]] : stable.

Section Safety.
Context `{CR : Crates} `{SM : Serde Machine} `{SA : Serde AccountRecord}.
Context `{SI : Serde InviteRecord} `{SD : Serde EnrollmentDelivery}.
Context (WORDS : list string) (verify : string -> string -> option bool).
Context (cp : ControlPlane) (fwd : option Forwarder) (fuel : nat).
Local Abbreviation wpe := (wp (X := EdgeSig) (edge_spec verify)) (only parsing).

Lemma quiet_list_from l : quiet verify (list_from l).
Proof. induction l as [|n l IH]; cbn [list_from]; along_walk. Qed.
Hint Resolve quiet_list_from : along.

Lemma quiet_words n : quiet verify (code_words WORDS n).
Proof. induction n as [|n IH]; cbn [code_words]; along_walk. Qed.
Hint Resolve quiet_words : along.

Lemma quiet_create_loop n email : quiet verify (invite_create_loop WORDS n email).
Proof.
  induction n as [|n IH]; cbn [invite_create_loop]; [along_walk|].
  unfold random_invite_code. along_walk.
Qed.
Hint Resolve quiet_create_loop : along.

Lemma quiet_page email l out : quiet verify (invites_page email l out).
Proof.
  revert out. induction l as [|k l IH]; intros out; cbn [invites_page]; [along_walk|].
  destruct (starts_with _ _); [apply IH|]. apply along_try; [typeclasses eauto|apply quiet_redis|].
  intros [j|]; [|apply IH]. destruct (record_from_json _ _); [|along_walk].
  case_bool_decide; apply IH.
Qed.
Hint Resolve quiet_page : along.

Lemma quiet_scan n email c out : quiet verify (invites_scan n email c out).
Proof. revert c out. induction n as [|n IH]; intros c out; cbn [invites_scan]; along_walk. Qed.
Hint Resolve quiet_scan : along.

(** The calls that need neither an approval nor a device token. *)
Definition ungated (c : invite_call) : bool :=
  match c with CallApprove _ _ _ | CallRegister _ _ => false | _ => true end.

Lemma quiet_ungated c :
  ungated c = true -> quiet verify (handle WORDS cp fwd fuel c).
Proof.
  destruct c; try done; intros _; cbn [handle];
    unfold done_, invite_create, invites_of, invite_revoke, invite_begin, invite_poll,
      invite_deny, with_code, with_record, set_record, rearm_delivery, random_token_hex,
      store_machine, list_machines; along_walk.
Qed.

Lemma frame_page (P : string -> Prop) m0 email l out :
  stable verify (keeps_keys P m0) (invites_page email l out).
Proof.
  revert out. induction l as [|k l IH]; intros out; cbn [invites_page]; [stable_walk|].
  destruct (starts_with _ _); [apply IH|]. apply stable_try; [apply stable_get|].
  intros [j|]; [|apply IH]. destruct (record_from_json _ _); [|stable_walk].
  case_bool_decide; apply IH.
Qed.
Hint Resolve frame_page : stable.

Lemma frame_scan (P : string -> Prop) m0 n email c out :
  stable verify (keeps_keys P m0) (invites_scan n email c out).
Proof. revert c out. induction n as [|n IH]; intros c out; cbn [invites_scan]; stable_walk. Qed.
Hint Resolve frame_scan : stable.

Lemma frame_words (P : string -> Prop) m0 n :
  stable verify (keeps_keys P m0) (code_words WORDS n).
Proof. induction n as [|n IH]; cbn [code_words]; stable_walk. Qed.
Hint Resolve frame_words : stable.

Lemma frame_create m0 n email :
  stable verify (keeps_keys is_machine_key m0) (invite_create_loop WORDS n email).
Proof.
  induction n as [|n IH]; cbn [invite_create_loop]; [apply stable_panic|].
  unfold random_invite_code. stable_walk.
Qed.
Hint Resolve frame_create : stable.

(** A machine that the store of [s] holds under some name. *)
Definition recorded (s : edge) (m : Machine) : Prop :=
  exists n ttl json, kv s !! machine_key n = Some (RStr json ttl) /\ from_json json = Ok m.

Lemma wp_recorded_from names s :
  wpe (list_from names)
    (fun o s' => s' = s /\
       match o with Done (Ok l) => Forall (recorded s) l | Stuck => False | _ => True end) s.
Proof.
  induction names as [|n names IH]; cbn [list_from]; [done|].
  apply wp_redis_try; [done| |].
  - intros e s' [-> | ->]; cbn; rewrite ?set_kv_id; done.
  - intros [j|] Hj; cbn in Hj |- *; rewrite set_kv_id; [|exact IH].
    unfold machine_from_json. destruct (from_json j) as [m|e] eqn:Hm; cbn; [|done].
    unfold bind_try. rewrite wp_bind. eapply wp_mono; [|exact IH].
    intros [[l|e]|msg|] s' [-> Hl]; cbn; split; try done. constructor; [|done].
    destruct (kv s !! machine_key n) as [[j' ttl| |]|] eqn:Hk; try done.
    injection Hj as ->. by exists n, ttl, j.
Qed.

Lemma wp_list_recorded s :
  wpe list_machines
    (fun o s' => s' = s /\
       match o with Done (Ok l) => Forall (recorded s) l | Stuck => False | _ => True end) s.
Proof.
  unfold list_machines. intros r s' Hs. cbn in Hs. subst s'. destruct r as [[]|e]; [|done].
  cbn [bind]. apply wp_redis_try; [done| |].
  - intros e s' [-> | ->]; cbn; rewrite ?set_kv_id; done.
  - intros names _. cbn. rewrite set_kv_id. apply wp_recorded_from.
Qed.

(** The one change of the machine records that a code and its approved key bring
    about: the record of the machine that holds that key gets the hash of a new
    token. *)
Definition rearmed (s : edge) (code pk : string) (s' : edge) : Prop :=
  exists k r m token,
    canonical_invite_code WORDS code = Some k /\ rec_at (kv s) k = Some r /\
    inv_status r = Approved /\ device_pubkey r = Some pk /\
    recorded s m /\ m_wg_public_key m = pk /\
    keeps_keys is_machine_key
      (<[machine_key (m_name m) := RStr (to_json (set_token_hash (token_hash token) m)) None]>
         (kv s)) (kv s').

Lemma wp_store_recorded m s :
  let s1 := set_kv (<[machine_key (m_name m) := RStr (to_json m) None]> (kv s)) s in
  wpe (store_machine m)
    (fun o s' =>
       match o with
       | Done (Ok _) => s' = s1
       | Done (Err _) => s' = s \/ s' = s1
       | _ => False
       end) s.
Proof.
  intros s1. unfold store_machine. intros rc s' Hs. cbn in Hs. subst s'.
  destruct rc as [[]|e]; [|by left]. cbn [bind].
  apply (wp_redis_try verify); [done|intros e s' Hs; exact Hs|by intros [] _].
Qed.

Lemma wp_rearm_records code r pk (Q : edge -> Prop) s :
  device_pubkey r = Some pk -> Q s ->
  (forall s' m token, recorded s m -> m_wg_public_key m = pk ->
     keeps_keys is_machine_key
       (<[machine_key (m_name m)
            := RStr (to_json (set_token_hash (token_hash token) m)) None]> (kv s)) (kv s') ->
     Q s') ->
  wpe (rearm_delivery code r) (fun _ s' => Q s') s.
Proof.
  intros Hpk H0 Hm. unfold rearm_delivery. rewrite Hpk. cbn [expect]. unfold bind_try at 1.
  rewrite wp_bind. eapply wp_mono; [|apply wp_list_recorded].
  intros [[l|e]|msg|] s1 [-> Hl]; cbn -[bind]; try done.
  destruct (List.find _ l) as [m|] eqn:Hf; cbn [expect]; [|done].
  apply List.find_some in Hf as [Hin Heq%bool_decide_eq_true].
  rewrite Forall_forall in Hl. specialize (Hl m (proj2 (list_elem_of_In _ _) Hin)).
  unfold random_token_hex. intros bytes s' Hd. assert (s' = s) as -> by apply Hd. cbn [bind].
  specialize (fun s' => Hm s' m (hex_encode bytes) Hl Heq).
  unfold bind_try at 1. rewrite wp_bind. eapply wp_mono; [|apply wp_store_recorded].
  intros [[[]|e]|msg|] s2; cbn -[bind]; try done;
    [intros -> | intros [-> | ->]; [exact H0|by apply Hm]].
  intros rc s' Hs. cbn in Hs. subst s'. destruct rc as [[]|e]; [|by apply Hm]. cbn [bind].
  apply (wp_redis_try verify); [done| |].
  - intros e s' [-> | ->]; apply Hm; [done|]. intros k [name ->]. cbn. by rewrite lookup_insert_ne.
  - intros [] _. apply Hm. intros k [name ->]. cbn. by rewrite lookup_insert_ne.
Qed.

(** The machine records change only when an approved machine re-arms. *)
Lemma frame_ungated c s :
  ungated c = true ->
  wpe (handle WORDS cp fwd fuel c)
    (fun _ s' => keeps_keys is_machine_key (kv s) (kv s') \/
       exists code pk, c = CallBegin code pk /\ rearmed s code pk s') s.
Proof.
  intros Hc. destruct c as [| | |code key| | | |]; try done; clear Hc.
  4:{ cbn [handle]. unfold done_. rewrite wp_bind.
      apply (wp_mono (X := EdgeSig) (edge_spec verify) (invite_begin WORDS code key)
               (fun _ s' => keeps_keys is_machine_key (kv s) (kv s') \/ rearmed s code key s'));
        [intros [a|m|] s'; cbn; intros [H|H]; eauto|].
      unfold invite_begin, with_code.
      destruct (canonical_invite_code WORDS code) as [c|] eqn:Hcan; [|by left].
      destruct (validate_wg_pubkey key); [|by left].
      apply wp_with_record; [by left|]. intros r Hr.
      destruct (inv_status r) eqn:Hst; try by left.
      3:{ case_bool_decide as Hpk; [|by left]. unfold bind_try. rewrite wp_bind.
          eapply wp_mono; [|apply (wp_rearm_records c r key
            (fun s' => keeps_keys is_machine_key (kv s) (kv s') \/ rearmed s code key s'));
            [done|by left|]].
          - by intros [[a0|e]|m|] s'.
          - intros s' m tok Hm Hk Hs. right. by exists c, r, m, tok. }
      all: eapply wp_mono; [|apply (wp_keeps verify is_machine_key)]; [by left|];
        intros m0; unfold set_record; stable_walk. }
  all: apply (wp_mono (X := EdgeSig) (edge_spec verify) _ (fun _ s' => keeps_keys is_machine_key (kv s) (kv s')));
    [by intros o s'; left|].
  all: apply wp_keeps; intros m0; cbn [handle]; unfold done_; apply stable_bind;
    [|intros; apply stable_ret];
    unfold invite_create, invites_of, invite_revoke, invite_poll, invite_deny,
      with_code, with_record, set_record; stable_walk.
Qed.
End Safety.
