(* ===== verification/Box.v ===== *)
(** The world of the customer's box: files, environment, HTTP requests, commands,
    the clock, the dashboard's database and the state of a claim. *)

From stdpp Require Import base gmap strings list pretty.
From Stdlib Require Import ZArith Ascii.
From S2P Require Import Prelude Prog World Wg.

Local Open Scope prog_scope.

(** [serde_json::Value]. *)
Inductive Json :=
| JNull
| JBool (b : bool)
| JNum (z : Z)
| JStr (s : string)
| JArr (l : list Json)
| JObj (l : list (string * Json)).

(** [Value::get] by name, [Value::as_str]. *)
Fixpoint jfind (name : string) (l : list (string * Json)) : option Json :=
  match l with
  | [] => None
  | (k, v) :: l' => if bool_decide (k = name) then Some v else jfind name l'
  end.
Definition jget (name : string) (j : Json) : option Json :=
  match j with JObj l => jfind name l | _ => None end.
Definition as_string (j : Json) : option string :=
  match j with JStr s => Some s | _ => None end.
Definition jstr (name : string) (j : Json) : option string := jget name j ≫= as_string.

(** An HTTP response: its status and its text (or the error reading it). *)
Record HttpResponse := MkHttp { http_status : Z; http_text : Result string string }.

(** A row of the table [sessions]: the token is its key, times are text. *)
Record SessionRow := MkSessionRow {
  row_user_id : string;
  row_created_at : string;
  row_expires_at : string;
}.

(** The claim's state, behind the dashboard's mutex. *)
Inductive ClaimState := Unclaimed | Awaiting | ClaimFailed (message : string).

#[export] Instance ClaimState_eq_dec : EqDecision ClaimState.
Proof. solve_decision. Defined.

Inductive box_op :=
| ReadFile (path : string)
| CreateDirAll (path : string)
| WriteFile (path data : string)             (** create, truncate, write *)
| CreateNew (path : string)                  (** [create_new]: the file must not exist *)
| AppendFile (path data : string)            (** write on the handle just opened *)
| HttpGet (url : string)
| HttpPost (url : string) (body : Json)
| Exec (prog : string) (args : list string)
| ReExec (argv0 : string) (rest : list string)  (** [CommandExt::exec]: returns only when it failed *)
| BoxRng (n : nat)
| Sleep (d : Z)
| PathExists (path : string)
| RenameFile (from to : string)
| BoxUuid
| EnvVar (name : string)
| BoxNow                                     (** [Utc::now] *)
| DbOpen                                     (** [Db::open], the schema included *)
| DbInsertSession (token : string) (row : SessionRow)
| DbSelectSession (token : string)
| DbDeleteSession (token : string)           (** the number of rows deleted *)
| DbSelectKv (key : string)
| DbUpsertKv (key value at_ : string)
| ClaimGet
| ClaimSet (c : ClaimState)
| SpawnClaim (url : string).                 (** start the claim task *)

(** What a command wrote to standard output, besides its [Output]. *)
Record Finished := MkFinished { fin_output : Output; fin_stdout : string }.

Definition box_ret (o : box_op) : Type :=
  match o with
  | ReadFile _ => Result string IoError
  | CreateDirAll _ | WriteFile _ _ | CreateNew _ | AppendFile _ _ => Result unit IoError
  | HttpGet _ | HttpPost _ _ => Result HttpResponse string
  | Exec _ _ => Result Finished IoError
  | ReExec _ _ => IoError
  | BoxRng _ => list Z
  | Sleep _ => unit
  | PathExists _ => bool
  | RenameFile _ _ => Result unit IoError
  | BoxUuid => string
  | EnvVar _ => option string
  | BoxNow => Z
  | DbOpen => Result unit string
  | DbInsertSession _ _ => Result Z string
  | DbSelectSession _ => Result (option SessionRow) string
  | DbDeleteSession _ => Result Z string
  | DbSelectKv _ => Result (option string) string
  | DbUpsertKv _ _ _ => Result unit string
  | ClaimGet => ClaimState
  | ClaimSet _ | SpawnClaim _ => unit
  end.

Definition BoxSig : Sig := MkSig box_op box_ret.

Inductive http_call := Got (url : string) | Posted (url : string) (body : Json).

Record box := MkBox {
  files : gmap string string;
  http_log : list http_call;
  exec_log : list (string * list string);
  env_vars : gmap string string;
  clock : Z;                                 (** the last time read *)
  sessions : gmap string SessionRow;
  kv_rows : gmap string (string * string);   (** value, updated_at *)
  claim_state : ClaimState;
  spawned : list string;                     (** the claim tasks started *)
}.

(** A box that has done nothing yet. *)
Definition box_with (f : gmap string string) : box := MkBox f [] [] ∅ 0 ∅ ∅ Unclaimed [].

Definition set_files (f : gmap string string) (b : box) : box :=
  MkBox f (http_log b) (exec_log b) (env_vars b) (clock b) (sessions b) (kv_rows b)
    (claim_state b) (spawned b).
Definition log_http (c : http_call) (b : box) : box :=
  MkBox (files b) (http_log b ++ [c]) (exec_log b) (env_vars b) (clock b) (sessions b)
    (kv_rows b) (claim_state b) (spawned b).
Definition log_exec (c : string * list string) (b : box) : box :=
  MkBox (files b) (http_log b) (exec_log b ++ [c]) (env_vars b) (clock b) (sessions b)
    (kv_rows b) (claim_state b) (spawned b).
Definition set_clock (t : Z) (b : box) : box :=
  MkBox (files b) (http_log b) (exec_log b) (env_vars b) t (sessions b) (kv_rows b)
    (claim_state b) (spawned b).
Definition set_sessions (m : gmap string SessionRow) (b : box) : box :=
  MkBox (files b) (http_log b) (exec_log b) (env_vars b) (clock b) m (kv_rows b)
    (claim_state b) (spawned b).
Definition set_kv_rows (m : gmap string (string * string)) (b : box) : box :=
  MkBox (files b) (http_log b) (exec_log b) (env_vars b) (clock b) (sessions b) m
    (claim_state b) (spawned b).
Definition set_claim (c : ClaimState) (b : box) : box :=
  MkBox (files b) (http_log b) (exec_log b) (env_vars b) (clock b) (sessions b) (kv_rows b)
    c (spawned b).
Definition log_spawn (url : string) (b : box) : box :=
  MkBox (files b) (http_log b) (exec_log b) (env_vars b) (clock b) (sessions b) (kv_rows b)
    (claim_state b) (spawned b ++ [url]).

(** The characters of a UUID's text. *)
Definition uuid_char (c : ascii) : bool :=
  is_ascii_digit c || ch_between "a" "f" c || Ascii.eqb c "-".

(** What the operating system and the network may answer.  A failed write may
    leave anything in its file, a failed rename or statement changes nothing; the
    network may answer anything. *)
Definition box_spec (o : box_op) (s : box) : box_ret o -> box -> Prop :=
  match o with
  | ReadFile p => fun r s' =>
      s' = s /\ match r with Ok t => files s !! p = Some t | Err _ => True end
  | CreateDirAll _ => fun r s' => s' = s
  | WriteFile p d => fun r s' =>
      match r with
      | Ok _ => s' = set_files (<[p := d]> (files s)) s
      | Err _ => exists t, s' = set_files (partial_alter (fun _ => t) p (files s)) s
      end
  | CreateNew p => fun r s' =>
      match r with
      | Ok _ => files s !! p = None /\ s' = set_files (<[p := ""%string]> (files s)) s
      | Err e => s' = s /\ (io_kind e = AlreadyExists -> is_Some (files s !! p))
      end
  | AppendFile p d => fun r s' =>
      match r with
      | Ok _ => s' = set_files (<[p := (default "" (files s !! p) ++ d)%string]> (files s)) s
      | Err _ => exists t, s' = set_files (partial_alter (fun _ => t) p (files s)) s
      end
  | HttpGet u => fun r s' => s' = log_http (Got u) s
  | HttpPost u b => fun r s' => s' = log_http (Posted u b) s
  | Exec p a => fun r s' => s' = log_exec (p, a) s
  | ReExec _ _ => fun r s' => s' = s
  | BoxRng n => fun r s' => s' = s /\ length r = n /\ forallb (fun b => (0 <=? b)%Z && (b <? 256)%Z) r = true
  | Sleep _ => fun r s' => s' = s
  | PathExists p => fun r s' => s' = s /\ (r = true -> is_Some (files s !! p))
  | RenameFile p q => fun r s' =>
      match r with
      | Ok _ => exists d, files s !! p = Some d /\
                          s' = set_files (<[q := d]> (delete p (files s))) s
      | Err _ => s' = s
      end
  | BoxUuid => fun r s' => s' = s /\ r <> ""%string /\ str_forallb uuid_char r = true
  | EnvVar n => fun r s' => s' = s /\ r = env_vars s !! n
  | BoxNow => fun r s' => s' = set_clock r s
  | DbOpen => fun r s' => s' = s
  | DbInsertSession t row => fun r s' =>
      match r with
      | Ok n => n = 1%Z /\ sessions s !! t = None /\ s' = set_sessions (<[t := row]> (sessions s)) s
      | Err _ => s' = s
      end
  | DbSelectSession t => fun r s' =>
      s' = s /\ match r with Ok row => row = sessions s !! t | Err _ => True end
  | DbDeleteSession t => fun r s' =>
      match r with
      | Ok n => n = (if decide (is_Some (sessions s !! t)) then 1 else 0)%Z /\
                s' = set_sessions (delete t (sessions s)) s
      | Err _ => s' = s
      end
  | DbSelectKv k => fun r s' =>
      s' = s /\ match r with Ok v => v = fst <$> (kv_rows s !! k) | Err _ => True end
  | DbUpsertKv k v t => fun r s' =>
      match r with
      | Ok _ => s' = set_kv_rows (<[k := (v, t)]> (kv_rows s)) s
      | Err _ => s' = s
      end
  | ClaimGet => fun r s' => s' = s /\ r = claim_state s
  | ClaimSet c => fun r s' => s' = set_claim c s
  | SpawnClaim u => fun r s' => s' = log_spawn u s
  end.
