(* ===== verification/Health.v ===== *)
(** The health endpoints and the log format (crates/core/src/health.rs,
    crates/core/src/logger.rs), and the JSON of the forwarder's status. *)

From stdpp Require Import base gmap strings list pretty.
From Stdlib Require Import ZArith Ascii.
From S2P Require Import Prelude Prog Addr ForwarderState World Box.

(** ** The status *)

(** serde's JSON of chrono's times and of floating point numbers, and
    [serde_json::to_string_pretty]. *)
Class StatusText := {
  time_json : Z -> Json;
  seconds_json : Z -> Json;                    (** milliseconds, as seconds *)
  to_string_pretty : Json -> string;
}.

Section Health.
Context `{ST : StatusText}.

(** [skip_serializing_if = "Option::is_none"]. *)
Definition optional_field (name : string) (o : option Json) : list (string * Json) :=
  match o with Some j => [(name, j)] | None => [] end.

Definition forward_stat_json (r : ForwardStat) : Json :=
  JObj ([("proto"%string, JStr (as_str (st_proto r)));
         ("listen_addr"%string, JStr (st_listen_addr r));
         ("dest_addr"%string, JStr (st_dest_addr r));
         ("bound"%string, JBool (bound r))]
        ++ optional_field "bound_at" (time_json <$> bound_at r)
        ++ optional_field "last_error" (JStr <$> last_error r)).

Definition stats_json (s : Stats) : Json :=
  JObj [("component"%string, JStr (stats_component s));
        ("started_at"%string, time_json (started_at s));
        ("uptime_seconds"%string, seconds_json (uptime_ms s));
        ("forwards"%string, JArr (map forward_stat_json (stats_forwards s)));
        ("tcp_connections"%string, JNum (stats_tcp s));
        ("udp_flows"%string, JNum (stats_udp s))].

(** What the box answers while it has no forwarder. *)
Definition claimable_status : Json := JObj [("status"%string, JStr "claimable")].

(** ** The endpoints *)

Definition as_array (j : Json) : option (list Json) :=
  match j with JArr l => Some l | _ => None end.
Definition as_bool (j : Json) : option bool :=
  match j with JBool b => Some b | _ => None end.

Definition ready_from_status (status : Json) : bool :=
  match jget "forwards" status ≫= as_array with
  | Some forwards =>
      existsb (fun f => bool_decide ((jget "bound" f ≫= as_bool) = Some true)) forwards
  | None => false
  end.

(** Status code and body. *)
Definition healthz : Z * string := (200%Z, String.append "ok" (String nl "")).

Inductive ReadyResponse := Ready (ready : bool) | NotReady (ready : bool).

Definition ready_status (r : ReadyResponse) : Z :=
  match r with Ready _ => 200 | NotReady _ => 503 end.

Definition readyz (status : Json) : ReadyResponse :=
  if ready_from_status status then Ready true else NotReady false.

Definition status_page (status : Json) : Z * string :=
  (200%Z, String.append (to_string_pretty status) (String nl "")).

(** ** The server *)

Inductive HealthError :=
| HealthBind (addr : string) (e : IoError)
| HealthServe (e : IoError).

Definition health_error_display (e : HealthError) : string :=
  match e with
  | HealthBind addr e => "health: listen " ++ addr ++ ": " ++ io_text e
  | HealthServe e => "health: serve: " ++ io_text e
  end.

(** [HealthServer::run], for what binding and serving until the shutdown
    answered. *)
Definition health_run (addr : string) (bind_ serve : Result unit IoError)
    : Result unit HealthError :=
  if is_empty addr then Ok tt
  else match bind_ with
       | Err e => Err (HealthBind addr e)
       | Ok _ => map_err HealthServe serve
       end.
End Health.

(** ** The log format *)

Inductive Format := FmtText | FmtJson.

#[export] Instance Format_eq_dec : EqDecision Format.
Proof. solve_decision. Defined.

Inductive LoggerError := UnknownFormat (s : string).

(** [str]'s [Debug] on ASCII: quotes, escapes. *)
Definition debug_char (c : ascii) : string :=
  if Ascii.eqb c dquote then String "\" (String dquote "")
  else if Ascii.eqb c "\" then "\\"
  else if Ascii.eqb c nl then "\n"
  else if Ascii.eqb c cr then "\r"
  else if Ascii.eqb c tab then "\t"
  else if Ascii.eqb c "000" then "\0"
  else
    let n := Z.of_N (N_of_ascii c) in
    if (n <? 16)%Z then "\u{" ++ String (hex_digit n) "}"
    else if (n <? 32)%Z || (n =? 127)%Z
    then "\u{" ++ String (hex_digit (n / 16)) (String (hex_digit (n mod 16)) "}")
    else String c "".
Fixpoint debug_chars (s : string) : string :=
  match s with EmptyString => "" | String c s' => debug_char c ++ debug_chars s' end.
Definition debug_str (s : string) : string :=
  String dquote (debug_chars s ++ String dquote "").

Definition logger_error_display (e : LoggerError) : string :=
  match e with
  | UnknownFormat s =>
      "logger: unknown format " ++ debug_str s ++ " (want " ++ debug_str "text" ++ " or "
        ++ debug_str "json" ++ ")"
  end.

(** [Format::parse]. *)
Definition format_parse (s : string) : Result Format LoggerError :=
  if bool_decide (s = "text"%string) then Ok FmtText
  else if bool_decide (s = "json"%string) then Ok FmtJson
  else Err (UnknownFormat s).

(** The filters of the tracing crate: [EnvFilter]'s parser, and [EnvFilter::new]. *)
Class EnvFilters := {
  EnvFilter : Type;
  filter_parse : string -> Result EnvFilter string;
  filter_new : string -> EnvFilter;
}.

(** The global subscriber: its format and its filter.  What it writes goes to
    standard error, without targets and colours. *)
Record Subscriber `{EF : EnvFilters} := MkSubscriber { sub_format : Format; sub_filter : EnvFilter }.

(** [init], for the variable [RUST_LOG] and the subscriber that is installed;
    [try_init] keeps the first one, and its error is dropped. *)
Definition logger_init `{EF : EnvFilters} (rust_log : option string) (format : Format)
    (installed : option Subscriber) : option Subscriber :=
  let filter :=
    match rust_log with
    | Some text => match filter_parse text with Ok f => f | Err _ => filter_new "info" end
    | None => filter_new "info"
    end in
  match installed with
  | Some first => Some first
  | None => Some (MkSubscriber _ format filter)
  end.

(** Logging is set up once: the first call decides, whatever the later ones ask for. *)
Lemma logger_init_once `{EF : EnvFilters} rust_log rust_log' format format' installed :
  logger_init rust_log' format' (logger_init rust_log format installed)
  = logger_init rust_log format installed.
Proof. unfold logger_init. by destruct installed. Qed.

(** ** Readiness of a live forwarder *)

Lemma bound_of_stat `{ST : StatusText} r :
  jget "bound" (forward_stat_json r) ≫= as_bool = Some (bound r).
Proof. done. Qed.

Lemma ready_stats `{ST : StatusText} s :
  ready_from_status (stats_json s) = true <->
  exists r, r ∈ stats_forwards s /\ bound r = true.
Proof.
  change (ready_from_status (stats_json s)) with
    (existsb (fun f => bool_decide ((jget "bound" f ≫= as_bool) = Some true))
       (map forward_stat_json (stats_forwards s))).
  rewrite existsb_exists. setoid_rewrite in_map_iff. split.
  - intros (j & (r & <- & Hr) & Hb). rewrite bound_of_stat in Hb.
    apply bool_decide_eq_true_1 in Hb. exists r. rewrite list_elem_of_In. by injection Hb.
  - intros (r & Hr & Hb). exists (forward_stat_json r). split.
    + exists r. by rewrite <- list_elem_of_In.
    + rewrite bound_of_stat, Hb. by apply bool_decide_eq_true_2.
Qed.

Lemma ready_snapshot `{ST : StatusText} comp started now (st : FState) :
  ready_from_status (stats_json (snapshot comp started now st)) = true <->
  exists key r, forwards st !! key = Some r /\ bound r = true.
Proof.
  rewrite ready_stats. cbn [stats_forwards snapshot]. split.
  - intros (r & Hr & Hb). apply list_elem_of_fmap in Hr as ([k r'] & -> & Hk).
    apply elem_of_map_to_list in Hk. by exists k, r'.
  - intros (k & r & Hk & Hb). exists r. split; [|done]. apply list_elem_of_fmap.
    exists (k, r). split; [done|]. by apply elem_of_map_to_list.
Qed.
