(* ===== verification/Tunnel.v ===== *)
(** The box's WireGuard key and interface (crates/core/src/wg.rs,
    crates/client/src/tunnel.rs). *)

From stdpp Require Import base gmap strings list pretty.
From Stdlib Require Import ZArith Lia Ascii.
From S2P Require Import Prelude Prog World Wg Crates Box.

Local Open Scope prog_scope.

Section Keys.
Context `{CR : Crates}.

(** [derive_public_key]; its one error is [WgKeyError::Invalid]. *)
Definition derive_public_key (private_key : string) : option string :=
  bytes ← b64_decode private_key;
  if Nat.eqb (length bytes) 32 then Some (b64_encode (x25519_public bytes)) else None.

(** [generate_keypair]: (public, private). *)
Definition generate_keypair : prog BoxSig (string * string) :=
  secret <- @call BoxSig (BoxRng 32) ;;
  Ret (b64_encode (x25519_public secret), b64_encode secret).
End Keys.

Definition DEFAULT_IFACE : string := "wg0".
Definition DEFAULT_PREFIX : Z := 24.
Definition default_iface : string := DEFAULT_IFACE.
Definition default_prefix : Z := DEFAULT_PREFIX.

Record TunnelConfig := MkTunnel {
  tun_iface : string;
  tun_ip : string;
  tun_prefix : Z;
  edge_pubkey : string;
  edge_endpoint : string;
  edge_allowed_ips : string;
  tun_listen_port : Z;
}.

Inductive TunnelError :=
| TunIo (e : IoError)
| TunKey
| TunCommand (cmd stderr : string).

Definition tunnel_error_display (e : TunnelError) : string :=
  match e with
  | TunIo e => "keypair persistence failed: " ++ io_text e
  | TunKey => "invalid persisted key: not a valid wireguard key (expected 32 bytes of base64)"
  | TunCommand cmd stderr => "command failed (" ++ cmd ++ "): " ++ stderr
  end.

Section Tunnel.
Context `{CR : Crates}.

Definition key_result (o : option string) : Result string TunnelError := ok_or o TunKey.

(** The fresh key: open exclusively, write the key and a newline; when the file
    exists after all, use what it holds. *)
Definition persist_new_key (path : string) : prog BoxSig (Result string TunnelError) :=
  pair <- generate_keypair ;;
  let '(pubkey, privkey) := pair in
  opened <- @call BoxSig (CreateNew path) ;;
  match opened with
  | Ok _ =>
      _k <-? @call BoxSig (AppendFile path privkey) as TunIo ;;
      _n <-? @call BoxSig (AppendFile path (String nl "")) as TunIo ;;
      Ret (Ok pubkey)
  | Err err =>
      match io_kind err with
      | AlreadyExists =>
          text <-? @call BoxSig (ReadFile path) as TunIo ;;
          Ret (key_result (derive_public_key (trim text)))
      | _ => Ret (Err (TunIo err))
      end
  end.

Definition ensure_keypair (path : string) : prog BoxSig (Result string TunnelError) :=
  r <- @call BoxSig (ReadFile path) ;;
  match r with
  | Ok text =>
      let key := trim text in
      if negb (is_empty key) then Ret (key_result (derive_public_key key))
      else persist_new_key path
  | Err _ => persist_new_key path
  end.

(** [run]: one external command. *)
Definition run_command (prog_ : string) (args : list string)
    : prog BoxSig (Result unit TunnelError) :=
  out <-? @call BoxSig (Exec prog_ args) as TunIo ;;
  if status_success (fin_output out) then Ret (Ok tt)
  else Ret (Err (TunCommand (prog_ ++ " " ++ join " " args) (output_stderr (fin_output out)))).

Definition link_exists (iface : string) : prog BoxSig bool :=
  r <- @call BoxSig (Exec "ip" ["link"; "show"; iface]) ;;
  Ret (match r with Ok o => status_success (fin_output o) | Err _ => false end).

(** [split_whitespace]: the non-empty pieces. *)
Definition split_whitespace (s : string) : list string :=
  List.filter (fun w => negb (is_empty w)) (split_on is_whitespace s).

Definition is_slash (c : ascii) : bool := Ascii.eqb c "/".

Definition addr_token_matches (text ip : string) : bool :=
  existsb (fun token => bool_decide (List.hd_error (split_on is_slash token) = Some ip))
    (split_whitespace text).

Definition addr_present (iface ip : string) : prog BoxSig bool :=
  r <- @call BoxSig (Exec "ip" ["addr"; "show"; "dev"; iface]) ;;
  Ret (match r with Ok o => addr_token_matches (fin_stdout o) ip | Err _ => false end).

(** The command that is skipped when it is not needed. *)
Definition run_unless (skip : bool) (prog_ : string) (args : list string)
    : prog BoxSig (Result unit TunnelError) :=
  if skip then Ret (Ok tt) else run_command prog_ args.

Definition bring_up_wg0 (cfg : TunnelConfig) (key_path : string)
    : prog BoxSig (Result unit TunnelError) :=
  exists_ <- link_exists (tun_iface cfg) ;;
  _l <-? run_unless exists_ "ip" ["link"; "add"; tun_iface cfg; "type"; "wireguard"] as (fun e => e) ;;
  _k <-? run_command "wg" ["set"; tun_iface cfg; "listen-port"; pretty (tun_listen_port cfg);
                           "private-key"; key_path] as (fun e => e) ;;
  _p <-? run_command "wg" ["set"; tun_iface cfg; "peer"; edge_pubkey cfg; "allowed-ips";
                           edge_allowed_ips cfg; "endpoint"; edge_endpoint cfg;
                           "persistent-keepalive"; "25"] as (fun e => e) ;;
  present <- addr_present (tun_iface cfg) (tun_ip cfg) ;;
  _a <-? run_unless present "ip" ["addr"; "add"; (tun_ip cfg ++ "/" ++ pretty (tun_prefix cfg))%string;
                                  "dev"; tun_iface cfg] as (fun e => e) ;;
  _u <-? run_command "ip" ["link"; "set"; tun_iface cfg; "up"] as (fun e => e) ;;
  Ret (Ok tt).
End Tunnel.
