(* ===== verification/Enroll.v ===== *)
(** Enrollment from the box's side (crates/client/src/pairing.rs): the invite
    URL, the edge client, the enrollment loop and what it persists, and the
    tunnel address in forwards. *)

From stdpp Require Import base gmap strings list pretty.
From Stdlib Require Import ZArith Lia Ascii.
From S2P Require Import Prelude Prog ForwarderState World Wg Crates Box Tunnel.

Local Open Scope prog_scope.

Definition tunnel_state_path : string := "/var/lib/fortress/tunnel.json".
Definition device_token_path : string := "/var/lib/fortress/device-token".

Record InviteConfig := MkInviteConfig {
  invite_url : string;
  ic_iface : string;
  ic_prefix : Z;
  ic_listen_port : Z;
}.

Inductive EnrollError :=
| EnrInviteUrl (url : string)
| EnrApi (what : string)
| EnrDenied
| EnrTimedOut (polls : Z)
| EnrIo (e : IoError)
| EnrNoTunnelIp.

Definition or_else {A} (o o' : option A) : option A :=
  match o with Some a => Some a | None => o' end.

(** The edge's base and the code of an invite URL. *)
Definition parse_invite_url (url : string) : Result (string * string) EnrollError :=
  match or_else (strip_prefix "https://" url) (strip_prefix "http://" url) with
  | None => Err (EnrInviteUrl url)
  | Some rest =>
      match split_once "/" rest with
      | None => Err (EnrInviteUrl url)
      | Some (base, path) =>
          match strip_prefix "i/" path with
          | None => Err (EnrInviteUrl url)
          | Some code =>
              if is_empty base || is_empty code || contains_char "/" code
              then Err (EnrInviteUrl url)
              else Ok (("https://" ++ base)%string, code)
          end
      end
  end.

Definition invite_config_parse (cfg : InviteConfig) : Result (string * string) EnrollError :=
  parse_invite_url (invite_url cfg).

Definition from_url (url : string) : Result InviteConfig EnrollError :=
  match parse_invite_url url with
  | Err e => Err e
  | Ok _ => Ok (MkInviteConfig url default_iface default_prefix 0)
  end.

Definition edge_base (url : string) : Result string EnrollError :=
  match parse_invite_url url with Ok (base, _) => Ok base | Err e => Err e end.

Record EdgeInfo := MkEdgeInfo {
  ei_public_key : string;
  ei_endpoint : string;
  ei_allowed_ips : string;
}.

(** The poll's answer, as the box sees it. *)
Record BoxPoll := MkBoxPoll {
  bp_status : string;
  bp_wg_ip : option string;
  bp_hostname : option string;
  bp_device_token : option string;
}.

Definition poll_outcome (value : Json) : BoxPoll :=
  MkBoxPoll
    (default ""%string (jstr "status" value))
    (jget "machine" value ≫= jstr "wg_ip")
    (jget "machine" value ≫= jstr "hostname")
    (jstr "deviceToken" value).

(** ** The edge client *)

(** [trait EdgeClient]. *)
Record EdgeClient := MkEdgeClient {
  ec_begin : string -> string -> prog BoxSig (Result BoxPoll EnrollError);
  ec_poll : string -> prog BoxSig (Result BoxPoll EnrollError);
  ec_edge_info : prog BoxSig (Result EdgeInfo EnrollError);
  ec_rotate : string -> string -> prog BoxSig (Result unit EnrollError);
}.

(** [serde_json::from_str] into a [Value], and the [Display] of
    [http::StatusCode]. *)
Class JsonText := {
  json_parse : string -> Result Json string;
  status_display : Z -> string;
}.

Definition is_success (status : Z) : bool := (200 <=? status)%Z && (status <? 300)%Z.

Module HttpEdgeClient.
Section HttpClient.
Context `{JT : JsonText} (base : string).

Definition response_json (url : string) (r : Result HttpResponse string)
    : Result Json EnrollError :=
  let api e := EnrApi (url ++ ": " ++ e) in
  match r with
  | Err err => Err (api err)
  | Ok resp =>
      match http_text resp with
      | Err err => Err (api err)
      | Ok text =>
          if negb (is_success (http_status resp))
          then Err (api (status_display (http_status resp) ++ " " ++ text)%string)
          else map_err api (json_parse text)
      end
  end.

Definition post_json (path : string) (body : Json) : prog BoxSig (Result Json EnrollError) :=
  let url := (base ++ path)%string in
  r <- @call BoxSig (HttpPost url body) ;;
  Ret (response_json url r).

Definition get_json (path : string) : prog BoxSig (Result Json EnrollError) :=
  let url := (base ++ path)%string in
  r <- @call BoxSig (HttpGet url) ;;
  Ret (response_json url r).

Definition begin (code public_key : string) : prog BoxSig (Result BoxPoll EnrollError) :=
  v <-? post_json ("/api/invites/" ++ code ++ "/begin") (JObj [("public_key"%string, JStr public_key)])
    as (fun e => e) ;;
  Ret (Ok (poll_outcome v)).

Definition poll (code : string) : prog BoxSig (Result BoxPoll EnrollError) :=
  v <-? get_json ("/api/invites/" ++ code ++ "/poll") as (fun e => e) ;;
  Ret (Ok (poll_outcome v)).

Definition edge_info : prog BoxSig (Result EdgeInfo EnrollError) :=
  value <-? get_json "/api/wireguard/info" as (fun e => e) ;;
  Ret (match jstr "public_key" value, jstr "endpoint" value, jstr "allowed_ips" value with
       | Some public_key, Some endpoint, Some allowed_ips =>
           Ok (MkEdgeInfo public_key endpoint allowed_ips)
       | _, _, _ =>
           Err (EnrApi "tunnel info response must carry public_key, endpoint and allowed_ips")
       end).

Definition rotate (device_token public_key : string) : prog BoxSig (Result unit EnrollError) :=
  let url := (base ++ "/api/device/register")%string in
  r <- @call BoxSig (HttpPost url (JObj [("device_token"%string, JStr device_token);
                                          ("public_key"%string, JStr public_key)])) ;;
  Ret (match r with
       | Err err => Err (EnrApi (url ++ ": " ++ err))
       | Ok resp =>
           if is_success (http_status resp) then Ok tt
           else Err (EnrApi (url ++ ": " ++ status_display (http_status resp) ++ " "
                               ++ match http_text resp with
                                  | Ok text => text
                                  | Err _ => "unreadable body"
                                  end))
       end).

Definition client : EdgeClient := MkEdgeClient begin poll edge_info rotate.
End HttpClient.

Definition new `{JT : JsonText} (url : string) : Result EdgeClient EnrollError :=
  match parse_invite_url url with
  | Err e => Err e
  | Ok (base, _) => Ok (client base)
  end.
End HttpEdgeClient.

(** ** Persisted state *)

Record PersistedTunnel := MkPersisted { pt_tunnel : TunnelConfig; pt_hostname : string }.

(** [Path::parent]: nothing above the root or the empty path; slashes at the end
    of the path, and of what is left of it, do not count. *)
Definition trim_slashes : string -> string := trim_end_matches (Ascii.eqb "/").

Definition parent (path : string) : option string :=
  let body := trim_slashes path in
  if is_empty body then None
  else match rsplit_once "/" body with
       | Some (dir, _) => let dir := trim_slashes dir in Some (if is_empty dir then "/"%string else dir)
       | None => Some ""%string
       end.

Definition create_parent (path : string) : prog BoxSig (Result unit IoError) :=
  match parent path with
  | Some dir => @call BoxSig (CreateDirAll dir)
  | None => Ret (Ok tt)
  end.

Section Enroll.
Context `{CR : Crates} `{SP : Serde PersistedTunnel}.

Definition persist_tunnel_state (path : string) (tunnel : TunnelConfig) (hostname : string)
    : prog BoxSig (Result unit EnrollError) :=
  assert_ (negb (is_empty hostname)) "an approved machine always has a hostname" (
  _d <-? create_parent path as EnrIo ;;
  _w <-? @call BoxSig (WriteFile path (to_json (MkPersisted tunnel hostname))) as EnrIo ;;
  Ret (Ok tt)).

Definition persist_device_token (path token : string) : prog BoxSig (Result unit EnrollError) :=
  assert_ (negb (is_empty token)) "device token must be non-empty" (
  _d <-? create_parent path as EnrIo ;;
  _w <-? @call BoxSig (WriteFile path token) as EnrIo ;;
  Ret (Ok tt)).

Definition persisted_tunnel_state (path : string) : prog BoxSig (option PersistedTunnel) :=
  r <- @call BoxSig (ReadFile path) ;;
  Ret (match r with
       | Ok text => match from_json text with Ok p => Some p | Err _ => None end
       | Err _ => None
       end).

Definition persisted_device_token (path : string) : prog BoxSig (option string) :=
  r <- @call BoxSig (ReadFile path) ;;
  Ret (match r with
       | Ok text => let t := trim text in if is_empty t then None else Some t
       | Err _ => None
       end).

(** ** Enrollment *)

(** The poll loop, on the number of polls still allowed after this one: the
    [checked_sub] of the last one is the timeout, which reports what is left,
    zero. *)
Fixpoint poll_loop (client : EdgeClient) (code : string) (interval : Z) (max_polls : nat)
    : prog BoxSig (Result BoxPoll EnrollError) :=
  poll <-? ec_poll client code as (fun e => e) ;;
  if bool_decide (bp_status poll = "approved"%string) then Ret (Ok poll)
  else if bool_decide (bp_status poll = "waiting"%string) then
    match max_polls with
    | O => Ret (Err (EnrTimedOut 0))
    | S n => @call BoxSig (Sleep interval) ;;; poll_loop client code interval n
    end
  else if bool_decide (bp_status poll = "denied"%string) then Ret (Err EnrDenied)
  else Ret (Err (EnrApi ("unknown poll status: " ++ bp_status poll))).

Definition or_missing {A} (o : option string) (what : string)
    (k : string -> prog BoxSig (Result A EnrollError)) : prog BoxSig (Result A EnrollError) :=
  match o with
  | Some v => k v
  | None => Ret (Err (EnrApi ("approved payload missing " ++ what)))
  end.

Definition enroll (client : EdgeClient) (cfg : InviteConfig)
    (key_path state_path token_path : string) (interval : Z) (max_polls : nat)
    : prog BoxSig (Result TunnelConfig EnrollError) :=
  match invite_config_parse cfg with
  | Err e => Ret (Err e)
  | Ok (_base, code) =>
      pubkey <-? ensure_keypair key_path as
        (fun err => EnrApi ("keypair: " ++ tunnel_error_display err)) ;;
      begun <-? ec_begin client code pubkey as (fun e => e) ;;
      if bool_decide (bp_status begun = "denied"%string) then Ret (Err EnrDenied)
      else
        approved <-? poll_loop client code interval max_polls as (fun e => e) ;;
        or_missing (bp_wg_ip approved) "wg_ip" (fun wg_ip =>
        or_missing (bp_hostname approved) "hostname" (fun hostname =>
        or_missing (bp_device_token approved) "device token" (fun device_token =>
          info <-? ec_edge_info client as (fun e => e) ;;
          let tunnel := MkTunnel (ic_iface cfg) wg_ip (ic_prefix cfg) (ei_public_key info)
                          (ei_endpoint info) (ei_allowed_ips info) (ic_listen_port cfg) in
          _s <-? persist_tunnel_state state_path tunnel hostname as (fun e => e) ;;
          _t <-? persist_device_token token_path device_token as (fun e => e) ;;
          Ret (Ok tunnel))))
  end.

Definition rotate (client : EdgeClient) (token_path key_path : string)
    : prog BoxSig (Result unit EnrollError) :=
  token <- persisted_device_token token_path ;;
  match token with
  | None => Ret (Err (EnrApi "no persisted device token"))
  | Some token =>
      pubkey <-? ensure_keypair key_path as
        (fun err => EnrApi ("keypair: " ++ tunnel_error_display err)) ;;
      ec_rotate client token pubkey
  end.
End Enroll.

(** ** The tunnel address in forwards *)

Definition TUNNEL_IP : string := "{tunnel_ip}".

Definition forward_needs_tunnel (f : Forward) : bool :=
  contains_str TUNNEL_IP (dest_addr f) || contains_str TUNNEL_IP (listen_addr f).

(** [None] is the panic on an empty tunnel address. *)
Definition substitute_field (field tunnel_ip : string) : option string :=
  if contains_str TUNNEL_IP field then
    if is_empty tunnel_ip then None else Some (replace TUNNEL_IP tunnel_ip field)
  else Some field.

Definition substitute_forward (tunnel_ip : string) (f : Forward) : option Forward :=
  listen ← substitute_field (listen_addr f) tunnel_ip;
  dest ← substitute_field (dest_addr f) tunnel_ip;
  Some (MkForward listen (proto f) dest).

Definition substitute_tunnel_ip (forwards : list Forward) (tunnel : TunnelConfig)
    : option (list Forward) :=
  mapM (substitute_forward (tun_ip tunnel)) forwards.
