(* ===== verification/Web.v ===== *)
(** The web pages' handlers (controlplane/web.rs): cookies, sessions, the form
    handlers and the routing table.  A rendered page is the component and the
    properties it is given; UiPages.v says what markup that is. *)

From stdpp Require Import base gmap strings list pretty.
From Stdlib Require Import ZArith Lia Ascii.
From S2P Require Import Prelude Prog Addr ForwarderState World Forwarder Crates Errors.
From S2P Require Import ControlPlane Account Invite.

Local Open Scope prog_scope.

(** ** Cookies *)

Definition SESSION_COOKIE : string := "fortress_account_session".

(** [HeaderValue::to_str]: visible ASCII and tabs. *)
Definition header_char (c : ascii) : bool := ch_between " " "~" c || Ascii.eqb c tab.
Definition header_to_str (v : string) : option string :=
  if str_forallb header_char v then Some v else None.

(** What the handlers read of a request: its [Cookie] header. *)
Record Request := MkRequest { cookie_header : option string }.

Definition is_semicolon (c : ascii) : bool := Ascii.eqb c ";".

Fixpoint find_cookie (name : string) (parts : list string) : option string :=
  match parts with
  | [] => None
  | part :: parts' =>
      match split_once "=" (trim part) with
      | Some (key, value) => if bool_decide (key = name) then Some value
                             else find_cookie name parts'
      | None => find_cookie name parts'
      end
  end.

Definition read_cookie_from_headers (headers : option string) (name : string)
    : option string :=
  v ← headers;
  v ← header_to_str v;
  find_cookie name (split_on is_semicolon v).

Definition read_cookie (req : Request) (name : string) : option string :=
  read_cookie_from_headers (cookie_header req) name.

(** [HeaderValue::from_str] accepts the bytes [header_char] accepts and those
    from 128 up. *)
Definition header_value_ok (v : string) : bool :=
  str_forallb (fun c => header_char c || negb (ch_le c (Ascii.ascii_of_nat 127))) v.

(** [None] is the panic on a token no header can carry. *)
Definition session_cookie_header (token : string) : option string :=
  let v := (SESSION_COOKIE ++ "=" ++ token ++ "; Path=/; HttpOnly; SameSite=Lax")%string in
  if header_value_ok v then Some v else None.

Definition clear_session_cookie_header : string :=
  SESSION_COOKIE ++ "=; Path=/; HttpOnly; SameSite=Lax; Max-Age=0".

(** ** Pages and responses *)

Inductive MsgKind := MsgOk | MsgErr.
Inductive ForgotOutcome := ForgotPrompt | ForgotSent | ForgotUnknownEmail.

Record MachineRow := MkMachineRow { row_name : string; row_hostname : string }.
Record InviteRow := MkInviteRow {
  row_code : string;
  row_status : InviteStatus;
  row_device_pubkey : option string;
}.
Record MachinesProps := MkMachinesProps {
  props_machines : list MachineRow;
  props_invites : list InviteRow;
  invited_code : option string;
  props_root_domain : string;
  props_error : option string;
}.

Definition machines_props (account_machines : list Machine)
    (account_invites : list (string * InviteRecord)) (invited : option string)
    (domain : string) (error : option string) : MachinesProps :=
  {| props_machines := map (fun m => MkMachineRow (m_name m) (m_hostname m)) account_machines;
     props_invites := map (fun '(code, r) => MkInviteRow code (inv_status r) (device_pubkey r))
                        account_invites;
     invited_code := invited;
     props_root_domain := domain;
     props_error := error |}.

(** The components and their properties. *)
Inductive Page :=
| Landing (logged_in : bool) (email : option string)
| SignupPage (email : string) (error : option string)
| LoginPage (email : string) (error : option string)
| MessagePage (kind : MsgKind) (title message : string)
| ForgotPage (outcome : ForgotOutcome)
| VerifyNoticePage (email : string)
| ResendPage (email : string)
| ResetPage (token : string) (error : option string)
| VerifyPage (token : string)
| MachinesPage (props : MachinesProps)
| JoinPage (code : string)
| InstallScript.

Record Response := MkResponse {
  resp_status : Z;
  resp_location : option string;
  resp_set_cookie : option string;
  resp_page : option Page;
}.

Definition html (p : Page) : Response := MkResponse 200 None None (Some p).
Definition internal_error : Response := MkResponse 500 None None None.
Definition see_other (location : string) : Response := MkResponse 303 (Some location) None None.
Definition see_other_with (location cookie : string) : Response :=
  MkResponse 303 (Some location) (Some cookie) None.
Definition message_response (kind : MsgKind) (title message : string) : Response :=
  html (MessagePage kind title message).

Definition account_error_message (err : AccountError) : string :=
  match err with
  | AccInvalidEmail _ => "That email address doesn't look valid."
  | AccInvalidPassword _ =>
      "That password is invalid (must not be empty or longer than 72 bytes)."
  | AccDuplicateEmail _ =>
      "An account with that email already exists. If you never verified it, resend the confirmation link."
  | AccNotFound => "Something went wrong with that account."
  | AccInvalidCredentials => "Incorrect email or password."
  | AccNotVerified _ => "Verify your email first — check your inbox for the confirmation link."
  | AccInvalidToken => "This link is invalid or has expired."
  | AccCorrupt _ => "Something went wrong on our side. Please try again."
  | AccRedis _ => "Something went wrong on our side. Please try again."
  | AccMail _ => "We couldn't send that email right now. Please try again."
  end.

(** ** State shared by the handlers *)

(** The injected dependencies; the mailer is present or not. *)
Record AppState := MkAppState { app_cp : option ControlPlane; app_mailer : bool }.

(** The handlers' own early returns. *)
Definition or_respond {A R} (r : Result A R) (k : A -> prog EdgeSig R) : prog EdgeSig R :=
  match r with Ok a => k a | Err resp => Ret resp end.

Definition cp_or_500 (state : AppState) : Result ControlPlane Response :=
  ok_or (app_cp state) internal_error.

Definition mailer_or_500 (state : AppState) : Result unit Response :=
  if app_mailer state then Ok tt else Err internal_error.

(** [Result::unwrap_or_default] of a list. *)
Definition unwrap_or_nil {A E} (r : Result (list A) E) : list A :=
  match r with Ok l => l | Err _ => [] end.
Definition err_of {A E} (r : Result A E) : option E :=
  match r with Ok _ => None | Err e => Some e end.

Module Web.
Section Web.
Context `{CR : Crates} `{SM : Serde Machine} `{SA : Serde AccountRecord}.
Context `{SI : Serde InviteRecord} `{SD : Serde EnrollmentDelivery}.
Context (WORDS : list string) (FORWARDER : option Forwarder) (fuel : nat).
Context (state : AppState).

(** [.ok().flatten()] of a session lookup. *)
Definition session_email (req : Request) : prog EdgeSig (option string) :=
  match read_cookie req SESSION_COOKIE with
  | None => Ret None
  | Some token =>
      r <- session_account token ;;
      Ret (match r with Ok e => e | Err _ => None end)
  end.

Definition require_session (req : Request) : prog EdgeSig (Result string Response) :=
  match app_cp state with
  | None => Ret (Err internal_error)
  | Some _ =>
      email <- session_email req ;;
      Ret (ok_or email (see_other "/login"))
  end.

(** The opening of the dashboard handlers. *)
Definition with_session (req : Request)
    (k : ControlPlane -> string -> prog EdgeSig Response) : prog EdgeSig Response :=
  email <- require_session req ;;
  or_respond email (fun email => or_respond (cp_or_500 state) (fun cp => k cp email)).

Definition landing (req : Request) : prog EdgeSig Response :=
  or_respond (cp_or_500 state) (fun _cp =>
    email <- session_email req ;;
    Ret (html (Landing (bool_decide (is_Some email)) email))).

Definition signup_page : Response := html (SignupPage "" None).
Definition login_page : Response := html (LoginPage "" None).
Definition forgot_page : Response := html (ForgotPage ForgotPrompt).
Definition resend_verify_page (email : option string) : Response :=
  html (ResendPage (default ""%string email)).
Definition join_page (code : string) : Response := html (JoinPage code).
Definition install_sh : Response := html InstallScript.

Definition signup (email password : option string) : prog EdgeSig Response :=
  or_respond (cp_or_500 state) (fun cp =>
  or_respond (mailer_or_500 state) (fun _ =>
    let shown := default ""%string email in
    error <- match email, password with
             | Some email, Some password =>
                 r <- account_signup cp email password ;; Ret (err_of r)
             | _, _ => Ret (Some (AccInvalidEmail shown))
             end ;;
    Ret (match error with
         | Some err => html (SignupPage shown (Some (account_error_message err)))
         | None => message_response MsgOk "Check your email"
                     ("A verification link was sent to " ++ shown
                        ++ ". It expires in 24 hours.")
         end))).

Definition login (email password : option string) : prog EdgeSig Response :=
  or_respond (cp_or_500 state) (fun _cp =>
    let shown := default ""%string email in
    result <- match email, password with
              | Some email, Some password => account_login email password
              | _, _ => Ret (Err AccInvalidCredentials)
              end ;;
    match result with
    | Err (AccNotVerified account_email) => Ret (html (VerifyNoticePage account_email))
    | Err err => Ret (html (LoginPage shown (Some (account_error_message err))))
    | Ok token =>
        expect (session_cookie_header token) "session cookie header is valid" (fun v =>
          Ret (see_other_with "/" v))
    end).

Definition logout (req : Request) : prog EdgeSig Response :=
  or_respond (cp_or_500 state) (fun _cp =>
    match read_cookie req SESSION_COOKIE with
    | Some token => account_logout token ;;; Ret tt
    | None => Ret tt
    end ;;;
    Ret (see_other_with "/" clear_session_cookie_header)).

Definition verify (token : option string) : Response :=
  match token with
  | None => html (MessagePage MsgErr "Missing token"
                    "This link is invalid or has expired. Try requesting a new one.")
  | Some token => html (VerifyPage token)
  end.

Definition verify_confirm (token : option string) : prog EdgeSig Response :=
  or_respond (cp_or_500 state) (fun _cp =>
    match token with
    | None => Ret (message_response MsgErr "Verification failed"
                     "This link is invalid or has expired.")
    | Some token =>
        r <- account_verify token ;;
        Ret (match r with
             | Ok _ => message_response MsgOk "Email verified"
                         "Your email is verified. You can log in now."
             | Err err => message_response MsgErr "Verification failed"
                            (account_error_message err)
             end)
    end).

Definition forgot (email : option string) : prog EdgeSig Response :=
  or_respond (cp_or_500 state) (fun cp =>
  or_respond (mailer_or_500 state) (fun _ =>
    match email with
    | None => Ret (html (ForgotPage ForgotPrompt))
    | Some email =>
        r <- request_password_reset cp email ;;
        Ret (match r with
             | Err err => message_response MsgErr "Reset failed" (account_error_message err)
             | Ok ResetSent => html (ForgotPage ForgotSent)
             | Ok ResetUnknownEmail => html (ForgotPage ForgotUnknownEmail)
             end)
    end)).

Definition resend_verify (email : option string) : prog EdgeSig Response :=
  or_respond (cp_or_500 state) (fun cp =>
  or_respond (mailer_or_500 state) (fun _ =>
    match email with
    | None => Ret (message_response MsgErr "Missing email" "Enter the email you signed up with.")
    | Some email =>
        r <- resend_verification cp email ;;
        Ret (match r with
             | Ok ResendSent =>
                 message_response MsgOk "Check your email"
                   ("A verification link was sent to " ++ email ++ ". It expires in 24 hours.")
             | Ok AlreadyActive =>
                 message_response MsgOk "Already verified"
                   "That email is already verified — you can log in."
             | Ok ResendUnknownEmail =>
                 message_response MsgErr "No account"
                   "No account with that email. Sign up instead."
             | Err err => message_response MsgErr "Couldn't resend" (account_error_message err)
             end)
    end)).

Definition reset_page (token : option string) : Response :=
  match token with
  | None => message_response MsgErr "Invalid link" "This link is invalid or has expired."
  | Some token => html (ResetPage token None)
  end.

Definition reset (token password : option string) : prog EdgeSig Response :=
  or_respond (cp_or_500 state) (fun _cp =>
    match token with
    | None => Ret (message_response MsgErr "Invalid link" "This link is invalid or has expired.")
    | Some token =>
        error <- match password with
                 | Some password => r <- reset_password token password ;; Ret (err_of r)
                 | None => Ret (Some (AccInvalidPassword "empty"))
                 end ;;
        Ret (match error with
             | Some err => html (ResetPage token (Some (account_error_message err)))
             | None => message_response MsgOk "Password changed"
                         "Your password is updated. Log in with it now."
             end)
    end).

Definition machines (invited : option string) (req : Request) : prog EdgeSig Response :=
  with_session req (fun cp email =>
    ms <- machines_of email ;;
    invs <- invites_of fuel email ;;
    root_domain cp (fun domain =>
      Ret (html (MachinesPage (machines_props (unwrap_or_nil ms) (unwrap_or_nil invs)
                                 invited domain None))))).

Definition machines_create_invite (req : Request) : prog EdgeSig Response :=
  with_session req (fun _cp email =>
    r <- invite_create WORDS email ;;
    Ret (match r with
         | Ok code => see_other ("/machines?invited=" ++ code)
         | Err err => message_response MsgErr "Couldn't create the invite"
                        (invite_error_display err)
         end)).

Definition approve (req : Request) (code : string) (name : option string)
    : prog EdgeSig Response :=
  with_session req (fun cp email =>
    match name with
    | None => Ret (see_other "/machines")
    | Some name =>
        if is_empty name then Ret (see_other "/machines")
        else
          r <- invite_approve WORDS cp FORWARDER email code name ;;
          Ret (match r with
               | Ok _ => see_other "/machines"
               | Err err =>
                   message_response MsgErr "Couldn't approve the machine"
                     (match err with
                      | InvNameTaken _ =>
                          "The name " ++ name
                            ++ " is already taken — generate a new invite and pick another."
                      | InvInvalidName _ =>
                          "The name " ++ name
                            ++ " isn't valid — 6+ characters, lowercase letters, digits, hyphens."
                      | other => invite_error_display other
                      end)
               end)
    end).

Definition deny (req : Request) (code : string) : prog EdgeSig Response :=
  with_session req (fun _cp email =>
    r <- invite_deny WORDS email code ;;
    Ret (match r with
         | Ok _ => see_other "/machines"
         | Err err => message_response MsgErr "Couldn't deny the machine"
                        (invite_error_display err)
         end)).

Definition revoke (req : Request) (code : string) : prog EdgeSig Response :=
  with_session req (fun _cp email =>
    r <- invite_revoke WORDS email code ;;
    Ret (match r with
         | Ok _ => see_other "/machines"
         | Err err => message_response MsgErr "Couldn't revoke the invite"
                        (invite_error_display err)
         end)).

Definition delete_account (req : Request) (confirm : option string) : prog EdgeSig Response :=
  with_session req (fun cp email =>
    if negb (bool_decide (confirm = Some "DELETE"%string))
    then Ret (message_response MsgErr "Deletion not confirmed"
                "Type DELETE in the confirmation field to delete your account.")
    else
      r <- account_delete fuel cp FORWARDER email ;;
      Ret (match r with
           | Ok _ => see_other_with "/" clear_session_cookie_header
           | Err err => message_response MsgErr "Couldn't delete the account"
                          (account_error_message err)
           end)).

(** The routes, with what each extracts from its request. *)
Inductive route :=
| GetLanding | GetInstallSh | GetRegister | GetLogin | GetForgot
| GetReset (token : option string)
| GetVerify (token : option string)
| GetMachines (invited : option string)
| GetJoin (code : string)
| PostSignup (email password : option string)
| PostLogin (email password : option string)
| PostLogout
| PostForgot (email : option string)
| GetResendVerify (email : option string)
| PostResendVerify (email : option string)
| PostReset (token password : option string)
| PostVerify (token : option string)
| PostAccountDelete (confirm : option string)
| PostInvite
| PostApprove (code : string) (name : option string)
| PostDeny (code : string)
| PostRevoke (code : string).

Definition web_routes (r : route) (req : Request) : prog EdgeSig Response :=
  match r with
  | GetLanding => landing req
  | GetInstallSh => Ret install_sh
  | GetRegister => Ret signup_page
  | GetLogin => Ret login_page
  | GetForgot => Ret forgot_page
  | GetReset token => Ret (reset_page token)
  | GetVerify token => Ret (verify token)
  | GetMachines invited => machines invited req
  | GetJoin code => Ret (join_page code)
  | PostSignup email password => signup email password
  | PostLogin email password => login email password
  | PostLogout => logout req
  | PostForgot email => forgot email
  | GetResendVerify email => Ret (resend_verify_page email)
  | PostResendVerify email => resend_verify email
  | PostReset token password => reset token password
  | PostVerify token => verify_confirm token
  | PostAccountDelete confirm => delete_account req confirm
  | PostInvite => machines_create_invite req
  | PostApprove code name => approve req code name
  | PostDeny code => deny req code
  | PostRevoke code => revoke req code
  end.

Definition is_get (r : route) : bool :=
  match r with
  | GetLanding | GetInstallSh | GetRegister | GetLogin | GetForgot | GetReset _
  | GetVerify _ | GetMachines _ | GetJoin _ | GetResendVerify _ => true
  | _ => false
  end.

(** The routes that act for the logged-in account. *)
Definition needs_session (r : route) : bool :=
  match r with
  | GetMachines _ | PostAccountDelete _ | PostInvite | PostApprove _ _ | PostDeny _
  | PostRevoke _ => true
  | _ => false
  end.
End Web.
End Web.
