(* ===== verification/Api.v ===== *)
(** The HTTP API: the account, machine and invite operations of
    controlplane/mod.rs and controlplane/pairing.rs, and the admin key of
    controlplane/auth.rs and controlplane/secret.rs. *)

From stdpp Require Import base gmap strings list pretty.
From Stdlib Require Import ZArith Lia Ascii.
From S2P Require Import Prelude Prog Addr ForwarderState World Forwarder Crates Errors.
From S2P Require Import ControlPlane Account Invite Box Web.

Local Open Scope prog_scope.

(** ** The admin key *)

Section Admin.
Context `{CR : Crates}.

(** [hex.len() != 64] counts bytes. *)
Definition decode_hash_hex (hex : string) : option (list Z) :=
  if negb (Nat.eqb (String.length hex) 64) then None
  else
    bytes ← hex_decode hex;
    if Nat.eqb (length bytes) 32 then Some bytes else None.

(** [subtle]'s comparison of two slices. *)
Definition ct_eq (a b : list Z) : bool :=
  Nat.eqb (length a) (length b) && forallb (fun '(x, y) => Z.eqb x y) (combine a b).

Definition verify_token (presented : string) (expected_hash : list Z) : bool :=
  ct_eq (sha256 presented) expected_hash.

Definition check_admin_key (hash : list Z) (bearer : string) : option string :=
  if verify_token bearer hash then Some bearer else None.

(** An operation that takes an [AdminKey]: the framework answers 401 itself when
    the header is missing or the checker refuses it.  The hash is decoded at its
    first use. *)
Inductive Guarded (R : Type) := Unauthenticated | Answered (r : R).
Arguments Unauthenticated {R}.
Arguments Answered {R} r.

Definition with_admin {R} (admin_key_hash : string) (bearer : option string)
    (k : prog EdgeSig R) : prog EdgeSig (Guarded R) :=
  match bearer with
  | None => Ret Unauthenticated
  | Some token =>
      expect (decode_hash_hex admin_key_hash) "ADMIN_KEY_HASH is valid hex for a 32-byte hash"
        (fun hash =>
           match check_admin_key hash token with
           | None => Ret Unauthenticated
           | Some _ => r <- k ;; Ret (Answered r)
           end)
  end.
End Admin.
Arguments Unauthenticated {R}.
Arguments Answered {R} r.

(** ** The injected dependencies, else the process globals *)

Definition api_cp (state : AppState) (g : Globals) : option ControlPlane :=
  match app_cp state with Some cp => Some cp | None => G_CONTROL_PLANE g end.

Definition api_mailer (state : AppState) (MAILER : bool) : bool := app_mailer state || MAILER.

(** ** Accounts: [/api/users] *)

Inductive UsersApiResponse :=
| UsersOk (message : string)
| UsersCreated (message : string)
| UsersSession (token : string)
| UsersBadRequest (body : string)
| UsersUnauthorized (body : string)
| UsersForbidden (body : string)
| UsersNotFound (body : string)
| UsersConflict (body : string)
| UsersInternal (body : string).

Definition users_status (r : UsersApiResponse) : Z :=
  match r with
  | UsersOk _ => 200 | UsersCreated _ => 201 | UsersSession _ => 200
  | UsersBadRequest _ => 400 | UsersUnauthorized _ => 401 | UsersForbidden _ => 403
  | UsersNotFound _ => 404 | UsersConflict _ => 409 | UsersInternal _ => 500
  end.

Definition users_api_error (err : AccountError) : UsersApiResponse :=
  match err with
  | AccInvalidEmail _ | AccInvalidPassword _ => UsersBadRequest (account_error_message err)
  | AccDuplicateEmail _ => UsersConflict (account_error_message err)
  | AccNotFound => UsersNotFound "account not found"
  | AccInvalidCredentials => UsersUnauthorized "invalid email or password"
  | AccNotVerified _ =>
      UsersForbidden
        "verify your email first — POST /api/users/resend_verification to resend the link"
  | AccInvalidToken => UsersBadRequest "invalid or expired token"
  | AccCorrupt _ | AccRedis _ => UsersInternal "internal error"
  | AccMail _ => UsersInternal "we couldn't send that email right now"
  end.

Module UsersApi.
Section UsersApi.
Context `{CR : Crates} `{SM : Serde Machine} `{SA : Serde AccountRecord}.
Context `{SI : Serde InviteRecord} `{SD : Serde EnrollmentDelivery}.
Context (g : Globals) (MAILER : bool) (fuel : nat) (state : AppState).

Definition with_cp (k : ControlPlane -> prog EdgeSig UsersApiResponse)
    : prog EdgeSig UsersApiResponse :=
  match api_cp state g with
  | None => Ret (UsersInternal "internal error")
  | Some cp => k cp
  end.

Definition with_mailer (k : prog EdgeSig UsersApiResponse) : prog EdgeSig UsersApiResponse :=
  if api_mailer state MAILER then k else Ret (UsersInternal "internal error").

Definition register (email password : string) : prog EdgeSig UsersApiResponse :=
  with_cp (fun cp => with_mailer (
    r <- account_signup cp email password ;;
    Ret (match r with
         | Ok _ => UsersCreated ("a verification link was sent to " ++ email)
         | Err err => users_api_error err
         end))).

Definition login (email password : string) : prog EdgeSig UsersApiResponse :=
  with_cp (fun _cp =>
    r <- account_login email password ;;
    Ret (match r with
         | Ok token => UsersSession token
         | Err err => users_api_error err
         end)).

Definition verify (token : string) : prog EdgeSig UsersApiResponse :=
  with_cp (fun _cp =>
    r <- account_verify token ;;
    Ret (match r with
         | Ok _ => UsersOk "email verified"
         | Err err => users_api_error err
         end)).

Definition reset_password (email : string) : prog EdgeSig UsersApiResponse :=
  with_cp (fun cp => with_mailer (
    r <- request_password_reset cp email ;;
    Ret (match r with
         | Ok ResetSent => UsersOk "a reset link is on its way — check your inbox"
         | Ok ResetUnknownEmail => UsersOk "no account with that email — sign up first"
         | Err err => users_api_error err
         end))).

Definition resend_verification (email : string) : prog EdgeSig UsersApiResponse :=
  with_cp (fun cp => with_mailer (
    r <- Account.resend_verification cp email ;;
    Ret (match r with
         | Ok ResendSent => UsersOk "a verification link is on its way — check your inbox"
         | Ok AlreadyActive => UsersOk "that email is already verified — log in"
         | Ok ResendUnknownEmail => UsersOk "no account with that email — sign up first"
         | Err err => users_api_error err
         end))).

Definition reset_password_confirm (token password : string) : prog EdgeSig UsersApiResponse :=
  with_cp (fun _cp =>
    r <- Account.reset_password token password ;;
    Ret (match r with
         | Ok _ => UsersOk "password updated"
         | Err err => users_api_error err
         end)).

Definition delete_account (req : Request) : prog EdgeSig UsersApiResponse :=
  with_cp (fun cp =>
    match read_cookie req SESSION_COOKIE with
    | None => Ret (UsersUnauthorized "no session")
    | Some token =>
        e <- session_account token ;;
        match e with
        | Ok (Some email) =>
            r <- account_delete fuel cp (G_FORWARDER g) email ;;
            Ret (match r with
                 | Ok _ => UsersOk "account deleted"
                 | Err AccNotFound => UsersUnauthorized "no session"
                 | Err _ => UsersInternal "internal error"
                 end)
        | _ => Ret (UsersUnauthorized "no session")
        end
    end).
End UsersApi.
End UsersApi.

(** ** Machines: [/api/wireguard] *)

Inductive SignupApiResponse :=
| SignupCreated (r : SignupResponse)
| SignupOk (r : SignupResponse)
| SignupBadRequest (body : string)
| SignupConflict (body : string)
| SignupInternal (body : string).

Inductive ListApiResponse := ListOk (l : list Machine) | ListInternal (body : string).
Inductive DeleteApiResponse := NoContent | DeleteNotFound (body : string) | DeleteInternal (body : string).
Inductive PubkeyApiResponse := PubkeyOk (public_key : string) | PubkeyInternal (body : string).

Module WireguardApi.
Section WireguardApi.
Context `{CR : Crates} `{SM : Serde Machine}.
Context (g : Globals) (admin_key_hash : string).

(** [control_plane()]: panics before the globals are set. *)
Definition control_plane {A} (k : ControlPlane -> prog EdgeSig A) : prog EdgeSig A :=
  expect (G_CONTROL_PLANE g) "control plane not initialized" k.

Definition signup (bearer : option string) (name public_key : string)
    : prog EdgeSig (Guarded SignupApiResponse) :=
  with_admin admin_key_hash bearer (control_plane (fun cp =>
    r <- allocate_machine cp (G_FORWARDER g) None name public_key ;;
    Ret (match r with
         | Ok (Created resp) => SignupCreated resp
         | Ok (Existing resp) => SignupOk resp
         | Err (CpInvalidName _) =>
             SignupBadRequest "invalid machine name (≥6 chars: lowercase letters, digits, hyphens; not a reserved word)"
         | Err (CpInvalidPubkey _) => SignupBadRequest "invalid wireguard public key"
         | Err (CpDuplicate _) => SignupConflict "machine name already taken"
         | Err _ => SignupInternal "internal error"
         end))).

Definition list_machines (bearer : option string) : prog EdgeSig (Guarded ListApiResponse) :=
  with_admin admin_key_hash bearer (control_plane (fun _cp =>
    r <- ControlPlane.list_machines ;;
    Ret (match r with
         | Ok machines => ListOk machines
         | Err _ => ListInternal "internal error"
         end))).

Definition delete_machine (bearer : option string) (name : string)
    : prog EdgeSig (Guarded DeleteApiResponse) :=
  with_admin admin_key_hash bearer (control_plane (fun cp =>
    r <- ControlPlane.delete_machine cp (G_FORWARDER g) name ;;
    Ret (match r with
         | Ok _ => NoContent
         | Err (CpNotFound _) => DeleteNotFound "machine not found"
         | Err _ => DeleteInternal "internal error"
         end))).

(** The one open operation. *)
Definition edge_pubkey : prog EdgeSig PubkeyApiResponse :=
  control_plane (fun cp =>
    expect (edge_public_key cp) "store-held edge key is base64" (fun r =>
      Ret (match r with
           | Ok pubkey => PubkeyOk pubkey
           | Err _ => PubkeyInternal "internal error"
           end))).
End WireguardApi.
End WireguardApi.

(** ** Invites: [/api/invites], [/api/device] *)

Record InviteSummary := MkSummary {
  sum_code : string;
  sum_status : string;
  sum_device_pubkey : option string;
}.

Inductive InviteApiResponse :=
| InviteCreated (code url : string)
| InviteOk (outcome : PollOutcome)
| InviteList (l : list InviteSummary)
| InviteNoContent
| InviteBadRequest (body : string)
| InviteUnauthorized (body : string)
| InviteForbidden (body : string)
| InviteNotFound (body : string)
| InviteConflict (body : string)
| InviteInternal (body : string).

Definition invite_status (r : InviteApiResponse) : Z :=
  match r with
  | InviteCreated _ _ => 201 | InviteOk _ => 200 | InviteList _ => 200
  | InviteNoContent => 204 | InviteBadRequest _ => 400 | InviteUnauthorized _ => 401
  | InviteForbidden _ => 403 | InviteNotFound _ => 404 | InviteConflict _ => 409
  | InviteInternal _ => 500
  end.

Definition invite_api_error (err : InviteError) : InviteApiResponse :=
  match err with
  | InvInvalidCode _ => InviteBadRequest "invalid invite code"
  | InvUnknown _ => InviteNotFound "invite not found"
  | InvForbidden _ => InviteForbidden "not the inviting account"
  | InvNotWaiting _ => InviteConflict "invite is not in a claimable state"
  | InvNotBegun _ => InviteConflict "no machine has claimed this invite yet"
  | InvNameTaken name => InviteConflict ("machine name " ++ name ++ " is already taken")
  | InvInvalidName _ =>
      InviteBadRequest "invalid machine name (≥6 chars: lowercase letters, digits, hyphens; not a reserved word)"
  | InvInvalidPubkey _ => InviteBadRequest "invalid wireguard public key"
  | InvAccount _ | InvCorrupt _ | InvRedis _ => InviteInternal "internal error"
  end.

(** The JSON of a machine and of a poll's answer: the field names, [deviceToken]
    renamed, absent options left out where the attribute says so. *)
Definition opt_json (o : option string) : Json :=
  match o with Some s => JStr s | None => JNull end.

Definition machine_json (m : Machine) : Json :=
  JObj [("name", JStr (m_name m)); ("owner", opt_json (m_owner m));
        ("hostname", JStr (m_hostname m)); ("ipv6", JStr (m_ipv6 m));
        ("wg_ip", JStr (m_wg_ip m)); ("wg_public_key", JStr (m_wg_public_key m));
        ("device_token_hash", opt_json (m_device_token_hash m))]%string.

Definition poll_json (p : PollOutcome) : Json :=
  JObj (("status"%string, JStr (poll_status p))
        :: match poll_machine p with
           | Some m => [("machine"%string, machine_json m)]
           | None => []
           end
        ++ match poll_token p with
           | Some t => [("deviceToken"%string, JStr t)]
           | None => []
           end).

Definition summary_status (st : InviteStatus) : string :=
  match st with
  | Dormant => "dormant" | Waiting => "waiting" | Approved => "approved" | Denied => "denied"
  end.

Module InvitesApi.
Section InvitesApi.
Context `{CR : Crates} `{SM : Serde Machine} `{SA : Serde AccountRecord}.
Context `{SI : Serde InviteRecord} `{SD : Serde EnrollmentDelivery}.
Context (WORDS : list string) (FORWARDER : option Forwarder) (fuel : nat).
Context (state : AppState).

Definition session_email_from (req : Request)
    : prog EdgeSig (Result (option string) InviteApiResponse) :=
  match app_cp state with
  | None => Ret (Err (InviteInternal "internal error"))
  | Some _ =>
      match read_cookie req SESSION_COOKIE with
      | None => Ret (Ok None)
      | Some token =>
          r <- session_account token ;;
          Ret (Ok (match r with Ok e => e | Err _ => None end))
      end
  end.

Definition with_cp (k : ControlPlane -> prog EdgeSig InviteApiResponse)
    : prog EdgeSig InviteApiResponse :=
  match app_cp state with
  | None => Ret (InviteInternal "internal error")
  | Some cp => k cp
  end.

(** The opening of the owner operations. *)
Definition with_session (req : Request)
    (k : ControlPlane -> string -> prog EdgeSig InviteApiResponse)
    : prog EdgeSig InviteApiResponse :=
  e <- session_email_from req ;;
  match e with
  | Ok (Some email) => with_cp (fun cp => k cp email)
  | Ok None => Ret (InviteUnauthorized "no session")
  | Err resp => Ret resp
  end.

Definition create (req : Request) : prog EdgeSig InviteApiResponse :=
  with_session req (fun cp email =>
    r <- invite_create WORDS email ;;
    Ret (match r with
         | Ok code => InviteCreated code ("https://" ++ root_domain_ cp ++ "/i/" ++ code)
         | Err err => invite_api_error err
         end)).

Definition list (req : Request) : prog EdgeSig InviteApiResponse :=
  with_session req (fun _cp email =>
    r <- invites_of fuel email ;;
    Ret (match r with
         | Ok invites =>
             InviteList (map (fun '(code, rec) =>
                                MkSummary code (summary_status (inv_status rec))
                                  (device_pubkey rec)) invites)
         | Err err => invite_api_error err
         end)).

Definition revoke (req : Request) (code : string) : prog EdgeSig InviteApiResponse :=
  with_session req (fun _cp email =>
    r <- invite_revoke WORDS email code ;;
    Ret (match r with Ok _ => InviteNoContent | Err err => invite_api_error err end)).

Definition begin (code public_key : string) : prog EdgeSig InviteApiResponse :=
  with_cp (fun _cp =>
    r <- invite_begin WORDS code public_key ;;
    Ret (match r with Ok outcome => InviteOk outcome | Err err => invite_api_error err end)).

Definition poll (code : string) : prog EdgeSig InviteApiResponse :=
  with_cp (fun _cp =>
    r <- invite_poll WORDS code ;;
    Ret (match r with Ok outcome => InviteOk outcome | Err err => invite_api_error err end)).

Definition approve (req : Request) (code name : string) : prog EdgeSig InviteApiResponse :=
  with_session req (fun cp email =>
    r <- invite_approve WORDS cp FORWARDER email code name ;;
    Ret (match r with
         | Ok _ => InviteOk (MkPoll "approved" None None)
         | Err err => invite_api_error err
         end)).

Definition deny (req : Request) (code : string) : prog EdgeSig InviteApiResponse :=
  with_session req (fun _cp email =>
    r <- invite_deny WORDS email code ;;
    Ret (match r with Ok _ => InviteNoContent | Err err => invite_api_error err end)).

Definition device_register (device_token public_key : string)
    : prog EdgeSig InviteApiResponse :=
  with_cp (fun cp =>
    r <- Invite.device_register cp FORWARDER device_token public_key ;;
    Ret (match r with
         | Ok m => InviteOk (MkPoll (m_name m) (Some m) None)
         | Err (CpNotFound _) => InviteUnauthorized "invalid device token"
         | Err (CpInvalidPubkey _) => InviteBadRequest "invalid wireguard public key"
         | Err _ => InviteInternal "internal error"
         end)).
End InvitesApi.
End InvitesApi.
