(* ===== verification/Secret.v ===== *)
(** The secrets of an edge (crates/controlplane/src/controlplane/secret.rs) and the
    DNS client they configure (dns.rs).

    What the secrets library resolves is a parameter: [None] when a required secret is
    missing, which is a panic at the first use of the static [SECRETS]. *)

From stdpp Require Import base strings.
From Stdlib Require Import ZArith.
From S2P Require Import Prelude Prog World Dns.

Local Open Scope prog_scope.

(** The variant [Default] of [SecretSpecProfile]: seven required secrets, five
    optional ones. *)
Record Profile := MkProfile {
  p_dns_zone_id : string;
  p_dns_zone_name : string;
  p_dns_token : string;
  p_root_domain : string;
  p_admin_key_hash : string;
  p_wg_private_key : string;
  p_redis_url : string;
  p_smtp_host : option string;
  p_smtp_port : option string;
  p_smtp_user : option string;
  p_smtp_pass : option string;
  p_mail_from : option string;
}.

(** The profiles of secretspec.toml; the operator's one is never loaded. *)
Inductive SecretSpecProfile := Default (p : Profile) | Provisioning.

Section Secrets.
Context {X : Sig} (secrets : option SecretSpecProfile).

(** [default_profile], with the static [SECRETS] behind it. *)
Definition default_profile {A} (k : Profile -> prog X A) : prog X A :=
  expect secrets "edge secrets must resolve at boot" (fun resolved =>
    match resolved with
    | Default p => k p
    | Provisioning => Panic "edge secrets always load the default profile"
    end).

Definition secret_root_domain : prog X string := default_profile (fun p => Ret (p_root_domain p)).
Definition wg_private_key : prog X string := default_profile (fun p => Ret (p_wg_private_key p)).
Definition redis_url : prog X string := default_profile (fun p => Ret (p_redis_url p)).
Definition smtp_host : prog X (option string) := default_profile (fun p => Ret (p_smtp_host p)).
Definition smtp_port : prog X (option string) := default_profile (fun p => Ret (p_smtp_port p)).
Definition smtp_user : prog X (option string) := default_profile (fun p => Ret (p_smtp_user p)).
Definition smtp_pass : prog X (option string) := default_profile (fun p => Ret (p_smtp_pass p)).

Definition mail_from : prog X string :=
  default_profile (fun p =>
    match p_mail_from p with
    | Some from => Ret from
    | None => domain <- secret_root_domain ;; Ret ("accounts@" ++ domain)%string
    end).

(** [HetznerDns::from_secrets]. *)
Definition hetzner_from_secrets : prog X Hetzner.HetznerDns :=
  default_profile (fun p =>
    Ret (Hetzner.MkHetzner (p_dns_zone_id p) (p_dns_zone_name p) (p_dns_token p))).
End Secrets.

(** The envelope address of a profile. *)
Definition sender_of (p : Profile) : string :=
  default ("accounts@" ++ p_root_domain p)%string (p_mail_from p).

Lemma mail_from_default {X} p : mail_from (X := X) (Some (Default p)) = Ret (sender_of p).
Proof. unfold mail_from, sender_of. cbn. by destruct (p_mail_from p). Qed.
