(* ===== verification/Mail.v ===== *)
(** Outbound mail (crates/controlplane/src/controlplane/mail.rs): the trait [Mailer],
    its three implementations, and the choice among them at boot.

    The lettre crate (addresses, MIME messages, the SMTP transport) is a parameter.
    What the implementations act on is the post office: the messages that relays
    have taken, the standard output, the memory of the mock. *)

From stdpp Require Import base list strings.
From Stdlib Require Import ZArith.
From S2P Require Import Prelude Prog Addr World Secret.

Local Open Scope prog_scope.

(** ** Configuration *)

Record SmtpConfig := MkSmtp {
  sc_host : string;
  sc_port : Z;
  sc_username : string;
  sc_password : string;
  sc_from : string;
}.

(** [SmtpConfig::from_secrets]. *)
Definition from_secrets {X} (secrets : option SecretSpecProfile) : prog X (option SmtpConfig) :=
  host <- smtp_host secrets ;;
  match host with
  | None => Ret None
  | Some host =>
      port <- smtp_port secrets ;;
      user <- smtp_user secrets ;;
      pass <- smtp_pass secrets ;;
      from <- mail_from secrets ;;
      Ret (Some (MkSmtp host (default 587%Z (port ≫= parse_uint 65535)) (default ""%string user)
                   (default ""%string pass) from))
  end.

(** What a profile configures. *)
Definition smtp_of (p : Profile) : option SmtpConfig :=
  host ← p_smtp_host p;
  Some (MkSmtp host (default 587%Z (p_smtp_port p ≫= parse_uint 65535))
          (default ""%string (p_smtp_user p)) (default ""%string (p_smtp_pass p)) (sender_of p)).

Lemma from_secrets_default {X} p : from_secrets (X := X) (Some (Default p)) = Ret (smtp_of p).
Proof.
  unfold from_secrets, smtp_of. rewrite mail_from_default. cbn. by destruct (p_smtp_host p).
Qed.

(** ** Messages *)

(** lettre: mailboxes, and plain text messages with one sender and one recipient. *)
Class Lettre := {
  Mailbox : Type;
  Message : Type;
  parse_mailbox : string -> Result Mailbox string;
  (** [Message::builder] up to [body], with the content type of the header. *)
  build : Mailbox -> Mailbox -> string -> string -> string -> Result Message string;
  msg_from : Message -> Mailbox;
  msg_to : Message -> Mailbox;
  msg_subject : Message -> string;
  msg_body : Message -> string;
  (** [AsyncSmtpTransport::starttls_relay]: why a transport to this host cannot be set up. *)
  starttls_relay : string -> option string;
}.

(** A message that was built holds what it was built from. *)
Class LettreLaws `{Lettre} := {
  build_fields f t s ct b m :
    build f t s ct b = Ok m ->
    msg_from m = f /\ msg_to m = t /\ msg_subject m = s /\ msg_body m = b;
}.

Section Mail.
Context `{LT : Lettre}.

Definition TEXT_PLAIN : string := "text/plain; charset=utf-8".

Definition message_for (from to subject body : string) : Result Message MailerError :=
  (try f := map_err MailAddress (parse_mailbox from) in
   try t := map_err MailAddress (parse_mailbox to) in
   map_err MailBuild (build f t subject TEXT_PLAIN body))%fortress.

(** ** The post office *)

Record Post := MkPost {
  submitted : list (SmtpConfig * Message);
  stdout : list string;
  captured : list SentMail;
  failing : bool;
}.

Inductive post_op :=
| Submit (config : SmtpConfig) (m : Message)   (** [transport.send] *)
| Println (line : string)
| MockFailing                                  (** [fail.load] *)
| MockPush (m : SentMail).                     (** [sent.lock().push] *)

Definition post_ret (o : post_op) : Type :=
  match o with
  | Submit _ _ => Result unit string
  | Println _ | MockPush _ => unit
  | MockFailing => bool
  end.

Definition PostSig : Sig := MkSig post_op post_ret.

(** A message the relay acknowledged is submitted; a failed submission may have been
    taken by the relay, when the connection broke before the acknowledgement. *)
Definition post_spec (o : post_op) (s : Post) : post_ret o -> Post -> Prop :=
  match o return post_ret o -> Post -> Prop with
  | Submit c m => fun r s' =>
      match r with
      | Ok _ => s' = MkPost (submitted s ++ [(c, m)]) (stdout s) (captured s) (failing s)
      | Err _ =>
          s' = s \/ s' = MkPost (submitted s ++ [(c, m)]) (stdout s) (captured s) (failing s)
      end
  | Println l => fun _ s' =>
      s' = MkPost (submitted s) (stdout s ++ [l]) (captured s) (failing s)
  | MockFailing => fun r s' => r = failing s /\ s' = s
  | MockPush m => fun _ s' =>
      s' = MkPost (submitted s) (stdout s) (captured s ++ [m]) (failing s)
  end.

(** ** The implementations of [Mailer::send] *)

(** [Box<dyn Mailer>]. *)
Inductive Mailer := SmtpMailer (config : SmtpConfig) | ConsoleMailer | MockMailer.

Definition smtp_send (config : SmtpConfig) (to subject body : string)
    : prog PostSig (Result unit MailerError) :=
  match message_for (sc_from config) to subject body with
  | Err e => Ret (Err e)
  | Ok email =>
      _s <-? @call PostSig (Submit config email) as MailSmtp ;;
      Ret (Ok tt)
  end.

Definition console_line (to subject body : string) : string :=
  "[fortress-mailer] to=" ++ to ++ " subject=" ++ subject ++ String nl body.

Definition console_send (to subject body : string) : prog PostSig (Result unit MailerError) :=
  @call PostSig (Println (console_line to subject body)) ;;;
  Ret (Ok tt).

Definition mock_send (to subject body : string) : prog PostSig (Result unit MailerError) :=
  failing <- @call PostSig MockFailing ;;
  if failing then Ret (Err MockFailure)
  else
    @call PostSig (MockPush (MkMail to subject body)) ;;;
    Ret (Ok tt).

Definition send (m : Mailer) : string -> string -> string -> prog PostSig (Result unit MailerError) :=
  match m with
  | SmtpMailer config => smtp_send config
  | ConsoleMailer => console_send
  | MockMailer => mock_send
  end.

(** The test's side of the mock: [sent], [clear], [fail_sends]. *)
Definition mock_sent (s : Post) : list SentMail := captured s.
Definition mock_clear (s : Post) : Post := MkPost (submitted s) (stdout s) [] (failing s).
Definition mock_fail_sends (s : Post) : Post :=
  MkPost (submitted s) (stdout s) (captured s) true.

(** ** The process mailer *)

(** [SmtpMailer::new]: the transport is set up, nothing is sent; the sender's address
    is not looked at. *)
Definition smtp_new (config : SmtpConfig) : Result Mailer MailerError :=
  match starttls_relay (sc_host config) with
  | Some e => Err (MailSmtp e)
  | None => Ok (SmtpMailer config)
  end.

Definition mailer_for (config : option SmtpConfig) : Result Mailer MailerError :=
  match config with
  | Some config => smtp_new config
  | None => Ok ConsoleMailer
  end.

Definition mailer_from_secrets {X} (secrets : option SecretSpecProfile)
    : prog X (Result Mailer MailerError) :=
  config <- from_secrets secrets ;;
  Ret (mailer_for config).

(** The static [MAILER]: [set] keeps the first value. *)
Definition cell_set (cell : option Mailer) (m : Mailer) : option Mailer :=
  match cell with Some _ => cell | None => Some m end.

Definition init_mailer {X} (secrets : option SecretSpecProfile) (cell : option Mailer)
    : prog X (option Mailer * Result unit MailerError) :=
  r <- mailer_from_secrets secrets ;;
  Ret (match r with
       | Ok m => (cell_set cell m, Ok tt)
       | Err e => (cell, Err e)
       end).

Definition init_console_mailer (cell : option Mailer) : option Mailer :=
  cell_set cell ConsoleMailer.

Definition mailer {X A} (cell : option Mailer) (k : Mailer -> prog X A) : prog X A :=
  expect cell "mailer not initialized" k.
Definition mailer_opt (cell : option Mailer) : option Mailer := cell.

(** ** The contract of the trait *)

(** What an implementation promises: it returns; acknowledged means that the outbox has
    gained one entry, which carries the message; after a failure it has gained at
    most that. *)
Class Delivers (send : string -> string -> string -> prog PostSig (Result unit MailerError)) := {
  Entry : Type;
  outbox : Post -> list Entry;
  carries : Entry -> SentMail -> Prop;
  send_spec to subject body s :
    wp (X := PostSig) post_spec (send to subject body)
      (fun o s' =>
         match o with
         | Done (Ok _) => exists e, outbox s' = outbox s ++ [e] /\ carries e (MkMail to subject body)
         | Done (Err _) =>
             outbox s' = outbox s \/
             exists e, outbox s' = outbox s ++ [e] /\ carries e (MkMail to subject body)
         | _ => False
         end) s;
}.

(** A message of this mail, from the configured sender. *)
Definition letter (config : SmtpConfig) (e : SmtpConfig * Message) (m : SentMail) : Prop :=
  fst e = config /\
  parse_mailbox (sc_from config) = Ok (msg_from (snd e)) /\
  parse_mailbox (mail_to m) = Ok (msg_to (snd e)) /\
  msg_subject (snd e) = mail_subject m /\ msg_body (snd e) = mail_body m.

Lemma message_for_letter `{!LettreLaws} config to subject body msg :
  message_for (sc_from config) to subject body = Ok msg ->
  letter config (config, msg) (MkMail to subject body).
Proof.
  unfold message_for, letter. cbn.
  destruct (parse_mailbox (sc_from config)) as [f|] eqn:Ef; [|done].
  destruct (parse_mailbox to) as [t|] eqn:Et; [|done]. cbn.
  destruct (build _ _ _ _ _) as [m|] eqn:Eb; [|done]. cbn. intros [= <-].
  apply build_fields in Eb as (-> & -> & -> & ->). done.
Qed.

#[export, program] Instance smtp_delivers `{!LettreLaws} (config : SmtpConfig)
  : Delivers (smtp_send config) := {
  Entry := SmtpConfig * Message;
  outbox := submitted;
  carries := letter config;
}.
Next Obligation.
  intros LL config to subject body s. unfold smtp_send.
  destruct (message_for _ _ _ _) as [msg|e] eqn:E; [|by left].
  apply message_for_letter in E.
  intros [u|e] s'; cbn; [intros ->|intros [-> | ->]; [by left|right]]; by eexists.
Qed.

#[export, program] Instance console_delivers : Delivers console_send := {
  Entry := string;
  outbox := stdout;
  carries := fun l m => l = console_line (mail_to m) (mail_subject m) (mail_body m);
}.
Next Obligation. intros to subject body s [] s'. cbn. intros ->. eauto. Qed.

#[export, program] Instance mock_delivers : Delivers mock_send := {
  Entry := SentMail;
  outbox := captured;
  carries := eq;
}.
Next Obligation.
  intros to subject body s b s'. cbn. intros [-> ->].
  destruct (failing s); cbn; [by left|]. intros [] s' ->. eauto.
Qed.

#[export] Instance send_delivers `{!LettreLaws} (m : Mailer) : Delivers (send m) :=
  match m return Delivers (send m) with
  | SmtpMailer config => smtp_delivers config
  | ConsoleMailer => console_delivers
  | MockMailer => mock_delivers
  end.

(** ** What the first initialization fixes *)

(** A sender address that lettre rejects does not fail the boot; every mail fails. *)
Lemma bad_sender (config : SmtpConfig) e :
  parse_mailbox (sc_from config) = Err e -> starttls_relay (sc_host config) = None ->
  mailer_for (Some config) = Ok (SmtpMailer config) /\
  forall to subject body, send (SmtpMailer config) to subject body = Ret (Err (MailAddress e)).
Proof.
  intros Hf Hh. cbn. unfold smtp_new. rewrite Hh. split; [done|].
  intros. unfold smtp_send, message_for. by rewrite Hf.
Qed.

(** The console is never a fallback: with a host configured, [init_mailer] installs the
    SMTP mailer or fails. *)
Lemma init_mailer_no_fallback {X} p config :
  smtp_of p = Some config ->
  init_mailer (X := X) (Some (Default p)) None
  = Ret (match starttls_relay (sc_host config) with
         | None => (Some (SmtpMailer config), Ok tt)
         | Some e => (None, Err (MailSmtp e))
         end).
Proof.
  intros H. unfold init_mailer, mailer_from_secrets. rewrite from_secrets_default. cbn.
  rewrite H. cbn. unfold smtp_new. by destruct (starttls_relay _).
Qed.
End Mail.
