(* ===== verification/Deploy.v ===== *)
(** The clients behind the operations of an edge (wg.rs, dns.rs, mail.rs).

    The programs of the control plane call the traits [WgClient], [DnsApiClient] and
    [Mailer].  A live process puts [RealWgClient] and the mailer of its secrets behind
    them, a dummy boot the two mocks and the console ([init_globals] of mod.rs).  Here
    the operations of World.v are carried out by those implementations, on the
    interface behind the [wg] binary, the post office and the mocks' memory; the logs of
    World.v become what those have come to hold.  (The provider's zone is not a function of
    the acknowledged calls, since a failed one may have been executed: the live DNS
    client is related to its contract in Dns.v, and stays an operation here.) *)

From stdpp Require Import base gmap list strings.
From S2P Require Import Prelude Prog Addr ForwarderState World Store Dns Wg Secret Mail.

Local Open Scope prog_scope.

(** ** The services *)

Inductive wg_method := AddPeer (wg_ip pubkey : string) | RemovePeer (pubkey : string)
                     | SetPrivateKey (key : string).

Definition wg_logged (c : wg_method) : wg_call :=
  match c with
  | AddPeer ip pk => WgAdded ip pk
  | RemovePeer pk => WgRemoved pk
  | SetPrivateKey key => WgPrivateKey key
  end.

Definition real_wg (c : wg_method) : prog CmdSig (Result unit WgError) :=
  match c with
  | AddPeer ip pk => Real.add_peer ip pk
  | RemovePeer pk => Real.remove_peer pk
  | SetPrivateKey key => Real.set_private_key key
  end.

Definition mock_wg (c : wg_method) : Mock.MockWgClient -> Result unit WgError * Mock.MockWgClient :=
  match c with
  | AddPeer ip pk => Mock.add_peer ip pk
  | RemovePeer pk => Mock.remove_peer pk
  | SetPrivateKey key => Mock.set_private_key key
  end.

(** The memory of the two mocks. *)
Record mocks := MkMocks { at_wg : Mock.MockWgClient; at_dns : MockDns.MockDnsApiClient }.

Inductive mock_op :=
| OnWg (f : Mock.MockWgClient -> Result unit WgError * Mock.MockWgClient)
| OnDns (f : MockDns.MockDnsApiClient -> Result unit DnsError * MockDns.MockDnsApiClient).

Definition mock_ret (o : mock_op) : Type :=
  match o with OnWg _ => Result unit WgError | OnDns _ => Result unit DnsError end.

Definition MockSig : Sig := MkSig mock_op mock_ret.

Definition mock_spec (o : mock_op) (s : mocks) : mock_ret o -> mocks -> Prop :=
  match o return mock_ret o -> mocks -> Prop with
  | OnWg f => fun r s' => r = fst (f (at_wg s)) /\ s' = MkMocks (snd (f (at_wg s))) (at_dns s)
  | OnDns f => fun r s' => r = fst (f (at_dns s)) /\ s' = MkMocks (at_wg s) (snd (f (at_dns s)))
  end.

Section Deploy.
Context `{LT : Lettre}.

Definition ServiceSig : Sig := sum_sig CmdSig (sum_sig PostSig MockSig).
Definition DeploySig : Sig := sum_sig EdgeSig ServiceSig.

Definition on_cmd {A} (p : prog CmdSig A) : prog DeploySig A := inr_ (inl_ p).
Definition on_post {A} (p : prog PostSig A) : prog DeploySig A := inr_ (inr_ (inl_ p)).
Definition on_mock (o : mock_op) : prog DeploySig (mock_ret o) :=
  inr_ (inr_ (inr_ (@call MockSig o))).

(** What a boot puts behind the traits. *)
Inductive clients := Live (mailer : Mailer) | Dummy.

Definition mailer_of (cl : clients) : Mailer :=
  match cl with Live m => m | Dummy => ConsoleMailer end.

Definition wg_of (cl : clients) (c : wg_method) : prog DeploySig (Result unit WgError) :=
  match cl with
  | Live _ => on_cmd (real_wg c)
  | Dummy => on_mock (OnWg (mock_wg c))
  end.

(** One operation of the control plane, carried out. *)
Definition handle (cl : clients) (o : edge_op) : prog DeploySig (edge_ret o) :=
  match o return prog DeploySig (edge_ret o) with
  | WgAddPeer ip pk => wg_of cl (AddPeer ip pk)
  | WgRemovePeer pk => wg_of cl (RemovePeer pk)
  | WgSetPrivateKey key => wg_of cl (SetPrivateKey key)
  | DnsUpsertAaaa n ip =>
      match cl with
      | Live _ => @call DeploySig (inl (DnsUpsertAaaa n ip))
      | Dummy => on_mock (OnDns (MockDns.upsert_aaaa n ip))
      end
  | DnsRemoveAaaa n =>
      match cl with
      | Live _ => @call DeploySig (inl (DnsRemoveAaaa n))
      | Dummy => on_mock (OnDns (MockDns.remove_aaaa n))
      end
  | MailSend to_ subject body => on_post (send (mailer_of cl) to_ subject body)
  | o => @call DeploySig (inl o)
  end.

Definition deploy {A} (cl : clients) : prog EdgeSig A -> prog DeploySig A :=
  interp (X := EdgeSig) (handle cl).

(** The clients of [init_globals]. *)
Definition boot_clients (cell : option Mailer) (dummy : bool) : option clients :=
  match dummy, cell with
  | true, _ => Some Dummy
  | false, Some m => Some (Live m)
  | false, None => None
  end.

(** ** Their world *)

Abbreviation deployed := (edge * (Iface * (Post * mocks)))%type (only parsing).

Definition deploy_spec (spec : forall o : edge_op, edge -> edge_ret o -> edge -> Prop) :=
  sum_spec (X := EdgeSig) (Y := ServiceSig) spec
    (sum_spec (X := CmdSig) cmd_spec (sum_spec (X := PostSig) (Y := MockSig) post_spec mock_spec)).

(** The edge with other logs. *)
Definition relog (wl : list wg_call) (dl : list dns_call) (ml : list SentMail) (e : edge) : edge :=
  {| kv := kv e; scans := scans e; wg_log := wl; dns_log := dl; mails := ml;
     fws := fws e; clock := clock e |}.

(** An acknowledged call on the interface. *)
Definition apply_wg (c : wg_call) (i : Iface) : Iface :=
  match c with
  | WgAdded ip pk =>
      MkIface ((pk, (ip ++ "/32")%string) :: take_ip (ip ++ "/32") (drop_peer pk (peers i)))
        (iface_key i)
  | WgRemoved pk => MkIface (drop_peer pk (peers i)) (iface_key i)
  | WgPrivateKey key => MkIface (peers i) (trim (key ++ String nl ""))
  end.

Definition replay (l : list wg_call) (i : Iface) : Iface := fold_left (fun i c => apply_wg c i) l i.

(** What a mock's memory says of the calls it was given. *)
Definition wg_seen (l : list wg_call) : Mock.MockWgClient :=
  Mock.MkMock (omap (fun c => match c with WgAdded ip pk => Some (ip, pk) | _ => None end) l)
    (omap (fun c => match c with WgRemoved pk => Some pk | _ => None end) l)
    (omap (fun c => match c with WgPrivateKey k => Some k | _ => None end) l).

Definition dns_seen (l : list dns_call) (m : MockDns.MockDnsApiClient) : Prop :=
  MockDns.upserts m = omap (fun c => match c with DnsUpserted n ip => Some (n, ip) | _ => None end) l /\
  MockDns.removes m = omap (fun c => match c with DnsRemoved n => Some n | _ => None end) l.

(** What the edge that the control plane is specified over shows of the deployed
    services, which started from an interface and a post office. *)
Definition backed `{!LettreLaws} (cl : clients) (i0 : Iface) (po0 : Post) (s : edge)
    (t : deployed) : Prop :=
  let '(e, (i, (po, mk))) := t in
  s = relog (wg_log s) (dns_log s) (mails s) e /\
  Forall2 (carries (send := send (mailer_of cl))) (outbox (send := send (mailer_of cl)) po)
    (mails s) /\
  outbox (send := send (mailer_of cl)) po0 `prefix_of` outbox (send := send (mailer_of cl)) po /\
  match cl with
  | Live _ => i = replay (wg_log s) i0 /\ dns_log s = dns_log e
  | Dummy => i = i0 /\ at_wg mk = wg_seen (wg_log s) /\ dns_seen (dns_log s) (at_dns mk)
  end.
End Deploy.

(** Whatever the outbox held, it holds from now on. *)
Lemma backed_now `{LT : Lettre} `{!LettreLaws} cl i0 po0 s e i po mk :
  backed cl i0 po0 s (e, (i, (po, mk))) -> backed cl i0 po s (e, (i, (po, mk))).
Proof. intros (Hs & Hm & _ & Hc). by split_and!. Qed.

(** ** The clients carry the operations out *)

(** The operations of the three traits. *)
Definition client_op (o : edge_op) : bool :=
  match o with
  | WgAddPeer _ _ | WgRemovePeer _ | WgSetPrivateKey _
  | DnsUpsertAaaa _ _ | DnsRemoveAaaa _ | MailSend _ _ _ => true
  | _ => false
  end.

(** A specification of the world in which the client operations are logged when they are
    acknowledged, and the others do not see the logs. *)
Class Logs (spec : forall o : edge_op, edge -> edge_ret o -> edge -> Prop) := {
  logs_local o e r e' wl dl ml :
    client_op o = false -> spec o e r e' -> spec o (relog wl dl ml e) r (relog wl dl ml e');
  logs_quiet o e r e' : client_op o = false -> spec o e r e' -> dns_log e' = dns_log e;
  logs_wg c s r s' :
    acked r (log_wg (wg_logged c)) s s' ->
    match c return Result unit WgError -> Prop with
    | AddPeer ip pk => fun r => spec (WgAddPeer ip pk) s r s'
    | RemovePeer pk => fun r => spec (WgRemovePeer pk) s r s'
    | SetPrivateKey key => fun r => spec (WgSetPrivateKey key) s r s'
    end r;
  logs_upsert n ip s r s' :
    acked r (log_dns (DnsUpserted n ip)) s s' <-> spec (DnsUpsertAaaa n ip) s r s';
  logs_remove n s r s' :
    acked r (log_dns (DnsRemoved n)) s s' <-> spec (DnsRemoveAaaa n) s r s';
  logs_mail to subj body s r s' :
    taken r (log_mail (MkMail to subj body)) s s' -> spec (MailSend to subj body) s r s';
}.

Lemma relog_eta s : s = relog (wg_log s) (dns_log s) (mails s) s.
Proof. by destruct s. Qed.

#[export] Instance edge_logs verify : Logs (edge_spec verify).
Proof.
  split; try done; [| |by intros []].
  2:{ intros o e r e' Ho. destruct o; try done; cbn -[redis_apply]; try (by intros ->);
        [|naive_solver..]. destruct c; unfold redis_spec, scan_spec; naive_solver. }
  intros o e r e' wl dl ml Ho. destruct o; try done; cbn -[redis_apply]; try by intros ->.
  - destruct c as [| | | | | | | | | | | | |cur pat]; unfold redis_spec; cbn -[redis_apply];
      try (intros [(er & -> & [-> | ->])|[-> ->]]; [left; eauto|left; eauto|by right]).
    intros [(er & -> & ->)|(next & page & rest & owed & -> & Howed & Hp & Hf & Hz & ->)];
      [left; eauto|right; exists next, page, rest, owed; done].
  - by intros (? & ? & ->).
  - by intros [? ->].
  - by intros [? ->].
  - intros (t & ? & ? & ->). by exists t.
  - by intros [-> ->].
Qed.

#[export] Instance healthy_logs verify : Logs (healthy_spec verify).
Proof.
  split; unfold healthy_spec; try done; [| | |by intros; split; [|naive_solver]..].
  - intros o e r e' wl dl ml Ho [Hr Hh].
    split; [by apply (logs_local (spec := edge_spec verify))|].
    destruct o; try done. destruct c; cbn -[redis_apply] in *; try done;
      destruct Hh as [-> ->]; done.
  - intros o e r e' Ho [Hr _]. by eapply (logs_quiet (spec := edge_spec verify)).
  - by intros [] s r s' H.
Qed.

(** *** The interface *)

Lemma wp_real_wg c i :
  wp (X := CmdSig) cmd_spec (real_wg c)
    (fun o i' => exists r, o = Done r /\
       i' = match r with Ok _ => apply_wg (wg_logged c) i | Err _ => i end) i.
Proof.
  destruct c; cbn; intros [out|e] i'; cbn; try (intros ->; by eexists);
    unfold checked; destruct (status_success out);
    try (intros ->; by eexists); intros [= <-]; by eexists.
Qed.

Lemma replay_app l1 l2 i : replay (l1 ++ l2) i = replay l2 (replay l1 i).
Proof. apply fold_left_app. Qed.

(** No peer is configured twice. *)
Definition peers_once (i : Iface) : Prop := NoDup (peers i).*1.

Lemma drop_peer_keys pk l q : q ∈ (drop_peer pk l).*1 <-> q ∈ l.*1 /\ q <> pk.
Proof.
  unfold drop_peer. rewrite !list_elem_of_fmap. split.
  - intros ([q' a] & -> & Hin). apply list_elem_of_In, filter_In in Hin as [Hin Hne]. cbn in *.
    rewrite negb_true_iff, bool_decide_eq_false in Hne. split; [|done].
    exists (q', a). split; [done|by apply list_elem_of_In].
  - intros [([q' a] & -> & Hin) Hne]. exists (q', a). split; [done|].
    apply list_elem_of_In, filter_In. split; [by apply list_elem_of_In|].
    by rewrite negb_true_iff, bool_decide_eq_false.
Qed.

Lemma drop_peer_nodup pk l : NoDup l.*1 -> NoDup (drop_peer pk l).*1.
Proof.
  induction l as [|[q a] l IH]; [done|]. rewrite fmap_cons, NoDup_cons. intros [Hq Hl].
  change (drop_peer pk ((q, a) :: l))
    with (if negb (bool_decide (q = pk)) then (q, a) :: drop_peer pk l else drop_peer pk l).
  destruct (negb _); [|auto]. rewrite fmap_cons. constructor; [|auto].
  rewrite drop_peer_keys. by intros [].
Qed.

Lemma take_ip_keys ip l : (take_ip ip l).*1 = l.*1.
Proof.
  unfold take_ip. induction l as [|[q a] l IH]; cbn; [done|].
  by case_bool_decide; cbn; f_equal.
Qed.

Lemma apply_wg_once c i : peers_once i -> peers_once (apply_wg c i).
Proof.
  unfold peers_once. intros H. destruct c; cbn; [|by apply drop_peer_nodup|done].
  rewrite take_ip_keys. constructor; [|by apply drop_peer_nodup].
  rewrite drop_peer_keys. by intros [_ []].
Qed.

Lemma replay_once l i : peers_once i -> peers_once (replay l i).
Proof. unfold replay. revert i. induction l; cbn; auto using apply_wg_once. Qed.

(** The address belongs to the peer it was last given to. *)
Lemma added_owns ip pk i q :
  (q, (ip ++ "/32")%string) ∈ peers (apply_wg (WgAdded ip pk) i) <-> q = pk.
Proof.
  cbn. rewrite elem_of_cons. split; [|intros ->; by left].
  intros [[= ->]|Hin]; [done|]. unfold take_ip in Hin.
  apply list_elem_of_In, in_map_iff in Hin as ([q' a] & Heq & _). cbn in Heq.
  case_bool_decide as Ha; injection Heq as -> Heq; [by destruct ip|by destruct Ha].
Qed.

(** *** The mocks *)

Lemma wg_seen_snoc l c m :
  m = wg_seen l -> exists m', mock_wg c m = (Ok tt, m') /\ m' = wg_seen (l ++ [wg_logged c]).
Proof.
  intros ->. unfold wg_seen. rewrite !omap_app.
  destruct c; cbn; (eexists; split; [done|]); by rewrite ?app_nil_r.
Qed.

Lemma dns_seen_upsert l n ip m :
  dns_seen l m ->
  let r := MockDns.upsert_aaaa n ip m in
  dns_seen (match fst r with Ok _ => l ++ [DnsUpserted n ip] | Err _ => l end) (snd r).
Proof.
  intros [Hu Hr]. unfold MockDns.upsert_aaaa. destruct (MockDns.fail_upsert m); cbn; [done|].
  unfold dns_seen. cbn. by rewrite !omap_app, Hu, Hr, app_nil_r.
Qed.

Lemma dns_seen_remove l n m :
  dns_seen l m -> dns_seen (l ++ [DnsRemoved n]) (snd (MockDns.remove_aaaa n m)).
Proof. intros [Hu Hr]. unfold dns_seen. cbn. by rewrite !omap_app, Hu, Hr, app_nil_r. Qed.

(** *** Where a service's program runs *)

Section CarriesOut.
Context `{LT : Lettre} `{!LettreLaws} (spec : forall o : edge_op, edge -> edge_ret o -> edge -> Prop).
Context `{!Logs spec} (cl : clients) (i0 : Iface) (po0 : Post).

Lemma wp_on_cmd {A} (p : prog CmdSig A) Q e i t :
  wp (X := CmdSig) cmd_spec p (fun o i' => Q o (e, (i', t))) i ->
  wp (X := DeploySig) (deploy_spec spec) (on_cmd p) Q (e, (i, t)).
Proof. intros Hp. by apply wp_inr, wp_inl. Qed.

Lemma wp_on_post {A} (p : prog PostSig A) Q e i po mk :
  wp (X := PostSig) post_spec p (fun o po' => Q o (e, (i, (po', mk)))) po ->
  wp (X := DeploySig) (deploy_spec spec) (on_post p) Q (e, (i, (po, mk))).
Proof. intros Hp. by apply wp_inr, wp_inr, wp_inl. Qed.

Lemma wp_on_mock o Q e i po mk :
  (forall r mk', mock_spec o mk r mk' -> Q (Done r) (e, (i, (po, mk')))) ->
  wp (X := DeploySig) (deploy_spec spec) (on_mock o) Q (e, (i, (po, mk))).
Proof. intros Hp. apply wp_inr, wp_inr, wp_inr. exact Hp. Qed.

(** The clients carry out every operation of the control plane. *)
Lemma carries_out_wg c s t :
  backed cl i0 po0 s t ->
  wp (X := DeploySig) (deploy_spec spec) (wg_of cl c)
    (fun out t' => exists r s', out = Done r /\ acked r (log_wg (wg_logged c)) s s' /\
                                backed cl i0 po0 s' t') t.
Proof.
  destruct t as (e & i & po & mk). intros (Hs & Hm & Hg & Hc). destruct cl as [m|].
  - destruct Hc as [-> Hd]. apply wp_on_cmd. eapply wp_mono; [|apply wp_real_wg].
    intros o i' (r & -> & ->). destruct r as [u|er].
    + exists (Ok u), (log_wg (wg_logged c) s). split; [done|]. split; [done|].
      cbn [backed]. split_and!; [|done|done|by cbn [wg_log log_wg]; rewrite replay_app|done].
      rewrite Hs. by cbn.
    + exists (Err er), s. done.
  - destruct Hc as (-> & Hw & Hd). apply wp_on_mock. cbn. intros r mk' [-> ->].
    destruct (wg_seen_snoc _ c _ Hw) as (m' & -> & Hm').
    exists (Ok tt), (log_wg (wg_logged c) s). split; [done|]. split; [done|].
    split; [rewrite Hs; by cbn|]. split; [exact Hm|]. split; [exact Hg|]. split; [done|]. by split.
Qed.

Lemma carries_out_upsert n ip s t :
  backed cl i0 po0 s t ->
  wp (X := DeploySig) (deploy_spec spec) (handle cl (DnsUpsertAaaa n ip))
    (fun out t' => exists r s', out = Done r /\ acked r (log_dns (DnsUpserted n ip)) s s' /\
                                backed cl i0 po0 s' t') t.
Proof.
  destruct t as (e & i & po & mk). intros (Hs & Hm & Hg & Hc). cbn [handle]. destruct cl as [m|].
  - intros r [e' t'] [Hr Ht]. cbn in Hr, Ht. subst t'. apply logs_upsert in Hr.
    destruct Hc as [-> Hd]. exists r. destruct r as [u|er]; cbn in Hr; subst e'.
    + exists (log_dns (DnsUpserted n ip) s). split; [done|]. split; [done|].
      split; [by rewrite Hs|]. split; [exact Hm|]. split; [exact Hg|]. split; [done|]. cbn. by rewrite Hd.
    + by exists s.
  - destruct Hc as (-> & Hw & Hd). apply wp_on_mock. cbn. intros r mk' [-> ->].
    pose proof (dns_seen_upsert _ n ip _ Hd) as Hd'.
    destruct (MockDns.upsert_aaaa n ip (at_dns mk)) as [r m'] eqn:E. cbn in *. exists r.
    destruct r as [[]|er]; [exists (log_dns (DnsUpserted n ip) s)|exists s];
      (split; [done|]); (split; [done|]); (split; [by rewrite Hs|]); (split; [exact Hm|]); (split; [exact Hg|]); by split_and!.
Qed.

Lemma carries_out_remove n s t :
  backed cl i0 po0 s t ->
  wp (X := DeploySig) (deploy_spec spec) (handle cl (DnsRemoveAaaa n))
    (fun out t' => exists r s', out = Done r /\ acked r (log_dns (DnsRemoved n)) s s' /\
                                backed cl i0 po0 s' t') t.
Proof.
  destruct t as (e & i & po & mk). intros (Hs & Hm & Hg & Hc). cbn [handle]. destruct cl as [m|].
  - intros r [e' t'] [Hr Ht]. cbn in Hr, Ht. subst t'. apply logs_remove in Hr.
    destruct Hc as [-> Hd]. exists r. destruct r as [u|er]; cbn in Hr; subst e'.
    + exists (log_dns (DnsRemoved n) s). split; [done|]. split; [done|].
      split; [by rewrite Hs|]. split; [exact Hm|]. split; [exact Hg|]. split; [done|]. cbn. by rewrite Hd.
    + by exists s.
  - destruct Hc as (-> & Hw & Hd). apply wp_on_mock. cbn. intros r mk' [-> ->].
    exists (Ok tt), (log_dns (DnsRemoved n) s). split; [done|]. split; [done|].
    split; [by rewrite Hs|]. split; [exact Hm|]. split; [exact Hg|]. split_and!; [done|done|]. by apply dns_seen_remove.
Qed.

Lemma carries_out_mail to subj body s t :
  backed cl i0 po0 s t ->
  wp (X := DeploySig) (deploy_spec spec) (handle cl (MailSend to subj body))
    (fun out t' => exists r s', out = Done r /\ taken r (log_mail (MkMail to subj body)) s s' /\
                                backed cl i0 po0 s' t') t.
Proof.
  destruct t as (e & i & po & mk). intros (Hs & Hm & Hg & Hc). apply wp_on_post.
  eapply wp_mono; [|apply send_spec]. intros o po' Ho.
  assert (forall x, outbox (send := send (mailer_of cl)) po' = outbox (send := send (mailer_of cl)) po ++ [x] ->
            carries x (MkMail to subj body) ->
            backed cl i0 po0 (log_mail (MkMail to subj body) s) (e, (i, (po', mk)))) as Htaken.
  { intros x Hx Hcar. split; [by rewrite Hs|]. rewrite Hx.
    split; [|split; [by apply prefix_app_r|by destruct cl]].
    cbn [mails log_mail]. apply Forall2_app; [done|]. by repeat constructor. }
  destruct o as [[[]|er]| |]; [| |done..].
  - destruct Ho as (x & Hx & Hcar). exists (Ok tt), (log_mail (MkMail to subj body) s).
    do 2 (split; [done|]). by eapply Htaken.
  - destruct Ho as [Ho|(x & Hx & Hcar)]; [exists (Err er), s|exists (Err er), (log_mail (MkMail to subj body) s)].
    + split; [done|]. split; [by left|]. split; [done|]. by rewrite Ho.
    + split; [done|]. split; [by right|]. by eapply Htaken.
Qed.

(** What was acknowledged and logged is what the specification asks for. *)
Local Ltac carried L spec_of :=
  eapply wp_mono; [|by apply L];
  let r := fresh "r" in let s' := fresh "s'" in
  intros ? ? (r & s' & -> & Ha & Hb'); exists r, s';
  split; [done|]; split; [by apply spec_of|done].

(** Every operation of the control plane is carried out. *)
Lemma clients_carry_out : carries_out (X := EdgeSig) (backed cl i0 po0) spec (deploy_spec spec) (handle cl).
Proof.
  intros o s t Hb.
  destruct (client_op o) eqn:Ho.
  - destruct o; try done;
      [carried (carries_out_wg (AddPeer wg_ip pubkey)) (logs_wg (AddPeer wg_ip pubkey))
      |carried (carries_out_wg (RemovePeer pubkey)) (logs_wg (RemovePeer pubkey))
      |carried (carries_out_wg (SetPrivateKey key)) (logs_wg (SetPrivateKey key))
      |carried carries_out_upsert (fun n ip s r s' => proj1 (logs_upsert n ip s r s'))
      |carried carries_out_remove (fun n s r s' => proj1 (logs_remove n s r s'))
      |carried carries_out_mail logs_mail].
  - assert (handle cl o = @call DeploySig (inl o)) as -> by (by destruct o).
    destruct t as (e & i & po & mk). destruct Hb as (Hs & Hm & Hg & Hc).
    intros r [e' t'] [Hr Ht]. cbn in Hr, Ht. subst t'.
    exists r, (relog (wg_log s) (dns_log s) (mails s) e'). split; [done|].
    split; [rewrite Hs; by apply logs_local|]. split; [done|]. split; [done|]. split; [done|].
    destruct cl; [|done]. destruct Hc as [-> Hd]. split; [done|]. cbn.
    by rewrite (logs_quiet _ _ _ _ Ho Hr).
Qed.

(** What the control plane establishes, a deployment establishes. *)
Lemma wp_deploy {A} (p : prog EdgeSig A) Q s t :
  backed cl i0 po0 s t -> wp (X := EdgeSig) spec p Q s ->
  wp (X := DeploySig) (deploy_spec spec) (deploy cl p)
    (fun o t' => exists s', backed cl i0 po0 s' t' /\ Q o s') t.
Proof. apply wp_interp, clients_carry_out. Qed.
End CarriesOut.
