(* ===== verification/Process.v ===== *)
(** The edge processes (controlplane/src/bin/fortress-edge.rs, site/src/main.rs):
    flags, boot, the DNS reconcile loop and how the running
    tasks end. *)

From stdpp Require Import base gmap strings list pretty.
From Stdlib Require Import ZArith Lia.
From S2P Require Import Prelude Prog Addr ForwarderState World Forwarder Crates Errors.
From S2P Require Import ControlPlane Secret Mail.

Local Open Scope prog_scope.

(** ** Flags *)

Record EdgeArgs := MkEdgeArgs {
  ea_redis_url : option string;
  ea_subnet : string;
  ea_wg_subnet : string;
  ea_addr : string;
  ea_iface : option string;
  ea_dummy : bool;
}.

Definition set_arg (addr_flag arg value : string) (a : EdgeArgs) : option EdgeArgs :=
  if bool_decide (arg = "--redis-url"%string)
  then Some (MkEdgeArgs (Some value) (ea_subnet a) (ea_wg_subnet a) (ea_addr a) (ea_iface a) (ea_dummy a))
  else if bool_decide (arg = "--subnet"%string)
  then Some (MkEdgeArgs (ea_redis_url a) value (ea_wg_subnet a) (ea_addr a) (ea_iface a) (ea_dummy a))
  else if bool_decide (arg = "--wg-subnet"%string)
  then Some (MkEdgeArgs (ea_redis_url a) (ea_subnet a) value (ea_addr a) (ea_iface a) (ea_dummy a))
  else if bool_decide (arg = addr_flag)
  then Some (MkEdgeArgs (ea_redis_url a) (ea_subnet a) (ea_wg_subnet a) value (ea_iface a) (ea_dummy a))
  else if bool_decide (arg = "--ipv6-iface"%string)
  then Some (MkEdgeArgs (ea_redis_url a) (ea_subnet a) (ea_wg_subnet a) (ea_addr a) (Some value) (ea_dummy a))
  else None.

Definition set_dummy (a : EdgeArgs) : EdgeArgs :=
  MkEdgeArgs (ea_redis_url a) (ea_subnet a) (ea_wg_subnet a) (ea_addr a) (ea_iface a) true.

(** The loop of [parse_args]: [debug] is [cfg!(debug_assertions)], the two texts
    are the binaries' own. *)
Fixpoint read_args (debug : bool) (addr_flag : string) (needs_value unknown : string -> string)
    (args : list string) (a : EdgeArgs) : Result EdgeArgs string :=
  match args with
  | [] => Ok a
  | arg :: rest =>
      if debug && bool_decide (arg = "--dummy"%string)
      then read_args debug addr_flag needs_value unknown rest (set_dummy a)
      else
        match rest with
        | [] => Err (needs_value arg)
        | value :: rest =>
            match set_arg addr_flag arg value a with
            | Some a => read_args debug addr_flag needs_value unknown rest a
            | None => Err (unknown arg)
            end
        end
  end.

Module EdgeMain.
Definition USAGE (debug : bool) : string :=
  if debug
  then "usage: fortress-edge [--dummy] --subnet /64 [--redis-url URL] [--wg-subnet NET] [--api-addr ADDR] [--ipv6-iface IFACE]"
  else "usage: fortress-edge --subnet /64 [--redis-url URL] [--wg-subnet NET] [--api-addr ADDR] [--ipv6-iface IFACE]".

Definition parse_args (debug : bool) (args : list string) : Result EdgeArgs string :=
  match read_args debug "--api-addr" (fun arg => arg ++ " requires a value")%string
          (fun _ => USAGE debug) args
          (MkEdgeArgs None "" "10.10.0.0/24" "0.0.0.0:8081" None false) with
  | Err e => Err e
  | Ok out =>
      if is_empty (ea_subnet out)
      then Err "missing --subnet (the edge box's routed subnet, e.g. 2a01:4f8:c17:1::/64)"%string
      else Ok out
  end.
End EdgeMain.

Module SiteMain.
Definition USAGE (debug : bool) : string :=
  if debug
  then "usage: fortress-site [--dummy] --subnet /64 [--redis-url URL] [--wg-subnet NET] [--addr ADDR] [--ipv6-iface IFACE]"
  else "usage: fortress-site --subnet /64 [--redis-url URL] [--wg-subnet NET] [--addr ADDR] [--ipv6-iface IFACE]".

Definition parse_args (debug : bool) (args : list string) : Result EdgeArgs string :=
  match read_args debug "--addr"
          (fun arg => arg ++ " requires a value" ++ String nl (USAGE debug))%string
          (fun other => "unknown flag " ++ other ++ String nl (USAGE debug))%string args
          (MkEdgeArgs None "" "10.10.0.0/24" "0.0.0.0:8082" None false) with
  | Err e => Err e
  | Ok out =>
      if is_empty (ea_subnet out)
      then Err ("missing --subnet (the edge box's routed subnet, e.g. 2a01:4f8:c17:1::/64)"
                  ++ String nl (USAGE debug))%string
      else Ok out
  end.
End SiteMain.

(** ** Boot *)

Section Boot.
Context `{CR : Crates} `{SM : Serde Machine} `{LT : Lettre}.
(** What the secrets library resolves ([None]: it fails). *)
Context (secrets : option SecretSpecProfile).

Definition store_url {A} (args : EdgeArgs) (k : string -> prog EdgeSig A) : prog EdgeSig A :=
  match ea_redis_url args, ea_dummy args with
  | Some url, _ => k url
  | None, true => k "redis://127.0.0.1:6379"%string
  | None, false => url <- redis_url secrets ;; k url
  end.

(** [init_globals], the mailer included: the globals, the mailer, the result. *)
Definition init_process (url : string) (sub : Subnet64) (wgsub : WgSubnet)
    (iface : option string) (dummy : bool)
    : prog EdgeSig (Globals * option Mailer * Result unit ControlPlaneError) :=
  let g := MkGlobals None None in
  if dummy
  then
    let cell := init_console_mailer None in
    r <- init_globals g url sub wgsub iface true "" "" ;;
    Ret (fst r, cell, snd r)
  else
    domain <- secret_root_domain secrets ;;
    hetzner_from_secrets secrets ;;;
    m <- init_mailer secrets None ;;
    match m with
    | (_, Err _) => Panic "mailer init: configured SMTP relay must build"
    | (cell, Ok _) =>
        key <- wg_private_key secrets ;;
        r <- init_globals g url sub wgsub iface false domain key ;;
        Ret (fst r, cell, snd r)
    end.

(** A main up to the point where it serves: the globals, the mailer and the address
    it will bind.  The texts around the errors are the binaries' own. *)
Definition boot (subnet_err wg_err init_err : string -> string)
    (parsed : Result EdgeArgs string)
    : prog EdgeSig (Result (Globals * option Mailer * string) string) :=
  match parsed with
  | Err e => Ret (Err e)
  | Ok args =>
      match @from_str Ipv6Addr _ (ea_subnet args), @from_str Ipv4Addr _ (ea_wg_subnet args) with
      | Err e, _ => Ret (Err (subnet_err e))
      | _, Err e => Ret (Err (wg_err e))
      | Ok subnet, Ok wg_subnet =>
          store_url args (fun url =>
            r <- init_process url subnet wg_subnet (ea_iface args) (ea_dummy args) ;;
            Ret (match r with
                 | (g, mailer, Ok _) => Ok (g, mailer, ea_addr args)
                 | (_, _, Err e) => Err (init_err (cp_error_display e))
                 end))
      end
  end.

Definition edge_boot (debug : bool) (argv : list string)
    : prog EdgeSig (Result (Globals * option Mailer * string) string) :=
  boot (fun e => e) (fun e => e) (fun e => "control plane init: " ++ e)%string
    (EdgeMain.parse_args debug argv).

Definition site_boot (debug : bool) (argv : list string)
    : prog EdgeSig (Result (Globals * option Mailer * string) string) :=
  boot (fun e => "--subnet: " ++ e)%string (fun e => "--wg-subnet: " ++ e)%string (fun e => e)
    (SiteMain.parse_args debug argv).
End Boot.

(** ** The reconcile loop *)

(** Seconds since boot.  A sleep that has elapsed stays ready; the interval's
    first tick is due at once, and a late tick puts the next one a period after
    itself ([MissedTickBehavior::Delay]).  Where two branches of a [select!] are
    ready at the same time either is taken. *)
Definition FIRST_PASS : Z := 30.
Definition PERIOD : Z := 7200.

(** The branch due at [a] may be taken before the one due at [b], polled from
    [now] on; [None] is never due. *)
Definition may_win (now : Z) (a b : option Z) : Prop :=
  match a, b with
  | None, _ => False
  | Some _, None => True
  | Some a, Some b => (Z.max now a <= Z.max now b)%Z
  end.

(** The passes (start, duration) of the loop from [now] on, the next tick due at
    [tick], the shutdown signal at [stop]. *)
Inductive reconcile_loop (stop : option Z) : Z -> Z -> list (Z * Z) -> Prop :=
| loop_stopped now tick :
    may_win now stop (Some FIRST_PASS) -> reconcile_loop stop now tick []
| loop_last now tick start d :
    may_win now (Some FIRST_PASS) stop -> start = Z.max now FIRST_PASS -> (0 <= d)%Z ->
    may_win (start + d) stop (Some tick) ->
    reconcile_loop stop now tick [(start, d)]
| loop_pass now tick start d at_ l :
    may_win now (Some FIRST_PASS) stop -> start = Z.max now FIRST_PASS -> (0 <= d)%Z ->
    may_win (start + d) (Some tick) stop -> at_ = Z.max (start + d) tick ->
    reconcile_loop stop at_ (at_ + PERIOD) l ->
    reconcile_loop stop now tick ((start, d) :: l)
| loop_running now tick : reconcile_loop stop now tick [].   (** observed until here *)

(** ** The running tasks *)

(** How a task ended. *)
Inductive TaskEnd := TaskDone | TaskPanicked.

(** The three tasks of an edge process and its shutdown channel: signalled, or
    closed because the task that held the sender is gone. *)
Record Tasks := MkTasks {
  t_api : option TaskEnd;
  t_reconcile : option TaskEnd;
  t_signal : option TaskEnd;
  t_stopped : bool;
}.

Definition tasks_start : Tasks := MkTasks None None None false.

Inductive task_event :=
| ApiBindFailed | ApiServerFailed | ApiDrained | ApiPanicked
| ReconcileStopped | ReconcilePanicked
| SignalReceived | SignalPanicked.

(** One event of a fortress-edge process; [None] where it cannot happen. *)
Definition task_step (e : task_event) (t : Tasks) : option Tasks :=
  match e, t with
  | (ApiBindFailed | ApiServerFailed), MkTasks None r s st => Some (MkTasks (Some TaskDone) r s st)
  | ApiDrained, MkTasks None r s true => Some (MkTasks (Some TaskDone) r s true)
  | ApiPanicked, MkTasks None r s st => Some (MkTasks (Some TaskPanicked) r s st)
  | ReconcileStopped, MkTasks a None s true => Some (MkTasks a (Some TaskDone) s true)
  | ReconcilePanicked, MkTasks a None s st => Some (MkTasks a (Some TaskPanicked) s st)
  | SignalReceived, MkTasks a r None _ => Some (MkTasks a r (Some TaskDone) true)
  | SignalPanicked, MkTasks a r None _ => Some (MkTasks a r (Some TaskPanicked) true)
  | _, _ => None
  end.

Fixpoint task_run (l : list task_event) (t : Tasks) : option Tasks :=
  match l with
  | [] => Some t
  | e :: l => t ← task_step e t; task_run l t
  end.

(** [try_join!] of the three handles: the exit status of fortress-edge. *)
Definition edge_exit (t : Tasks) : option Z :=
  if existsb (fun e => match e with Some TaskPanicked => true | _ => false end)
       [t_api t; t_reconcile t; t_signal t]
  then Some 1%Z
  else match t with MkTasks (Some _) (Some _) (Some _) _ => Some 0%Z | _ => None end.

(** fortress-site serves in its main task: a bind or server error is its result,
    and what became of the two others is not looked at. *)
Definition site_exit (served : bool) (t : Tasks) : option Z :=
  match t_api t with
  | None => None
  | Some TaskPanicked => Some 101%Z
  | Some TaskDone =>
      if negb served then Some 1%Z
      else match t with MkTasks _ (Some _) (Some _) _ => Some 0%Z | _ => None end
  end.
