(* ===== verification/Site.v ===== *)
(** The site (crates/site): the account bridge (account.rs), the pages
    (pages/auth.rs, pages/machines.rs, pages/home.rs, pages/docs.rs) and the
    machine API on axum (api.rs).  The router's extractors are the arguments of
    the handlers: a parsed form, a parsed query ([None] where it does not parse),
    the decoded path parameter.  The markup this crate writes itself is modelled
    to the character; the shared components of web-ui are named with their
    properties, as in Web.v. *)

From stdpp Require Import base gmap strings list pretty.
From Stdlib Require Import ZArith Ascii.
From S2P Require Import Prelude Prog Addr ForwarderState World Forwarder Crates Errors.
From S2P Require Import ControlPlane Account Invite Box Web Api.

Local Open Scope prog_scope.

(** ** The backend *)

(** The mailer is the mail operation of the world. *)
Record SiteBackend := MkSiteBackend { sb_cp : ControlPlane }.

(** ** The account bridge *)

Inductive SessionState := Anonymous | LoggedIn (email : string).

Module Bridge.
Inductive SignupOutcome := Created | SignupError (code : string).
Inductive LoginOutcome := LoginOk (cookie : string) | NeedsVerification | LoginError (code : string).
Inductive VerifyOutcome := Activated | VerifyInvalid.
Inductive ForgotOutcome := Sent | UnknownEmail | ForgotError (code : string).
Inductive ResetOutcome := ResetDone | ResetInvalid.
Inductive ResendOutcome := Resent | ResendActive | ResendUnknown.
Inductive InviteCreateOutcome := InviteMade (code : string) | InviteCreateError (code : string).
Inductive InviteDecisionOutcome := DecisionDone | DecisionError (code : string).

Definition error_code (err : AccountError) : string :=
  match err with
  | AccNotVerified _ => "needs_verify"
  | AccDuplicateEmail _ => "exists"
  | AccNotFound => "unknown"
  | AccInvalidCredentials => "bad_credentials"
  | AccInvalidToken => "invalid_token"
  | AccMail _ => "mail_failed"
  | AccInvalidEmail _ | AccInvalidPassword _ | AccCorrupt _ | AccRedis _ => "failed"
  end.

Definition invite_error_code (err : InviteError) : string :=
  match err with
  | InvNameTaken _ => "name_taken"
  | InvInvalidName _ => "invalid_name"
  | InvNotWaiting _ => "not_waiting"
  | InvNotBegun _ => "not_begun"
  | InvInvalidCode _ => "invalid_code"
  | InvUnknown _ | InvForbidden _ | InvInvalidPubkey _ | InvCorrupt _ | InvAccount _
  | InvRedis _ => "failed"
  end.

Section Bridge.
Context `{CR : Crates} `{SM : Serde Machine} `{SA : Serde AccountRecord}.
Context `{SI : Serde InviteRecord} `{SD : Serde EnrollmentDelivery}.
Context (WORDS : list string) (FORWARDER : option Forwarder) (fuel : nat).
Context (backend : SiteBackend).

Definition current_session (req : Request) : prog EdgeSig SessionState :=
  match read_cookie req SESSION_COOKIE with
  | None => Ret Anonymous
  | Some token =>
      r <- session_account token ;;
      Ret (match r with Ok (Some email) => LoggedIn email | _ => Anonymous end)
  end.

Definition signup (email password : string) : prog EdgeSig SignupOutcome :=
  r <- account_signup (sb_cp backend) email password ;;
  Ret (match r with Ok _ => Created | Err err => SignupError (error_code err) end).

Definition verify (token : string) : prog EdgeSig VerifyOutcome :=
  r <- account_verify token ;;
  Ret (match r with Ok _ => Activated | Err _ => VerifyInvalid end).

Definition login (email password : string) : prog EdgeSig LoginOutcome :=
  r <- account_login email password ;;
  match r with
  | Ok token =>
      expect (session_cookie_header token) "session cookie header is valid" (fun v =>
        Ret (LoginOk v))
  | Err (AccNotVerified _) => Ret NeedsVerification
  | Err err => Ret (LoginError (error_code err))
  end.

Definition logout (req : Request) : prog EdgeSig string :=
  match read_cookie req SESSION_COOKIE with
  | Some token => account_logout token ;;; Ret tt
  | None => Ret tt
  end ;;;
  Ret clear_session_cookie_header.

Definition forgot (email : string) : prog EdgeSig ForgotOutcome :=
  r <- request_password_reset (sb_cp backend) email ;;
  Ret (match r with
       | Ok ResetSent => Sent
       | Ok ResetUnknownEmail => UnknownEmail
       | Err err => ForgotError (error_code err)
       end).

Definition reset (token password : string) : prog EdgeSig ResetOutcome :=
  r <- reset_password token password ;;
  Ret (match r with Ok _ => ResetDone | Err _ => ResetInvalid end).

Definition resend (email : string) : prog EdgeSig ResendOutcome :=
  r <- resend_verification (sb_cp backend) email ;;
  Ret (match r with
       | Ok ResendSent => Resent
       | Ok AlreadyActive => ResendActive
       | Ok ResendUnknownEmail => ResendUnknown
       | Err _ => ResendUnknown
       end).

Definition delete_account (email : string) : prog EdgeSig (Result unit AccountError) :=
  account_delete fuel (sb_cp backend) FORWARDER email.

Definition dashboard (email : string) (invited error : option string)
    : prog EdgeSig MachinesProps :=
  assert_ (negb (is_empty email)) "the dashboard needs a signed-in account" (
  ms <- machines_of email ;;
  invs <- invites_of fuel email ;;
  root_domain (sb_cp backend) (fun domain =>
    Ret (machines_props (unwrap_or_nil ms) (unwrap_or_nil invs) invited domain error))).

Definition create_invite (email : string) : prog EdgeSig InviteCreateOutcome :=
  r <- invite_create WORDS email ;;
  Ret (match r with
       | Ok code => InviteMade code
       | Err err => InviteCreateError (invite_error_code err)
       end).

(** The outcome of the owner's decisions. *)
Definition decision {A} (r : Result A InviteError) : InviteDecisionOutcome :=
  match r with Ok _ => DecisionDone | Err err => DecisionError (invite_error_code err) end.

Definition approve_invite (email code name : string) : prog EdgeSig InviteDecisionOutcome :=
  r <- invite_approve WORDS (sb_cp backend) FORWARDER email code name ;; Ret (decision r).
Definition deny_invite (email code : string) : prog EdgeSig InviteDecisionOutcome :=
  r <- invite_deny WORDS email code ;; Ret (decision r).
Definition revoke_invite (email code : string) : prog EdgeSig InviteDecisionOutcome :=
  r <- invite_revoke WORDS email code ;; Ret (decision r).

Definition signed_in_email (req : Request) : prog EdgeSig (option string) :=
  session <- current_session req ;;
  Ret (match session with LoggedIn email => Some email | Anonymous => None end).
End Bridge.
End Bridge.

(** ** Markup *)

(** A quoted attribute value. *)
Definition q (s : string) : string := String dquote (s ++ String dquote "")%string.

Module Markup.
Definition field (label input : string) : string :=
  "<label class=" ++ q "block" ++ "><div class=" ++ q "tag dim mb-1" ++ ">" ++ label
    ++ "</div>" ++ input ++ "</label>".

Definition text_input (name kind : string) : string :=
  let autocomplete := if bool_decide (kind = "password"%string)
                      then "current-password"%string else "email"%string in
  "<input class=" ++ q "zine-input" ++ " type=" ++ q kind ++ " name=" ++ q name
    ++ " autocomplete=" ++ q autocomplete ++ " required />".

Definition submit (label : string) : string :=
  "<button type=" ++ q "submit" ++ " class=" ++ q "btn-zine btn-zine-red" ++ ">" ++ label
    ++ "</button>".

Definition form (action : string) (fields : list string) : string :=
  "<form class=" ++ q "flex flex-col gap-4" ++ " method=" ++ q "post" ++ " action="
    ++ q action ++ ">" ++ String.concat "" fields ++ "</form>".

Definition auth_shell (title : string) (banner : option string) (body : string) : string :=
  let banner_html := match banner with
                     | Some message =>
                         ("<div role=" ++ q "alert" ++ " class=" ++ q "alert-zine" ++ ">"
                            ++ message ++ "</div>")%string
                     | None => ""%string
                     end in
  "<main class=" ++ q "mx-auto flex max-w-md flex-col gap-4 p-6" ++ "><h1 class="
    ++ q "text-2xl font-black uppercase" ++ ">" ++ title ++ "</h1>" ++ banner_html ++ body
    ++ "</main>".

Definition hidden_token (token : string) : string :=
  "<input type=" ++ q "hidden" ++ " name=" ++ q "token" ++ " value=" ++ q token ++ " />".

Definition email_prefill (prefill : string) : string :=
  "<input class=" ++ q "zine-input" ++ " type=" ++ q "email" ++ " name=" ++ q "email"
    ++ " value=" ++ q prefill ++ " required />".

Definition link (cls href text : string) : string :=
  "<a class=" ++ q cls ++ " href=" ++ q href ++ ">" ++ text ++ "</a>".

Definition dim_p (s : string) : string := "<p class=" ++ q "text-sm dim" ++ ">" ++ s ++ "</p>".

Definition join_html (code : string) : string :=
  "<main class=" ++ q "mx-auto flex max-w-md flex-col gap-4 p-6" ++ "><h1 class="
    ++ q "text-2xl font-black uppercase" ++ ">Join Fortress</h1><p>On the box, open its dashboard and paste this invite URL into Remote access. The box then registers itself and downloads its tunnel configuration.</p>"
    ++ dim_p ("Invite code <code>" ++ code ++ "</code> is single-use and expires in 30 days.")
    ++ dim_p ("Not a machine? " ++ link "link-zine" "/register" "Create an account" ++ ".")
    ++ "</main>".
End Markup.

(** ** Responses *)

Inductive SiteBody :=
| NoBody
| Html (html : string)                       (** [Unescaped::new_unchecked] *)
| Component (p : Page).                      (** [landing_html], [machines_html] *)

Record SiteResponse := MkSite {
  site_status : Z;
  site_location : option string;
  site_cookie : option string;
  site_body : SiteBody;
}.

(** [topcoat::Result]: the one error the pages return is [not_found()]. *)
Inductive TcError := NotFound.
Definition TcResult := Result SiteResponse TcError.
Definition tc_status (r : TcResult) : Z :=
  match r with Ok resp => site_status resp | Err NotFound => 404 end.

Definition location_header (value : string) : option string :=
  if header_value_ok value then Some value else None.

Definition page_ok (html : string) : TcResult := Ok (MkSite 200 None None (Html html)).

(** The 303 the mutating handlers end in. *)
Definition redirect (location : string) (cookie : option string) : prog EdgeSig TcResult :=
  expect (location_header location) "redirect location is a valid header value" (fun v =>
    Ret (Ok (MkSite 303 (Some v) cookie NoBody))).

(** ** Queries *)

Record AuthQuery := MkAuthQuery {
  aq_error : option string;
  aq_check : option string;
  aq_verified : option string;
  aq_reset : option string;
  aq_sent : option string;
}.
Record TokenQuery := MkTokenQuery { tq_token : option string; tq_error : option string }.
Record ResendQuery := MkResendQuery {
  rq_email : option string;
  rq_error : option string;
  rq_sent : option string;
}.
Record AccountQuery := MkAccountQuery { cq_error : option string; cq_deleted : option string }.
Record MachinesQuery := MkMachinesQuery { mq_invited : option string; mq_error : option string }.

Definition auth_query (q : option AuthQuery) : AuthQuery :=
  default (MkAuthQuery None None None None None) q.
Definition token_query (q : option TokenQuery) : TokenQuery := default (MkTokenQuery None None) q.
(** [ResetQuery] has the fields of [TokenQuery]. *)
Definition reset_query (q : option TokenQuery) : TokenQuery := default (MkTokenQuery None None) q.
Definition resend_query (q : option ResendQuery) : ResendQuery :=
  default (MkResendQuery None None None) q.
Definition account_query (q : option AccountQuery) : AccountQuery :=
  default (MkAccountQuery None None) q.
Definition machines_query (q : option MachinesQuery) : MachinesQuery :=
  default (MkMachinesQuery None None) q.

(** A later assignment to [banner]. *)
Definition banner_if (flag : option string) (text : string) (banner : option string)
    : option string :=
  match flag with Some _ => Some text | None => banner end.

(** ** The account pages *)

Module AuthPages.
Definition alert (code : string) : option string :=
  assoc code [
    ("exists", "That email already has an account — log in, or reset your password.");
    ("unknown", "No account with that email — sign up first.");
    ("bad_credentials", "That email and password do not match.");
    ("needs_verify", "Verify your email first — check your inbox for the confirmation link.");
    ("invalid_token", "That link is invalid or has already been used.");
    ("mail_failed", "We could not send the email. Try again in a moment.");
    ("failed", "Something went wrong. Try again.")]%string.

Definition register_get (query : option AuthQuery) : TcResult :=
  let aq := auth_query query in
  let banner := banner_if (aq_check aq) "Check your email — we sent a confirmation link."
                  (aq_error aq ≫= alert) in
  let body := (Markup.form "/register"
                 [Markup.field "Email" (Markup.text_input "email" "email");
                  Markup.field "Password" (Markup.text_input "password" "password");
                  Markup.submit "Sign up"]
               ++ Markup.dim_p ("Already have an account? "
                                  ++ Markup.link "link-zine" "/login" "Log in"))%string in
  page_ok (Markup.auth_shell "Create an account" banner body).

Definition login_get (query : option AuthQuery) : TcResult :=
  let aq := auth_query query in
  let banner := banner_if (aq_reset aq) "Password reset — log in with the new one."
                  (banner_if (aq_verified aq) "Email verified — you can log in now."
                     (aq_error aq ≫= alert)) in
  let body := (Markup.form "/login"
                 [Markup.field "Email" (Markup.text_input "email" "email");
                  Markup.field "Password" (Markup.text_input "password" "password");
                  Markup.submit "Log in"]
               ++ Markup.dim_p (Markup.link "link-zine" "/forgot" "Forgot your password?"))%string in
  page_ok (Markup.auth_shell "Log in" banner body).

Definition forgot_get (query : option AuthQuery) : TcResult :=
  let aq := auth_query query in
  let banner := banner_if (aq_sent aq)
                  "If that address has an account, a reset link is on its way."
                  (aq_error aq ≫= alert) in
  let body := (Markup.form "/forgot"
                 [Markup.field "Email" (Markup.text_input "email" "email");
                  Markup.submit "Send reset link"]
               ++ Markup.dim_p (Markup.link "link-zine" "/login" "Back to log in"))%string in
  page_ok (Markup.auth_shell "Reset your password" banner body).

(** [q.token.as_deref().filter(|t| !t.is_empty())]. *)
Definition present (token : option string) : option string :=
  t ← token; if is_empty t then None else Some t.

Definition reset_get (query : option TokenQuery) : TcResult :=
  let tq := reset_query query in
  match present (tq_token tq) with
  | None => Err NotFound
  | Some token =>
      let body := Markup.form "/reset"
                    [Markup.hidden_token token;
                     Markup.field "New password" (Markup.text_input "password" "password");
                     Markup.submit "Set new password"] in
      page_ok (Markup.auth_shell "Choose a new password" (tq_error tq ≫= alert) body)
  end.

Definition verify_get (query : option TokenQuery) : TcResult :=
  let tq := token_query query in
  match present (tq_token tq) with
  | None => Err NotFound
  | Some token =>
      let body := Markup.form "/verify"
                    [Markup.hidden_token token; Markup.submit "Verify my email"] in
      page_ok (Markup.auth_shell "Confirm your email" (tq_error tq ≫= alert) body)
  end.

Definition resend_get (query : option ResendQuery) : TcResult :=
  let rq := resend_query query in
  let banner := banner_if (rq_sent rq) "Check your inbox for the confirmation link."
                  (rq_error rq ≫= alert) in
  let body := Markup.form "/resend"
                [Markup.field "Email" (Markup.email_prefill (default ""%string (rq_email rq)));
                 Markup.submit "Resend verification"] in
  page_ok (Markup.auth_shell "Verify your email" banner body).

Definition join_ (code : string) : TcResult := page_ok (Markup.join_html code).

Definition account_delete_get (query : option AccountQuery) : TcResult :=
  let cq := account_query query in
  match cq_deleted cq with
  | Some _ => Ok (MkSite 200 None None (Component (Landing false None)))
  | None =>
      let banner := match cq_error cq ≫= alert with
                    | None => Some "This cannot be undone."%string
                    | Some b => Some b
                    end in
      let body := (Markup.form "/account/delete" [Markup.submit "Delete my account permanently"]
                   ++ Markup.dim_p "This unwires every machine you enrolled. It does <strong>not</strong> wipe your box.")%string in
      page_ok (Markup.auth_shell "Delete your account" banner body)
  end.

Section Posts.
Context `{CR : Crates} `{SM : Serde Machine} `{SA : Serde AccountRecord}.
Context `{SI : Serde InviteRecord} `{SD : Serde EnrollmentDelivery}.
Context (FORWARDER : option Forwarder) (fuel : nat) (backend : SiteBackend).

Definition register_post (email password : string) : prog EdgeSig TcResult :=
  r <- Bridge.signup backend email password ;;
  redirect (match r with
            | Bridge.Created => "/register?check=1"
            | Bridge.SignupError code => "/register?error=" ++ code
            end) None.

Definition login_post (email password : string) : prog EdgeSig TcResult :=
  r <- Bridge.login email password ;;
  match r with
  | Bridge.LoginOk cookie => redirect "/" (Some cookie)
  | Bridge.NeedsVerification => redirect ("/resend?error=needs_verify&email=" ++ email) None
  | Bridge.LoginError code => redirect ("/login?error=" ++ code) None
  end.

Definition logout_post (req : Request) : prog EdgeSig TcResult :=
  clear <- Bridge.logout req ;; redirect "/" (Some clear).

Definition forgot_post (email : string) : prog EdgeSig TcResult :=
  r <- Bridge.forgot backend email ;;
  redirect (match r with
            | Bridge.Sent | Bridge.UnknownEmail => "/forgot?sent=1"
            | Bridge.ForgotError code => "/forgot?error=" ++ code
            end) None.

Definition reset_post (token password : string) : prog EdgeSig TcResult :=
  r <- Bridge.reset token password ;;
  redirect (match r with
            | Bridge.ResetDone => "/login?reset=1"
            | Bridge.ResetInvalid => "/reset?error=invalid_token"
            end) None.

Definition verify_post (token : string) : prog EdgeSig TcResult :=
  r <- Bridge.verify token ;;
  redirect (match r with
            | Bridge.Activated => "/login?verified=1"
            | Bridge.VerifyInvalid => "/verify?error=invalid_token"
            end) None.

Definition resend_post (email : string) : prog EdgeSig TcResult :=
  r <- Bridge.resend backend email ;;
  redirect (match r with
            | Bridge.Resent | Bridge.ResendActive => "/resend?sent=1"
            | Bridge.ResendUnknown => "/resend?error=unknown&email=" ++ email
            end) None.

Definition account_delete_post (req : Request) : prog EdgeSig TcResult :=
  email <- Bridge.signed_in_email req ;;
  match email with
  | None => redirect "/login" None
  | Some email =>
      r <- Bridge.delete_account FORWARDER fuel backend email ;;
      match r with
      | Ok _ => clear <- Bridge.logout req ;; redirect "/account/delete?deleted=1" (Some clear)
      | Err _ => redirect "/account/delete?error=failed" None
      end
  end.
End Posts.
End AuthPages.

(** ** The landing page and the machines dashboard *)

Module MachinesPages.
Definition alert (code : string) : option string :=
  assoc code [
    ("name_taken", "That name is already taken — generate a new invite and pick another.");
    ("invalid_name", "That name isn't valid — 6+ characters, lowercase letters, digits, hyphens.");
    ("not_waiting", "That invite is no longer waiting — generate a new one.");
    ("not_begun", "No machine has claimed that invite yet — share the link first.");
    ("invalid_code", "That invite code isn't valid.");
    ("failed", "Something went wrong. Try again.")]%string.

Section Machines.
Context `{CR : Crates} `{SM : Serde Machine} `{SA : Serde AccountRecord}.
Context `{SI : Serde InviteRecord} `{SD : Serde EnrollmentDelivery}.
Context (WORDS : list string) (FORWARDER : option Forwarder) (fuel : nat).
Context (backend : SiteBackend).

Definition home (req : Request) : prog EdgeSig TcResult :=
  session <- Bridge.current_session req ;;
  Ret (Ok (MkSite 200 None None (Component (match session with
                                            | LoggedIn email => Landing true (Some email)
                                            | Anonymous => Landing false None
                                            end)))).

Definition machines (query : option MachinesQuery) (req : Request) : prog EdgeSig TcResult :=
  session <- Bridge.current_session req ;;
  match session with
  | Anonymous => redirect "/login" None
  | LoggedIn email =>
      let mq := machines_query query in
      props <- Bridge.dashboard fuel backend email (mq_invited mq) (mq_error mq ≫= alert) ;;
      Ret (Ok (MkSite 200 None None (Component (MachinesPage props))))
  end.

(** The opening of the owner's forms. *)
Definition signed_in (req : Request) (k : string -> prog EdgeSig string) : prog EdgeSig TcResult :=
  email <- Bridge.signed_in_email req ;;
  location <- match email with None => Ret "/login"%string | Some email => k email end ;;
  redirect location None.

Definition decided (r : Bridge.InviteDecisionOutcome) : string :=
  match r with
  | Bridge.DecisionDone => "/machines"
  | Bridge.DecisionError code => "/machines?error=" ++ code
  end.

Definition invite_create (req : Request) : prog EdgeSig TcResult :=
  signed_in req (fun email =>
    r <- Bridge.create_invite WORDS email ;;
    Ret (match r with
         | Bridge.InviteMade code => "/machines?invited=" ++ code
         | Bridge.InviteCreateError code => "/machines?error=" ++ code
         end)%string).

Definition invite_approve (req : Request) (code name : string) : prog EdgeSig TcResult :=
  signed_in req (fun email =>
    r <- Bridge.approve_invite WORDS FORWARDER backend email code (trim name) ;; Ret (decided r)).

Definition invite_deny (req : Request) (code : string) : prog EdgeSig TcResult :=
  signed_in req (fun email => r <- Bridge.deny_invite WORDS email code ;; Ret (decided r)).

Definition invite_revoke (req : Request) (code : string) : prog EdgeSig TcResult :=
  signed_in req (fun email => r <- Bridge.revoke_invite WORDS email code ;; Ret (decided r)).
End Machines.
End MachinesPages.

(** ** The wiki *)

Module Docs.
Record DocPage := MkDoc { doc_slug : string; doc_title : string; doc_line : string }.

Section Docs.
(** [DOC_PAGES]'s markdown files, by their slugs, and pulldown-cmark. *)
Context (content : string -> string) (markdown : string -> string) (DOC_CSS : string).

Definition DOC_PAGES : list DocPage := [
  MkDoc "install-script" "The install script"
    "Detects the host and reports the ADR-035 install method (Linux native / macOS-Windows VM).";
  MkDoc "nixos" "NixOS install" "The native path — a Fortress machine is a NixOS machine.";
  MkDoc "getting-started" "Get started" "Claiming a machine, using the services, the dashboard.";
  MkDoc "privacy-tips" "Privacy tips" "Harden your accounts, network and habits."].

Definition doc_error_display (slug : string) : string := "No doc '" ++ slug ++ "'".

(** [None] is the panic on an empty slug; [false] is [NotFound]. *)
Definition assert_valid_slug (slug : string) : option bool :=
  if is_empty slug then None
  else Some (negb (starts_with "/" slug || contains_str ".." slug)).

Definition page_exists (slug : string) : option bool :=
  match assert_valid_slug slug with
  | Some true => Some (existsb (fun p => bool_decide (doc_slug p = slug)) DOC_PAGES)
  | r => r
  end.

Definition doc_code_restyle (rendered : string) : string :=
  replace "<pre><code>" ("<pre><code class=" ++ q "doc-code" ++ ">") rendered.

Definition doc_html (slug : string) : option (Result string TcError) :=
  match page_exists slug with
  | None => None
  | Some false => Some (Err NotFound)
  | Some true => Some (Ok (doc_code_restyle (markdown (content slug))))
  end.

Definition docs_index : TcResult :=
  let items := String.concat "" (map (fun p =>
                 ("<li><a href=" ++ q ("/docs/" ++ doc_slug p) ++ ">" ++ doc_title p
                    ++ "</a></li>")%string) DOC_PAGES) in
  page_ok ("<main class=" ++ q "doc" ++ "><h1>Documentation</h1><ul>" ++ items
             ++ "</ul><style>" ++ DOC_CSS ++ "</style></main>").

Definition docs_page (slug : string) : option TcResult :=
  r ← doc_html slug;
  Some (match r with
        | Err e => Err e
        | Ok body => page_ok ("<main class=" ++ q "doc" ++ ">" ++ body ++ "<style>" ++ DOC_CSS
                                ++ "</style></main>")
        end).
End Docs.
End Docs.

(** ** The pages router *)

(** The routes that read the backend, with what each extracts from its request. *)
Inductive site_route :=
| SGetHome
| SGetRegister (query : option AuthQuery)
| SGetLogin (query : option AuthQuery)
| SGetForgot (query : option AuthQuery)
| SGetReset (query : option TokenQuery)
| SGetVerify (query : option TokenQuery)
| SGetResend (query : option ResendQuery)
| SGetJoin (code : string)
| SGetAccountDelete (query : option AccountQuery)
| SGetMachines (query : option MachinesQuery)
| SPostRegister (email password : string)
| SPostLogin (email password : string)
| SPostLogout
| SPostForgot (email : string)
| SPostReset (token password : string)
| SPostVerify (token : string)
| SPostResend (email : string)
| SPostAccountDelete
| SPostInvite
| SPostApprove (code name : string)
| SPostDeny (code : string)
| SPostRevoke (code : string).

Definition pages_router `{CR : Crates} `{SM : Serde Machine} `{SA : Serde AccountRecord}
    `{SI : Serde InviteRecord} `{SD : Serde EnrollmentDelivery} (WORDS : list string)
    (F : option Forwarder) (fuel : nat) (backend : SiteBackend) (r : site_route)
    (req : Request) : prog EdgeSig TcResult :=
  match r with
  | SGetHome => MachinesPages.home req
  | SGetRegister query => Ret (AuthPages.register_get query)
  | SGetLogin query => Ret (AuthPages.login_get query)
  | SGetForgot query => Ret (AuthPages.forgot_get query)
  | SGetReset query => Ret (AuthPages.reset_get query)
  | SGetVerify query => Ret (AuthPages.verify_get query)
  | SGetResend query => Ret (AuthPages.resend_get query)
  | SGetJoin code => Ret (AuthPages.join_ code)
  | SGetAccountDelete query => Ret (AuthPages.account_delete_get query)
  | SGetMachines query => MachinesPages.machines fuel backend query req
  | SPostRegister email password => AuthPages.register_post backend email password
  | SPostLogin email password => AuthPages.login_post email password
  | SPostLogout => AuthPages.logout_post req
  | SPostForgot email => AuthPages.forgot_post backend email
  | SPostReset token password => AuthPages.reset_post token password
  | SPostVerify token => AuthPages.verify_post token
  | SPostResend email => AuthPages.resend_post backend email
  | SPostAccountDelete => AuthPages.account_delete_post F fuel backend req
  | SPostInvite => MachinesPages.invite_create WORDS req
  | SPostApprove code name => MachinesPages.invite_approve WORDS F backend req code name
  | SPostDeny code => MachinesPages.invite_deny WORDS req code
  | SPostRevoke code => MachinesPages.invite_revoke WORDS req code
  end.

(** [GET /install.sh]: the installer of the repository, as it is. *)
Module InstallPage.
Definition install_sh (script : string) : TcResult := page_ok script.
End InstallPage.

(** All of the router: the wiki and the installer beside those. *)
Inductive site_page :=
| SBackend (r : site_route)
| SDocsIndex
| SDocsPage (slug : string)
| SInstallSh.

Definition site_pages `{CR : Crates} `{SM : Serde Machine} `{SA : Serde AccountRecord}
    `{SI : Serde InviteRecord} `{SD : Serde EnrollmentDelivery} (WORDS : list string)
    (content markdown : string -> string) (DOC_CSS script : string)
    (F : option Forwarder) (fuel : nat) (backend : SiteBackend) (p : site_page)
    (req : Request) : prog EdgeSig TcResult :=
  match p with
  | SBackend r => pages_router WORDS F fuel backend r req
  | SDocsIndex => Ret (Docs.docs_index DOC_CSS)
  | SDocsPage slug =>
      expect (Docs.docs_page content markdown DOC_CSS slug) "slug must be non-empty" Ret
  | SInstallSh => Ret (InstallPage.install_sh script)
  end.

(** ** The machine API *)

Module SiteApi.
Record MachineInfo := MkInfo { mi_wg_ip : string; mi_hostname : string }.
Record SitePoll := MkSitePoll {
  sp_status : string;
  sp_machine : option MachineInfo;
  sp_device_token : option string;
}.

(** A status and the JSON of the body; [204] has none. *)
Record ApiResponse := MkApi { api_status : Z; api_body : option Json }.

Definition invite_status (err : InviteError) : Z :=
  match err with
  | InvInvalidCode _ => 400
  | InvUnknown _ => 404
  | InvForbidden _ => 403
  | InvNotWaiting _ | InvNotBegun _ | InvNameTaken _ => 409
  | InvInvalidName _ | InvInvalidPubkey _ => 400
  | InvAccount _ | InvCorrupt _ | InvRedis _ => 500
  end.

Definition api_error (status : Z) (message : string) : ApiResponse :=
  MkApi status (Some (JStr message)).

Definition of_invite_error (err : InviteError) : ApiResponse :=
  match err with
  | InvInvalidCode _ => api_error (invite_status err) "invalid invite code"
  | InvUnknown _ => api_error (invite_status err) "invite not found"
  | InvForbidden _ => api_error (invite_status err) "not the inviting account"
  | InvNotWaiting _ => api_error (invite_status err) "invite is not in a claimable state"
  | InvNotBegun _ => api_error (invite_status err) "no machine has claimed this invite yet"
  | InvNameTaken name => api_error 409 ("machine name " ++ name ++ " is already taken")
  | InvInvalidName _ => api_error (invite_status err) "invalid machine name"
  | InvInvalidPubkey _ => api_error (invite_status err) "invalid wireguard public key"
  | InvAccount _ | InvCorrupt _ | InvRedis _ => api_error (invite_status err) "internal error"
  end.

Definition of_cp_error (err : ControlPlaneError) : ApiResponse :=
  match err with
  | CpNotFound _ => api_error 401 "invalid device token"
  | CpInvalidPubkey _ => api_error 400 "invalid wireguard public key"
  | _ => api_error 500 "internal error"
  end.

Definition map_poll (outcome : PollOutcome) : SitePoll :=
  MkSitePoll (poll_status outcome)
    ((fun m => MkInfo (m_wg_ip m) (m_hostname m)) <$> poll_machine outcome)
    (poll_token outcome).

Definition site_poll_json (p : SitePoll) : Json :=
  JObj (("status"%string, JStr (sp_status p))
        :: match sp_machine p with
           | Some m => [("machine"%string,
                         JObj [("wg_ip", JStr (mi_wg_ip m)); ("hostname", JStr (mi_hostname m))]%string)]
           | None => []
           end
        ++ match sp_device_token p with
           | Some t => [("deviceToken"%string, JStr t)]
           | None => []
           end).

Definition wireguard_info_json (info : TunnelInfo) : Json :=
  JObj [("public_key", JStr (ti_public_key info)); ("endpoint", JStr (ti_endpoint info));
        ("allowed_ips", JStr (ti_allowed_ips info))]%string.

Section SiteApi.
Context `{CR : Crates} `{SM : Serde Machine} `{SA : Serde AccountRecord}.
Context `{SI : Serde InviteRecord} `{SD : Serde EnrollmentDelivery}.
Context (WORDS : list string) (FORWARDER : option Forwarder) (backend : SiteBackend).

Definition poll_response (r : Result PollOutcome InviteError) : ApiResponse :=
  match r with
  | Ok outcome => MkApi 200 (Some (site_poll_json (map_poll outcome)))
  | Err err => of_invite_error err
  end.

Definition invite_begin (code public_key : string) : prog EdgeSig ApiResponse :=
  r <- Invite.invite_begin WORDS code public_key ;; Ret (poll_response r).

Definition invite_poll (code : string) : prog EdgeSig ApiResponse :=
  r <- Invite.invite_poll WORDS code ;; Ret (poll_response r).

Definition wireguard_info : prog EdgeSig ApiResponse :=
  r <- tunnel_info (sb_cp backend) ;;
  Ret (match r with
       | Ok info => MkApi 200 (Some (wireguard_info_json info))
       | Err err => of_cp_error err
       end).

Definition device_register (device_token public_key : string) : prog EdgeSig ApiResponse :=
  r <- Invite.device_register (sb_cp backend) FORWARDER device_token public_key ;;
  Ret (match r with
       | Ok _ => MkApi 204 None
       | Err err => of_cp_error err
       end).
End SiteApi.
End SiteApi.
