(* ===== verification/WebUi.v ===== *)
(** The shared design system (web-ui/src/lib.rs): the markup its components build,
    as a tree, up to the landing page and the machines dashboard that both edge
    processes render. *)

From stdpp Require Import base strings list.
From Stdlib Require Import ZArith Ascii.
From S2P Require Import Prelude Invite Web.

Local Open Scope string_scope.

Module Ui.
(** ** Markup *)

(** What [_dangerously_set_inner_html] is given: a constant of the crate, by name, or
    the text of a code block. *)
Inductive RawHtml :=
| TAILWIND_BROWSER_JS | HTMX_JS | ZINE_CSS | LOUD_CSS
| CodeText (code : string).

(** The tree [rsx!] builds. *)
Inductive Node :=
| Empty
| Text (s : string)
| Fragment (l : list Node)
| Elem (tag : string) (attrs : list (string * string)) (children : list Node)
| RawElem (tag : string) (attrs : list (string * string)) (html : RawHtml).

(** A component: its tree, or [None] where an assertion panics. *)
Definition View : Type := option Node.

Definition none : View := Some Empty.
Definition txt (s : string) : View := Some (Text s).
Definition frag (l : list View) : View := Fragment <$> mapM id l.
Definition el (tag : string) (attrs : list (string * string)) (l : list View) : View :=
  Elem tag attrs <$> mapM id l.
Definition raw (tag : string) (attrs : list (string * string)) (html : RawHtml) : View :=
  Some (RawElem tag attrs html).
Definition cls (c : string) : list (string * string) := [("class", c)].

Definition assert_non_empty (value : string) (v : View) : View :=
  if is_empty (trim value) then None else v.

(** ** Shells *)

Inductive ShellVariant := Loud | App.
Inductive FieldKind := FkText | FkEmail | FkPassword.

Definition html_type (k : FieldKind) : string :=
  match k with FkText => "text" | FkEmail => "email" | FkPassword => "password" end.

Definition shell_with_head (title : string) (variant : ShellVariant) (extra_head body : View)
    : View :=
  assert_non_empty title (
  let body_class := match variant with Loud => "zine" | App => "zine app" end in
  let ornament_style := match variant with Loud => raw "style" [] LOUD_CSS | App => none end in
  el "html" [("lang", "en")]
    [el "head" []
       [el "title" [] [txt title];
        el "meta" [("charset", "UTF-8")] [];
        el "meta" [("name", "viewport"); ("content", "width=device-width, initial-scale=1")] [];
        raw "script" [] TAILWIND_BROWSER_JS;
        raw "style" [] ZINE_CSS;
        ornament_style;
        extra_head];
     el "body" (cls body_class) [body]]).

Definition shell (title : string) (variant : ShellVariant) (body : View) : View :=
  shell_with_head title variant none body.

Definition htmx_script : View := raw "script" [] HTMX_JS.

(** ** Components *)

Definition stamp (text : string) : View :=
  assert_non_empty text (el "span" (cls "stamp") [txt text]).

Definition stamp_small (text : string) : View :=
  assert_non_empty text (el "span" (cls "stamp stamp-sm") [txt text]).

Definition zine_button (href label extra_class : string) : View :=
  assert_non_empty href (assert_non_empty label (
  el "a" [("href", href); ("class", "btn-zine " ++ extra_class)] [txt label])).

Definition zine_form_button (label extra_class : string) : View :=
  assert_non_empty label (
  el "button" [("type", "submit"); ("class", "btn-zine " ++ extra_class)] [txt label]).

Definition zine_submit (label extra_class : string) : View :=
  zine_form_button label ("btn-zine-red " ++ extra_class).

Definition sign_out_form (extra_class : string) : View :=
  el "form" [("method", "post"); ("action", "/auth/logout")]
    [zine_form_button "Sign out" extra_class].

Definition card (extra_class : string) (body : View) : View :=
  el "div" (cls ("zine-card p-6 flex flex-col gap-3 " ++ extra_class)) [body].

Definition section_heading (text : string) : View :=
  assert_non_empty text (
  el "h2" (cls "text-center text-3xl font-black uppercase mb-10")
    [el "span" (cls "mark") [txt text]]).

Definition code_block (code : string) : View :=
  assert_non_empty code (
  if contains_str "</" code then None else raw "pre" (cls "code-zine") (CodeText code)).

Definition tick_list (items : list string) : View :=
  match items with
  | [] => None
  | _ => el "ul" (cls "flex flex-col gap-2 text-sm")
           (map (fun item => el "li" (cls "tick") [txt item]) items)
  end.

Definition torn : View := el "div" (cls "torn") [].

Definition shield_icon (class : string) : View :=
  el "svg" [("viewBox", "0 0 24 24"); ("fill", "none"); ("stroke", "currentColor");
            ("stroke_width", "2"); ("class", class)]
    [el "path" [("d", "M12 22s8-4 8-10V5l-8-3-8 3v7c0 6 8 10 8 10z")] []].

Definition ticker (phrase : string) : View :=
  assert_non_empty phrase (
  let track := phrase ++ phrase ++ phrase ++ phrase in
  el "div" [("class", "ticker"); ("aria_hidden", "true")]
    [el "div" (cls "ticker-track") [el "span" [] [txt track]; el "span" [] [txt track]]]).

Definition field (label name : string) (kind : FieldKind) (value hint : option string) : View :=
  assert_non_empty label (assert_non_empty name (
  el "label" (cls "block")
    [el "div" (cls "tag dim mb-1") [txt label];
     el "input" [("type", html_type kind); ("name", name); ("value", default "" value);
                 ("required", ""); ("class", "zine-input")] [];
     match hint with
     | Some text => el "div" (cls "mt-1 text-xs faint") [txt text]
     | None => none
     end])).

(** ** The landing page *)

Definition hero (cta : View) : View :=
  el "header" (cls "halftone px-6 pt-16 pb-14 text-center")
    [el "div" (cls "mx-auto max-w-3xl")
       [el "div" (cls "mb-8") [stamp "A worker cooperative · open source · NixOS"];
        el "h1" (cls "text-5xl sm:text-6xl font-black uppercase leading-[1.02] tracking-tight")
          [el "span" (cls "block") [txt "Your home server."];
           el "span" (cls "block mt-3") [el "span" (cls "mark") [txt "Your data. Your rules."]]];
        el "p" (cls "mx-auto mt-8 max-w-xl text-lg dim")
          [txt "Fortress replaces Google Docs, Dropbox, Netflix and Ring with a self-hosted box in your house — reachable from anywhere, with every key on your own hardware."];
        el "div" (cls "mt-10 flex flex-col sm:flex-row items-center justify-center gap-4")
          [cta; zine_button "#install" "Install it yourself" ""];
        el "div" (cls "mt-12 flex flex-wrap items-center justify-center gap-x-6 gap-y-3")
          [el "span" (cls "tag dim") [txt "Own your data"];
           el "span" (cls "text-red") [txt "★"];
           el "span" (cls "tag dim") [txt "Remote access built in"];
           el "span" (cls "text-red") [txt "★"];
           el "span" (cls "tag dim") [txt "One login for everything"];
           el "span" (cls "text-red") [txt "★"];
           el "span" (cls "tag dim") [txt "No subscription lock-in"]]]].

Definition replaces : View :=
  el "section" (cls "px-6 py-12")
    [el "div" (cls "mx-auto max-w-5xl")
       [el "div" (cls "flex flex-wrap items-center justify-center gap-4")
          [el "span" (cls "tag dim mr-2") [txt "Replaces:"];
           el "div" (cls "flex flex-wrap justify-center gap-4")
             [el "span" (cls "chip") [el "span" (cls "crossed") [txt "Google Docs"]; txt " → ";
                                      el "b" (cls "text-red") [txt "CryptPad"]];
              el "span" (cls "chip") [el "span" (cls "crossed") [txt "Netflix"]; txt " → ";
                                      el "b" (cls "text-red") [txt "Jellyfin"]];
              el "span" (cls "chip") [txt "+ Radarr, Sonarr, Lidarr, Prowlarr"];
              el "span" (cls "chip") [txt "Nextcloud"; el "span" (cls "ml-2") [stamp_small "soon"]]]]]].

Definition promise (title number text : string) : View :=
  card "" (frag
    [el "div" (cls "flex items-start justify-between gap-2")
       [el "h3" (cls "font-black uppercase text-lg leading-tight") [txt title];
        el "span" (cls "text-red text-xl font-black") [txt number]];
     el "p" (cls "text-sm dim") [txt text]]).

Definition promises : View :=
  el "section" (cls "px-6 py-14")
    [el "div" (cls "mx-auto max-w-5xl")
       [el "div" (cls "grid grid-cols-1 md:grid-cols-3 gap-8")
          [promise "Your keys, your hardware" "01"
             "TLS and WireGuard keys never leave your house. Nobody else can decrypt your traffic — not even us.";
           promise "Reachable anywhere" "02"
             "One encrypted tunnel to a box in the cloud. Jellyfin, docs, photos — from any phone, on any network, no port forwarding.";
           promise "One login for everything" "03"
             "Every service signs in with the same account. Add a user once, they get every app — no per-app password sprawl."]]].

Definition way_in (kind title text : string) (ticks : list string) (action : View) : View :=
  card "h-full" (frag
    [el "div" (cls "w-fit") [stamp_small kind];
     el "h3" (cls "text-2xl font-black uppercase") [txt title];
     el "p" (cls "text-sm dim") [txt text];
     tick_list ticks;
     el "div" (cls "mt-auto pt-3") [action]]).

Definition two_ways : View :=
  el "section" (cls "px-6 py-14")
    [el "div" (cls "mx-auto max-w-5xl")
       [section_heading "Two ways in";
        el "div" (cls "grid grid-cols-1 md:grid-cols-2 gap-8")
          [way_in "Zero setup" "Buy a box"
             "We assemble, install and ship a pre-configured Fortress. Plug it in, connect ethernet, and claim it with your account in under five minutes."
             ["Pre-installed NixOS + all services"; "Encrypted offsite backups included";
              "Support from real humans"]
             (zine_button "/register" "Get yours" "btn-zine-red");
           way_in "Bring your own hardware" "Install on your machine"
             "Fortress is a service stack, not a package. One config.nix, one apply. No setup wizard, no app store."
             ["Free forever, AGPL-3.0"; "Run as many machines as you like";
              "Same remote access as a box"]
             (zine_button "#install" "See the install guide" "")]]].

Definition install_step (number title : string) (rest : list View) : View :=
  card "" (frag
    (el "div" (cls "flex items-center gap-3")
       [el "span" (cls "stepnum") [txt number];
        el "h3" (cls "font-black uppercase") [txt title]]
     :: rest)).

Definition install_guide : View :=
  el "section" [("id", "install"); ("class", "px-6 py-14 scroll-mt-16")]
    [el "div" (cls "mx-auto max-w-3xl")
       [el "h2" (cls "text-center text-3xl font-black uppercase mb-2")
          [txt "Install on your own machines"];
        el "p" (cls "text-center dim mb-10")
          [txt "Two ways to run fortress (ADR-035) — no Docker. Linux runs natively; macOS/Windows run a Linux VM."];
        el "div" (cls "flex flex-col gap-8")
          [install_step "1" "Linux — native"
             [el "p" (cls "text-sm dim mb-2")
                [txt "system-manager applies the fortress services to your host's systemd (in place). OS/kernel updates stay yours."];
              code_block "curl https://proletariat.tech/install.sh | bash"];
           install_step "2" "macOS / Windows — a Linux VM"
             [el "p" (cls "text-sm dim mb-2")
                [txt "One Linux VM runs the fortress stack (system-manager inside); your Mac/PC is just hardware. Nix/systemd don't run on those hosts."];
              code_block "curl https://proletariat.tech/install.sh | bash"];
           install_step "3" "One config folder"
             [el "p" (cls "text-sm dim mb-2")
                [txt "Fortress lives in "; el "code" (cls "text-red") [txt "/etc/fortress/config"];
                 txt " — a git-versioned "; el "code" (cls "text-red") [txt "config.nix"];
                 txt " + sealed secrets. The dashboard edits it; applying re-reads it; ";
                 el "code" (cls "text-red") [txt "git revert"];
                 txt " rolls config AND secrets back together."]]]]].

Definition footer : View :=
  el "footer" (cls "px-6 py-10 mt-2")
    [el "div" (cls "mx-auto max-w-5xl flex flex-col sm:flex-row items-center justify-between gap-4")
       [el "div" (cls "flex items-center gap-2")
          [shield_icon "h-5 w-5 text-red";
           el "span" (cls "tag dim") [txt "Fortress — a worker cooperative. AGPL-3.0."]];
        el "div" (cls "flex items-center gap-5")
          [el "a" [("href", "/register"); ("class", "link-zine")] [txt "Create account"];
           el "a" [("href", "/login"); ("class", "link-zine")] [txt "Sign in"]]]].

Definition landing_body (logged_in : bool) (email : option string) : View :=
  let nav_auth :=
    if logged_in
    then frag [el "span" (cls "tag dim hidden sm:inline") [txt (default "" email)];
               sign_out_form "btn-zine-sm"]
    else zine_button "/register" "Create account" "btn-zine-red btn-zine-sm" in
  let hero_cta :=
    if logged_in
    then zine_button "/machines" "Go to my machines" "btn-zine-red"
    else zine_button "/register" "Order a box" "btn-zine-red" in
  frag
    [el "nav" (cls "sticky top-0 z-40 flex items-center bg-paper border-b-2 border-ink px-6")
       [el "div" (cls "flex-1 flex items-center gap-2")
          [shield_icon "h-6 w-6 text-red";
           el "span" (cls "text-lg font-black uppercase tracking-tight") [txt "Fortress"]];
        el "div" (cls "flex-none flex items-center gap-4")
          [el "a" [("href", "#install"); ("class", "tag dim hidden sm:inline")] [txt "Install"];
           nav_auth]];
     ticker "no masters · no clouds · your keys, your machine · worker cooperative · open source · agpl-3.0 · no ads · no tracking · ";
     hero hero_cta; torn; replaces; promises; two_ways; install_guide; torn; footer].

(** [Landing]. *)
Definition landing_page (logged_in : bool) (email : option string) : View :=
  shell "Fortress — your home server, your rules" Loud (landing_body logged_in email).

(** ** The machines dashboard *)

Definition label (s : InviteStatus) : string :=
  match s with
  | Dormant => "dormant" | Waiting => "waiting" | Approved => "approved" | Denied => "denied"
  end.

Definition machine_item (machine : MachineRow) : View :=
  el "li" (cls "border-b border-ink py-1 list-none")
    [el "div" (cls "flex items-baseline gap-3")
       [el "span" (cls "font-black") [txt (row_name machine)];
        el "span" (cls "text-xs faint") [txt (row_hostname machine)]]].

Definition invite_path (code action : string) : string := "/auth/invite/" ++ code ++ "/" ++ action.

Definition approve_form (code : string) : View :=
  el "form" [("method", "post"); ("action", invite_path code "approve");
             ("class", "flex items-end gap-2")]
    [el "label" (cls "block w-full")
       [el "div" (cls "tag dim mb-1") [txt "Name this machine"];
        el "input" [("type", "text"); ("name", "name"); ("required", "");
                    ("pattern", "[a-z0-9][a-z0-9-]*"); ("class", "zine-input")] []];
     zine_submit "Approve" ""].

Definition decision_form (code action text : string) : View :=
  el "form" [("method", "post"); ("action", invite_path code action)]
    [el "button" [("type", "submit"); ("class", "btn-zine btn-zine-sm")] [txt text]].

Definition invite_item (root_domain : string) (invited_code : option string) (invite : InviteRow)
    : View :=
  let code := row_code invite in
  let waiting := bool_decide (row_status invite = Waiting) in
  let dormant := bool_decide (row_status invite = Dormant) in
  let revocable := waiting || dormant in
  let fresh := bool_decide (Some code = invited_code) in
  let share_url := "https://" ++ root_domain ++ "/i/" ++ code in
  let candidate :=
    match row_device_pubkey invite with
    | Some pubkey => el "p" (cls "text-xs faint break-all") [txt "Candidate: "; txt pubkey]
    | None => none
    end in
  let awaiting_machine :=
    if dormant
    then el "p" (cls "text-xs dim")
           [txt "Waiting for the machine to connect — open the invite URL on the box."]
    else none in
  let approve := if waiting then approve_form code else none in
  let actions :=
    if revocable
    then el "div" (cls "flex gap-2")
           [if waiting then decision_form code "deny" "Deny" else none;
            decision_form code "revoke" "Revoke"]
    else none in
  let share :=
    if fresh || dormant
    then el "div" (cls "text-xs dim")
           [txt "Share this link with the machine: ";
            el "code" (cls "break-all") [txt share_url]]
    else none in
  el "li" []
    [card "" (frag
       [el "div" (cls "flex items-center gap-2 flex-wrap")
          [el "code" (cls "font-black") [txt code]; stamp_small (label (row_status invite))];
        candidate; awaiting_machine; approve; actions; share])].

Definition machines_body (props : MachinesProps) : View :=
  if is_empty (props_root_domain props) then None
  else
  let banner :=
    match props_error props with
    | Some message => el "div" [("role", "alert"); ("class", "alert-zine")] [txt message]
    | None => none
    end in
  let machines_list :=
    match props_machines props with
    | [] => [el "p" (cls "text-sm dim") [txt "No machines yet — invite one below."]]
    | l => map machine_item l
    end in
  let invites_list :=
    match props_invites props with
    | [] => [el "p" (cls "text-sm dim") [txt "No invites yet."]]
    | l => map (invite_item (props_root_domain props) (invited_code props)) l
    end in
  shell "Your machines" App
    (el "main" (cls "mx-auto flex max-w-md flex-col gap-4 p-6")
       [el "div" (cls "flex flex-col gap-6")
          [el "h1" (cls "text-2xl font-black uppercase") [txt "Your machines"];
           banner;
           el "section" (cls "flex flex-col gap-2")
             [el "h2" (cls "text-lg font-black uppercase") [txt "Machines"];
              el "ul" (cls "flex flex-col gap-1 list-none p-0 m-0") machines_list];
           el "section" (cls "flex flex-col gap-3")
             [el "h2" (cls "text-lg font-black uppercase") [txt "Invite a machine"];
              el "form" [("method", "post"); ("action", "/auth/invite")]
                [zine_submit "Generate invite link" ""];
              el "ul" (cls "flex flex-col gap-4 list-none p-0 m-0") invites_list];
           el "p" (cls "text-sm") [sign_out_form "btn-zine-sm"]]]).
End Ui.
