(* ===== verification/HttpProofs.v ===== *)
(** What the HTTP layer's proofs share: cookies read back what they carry, and
    requests without a session. *)

From stdpp Require Import base gmap strings list pretty.
From Stdlib Require Import ZArith Lia Ascii.
From S2P Require Import Prelude Prog Addr ForwarderState World Forwarder Store Crates.
From S2P Require Import Errors ControlPlane Account AccountProofs Invite InviteMoves.
From S2P Require Import InviteSafety Web Api.

Local Open Scope prog_scope.

(** ** Cookies *)

(** What a browser puts between the separators. *)
Definition cookie_char (c : ascii) : bool :=
  header_char c && negb (is_semicolon c) && negb (is_whitespace c).
Definition cookie_ok (p : string * string) : Prop :=
  str_forallb cookie_char (fst p) = true /\ str_forallb cookie_char (snd p) = true /\
  lacks "=" (fst p).

Definition cookie_text (p : string * string) : string := fst p ++ "=" ++ snd p.
Definition cookie_line (l : list (string * string)) : string := join "; " (map cookie_text l).

Lemma trim_end_none f s :
  str_forallb (fun c => negb (f c)) s = true -> trim_end_matches f s = s.
Proof.
  intros H. unfold trim_end_matches. rewrite trim_start_matches_none; [apply str_rev_involutive|].
  assert (str_forallb (fun c => negb (f c)) (str_rev s) = true) as Hr.
  { clear -H. induction s as [|c s IH]; [done|]. cbn in H. apply andb_true_iff in H as [Hc Hs].
    rewrite str_rev_cons, str_forallb_app. cbn. by rewrite (IH Hs), Hc. }
  destruct (str_rev s) as [|c r]; [done|]. cbn in Hr. apply andb_true_iff in Hr as [Hc _].
  by apply negb_true_iff in Hc.
Qed.

Lemma trim_none s : str_forallb (fun c => negb (is_whitespace c)) s = true -> trim s = s.
Proof.
  intros H. unfold trim. rewrite trim_start_matches_none; [by apply trim_end_none|].
  destruct s as [|c s]; [done|]. cbn in H. apply andb_true_iff in H as [Hc _].
  by apply negb_true_iff in Hc.
Qed.

Lemma cookie_text_ok p : cookie_ok p -> str_forallb cookie_char (cookie_text p) = true.
Proof.
  intros (Hk & Hv & _). unfold cookie_text. rewrite !str_forallb_app, Hk, Hv. reflexivity.
Qed.

Lemma cookie_char_facts c :
  cookie_char c = true ->
  header_char c = true /\ negb (is_semicolon c) = true /\ negb (is_whitespace c) = true.
Proof. unfold cookie_char. rewrite !andb_true_iff. tauto. Qed.

Lemma find_cookie_text name p rest :
  cookie_ok p ->
  find_cookie name (cookie_text p :: rest) =
  (if bool_decide (fst p = name) then Some (snd p) else find_cookie name rest).
Proof.
  intros Hp. cbn. rewrite trim_none.
  - unfold cookie_text. cbn. rewrite split_once_app by apply Hp. done.
  - eapply str_forallb_impl; [|by apply cookie_text_ok]. intros c Hc. by apply cookie_char_facts.
Qed.

Lemma find_cookie_space name s :
  find_cookie name (split_on is_semicolon (String " " s))
  = find_cookie name (split_on is_semicolon s).
Proof.
  cbn [split_on]. change (is_semicolon " ") with false. cbn iota.
  destruct (split_on is_semicolon s) as [|w ws] eqn:E; [by apply split_on_nonempty in E|].
  reflexivity.
Qed.

(** Reading a cookie of a header is looking it up in what the browser sent. *)
Lemma read_cookie_line name l :
  Forall cookie_ok l -> l <> [] ->
  read_cookie_from_headers (Some (cookie_line l)) name = assoc name l.
Proof.
  intros Hl Hne. unfold read_cookie_from_headers.
  assert (str_forallb header_char (cookie_line l) = true) as Hh.
  { clear Hne. unfold cookie_line. induction Hl as [|p l Hp Hl IH]; [done|].
    assert (str_forallb header_char (cookie_text p) = true) as Hh.
    { eapply str_forallb_impl; [|by apply cookie_text_ok]. intros c Hc. by apply cookie_char_facts. }
    unfold join in *. cbn [map String.concat]. destruct (map cookie_text l) as [|w ws]; [done|].
    by rewrite !str_forallb_app, Hh, IH. }
  cbn [mbind option_bind]. unfold header_to_str. rewrite Hh. cbn [mbind option_bind].
  clear Hh. unfold cookie_line. induction Hl as [|p l Hp Hl IH]; [done|].
  assert (str_forallb (fun c => negb (is_semicolon c)) (cookie_text p) = true) as Hs.
  { eapply str_forallb_impl; [|by apply cookie_text_ok]. intros c Hc. by apply cookie_char_facts. }
  unfold join in *. cbn [map String.concat]. destruct p as [k v].
  destruct l as [|q l].
  - cbn [map]. rewrite split_on_single by done. by rewrite find_cookie_text.
  - cbn [map] in *.
    change (cookie_text (k, v) ++ "; " ++ ?x)%string
      with (cookie_text (k, v) ++ String ";" (String " " x))%string.
    rewrite split_on_app by done. rewrite find_cookie_text by done. cbn [fst snd assoc].
    case_bool_decide; [done|]. rewrite find_cookie_space. by apply IH.
Qed.

(** ** Sessions *)

Section Sessions.
Context `{CR : Crates} `{SM : Serde Machine} `{SA : Serde AccountRecord}.
Context `{SI : Serde InviteRecord} `{SD : Serde EnrollmentDelivery}.
Context (WORDS : list string) (FORWARDER : option Forwarder) (fuel : nat).
Context (verify : string -> string -> option bool).
Local Abbreviation wpe := (wp (X := EdgeSig) (edge_spec verify)) (only parsing).

(** The request carries no live session token. *)
Definition no_session (req : Request) (s : edge) : Prop :=
  match read_cookie req SESSION_COOKIE with
  | None => True
  | Some token => kv s !! session_key token = None
  end.

Lemma wp_no_account token s (Q : outcome (Result (option string) AccountError) -> edge -> Prop) :
  kv s !! session_key token = None ->
  Q (Done (Ok None)) s -> (forall e, Q (Done (Err e)) s) -> wpe (session_account token) Q s.
Proof.
  intros Hk HQ He. unfold session_account. unfold bind_try at 1. intros c s1 Hc. cbn in Hc. subst s1.
  destruct c as [[]|e]; [|apply He].
  apply (wp_redis_try verify); [done| |].
  - intros e s' [-> | ->]; cbn; [|rewrite set_kv_id]; apply He.
  - intros a. cbn [redis_apply fst snd]. rewrite Hk. cbn [read_str]. intros [= <-].
    cbn. by rewrite set_kv_id.
Qed.

Lemma wp_no_session req s (Q : outcome (option string) -> edge -> Prop) :
  no_session req s -> Q (Done None) s -> wpe (Web.session_email req) Q s.
Proof.
  unfold no_session, Web.session_email. intros Hn HQ.
  destruct (read_cookie req SESSION_COOKIE) as [token|]; [|done].
  rewrite wp_bind. by apply wp_no_account.
Qed.

Lemma wp_web_gate cp mailer req k s :
  no_session req s ->
  wpe (Web.with_session (MkAppState (Some cp) mailer) req k)
    (fun o s' => o = Done (see_other "/login") /\ s' = s) s.
Proof.
  intros Hn. unfold Web.with_session, Web.require_session. cbn [app_cp].
  rewrite !wp_bind. by apply wp_no_session.
Qed.

Lemma wp_api_gate cp mailer req k s :
  no_session req s ->
  wpe (InvitesApi.with_session (MkAppState (Some cp) mailer) req k)
    (fun o s' => o = Done (InviteUnauthorized "no session") /\ s' = s) s.
Proof.
  unfold no_session, InvitesApi.with_session, InvitesApi.session_email_from. cbn [app_cp].
  intros Hn. destruct (read_cookie req SESSION_COOKIE) as [token|]; [|done].
  rewrite !wp_bind. by apply wp_no_account.
Qed.
End Sessions.

(** ** Pages that only read *)

Section Reads.
Context `{CR : Crates} `{SM : Serde Machine} `{SA : Serde AccountRecord}.
Context `{SI : Serde InviteRecord} `{SD : Serde EnrollmentDelivery}.
Context (WORDS : list string) (FORWARDER : option Forwarder) (fuel : nat).
Context (verify : string -> string -> option bool).

Lemma reads_list_from l : read_only verify (list_from l).
Proof. induction l as [|n l IH]; cbn [list_from]; along_walk. Qed.
Hint Resolve reads_list_from : along.

Lemma reads_page email l out : read_only verify (invites_page email l out).
Proof.
  revert out. induction l as [|k l IH]; intros out; cbn [invites_page]; [along_walk|].
  destruct (starts_with _ _); [apply IH|].
  apply along_try; [typeclasses eauto|by apply read_only_op|].
  intros [j|]; [|apply IH]. destruct (record_from_json _ _); [|along_walk].
  case_bool_decide; apply IH.
Qed.
Hint Resolve reads_page : along.

Lemma reads_scan n email c out : read_only verify (invites_scan n email c out).
Proof. revert c out. induction n as [|n IH]; intros c out; cbn [invites_scan]; along_walk. Qed.
Hint Resolve reads_scan : along.

Lemma reads_session req : read_only verify (Web.session_email req).
Proof. unfold Web.session_email, session_account. along_walk. Qed.
Hint Resolve reads_session : along.

Lemma reads_get state r req :
  Web.is_get r = true -> read_only verify (Web.web_routes WORDS FORWARDER fuel state r req).
Proof.
  destruct r; try done; intros _; cbn [Web.web_routes];
    unfold Web.landing, Web.machines, Web.with_session, Web.require_session, or_respond,
      machines_of, account_uuid, list_machines, invites_of, root_domain; along_walk.
Qed.
End Reads.
