(* ===== verification/EnrollProofs.v ===== *)
(** Proofs about the box: invite URLs, the key file, enrollment, the tunnel
    address in forwards. *)

From stdpp Require Import base gmap strings list pretty.
From Stdlib Require Import ZArith Lia Ascii.
From S2P Require Import Prelude Prog ForwarderState World Wg Crates ControlPlane Invite.
From S2P Require Import Web HttpProofs Box Tunnel Enroll.

Local Open Scope prog_scope.
Local Abbreviation wpb := (wp (X := BoxSig) box_spec) (only parsing).

(** ** Invite URLs *)

Lemma is_empty_false s : is_empty s = false <-> s <> ""%string.
Proof. by destruct s. Qed.

Lemma contains_char_lacks c s : contains_char c s = false <-> lacks c s.
Proof. done. Qed.

Lemma parse_invite_url_spec url base code :
  parse_invite_url url = Ok (base, code) <->
  exists scheme host,
    (scheme = "https://" \/ scheme = "http://")%string /\
    url = (scheme ++ host ++ "/i/" ++ code)%string /\ base = ("https://" ++ host)%string /\
    host <> ""%string /\ lacks "/" host /\ code <> ""%string /\ lacks "/" code.
Proof.
  assert (forall rest, match split_once "/" rest with
            | None => Err (EnrInviteUrl url)
            | Some (base, path) =>
                match strip_prefix "i/" path with
                | None => Err (EnrInviteUrl url)
                | Some code =>
                    if is_empty base || is_empty code || contains_char "/" code
                    then Err (EnrInviteUrl url)
                    else Ok (("https://" ++ base)%string, code)
                end
            end = Ok (base, code) <->
          exists host, rest = (host ++ "/i/" ++ code)%string /\ base = ("https://" ++ host)%string /\
            host <> ""%string /\ lacks "/" host /\ code <> ""%string /\ lacks "/" code) as Hrest.
  { intros rest. split.
    - destruct (split_once "/" rest) as [[h p]|] eqn:Hs; [|done].
      apply split_once_spec in Hs as [-> Hh].
      destruct (strip_prefix "i/" p) as [c|] eqn:Hp; [|done].
      apply strip_prefix_spec in Hp as ->.
      destruct (is_empty h) eqn:E1; [done|]. destruct (is_empty c) eqn:E2; [done|].
      destruct (contains_char "/" c) eqn:E3; [done|]. cbn. intros [= <- <-].
      exists h. by rewrite <- is_empty_false, <- is_empty_false, E1, E2.
    - intros (host & -> & -> & Hh & Hl & Hc & Hlc).
      change (host ++ "/i/" ++ code)%string with (host ++ String "/" ("i/" ++ code))%string.
      rewrite split_once_app by done.
      rewrite (proj2 (strip_prefix_spec "i/" ("i/" ++ code) code) eq_refl).
      rewrite (proj2 (is_empty_false host) Hh), (proj2 (is_empty_false code) Hc).
      by rewrite (proj2 (contains_char_lacks _ _) Hlc). }
  unfold parse_invite_url. destruct (strip_prefix "https://" url) as [rest|] eqn:E1.
  { apply strip_prefix_spec in E1 as ->. cbn [or_else]. rewrite Hrest. split.
    - intros (host & -> & H). exists "https://"%string, host. split; [by left|]. by split.
    - intros (scheme & host & [-> | ->] & Heq & H); [|done].
      apply str_app_inj_l in Heq as ->. by exists host. }
  destruct (strip_prefix "http://" url) as [rest|] eqn:E2; cbn [or_else].
  { apply strip_prefix_spec in E2 as ->. rewrite Hrest. split.
    - intros (host & -> & H). exists "http://"%string, host. split; [by right|]. by split.
    - intros (scheme & host & [-> | ->] & Heq & H); [done|].
      apply str_app_inj_l in Heq as ->. by exists host. }
  split; [done|]. intros (scheme & host & [-> | ->] & -> & _); exfalso.
  - by rewrite (proj2 (strip_prefix_spec "https://" _ _) eq_refl) in E1.
  - by rewrite (proj2 (strip_prefix_spec "http://" _ _) eq_refl) in E2.
Qed.

(** ** The key file *)

Section Keys.
Context `{CR : Crates} `{CL : !CratesLaws}.

Lemma partial_alter_overwrite (m : gmap string string) p v (t : option string) :
  partial_alter (fun _ => t) p (<[p := v]> m) = partial_alter (fun _ => t) p m.
Proof.
  apply map_eq. intros q. destruct (decide (q = p)) as [->|Hq].
  - by rewrite !lookup_partial_alter_eq.
  - by rewrite !lookup_partial_alter_ne, lookup_insert_ne.
Qed.

(** An existing key file is never written to. *)
Definition key_post (path : string) (s : box) (o : outcome (Result string TunnelError))
    (s' : box) : Prop :=
  (forall p, p <> path -> files s' !! p = files s !! p) /\
  (forall t, files s !! path = Some t -> s' = s) /\
  http_log s' = http_log s /\
  match o with
  | Done (Ok pub) => exists t, files s' !! path = Some t /\ derive_public_key (trim t) = Some pub
  | Done (Err _) => True
  | _ => False
  end.

Lemma trim_nl s :
  str_forallb (fun c => negb (is_whitespace c)) s = true -> trim (s ++ String nl "") = s.
Proof.
  intros H. destruct s as [|c s]; [reflexivity|].
  unfold trim. rewrite trim_start_matches_none.
  - unfold trim_end_matches. rewrite str_rev_app. change (str_rev (String nl "")) with (String nl "").
    cbn [String.append trim_start_matches]. change (is_whitespace nl) with true. cbn iota.
    change (str_rev (trim_start_matches is_whitespace (str_rev (String c s))))
      with (trim_end_matches is_whitespace (String c s)). by apply trim_end_none.
  - cbn in H. apply andb_true_iff in H as [Hc _]. by apply negb_true_iff in Hc.
Qed.

Lemma derive_fresh secret :
  length secret = 32%nat -> derive_public_key (b64_encode secret)
                            = Some (b64_encode (x25519_public secret)).
Proof.
  intros Hl. unfold derive_public_key. rewrite b64_roundtrip. cbn [mbind option_bind].
  by rewrite Hl.
Qed.

Lemma wp_persist_new_key path s :
  wpb (persist_new_key path) (key_post path s) s.
Proof.
  unfold persist_new_key, generate_keypair. cbn [bind call].
  intros secret s1 (-> & Hlen & _). cbn [bind].
  intros opened s1 Ho. destruct opened as [[]|err].
  - destruct Ho as [Hnone ->]. unfold bind_try. cbn [bind call].
    assert (forall t s', s' = set_files (partial_alter (fun _ => t) path (files s)) s ->
              forall e, key_post path s (Done (Err e)) s') as Hfail.
    { intros t s' -> e. split_and!; [|by intros ? ?; congruence|done|done].
      intros p Hp. cbn. by rewrite lookup_partial_alter_ne. }
    intros r1 s1 H1. destruct r1 as [[]|e]; cycle 1.
    { destruct H1 as [t ->]. cbn. eapply (Hfail t). cbn. unfold set_files. cbn.
      by rewrite partial_alter_overwrite. }
    cbn in H1. rewrite lookup_insert_eq in H1. cbn in H1. subst s1.
    intros r2 s2 H2. destruct r2 as [[]|e]; cycle 1.
    { destruct H2 as [t ->]. cbn. eapply (Hfail t). unfold set_files. cbn.
      by rewrite !partial_alter_overwrite. }
    cbn [box_spec files set_files] in H2. rewrite lookup_insert_eq in H2.
    unfold default in H2. subst s2. cbn [files set_files].
    split_and!; [|by intros ? ?; congruence|done|].
    + intros p Hp. cbn [files set_files]. by rewrite !lookup_insert_ne.
    + eexists. cbn [files set_files]. split; [apply lookup_insert_eq|].
      rewrite trim_nl by apply b64_text. by apply derive_fresh.
  - destruct Ho as [-> Hk].
    assert (forall e, key_post path s (Done (Err e)) s) as Hfail by (by intros e; split_and!).
    destruct (io_kind err); try apply Hfail.
    unfold bind_try. cbn [bind call]. intros r2 s2 [-> Hr]. destruct r2 as [t|e]; [|apply Hfail].
    cbn. unfold key_result. destruct (derive_public_key (trim t)) as [pub|] eqn:Hd; cbn; [|apply Hfail].
    split_and!; [done..|]. by exists t.
Qed.

Lemma wp_ensure_keypair path s : wpb (ensure_keypair path) (key_post path s) s.
Proof.
  unfold ensure_keypair. cbn [bind call]. intros r s1 [-> Hr].
  destruct r as [t|e]; [|apply wp_persist_new_key].
  destruct (is_empty (trim t)) eqn:Ht; cbn [negb]; [apply wp_persist_new_key|].
  cbn. unfold key_result. split_and!; [done..|].
  destruct (derive_public_key (trim t)) as [pub|] eqn:Hd; cbn; [|done]. by exists t.
Qed.

(** What a call finds when the file is there already. *)
Definition again_post (t : string) (s : box) (o : outcome (Result string TunnelError))
    (s' : box) : Prop :=
  s' = s /\ match derive_public_key (trim t) with
            | Some pub => o = Done (Ok pub) \/ exists e, o = Done (Err (TunIo e))
            | None => exists e, o = Done (Err e)
            end.

Lemma again_io t s e : again_post t s (Done (Err (TunIo e))) s.
Proof. split; [done|]. destruct (derive_public_key (trim t)); eauto. Qed.

Lemma again_key t s : again_post t s (Done (key_result (derive_public_key (trim t)))) s.
Proof. split; [done|]. unfold key_result. destruct (derive_public_key (trim t)); cbn; eauto. Qed.

Lemma wp_new_key_again path s t :
  files s !! path = Some t -> wpb (persist_new_key path) (again_post t s) s.
Proof.
  intros Ht. unfold persist_new_key, generate_keypair. cbn [bind call wp].
  intros secret s2 (-> & _ & _). cbn [bind call wp].
  intros [[]|err] s2; [by intros [? _]; congruence|]. intros [-> Hk].
  destruct (io_kind err); try apply again_io.
  unfold bind_try. cbn [bind call wp]. intros r s2 [-> Hr].
  destruct r as [t'|e]; cbn [wp]; [|apply again_io].
  assert (t' = t) as -> by congruence. apply again_key.
Qed.

Lemma wp_keypair_again path s t :
  files s !! path = Some t -> wpb (ensure_keypair path) (again_post t s) s.
Proof.
  intros Ht. unfold ensure_keypair. cbn [bind call wp]. intros r s2 [-> Hr].
  destruct r as [t'|e]; [|by apply wp_new_key_again]. assert (t' = t) as -> by congruence.
  destruct (is_empty (trim t)); cbn [negb]; [by apply wp_new_key_again|]. apply again_key.
Qed.
End Keys.

(** ** Enrollment *)

Definition is_get_of (url : string) (c : http_call) : bool :=
  match c with Got u => bool_decide (u = url) | Posted _ _ => false end.

(** How often the box has fetched [url]. *)
Definition fetched (url : string) (s : box) : nat :=
  length (List.filter (is_get_of url) (http_log s)).

Lemma fetched_log url c s :
  fetched url (log_http c s) = (fetched url s + if is_get_of url c then 1 else 0)%nat.
Proof.
  unfold fetched. cbn [http_log log_http]. rewrite List.filter_app, length_app. cbn [List.filter].
  by destruct (is_get_of url c).
Qed.

Section Enrollment.
Context `{CR : Crates} `{CL : !CratesLaws} `{SP : Serde PersistedTunnel} `{JT : JsonText}.
Context (base : string).
Local Abbreviation client := (HttpEdgeClient.client base).

Definition poll_url (code : string) : string := base ++ "/api/invites/" ++ code ++ "/poll".

(** A call of the edge's API either answers or fails as an API error. *)
Definition api_answer {A} (r : Result A EnrollError) : Prop :=
  match r with Ok _ => True | Err e => exists m, e = EnrApi m end.

Lemma response_json_api url r : api_answer (HttpEdgeClient.response_json url r).
Proof.
  unfold HttpEdgeClient.response_json. destruct r as [resp|err]; [|by eexists].
  destruct (http_text resp) as [text|err]; [|by eexists].
  destruct (is_success _); cbn; [|by eexists].
  destruct (json_parse text); cbn; [done|by eexists].
Qed.

Lemma wp_ec_poll code s (Q : outcome (Result BoxPoll EnrollError) -> box -> Prop) :
  (forall r, api_answer r -> Q (Done r) (log_http (Got (poll_url code)) s)) ->
  wpb (ec_poll client code) Q s.
Proof.
  intros HQ. cbn. intros r s' ->.
  pose proof (response_json_api (base +:+ "/api/invites/" +:+ code +:+ "/poll") r) as Hr.
  destruct (HttpEdgeClient.response_json _ r); by apply (HQ (_ _)).
Qed.

Lemma wp_ec_begin code key s (Q : outcome (Result BoxPoll EnrollError) -> box -> Prop) :
  (forall r c, api_answer r -> is_get_of (poll_url code) c = false -> Q (Done r) (log_http c s)) ->
  wpb (ec_begin client code key) Q s.
Proof.
  intros HQ. cbn. intros r s' ->.
  pose proof (response_json_api (base +:+ "/api/invites/" +:+ code +:+ "/begin") r) as Hr.
  destruct (HttpEdgeClient.response_json _ r); by apply (HQ (_ _)).
Qed.

Lemma info_url_poll code : (base ++ "/api/wireguard/info")%string <> poll_url code.
Proof. unfold poll_url. intros H. by apply str_app_inj_l in H. Qed.

Lemma wp_ec_info code s (Q : outcome (Result EdgeInfo EnrollError) -> box -> Prop) :
  (forall r c, api_answer r -> is_get_of (poll_url code) c = false -> Q (Done r) (log_http c s)) ->
  wpb (ec_edge_info client) Q s.
Proof.
  intros HQ. cbn. intros r s' ->.
  assert (is_get_of (poll_url code) (Got (base +:+ "/api/wireguard/info")) = false) as Hu.
  { cbn. apply bool_decide_eq_false_2, info_url_poll. }
  pose proof (response_json_api (base +:+ "/api/wireguard/info") r) as Hr.
  destruct (HttpEdgeClient.response_json _ r) as [v|e]; [|by apply (HQ (Err e))].
  cbn. destruct (jstr "public_key" v), (jstr "endpoint" v), (jstr "allowed_ips" v);
    (apply HQ; [|exact Hu]); cbn; eauto.
Qed.

Lemma wp_poll_loop code interval n s :
  wpb (poll_loop client code interval n)
    (fun o s' =>
       files s' = files s /\
       (fetched (poll_url code) s' <= fetched (poll_url code) s + S n)%nat /\
       match o with
       | Done (Ok p) => bp_status p = "approved"%string
       | Done (Err (EnrTimedOut k)) =>
           k = 0%Z /\ fetched (poll_url code) s' = (fetched (poll_url code) s + S n)%nat
       | Done (Err EnrDenied) | Done (Err (EnrApi _)) => True
       | _ => False
       end) s.
Proof.
  revert s. induction n as [|n IH]; intros s; cbn [poll_loop]; unfold bind_try; rewrite wp_bind;
    apply wp_ec_poll; intros r Hr;
    assert (fetched (poll_url code) (log_http (Got (poll_url code)) s)
            = S (fetched (poll_url code) s)) as Hf
      by (rewrite fetched_log; cbn; rewrite bool_decide_eq_true_2 by done; lia);
    (destruct r as [p|e]; cbn [andthen];
       [|destruct Hr as [m ->]; cbn [wp]; split_and!; [done|lia|done]]);
    (case_bool_decide; [cbn [wp]; split_and!; [done|lia|done]|]).
  - case_bool_decide; [cbn [wp]; split_and!; [done|lia|done|lia]|].
    case_bool_decide; cbn [wp]; split_and!; done || lia.
  - case_bool_decide.
    + rewrite wp_bind. intros u s1 ->. cbn [wp andthen].
      eapply wp_mono; [|apply IH].
      intros o s2 (H1 & H2 & H3). rewrite Hf in *. split_and!; [done|lia|].
      destruct o as [[p'|e]| |]; try done. destruct e; try done. destruct H3 as [-> H3].
      split; [done|lia].
    + case_bool_decide; cbn [wp]; split_and!; done || lia.
Qed.

(** A write through [create_parent] and [WriteFile]. *)
Lemma wp_write_file path data s (Q : outcome (Result unit EnrollError) -> box -> Prop) :
  Q (Done (Ok tt)) (set_files (<[path := data]> (files s)) s) ->
  (forall e s', http_log s' = http_log s -> Q (Done (Err (EnrIo e))) s') ->
  wpb (_d <-? create_parent path as EnrIo ;;
       _w <-? @call BoxSig (WriteFile path data) as EnrIo ;;
       Ret (Ok tt)) Q s.
Proof.
  intros Hok Herr.
  assert (wpb (_w <-? @call BoxSig (WriteFile path data) as EnrIo ;; Ret (Ok tt)) Q s) as Hw.
  { unfold bind_try. cbn. intros [[]|e] s'; [by intros ->|]. intros [t ->]. by apply Herr. }
  unfold create_parent. destruct (parent path) as [dir|]; [|exact Hw].
  unfold bind_try at 1. cbn [bind call wp]. intros [[]|e] s' ->; [exact Hw|]. by apply Herr.
Qed.

Definition enroll_post (cfg : InviteConfig) (kp sp tp code : string) (n : nat) (s : box)
    (o : outcome (Result TunnelConfig EnrollError)) (s' : box) : Prop :=
  (fetched (poll_url code) s' <= fetched (poll_url code) s + S n)%nat /\
  match o with
  | Done (Ok t) =>
      tun_iface t = ic_iface cfg /\ tun_prefix t = ic_prefix cfg /\
      tun_listen_port t = ic_listen_port cfg /\
      exists hostname token,
        hostname <> ""%string /\ token <> ""%string /\
        files s' !! sp = Some (to_json (MkPersisted t hostname)) /\ files s' !! tp = Some token
  | Done (Err (EnrIo _)) => True
  | Done (Err _) => forall p, p <> kp -> files s' !! p = files s !! p
  | Panicked m =>
      m = "an approved machine always has a hostname"%string \/
      m = "device token must be non-empty"%string
  | Stuck => False
  end.

Lemma fetched_eq url s s' : http_log s' = http_log s -> fetched url s' = fetched url s.
Proof. unfold fetched. by intros ->. Qed.

(** Once approved: the payload, the tunnel facts, the two files. *)
Lemma wp_enroll_approved cfg kp sp tp code n s0 s (approved : BoxPoll) :
  sp <> tp ->
  (fetched (poll_url code) s <= fetched (poll_url code) s0 + S n)%nat ->
  (forall p, p <> kp -> files s !! p = files s0 !! p) ->
  wpb (or_missing (bp_wg_ip approved) "wg_ip" (fun wg_ip =>
       or_missing (bp_hostname approved) "hostname" (fun hostname =>
       or_missing (bp_device_token approved) "device token" (fun device_token =>
         info <-? ec_edge_info client as (fun e => e) ;;
         let tunnel := MkTunnel (ic_iface cfg) wg_ip (ic_prefix cfg) (ei_public_key info)
                         (ei_endpoint info) (ei_allowed_ips info) (ic_listen_port cfg) in
         _s <-? persist_tunnel_state sp tunnel hostname as (fun e => e) ;;
         _t <-? persist_device_token tp device_token as (fun e => e) ;;
         Ret (Ok tunnel)))))
    (enroll_post cfg kp sp tp code n s0) s.
Proof.
  intros Hne Hf Hfiles.
  destruct (bp_wg_ip approved) as [ip|]; cbn [or_missing]; [|by split].
  destruct (bp_hostname approved) as [host|]; cbn [or_missing]; [|by split].
  destruct (bp_device_token approved) as [token|]; cbn [or_missing]; [|by split].
  unfold bind_try at 1. rewrite wp_bind. apply (wp_ec_info code). intros r c Hr Hc.
  assert (fetched (poll_url code) (log_http c s) = fetched (poll_url code) s) as Hlog
    by (rewrite fetched_log, Hc; lia).
  destruct r as [info|e]; cbn [andthen]; [|destruct Hr as [m ->]; split; [lia|done]].
  set (t := MkTunnel _ _ _ _ _ _ _). cbn zeta. unfold persist_tunnel_state at 1.
  destruct (is_empty host) eqn:Eh; cbn [negb assert_ bind_try bind wp]; [by split; [lia|left]|].
  unfold bind_try at 1. rewrite wp_bind. apply wp_write_file.
  - cbn [andthen]. unfold persist_device_token.
    destruct (is_empty token) eqn:Et; cbn [negb assert_ bind_try bind wp];
      [by split; [rewrite (fetched_eq _ (log_http c s)) by done; lia|right]|].
    unfold bind_try at 1. rewrite wp_bind. apply wp_write_file.
    + cbn [andthen wp]. split; [rewrite (fetched_eq _ (log_http c s)) by done; lia|].
      split_and!; [done..|]. exists host, token. rewrite <- !is_empty_false.
      cbn [files set_files]. rewrite lookup_insert_eq, lookup_insert_ne, lookup_insert_eq by done.
      done.
    + intros e s' Hs'. cbn [andthen wp].
      split; [rewrite (fetched_eq _ (log_http c s)) by done; lia|done].
  - intros e s' Hs'. cbn [andthen wp]. split; [rewrite (fetched_eq _ _ _ Hs'); lia|done].
Qed.

Lemma wp_enroll cfg kp sp tp b code interval n s :
  sp <> tp -> parse_invite_url (invite_url cfg) = Ok (b, code) ->
  wpb (enroll client cfg kp sp tp interval n) (enroll_post cfg kp sp tp code n s) s.
Proof.
  intros Hne Hp. unfold enroll, invite_config_parse. rewrite Hp.
  unfold bind_try at 1. rewrite wp_bind. eapply wp_mono; [|apply wp_ensure_keypair].
  intros o s1 (Hk & _ & Hlog & Ho). pose proof (fetched_eq (poll_url code) s s1 Hlog) as Hf1.
  destruct o as [[pub|err]| |]; cbn [andthen wp]; [|by split; [lia|]|done..].
  unfold bind_try at 1. rewrite wp_bind. apply wp_ec_begin. intros r c Hr Hc.
  assert (fetched (poll_url code) (log_http c s1) = fetched (poll_url code) s) as Hf2
    by (rewrite fetched_log, Hc; lia).
  destruct r as [begun|e]; cbn [andthen wp]; [|destruct Hr as [m ->]; by split; [lia|]].
  case_bool_decide; [by split; [lia|]|].
  unfold bind_try at 1. rewrite wp_bind. eapply wp_mono; [|apply wp_poll_loop].
  intros o s2 (Hfiles & Hcount & Hpost). rewrite Hf2 in Hcount.
  destruct o as [[approved|e]| |]; cbn [andthen wp]; [| |done..].
  - apply wp_enroll_approved; [done|done|]. intros p Hp'. rewrite Hfiles. by apply Hk.
  - split; [done|]. destruct e; try done; intros p Hp'; rewrite Hfiles; by apply Hk.
Qed.
End Enrollment.

(** ** The tunnel address *)

(** The characters of an address, none of them in the placeholder. *)
Definition ip_char (c : ascii) : bool := is_ascii_digit c || Ascii.eqb c ".".

Section Substitute.
Context (ip : string) (Hip : str_forallb ip_char ip = true) (Hne : ip <> ""%string).

(** A text without address characters at the head of a replacement was there
    before it. *)
Lemma starts_replace q s :
  str_forallb (fun c => negb (ip_char c)) q = true ->
  starts_with q (replace TUNNEL_IP ip s) = true -> starts_with q s = true.
Proof.
  intros Hq. rewrite !starts_with_spec. revert s. induction q as [|c q IH]; intros s [t Ht].
  { by exists s. }
  cbn in Hq. apply andb_true_iff in Hq as [Hc Hq]. unfold replace in *.
  destruct s as [|d s]; [done|]. cbn [replace_go] in Ht.
  destruct (starts_with TUNNEL_IP (String d s)).
  - destruct ip as [|i ip']; [done|]. cbn in Ht, Hip. apply andb_true_iff in Hip as [Hi _].
    injection Ht as -> _. by rewrite Hi in Hc.
  - cbn in Ht. injection Ht as -> Ht. destruct (IH Hq s) as [u ->]; [by eexists|].
    by exists u.
Qed.

Lemma contains_ip_app r :
  contains_str TUNNEL_IP r = false -> contains_str TUNNEL_IP (ip ++ r) = false.
Proof.
  intros Hr. clear Hne. induction ip as [|c i IH]; [done|]. cbn in Hip.
  apply andb_true_iff in Hip as [Hc Hi]. cbn [String.append contains_str].
  rewrite (IH Hi), orb_false_r. apply not_true_iff_false. rewrite starts_with_spec.
  intros [t Ht]. injection Ht as -> _. done.
Qed.

Lemma replace_go_clean skip s : contains_str TUNNEL_IP (replace_go TUNNEL_IP ip skip s) = false.
Proof.
  revert skip. induction s as [|d s IH]; intros skip; [done|].
  cbn [replace_go]. destruct skip as [|n]; [|apply IH].
  destruct (starts_with TUNNEL_IP (String d s)) eqn:Hs; [by apply contains_ip_app|].
  cbn [contains_str]. rewrite IH, orb_false_r. apply not_true_iff_false. intros Hw.
  assert (starts_with TUNNEL_IP (String d s) = true); [|congruence].
  apply starts_with_spec in Hw as [t Ht]. unfold TUNNEL_IP in Ht. injection Ht as -> Ht.
  change "{tunnel_ip}"%string with (String "{" "tunnel_ip}").
  destruct (proj1 (starts_with_spec "tunnel_ip}" s)) as [u ->].
  - apply starts_replace; [done|]. apply starts_with_spec. by exists t.
  - apply starts_with_spec. by exists u.
Qed.

Lemma substitute_field_spec field :
  exists v, substitute_field field ip = Some v /\ contains_str TUNNEL_IP v = false /\
            (contains_str TUNNEL_IP field = false -> v = field).
Proof.
  unfold substitute_field. destruct (contains_str TUNNEL_IP field) eqn:Hc.
  - rewrite (proj2 (is_empty_false ip) Hne). eexists. split; [done|].
    split; [apply replace_go_clean|done].
  - by exists field.
Qed.

Lemma substitute_forward_spec f :
  exists f', substitute_forward ip f = Some f' /\ forward_needs_tunnel f' = false /\
             (forward_needs_tunnel f = false -> f' = f).
Proof.
  destruct (substitute_field_spec (listen_addr f)) as (l & Hl & Hl1 & Hl2).
  destruct (substitute_field_spec (dest_addr f)) as (d & Hd & Hd1 & Hd2).
  unfold substitute_forward. rewrite Hl. cbn [mbind option_bind]. rewrite Hd.
  cbn [mbind option_bind]. eexists. split; [done|]. unfold forward_needs_tunnel. cbn.
  rewrite Hd1, Hl1. split; [done|]. intros [H1 H2]%orb_false_iff.
  rewrite (Hl2 H2), (Hd2 H1). by destruct f.
Qed.
End Substitute.
