(* ===== verification/SiteProofs.v ===== *)
(** Lemmas about the site: redirects, the session gate, and the handlers of the
    two surfaces side by side. *)

From stdpp Require Import base gmap strings list pretty.
From Stdlib Require Import ZArith Lia Ascii.
From S2P Require Import Prelude Prog Addr ForwarderState World Forwarder Store Crates.
From S2P Require Import Errors ControlPlane Account AccountProofs Invite Box Enroll Web Api.
From S2P Require Import HttpProofs Site.

Local Open Scope prog_scope.

(** ** Redirects *)

Lemma bind_assoc {X} {A B C} (p : prog X A) (f : A -> prog X B) (g : B -> prog X C) :
  forall S (spec : forall o : op X, S -> ret X o -> S -> Prop) Q s,
    wp spec (y <- (x <- p ;; f x) ;; g y) Q s <-> wp spec (x <- p ;; y <- f x ;; g y) Q s.
Proof.
  intros S spec Q s. rewrite !wp_bind. split; apply wp_mono; intros [a|m|] s'; cbn [andthen];
    rewrite ?wp_bind; done.
Qed.

Section Redirects.
Context (verify : string -> string -> option bool).
Abbreviation wpe := (wp (X := EdgeSig) (edge_spec verify)) (only parsing).

Definition bad_location : string := "redirect location is a valid header value".

Lemma wp_true {A} (p : prog EdgeSig A) s : wpe p (fun _ _ => True) s.
Proof. revert s. induction p; intros s; cbn; eauto. Qed.

Lemma wp_redirect loc cookie s (Q : outcome TcResult -> edge -> Prop) :
  (header_value_ok loc = true -> Q (Done (Ok (MkSite 303 (Some loc) cookie NoBody))) s) ->
  (header_value_ok loc = false -> Q (Panicked bad_location) s) ->
  wpe (redirect loc cookie) Q s.
Proof.
  intros H1 H2. unfold redirect, location_header. destruct (header_value_ok loc); cbn; auto.
Qed.

(** Whatever a program answers. *)
Lemma wp_whatever {A B} (p : prog EdgeSig A) (k : A -> prog EdgeSig B) s
    (Q : outcome B -> edge -> Prop) :
  (forall a s', wpe (k a) Q s') -> (forall m s', Q (Panicked m) s') ->
  (forall s', Q Stuck s') -> wpe (a <- p ;; k a) Q s.
Proof.
  intros HD HP HS. rewrite wp_bind. eapply wp_mono; [|apply wp_true].
  intros [a|m|] s' _; cbn [andthen]; auto.
Qed.

Lemma wp_assoc {A B C} (p : prog EdgeSig A) (f : A -> prog EdgeSig B) (g : B -> prog EdgeSig C)
    Q s :
  wpe (x <- p ;; y <- f x ;; g y) Q s -> wpe (y <- (x <- p ;; f x) ;; g y) Q s.
Proof. by rewrite bind_assoc. Qed.
End Redirects.

(** The error codes of the two tables. *)
Definition account_codes : list string :=
  ["needs_verify"; "exists"; "unknown"; "bad_credentials"; "invalid_token"; "mail_failed";
   "failed"]%string.
Definition invite_codes : list string :=
  ["name_taken"; "invalid_name"; "not_waiting"; "not_begun"; "invalid_code"; "failed"]%string.

Lemma error_code_listed e : Bridge.error_code e ∈ account_codes.
Proof. destruct e; cbn; set_solver. Qed.

Lemma invite_error_code_listed e : Bridge.invite_error_code e ∈ invite_codes.
Proof. destruct e; cbn; set_solver. Qed.

(** Every code has its text. *)
Lemma account_codes_told code : code ∈ account_codes -> is_Some (AuthPages.alert code).
Proof.
  unfold account_codes. rewrite !elem_of_cons, elem_of_nil. intros H.
  destruct_or! H; try done; subst code; by eexists.
Qed.

Lemma invite_codes_told code : code ∈ invite_codes -> is_Some (MachinesPages.alert code).
Proof.
  unfold invite_codes. rewrite !elem_of_cons, elem_of_nil. intros H.
  destruct_or! H; try done; subst code; by eexists.
Qed.

Definition is_post (r : site_route) : bool :=
  match r with
  | SPostRegister _ _ | SPostLogin _ _ | SPostLogout | SPostForgot _ | SPostReset _ _
  | SPostVerify _ | SPostResend _ | SPostAccountDelete | SPostInvite | SPostApprove _ _
  | SPostDeny _ | SPostRevoke _ => true
  | _ => false
  end.

(** ** Sessions *)

Section Gate.
Context `{CR : Crates} `{SM : Serde Machine} `{SA : Serde AccountRecord}.
Context `{SI : Serde InviteRecord} `{SD : Serde EnrollmentDelivery}.
Context (verify : string -> string -> option bool).
Abbreviation wpe := (wp (X := EdgeSig) (edge_spec verify)) (only parsing).

Lemma wp_no_current req s (Q : outcome SessionState -> edge -> Prop) :
  no_session req s -> Q (Done Anonymous) s -> wpe (Bridge.current_session req) Q s.
Proof.
  unfold no_session, Bridge.current_session. intros Hn HQ.
  destruct (read_cookie req SESSION_COOKIE) as [token|]; [|done].
  rewrite wp_bind. by apply wp_no_account.
Qed.

Lemma wp_no_signed_in req s (Q : outcome (option string) -> edge -> Prop) :
  no_session req s -> Q (Done None) s -> wpe (Bridge.signed_in_email req) Q s.
Proof. intros Hn HQ. unfold Bridge.signed_in_email. rewrite wp_bind. by apply wp_no_current. Qed.

Lemma wp_signed_in_gate req k s :
  no_session req s ->
  wpe (MachinesPages.signed_in req k)
    (fun o s' => o = Done (Ok (MkSite 303 (Some "/login"%string) None NoBody)) /\ s' = s) s.
Proof. intros Hn. unfold MachinesPages.signed_in. rewrite wp_bind. by apply wp_no_signed_in. Qed.
End Gate.

(** The routes that act for the logged-in account. *)
Definition owner_route (r : site_route) : bool :=
  match r with
  | SGetMachines _ | SPostAccountDelete | SPostInvite | SPostApprove _ _ | SPostDeny _
  | SPostRevoke _ => true
  | _ => false
  end.

(** ** Where the forms send the browser *)

(** Where a form may send the browser: a fixed location, the new invite, or the
    resend form with the address that was typed. *)
Definition fixed_locations : list string :=
  ["/"; "/login"; "/register?check=1"; "/login?verified=1"; "/login?reset=1"; "/forgot?sent=1";
   "/resend?sent=1"; "/reset?error=invalid_token"; "/verify?error=invalid_token";
   "/account/delete?deleted=1"; "/account/delete?error=failed"; "/machines"]%string
  ++ map (String.append "/register?error=") account_codes ++ map (String.append "/login?error=") account_codes
  ++ map (String.append "/forgot?error=") account_codes ++ map (String.append "/machines?error=") invite_codes.

Definition may_redirect (r : site_route) (location : string) : Prop :=
  location ∈ fixed_locations \/
  match r with
  | SPostLogin email _ => location = ("/resend?error=needs_verify&email=" ++ email)%string
  | SPostResend email => location = ("/resend?error=unknown&email=" ++ email)%string
  | SPostInvite => exists code, location = ("/machines?invited=" ++ code)%string
  | _ => False
  end.

#[local] Ltac fixed := apply (bool_decide_unpack _); vm_compute; exact I.

Lemma wp_post `{CR : Crates} `{SM : Serde Machine} `{SA : Serde AccountRecord}
    `{SI : Serde InviteRecord} `{SD : Serde EnrollmentDelivery}
    (verify : string -> string -> option bool) (WORDS : list string) (F : option Forwarder)
    (fuel : nat) (backend : SiteBackend) (r : site_route) (req : Request) (s : edge)
    (Hpost : is_post r = true) :
  wp (X := EdgeSig) (edge_spec verify) (pages_router WORDS F fuel backend r req)
    (fun o _ =>
       match o with
       | Done (Ok resp) =>
           site_status resp = 303%Z /\ site_body resp = NoBody /\
           exists location, site_location resp = Some location /\ may_redirect r location
       | Done (Err _) => False
       | _ => True
       end) s.
Proof.
  set (Q := fun (o : outcome TcResult) (_ : edge) => _).
  assert (forall loc cookie s', may_redirect r loc ->
            wp (X := EdgeSig) (edge_spec verify) (redirect loc cookie) Q s') as Hgo.
  { intros loc cookie s' Hloc. apply wp_redirect; [|done]. intros _. cbn. eauto. }
  assert (forall loc cookie s', loc ∈ fixed_locations ->
            wp (X := EdgeSig) (edge_spec verify) (redirect loc cookie) Q s') as Hfix.
  { intros loc cookie s' Hloc. apply Hgo. by left. }
  assert (forall req k, (forall email s', wp (X := EdgeSig) (edge_spec verify)
              (loc <- k email ;; redirect loc None) Q s') -> forall s',
            wp (X := EdgeSig) (edge_spec verify) (MachinesPages.signed_in req k) Q s') as Hown.
  { intros req' k Hk s'. unfold MachinesPages.signed_in. apply wp_whatever; [|done..].
    intros [email|] s1; [apply Hk|]. apply Hfix. fixed. }
  assert (forall A B (p : prog EdgeSig A) (f : A -> B) loc s',
            (forall a, may_redirect r (loc (f a))) ->
            wp (X := EdgeSig) (edge_spec verify)
              (l <- (b <- (x <- p ;; Ret (f x)) ;; Ret (loc b)) ;; redirect l None) Q s') as Hact.
  { intros A B p f loc s' Hloc. do 2 apply wp_assoc. apply wp_whatever; [|done..].
    intros a s1. apply Hgo, Hloc. }
  destruct r; try discriminate; cbn [pages_router].
  - unfold AuthPages.register_post, Bridge.signup. apply wp_assoc, wp_whatever; [|done..].
    intros [[]|e] s'; apply Hfix; [|destruct e]; fixed.
  - unfold AuthPages.login_post, Bridge.login. apply wp_assoc, wp_whatever; [|done..].
    intros [token|e] s'.
    + destruct (session_cookie_header token); cbn; [|done]. apply Hfix. fixed.
    + destruct e; apply Hgo; first [left; fixed | right; done].
  - unfold AuthPages.logout_post, Bridge.logout. apply wp_assoc, wp_whatever; [|done..].
    intros [] s'. apply Hfix. fixed.
  - unfold AuthPages.forgot_post, Bridge.forgot. apply wp_assoc, wp_whatever; [|done..].
    intros [[]|e] s'; apply Hfix; [..|destruct e]; fixed.
  - unfold AuthPages.reset_post, Bridge.reset. apply wp_assoc, wp_whatever; [|done..].
    intros [[]|e] s'; apply Hfix; fixed.
  - unfold AuthPages.verify_post, Bridge.verify. apply wp_assoc, wp_whatever; [|done..].
    intros [[]|e] s'; apply Hfix; fixed.
  - unfold AuthPages.resend_post, Bridge.resend. apply wp_assoc, wp_whatever; [|done..].
    intros [[]|e] s'; apply Hgo; first [left; fixed | right; done].
  - unfold AuthPages.account_delete_post. apply wp_whatever; [|done..].
    intros [email|] s'; [|apply Hfix; fixed]. apply wp_whatever; [|done..].
    intros [[]|e] s1; [|apply Hfix; fixed]. apply wp_whatever; [|done..].
    intros c s2. apply Hfix. fixed.
  - apply Hown. intros email s'. apply Hact.
    intros [code|e]; [by right; eexists|]. left. destruct e; fixed.
  - apply Hown. intros email s'. apply Hact. intros [m|e]; left; [|destruct e]; fixed.
  - apply Hown. intros email s'. apply Hact. intros [m|e]; left; [|destruct e]; fixed.
  - apply Hown. intros email s'. apply Hact. intros [m|e]; left; [|destruct e]; fixed.
Qed.

(** ** Links the store does not know *)

Section Links.
Context `{CR : Crates} `{SA : Serde AccountRecord}.
Context (verify : string -> string -> option bool).
Abbreviation wpe := (wp (X := EdgeSig) (edge_spec verify)) (only parsing).

Lemma wp_getdel_none {B E} k (conv : RedisError -> E)
    (f : option string -> prog EdgeSig (Result B E)) s Q :
  kv s !! k = None -> wpe (f None) Q s -> (forall e, Q (Done (Err (conv e))) s) ->
  wpe (bind_try conv (redis (RGetDel k)) f) Q s.
Proof.
  intros Hk Hf He. apply (wp_redis_try verify); [done| |].
  - intros e s' Hs'. assert (s' = s) as ->; [|apply He].
    destruct Hs' as [-> | ->]; [done|]. cbn. rewrite Hk. cbn. apply set_kv_id.
  - intros a. cbn [redis_apply fst snd]. rewrite Hk. cbn [read_str fst snd]. intros [= <-].
    by rewrite set_kv_id.
Qed.

Lemma wp_unknown_verify token s (Q : outcome (Result unit AccountError) -> edge -> Prop) :
  kv s !! verify_key token = None -> (forall e, Q (Done (Err e)) s) ->
  wpe (account_verify token) Q s.
Proof.
  intros Hk He. unfold account_verify. unfold bind_try at 1. rewrite wp_bind. intros c s1 Hc.
  cbn in Hc. subst s1. destruct c as [[]|e]; [|apply He]. cbn [andthen].
  apply wp_getdel_none; [done|apply He|intros e; apply He].
Qed.

Lemma wp_unknown_reset token password s (Q : outcome (Result unit AccountError) -> edge -> Prop) :
  kv s !! reset_key token = None -> (forall e, Q (Done (Err e)) s) ->
  wpe (reset_password token password) Q s.
Proof.
  intros Hk He. unfold reset_password. destruct (validate_password password) as [[]|e]; [|apply He].
  unfold bind_try at 1. rewrite wp_bind. intros c s1 Hc.
  cbn in Hc. subst s1. destruct c as [[]|e]; [|apply He]. cbn [andthen].
  apply wp_getdel_none; [done|apply He|intros e; apply He].
Qed.

Lemma wp_unknown_resend cp email s
    (Q : outcome (Result ResendVerifyOutcome AccountError) -> edge -> Prop) :
  kv s !! account_key (norm_email email) = None -> (forall e, Q (Done (Err e)) s) ->
  Q (Done (Ok ResendUnknownEmail)) s -> wpe (resend_verification cp email) Q s.
Proof.
  intros Hk He HQ. unfold resend_verification. unfold bind_try at 1. rewrite wp_bind. intros c s1 Hc.
  cbn in Hc. subst s1. destruct c as [[]|e]; [|apply He]. cbn [andthen].
  apply (wp_redis_try verify); [done| |].
  - intros e s' Hs'. assert (s' = s) as ->; [|apply He].
    destruct Hs' as [-> | ->]; [done|]. apply set_kv_id.
  - intros a. cbn [redis_apply fst snd]. rewrite Hk. cbn [read_str]. intros [= <-].
    by rewrite set_kv_id.
Qed.
End Links.

(** ** The two surfaces *)

(** The poem route that does what a form of the site does, given the same fields.  Two
    forms are treated apart: the deletion of the account, which only the poem side has
    confirmed, and the approval, whose name only the site trims. *)
Definition twin (r : site_route) : option Web.route :=
  match r with
  | SPostRegister email password => Some (Web.PostSignup (Some email) (Some password))
  | SPostLogin email password => Some (Web.PostLogin (Some email) (Some password))
  | SPostLogout => Some Web.PostLogout
  | SPostForgot email => Some (Web.PostForgot (Some email))
  | SPostReset token password => Some (Web.PostReset (Some token) (Some password))
  | SPostVerify token => Some (Web.PostVerify (Some token))
  | SPostResend email => Some (Web.PostResendVerify (Some email))
  | SPostInvite => Some Web.PostInvite
  | SPostDeny code => Some (Web.PostDeny code)
  | SPostRevoke code => Some (Web.PostRevoke code)
  | _ => None
  end.

(** The same cookie is set, and both panic or neither, but for a redirect to a
    location no header can carry. *)
Definition surfaces_agree (o : outcome Response) (o' : outcome TcResult) : Prop :=
  match o, o' with
  | Done resp, Done (Ok resp') =>
      site_status resp' = 303%Z /\ site_cookie resp' = resp_set_cookie resp
  | Done _, Panicked m => m = bad_location
  | Panicked m, Panicked m' => m = m'
  | Stuck, Stuck => True
  | _, _ => False
  end.

(** Answering on the one side, redirecting on the other. *)
Lemma lockstep_redirect resp loc cookie :
  cookie = resp_set_cookie resp ->
  lockstep surfaces_agree (Ret resp) (redirect loc cookie).
Proof.
  intros ->. unfold redirect, location_header. destruct (header_value_ok loc); cbn.
  - by apply lockstep_ret.
  - by eapply lockstep_end.
Qed.

Section Twins.
Context `{CR : Crates} `{SM : Serde Machine} `{SA : Serde AccountRecord}.
Context `{SI : Serde InviteRecord} `{SD : Serde EnrollmentDelivery}.
Context (WORDS : list string) (F : option Forwarder) (fuel : nat) (cp : ControlPlane).
Abbreviation state := (MkAppState (Some cp) true) (only parsing).

(** The owner's forms: the same session, then the same decision. *)
Lemma lockstep_signed_in req k k' :
  (forall email, lockstep surfaces_agree (k cp email)
                   (location <- k' email ;; redirect location None)) ->
  lockstep surfaces_agree (Web.with_session state req k) (MachinesPages.signed_in req k').
Proof.
  intros Hk. unfold Web.with_session, Web.require_session, MachinesPages.signed_in,
    Bridge.signed_in_email, Bridge.current_session, Web.session_email. cbn [app_cp].
  destruct (read_cookie req SESSION_COOKIE) as [token|]; [|by apply lockstep_redirect].
  along (session_account token). intros [[email|]|e]; cbn [bind or_respond ok_or];
    [apply Hk|by apply lockstep_redirect..].
Qed.

#[local] Ltac site_cbn :=
  cbn [or_respond cp_or_500 mailer_or_500 app_cp app_mailer ok_or sb_cp].

(** An approval on the site is the control plane's with the trimmed name. *)
Lemma lockstep_approve code name req :
  is_empty (trim name) = false ->
  lockstep surfaces_agree
    (Web.web_routes WORDS F fuel state (Web.PostApprove code (Some (trim name))) req)
    (pages_router WORDS F fuel (MkSiteBackend cp) (SPostApprove code name) req).
Proof.
  intros En. cbn [Web.web_routes pages_router].
  apply lockstep_signed_in. intros email. rewrite En. unfold Bridge.approve_invite. cbn [sb_cp].
  along (invite_approve WORDS cp F email code (trim name)).
  intros [m|e]; by apply lockstep_redirect.
Qed.

(** What the site does besides, once an account is deleted: it ends the session. *)
Definition then_logout (req : Request) (resp : Response) : prog EdgeSig Response :=
  match resp_set_cookie resp, read_cookie req SESSION_COOKIE with
  | Some _, Some token => account_logout token ;;; Ret resp
  | _, _ => Ret resp
  end.

Lemma lockstep_delete req :
  lockstep surfaces_agree
    (resp <- Web.web_routes WORDS F fuel state (Web.PostAccountDelete (Some "DELETE"%string)) req ;;
     then_logout req resp)
    (pages_router WORDS F fuel (MkSiteBackend cp) SPostAccountDelete req).
Proof.
  cbn [Web.web_routes pages_router]. unfold Web.delete_account, Web.with_session,
    Web.require_session, AuthPages.account_delete_post, Bridge.signed_in_email,
    Bridge.current_session, Web.session_email, Bridge.delete_account, Bridge.logout, then_logout.
  cbn [app_cp sb_cp].
  destruct (read_cookie req SESSION_COOKIE) as [token|]; [|by apply lockstep_redirect].
  along (session_account token). intros [[email|]|e]; cbn [bind or_respond ok_or];
    [|by apply lockstep_redirect..].
  rewrite bool_decide_eq_true_2 by done. cbn [negb or_respond cp_or_500 app_cp ok_or].
  along (account_delete fuel cp F email). intros [[]|e]; cbn [bind];
    [|cbn; by apply lockstep_redirect].
  cbn [resp_set_cookie see_other_with].
  along (account_logout token). intros r. by apply lockstep_redirect.
Qed.

(** A name that the rules refuse approves nothing. *)
Lemma refused_name_reads verify email code name e :
  validate_machine_name name = Err e ->
  read_only verify (invite_approve WORDS cp F email code name).
Proof.
  intros He. unfold invite_approve, with_code, with_record, account_uuid, allocate_machine.
  rewrite He. unfold bind_try. cbn [bind]. along_walk.
Qed.

Lemma padded_name_refused name :
  trim name <> name \/ name = ""%string -> exists e, validate_machine_name name = Err e.
Proof.
  intros Hn. unfold validate_machine_name.
  destruct (_ && str_forallb name_char name) eqn:E; [|by eexists].
  apply andb_true_iff in E as [E Hc]. destruct Hn as [Hn| ->]; [|by vm_compute in E].
  destruct Hn. apply trim_none. eapply str_forallb_impl; [|exact Hc].
  intros c. destruct c as [[] [] [] [] [] [] [] []]; vm_compute; congruence.
Qed.

Lemma padded_approval_reads verify code name req :
  trim name <> name \/ name = ""%string ->
  read_only verify
    (Web.web_routes WORDS F fuel state (Web.PostApprove code (Some name)) req).
Proof.
  intros (e & He)%padded_name_refused. cbn [Web.web_routes].
  unfold Web.approve, Web.with_session, Web.require_session.
  cbn [app_cp or_respond cp_or_500 ok_or].
  apply along_bind; [typeclasses eauto| |].
  { apply along_bind; [typeclasses eauto|apply reads_session|intros; apply along_ret, _]. }
  intros [email|resp]; [|apply along_ret, _]. cbn [or_respond].
  destruct (is_empty name); [apply along_ret, _|].
  apply along_bind; [typeclasses eauto|by eapply refused_name_reads|intros; apply along_ret, _].
Qed.

Lemma blank_approval_reads verify code name req :
  trim name = ""%string ->
  read_only verify
    (pages_router WORDS F fuel (MkSiteBackend cp) (SPostApprove code name) req).
Proof.
  intros Hb. destruct (padded_name_refused ""%string) as [e He]; [by right|].
  cbn [pages_router]. unfold MachinesPages.invite_approve, MachinesPages.signed_in, Bridge.approve_invite.
  rewrite Hb. cbn [sb_cp].
  apply along_bind; [typeclasses eauto| |].
  { unfold Bridge.signed_in_email, Bridge.current_session, session_account. along_walk. }
  intros email. apply along_bind; [typeclasses eauto| |].
  - destruct email as [email|]; [|apply along_ret, _].
    repeat (apply along_bind; [typeclasses eauto| |intros; apply along_ret, _]).
    by eapply refused_name_reads.
  - intros loc. unfold redirect. along_walk.
Qed.

Lemma lockstep_twin r w req :
  twin r = Some w ->
  lockstep surfaces_agree (Web.web_routes WORDS F fuel state w req)
    (pages_router WORDS F fuel (MkSiteBackend cp) r req).
Proof.
  destruct r; cbn [twin]; try discriminate; intros [= <-]; cbn [Web.web_routes pages_router].
  - unfold Web.signup, AuthPages.register_post, Bridge.signup. site_cbn.
    along (account_signup cp email password). intros [[]|e]; by apply lockstep_redirect.
  - unfold Web.login, AuthPages.login_post, Bridge.login. site_cbn.
    along (account_login email password). intros [token|e]; cbn [bind].
    + destruct (session_cookie_header token) as [v|]; cbn [expect bind];
        [by apply lockstep_redirect|by eapply lockstep_end].
    + destruct e; by apply lockstep_redirect.
  - unfold Web.logout, AuthPages.logout_post, Bridge.logout. site_cbn.
    destruct (read_cookie req SESSION_COOKIE) as [token|]; [|by apply lockstep_redirect].
    along (account_logout token). intros r. by apply lockstep_redirect.
  - unfold Web.forgot, AuthPages.forgot_post, Bridge.forgot. site_cbn.
    along (request_password_reset cp email). intros [[]|e]; by apply lockstep_redirect.
  - unfold Web.reset, AuthPages.reset_post, Bridge.reset. site_cbn.
    along (reset_password token password). intros [[]|e]; by apply lockstep_redirect.
  - unfold Web.verify_confirm, AuthPages.verify_post, Bridge.verify. site_cbn.
    along (account_verify token). intros [[]|e]; by apply lockstep_redirect.
  - unfold Web.resend_verify, AuthPages.resend_post, Bridge.resend. site_cbn.
    along (resend_verification cp email). intros [[]|e]; by apply lockstep_redirect.
  - apply lockstep_signed_in. intros email. unfold Bridge.create_invite.
    along (invite_create WORDS email). intros [code|e]; by apply lockstep_redirect.
  - apply lockstep_signed_in. intros email. unfold Bridge.deny_invite.
    along (invite_deny WORDS email code). intros [m|e]; by apply lockstep_redirect.
  - apply lockstep_signed_in. intros email. unfold Bridge.revoke_invite.
    along (invite_revoke WORDS email code). intros [m|e]; by apply lockstep_redirect.
Qed.
End Twins.

(** ** The machine API *)

Definition jfields (j : Json) : list (string * Json) :=
  match j with JObj l => l | _ => [] end.

(** What the box makes of an answer: its status, and the poll it reads from the
    body of a successful one. *)
Definition answers_agree (o : outcome InviteApiResponse) (o' : outcome SiteApi.ApiResponse)
    : Prop :=
  match o, o' with
  | Done (InviteOk p), Done r =>
      SiteApi.api_status r = 200%Z /\
      poll_outcome <$> SiteApi.api_body r = Some (poll_outcome (poll_json p))
  | Done e, Done r => SiteApi.api_status r = invite_status e
  | Panicked m, Panicked m' => m = m'
  | Stuck, Stuck => True
  | _, _ => False
  end.

(** The registration answers nothing but its status, [204] for [200]. *)
Definition registrations_agree (o : outcome InviteApiResponse)
    (o' : outcome SiteApi.ApiResponse) : Prop :=
  match o, o' with
  | Done (InviteOk _), Done r => r = SiteApi.MkApi 204 None
  | Done e, Done r => SiteApi.api_status r = invite_status e
  | Panicked m, Panicked m' => m = m'
  | Stuck, Stuck => True
  | _, _ => False
  end.

Lemma site_poll_read p :
  poll_outcome (SiteApi.site_poll_json (SiteApi.map_poll p)) = poll_outcome (poll_json p).
Proof. destruct p as [st [m|] [t|]]; reflexivity. Qed.

Lemma answer_agrees r :
  answers_agree
    (Done (match r with Ok outcome => InviteOk outcome | Err err => invite_api_error err end))
    (Done (SiteApi.poll_response r)).
Proof.
  destruct r as [p|e]; [|by destruct e]. cbn [answers_agree SiteApi.poll_response].
  cbn [SiteApi.api_status SiteApi.api_body]. split; [done|].
  cbn [fmap option_fmap option_map]. by rewrite site_poll_read.
Qed.

(** ** Forms *)

(** A [<form] tag is closed and declares [method="post"]. *)
Definition tag_posts (s : string) : bool :=
  match strip_prefix "<form" s with
  | None => true
  | Some rest =>
      match split_once ">" rest with
      | Some (attrs, _) => contains_str (" method=" ++ q "post") attrs
      | None => false
      end
  end.

(** Every [<form] of a document does. *)
Fixpoint forms_post (s : string) : bool :=
  match s with
  | EmptyString => true
  | String _ s' => tag_posts s && forms_post s'
  end.

(** A fragment that leaves the forms of what follows it as they are. *)
Definition tidy (s : string) : Prop := forall rest, forms_post (s ++ rest) = forms_post rest.

Lemma tidy_app a b : tidy a -> tidy b -> tidy (a ++ b).
Proof. intros Ha Hb rest. by rewrite <- str_app_assoc, Ha, Hb. Qed.

Lemma tidy_text t : lacks "<" t -> tidy t.
Proof.
  induction t as [|c t IH]; intros H rest; [done|]. apply lacks_cons in H as [Hc Ht].
  change (tag_posts (String c (t ++ rest)) && forms_post (t ++ rest) = forms_post rest).
  rewrite (IH Ht). unfold tag_posts. cbn [strip_prefix].
  destruct (Ascii.eqb_spec "<" c); [by destruct Hc|done].
Qed.

Lemma tidy_whole s : tidy s -> forms_post s = true.
Proof. intros H. rewrite <- (str_app_nil_r s). apply H. Qed.

(** A [<form] whose tag is tidy opens what it holds. *)
Lemma tidy_form action fields :
  lacks "<" action -> lacks ">" action -> Forall tidy fields -> tidy (Markup.form action fields).
Proof.
  intros Hlt Hgt Hfields rest. unfold Markup.form.
  set (attrs := (" class=" ++ q "flex flex-col gap-4" ++ " method=" ++ q "post" ++ " action="
                   ++ q action)%string).
  assert (lacks "<" attrs /\ lacks ">" attrs) as [Hl Hg].
  { unfold attrs, q. rewrite !lacks_app, !lacks_cons, !lacks_app. by repeat split. }
  assert (tidy (String.concat "" fields)) as Hf.
  { clear -Hfields. induction Hfields as [|f fs Hf Hfs IH]; [done|]. cbn.
    destruct fs as [|f' fs]; [done|]. by apply tidy_app. }
  assert (forms_post ("<form" ++ attrs ++ ">" ++ String.concat "" fields ++ "</form>" ++ rest)
          = forms_post rest) as H.
  { transitivity (tag_posts ("<form" ++ attrs ++ ">" ++ String.concat "" fields ++ "</form>"
                               ++ rest)
                  && forms_post (("form" ++ attrs ++ ">") ++ String.concat "" fields ++ "</form>"
                                   ++ rest)).
    { rewrite <- !str_app_assoc. reflexivity. }
    unfold tag_posts. rewrite (proj2 (strip_prefix_spec "<form" _ _) eq_refl).
    assert (split_once ">" (attrs ++ ">" ++ String.concat "" fields ++ "</form>" ++ rest)
            = Some (attrs, String.concat "" fields ++ "</form>" ++ rest)%string) as ->
      by exact (split_once_app ">" attrs _ Hg).
    rewrite (tidy_text ("form" ++ attrs ++ ">")), Hf; [|by rewrite !lacks_app].
    reflexivity. }
  rewrite <- H. unfold attrs. rewrite <- !str_app_assoc. reflexivity.
Qed.

Lemma alert_tidy code message : AuthPages.alert code = Some message -> tidy message.
Proof.
  intros H. apply tidy_text. unfold AuthPages.alert in H. cbn [assoc] in H.
  repeat case_bool_decide; try discriminate; injection H as <-; vm_compute; reflexivity.
Qed.

(** The values of the query or the path that a page shows. *)
Definition reflected (r : site_route) : list string :=
  match r with
  | SGetReset (Some query) | SGetVerify (Some query) => option_list (tq_token query)
  | SGetResend (Some query) => option_list (rq_email query)
  | SGetJoin code => [code]
  | _ => []
  end.

#[local] Ltac tidy_const := intros rest; vm_compute; reflexivity.
#[local] Ltac tidy_parts :=
  first [by apply tidy_text | by auto | tidy_const | apply tidy_app; [tidy_parts|tidy_parts]].

Lemma tidy_shell title banner body :
  lacks "<" title -> (forall m, banner = Some m -> tidy m) -> tidy body ->
  tidy (Markup.auth_shell title banner body).
Proof.
  intros Ht Hb Hbody. unfold Markup.auth_shell. destruct banner as [m|].
  - specialize (Hb m eq_refl). tidy_parts.
  - tidy_parts.
Qed.

Lemma tidy_hidden token : lacks "<" token -> tidy (Markup.hidden_token token).
Proof. intros H. unfold Markup.hidden_token, q. cbn [String.append]. tidy_parts. Qed.

Lemma tidy_prefill email : lacks "<" email -> tidy (Markup.email_prefill email).
Proof. intros H. unfold Markup.email_prefill, q. tidy_parts. Qed.

Lemma tidy_join code : lacks "<" code -> tidy (Markup.join_html code).
Proof. intros H. unfold Markup.join_html, Markup.dim_p. tidy_parts. Qed.

Lemma banner_if_tidy flag text banner m :
  lacks "<" text -> (forall m, banner = Some m -> tidy m) ->
  banner_if flag text banner = Some m -> tidy m.
Proof. intros Ht Hb. destruct flag; cbn; [|apply Hb]. intros [= <-]. by apply tidy_text. Qed.

Lemma alert_banner_tidy error m : error ≫= AuthPages.alert = Some m -> tidy m.
Proof. destruct error as [code|]; cbn; [|done]. apply alert_tidy. Qed.

Lemma tidy_field label input : lacks "<" label -> tidy input -> tidy (Markup.field label input).
Proof. intros Hl Hi. unfold Markup.field. tidy_parts. Qed.

(** A page of a shell, a form and what follows it. *)
Lemma tidy_form_page title banner action fields tail :
  lacks "<" title -> (forall m, banner = Some m -> tidy m) ->
  lacks "<" action -> lacks ">" action -> Forall tidy fields -> tidy tail ->
  tidy (Markup.auth_shell title banner (Markup.form action fields ++ tail)).
Proof. intros. apply tidy_shell; [done..|]. by apply tidy_app; [apply tidy_form|]. Qed.

Lemma page_ok_inj h h' : page_ok h = Ok (MkSite 200 None None (Html h')) -> h' = h.
Proof. by intros [= <-]. Qed.

(** A page whose every [<form] posts. *)
Definition body_tidy (o : outcome TcResult) : Prop :=
  match o with
  | Done (Ok (MkSite _ _ _ (Html html))) => tidy html
  | _ => True
  end.

#[local] Ltac tidy_fields := repeat (constructor; [tidy_const|]); try constructor.

Lemma present_some token t : AuthPages.present (Some token) = Some t -> t = token.
Proof. unfold AuthPages.present. cbn. destruct (is_empty token); congruence. Qed.

Lemma tidy_register query : body_tidy (Done (AuthPages.register_get query)).
Proof.
  unfold AuthPages.register_get, page_ok. cbv zeta. cbn [body_tidy].
  apply tidy_form_page; [done| |done|done|tidy_fields|tidy_const].
  intros m. apply banner_if_tidy; [done|]. intros m'. apply alert_banner_tidy.
Qed.

Lemma tidy_login query : body_tidy (Done (AuthPages.login_get query)).
Proof.
  unfold AuthPages.login_get, page_ok. cbv zeta. cbn [body_tidy].
  apply tidy_form_page; [done| |done|done|tidy_fields|tidy_const].
  intros m. do 2 (apply banner_if_tidy; [done|]; clear m; intros m). apply alert_banner_tidy.
Qed.

Lemma tidy_forgot query : body_tidy (Done (AuthPages.forgot_get query)).
Proof.
  unfold AuthPages.forgot_get, page_ok. cbv zeta. cbn [body_tidy].
  apply tidy_form_page; [done| |done|done|tidy_fields|tidy_const].
  intros m. apply banner_if_tidy; [done|]. intros m'. apply alert_banner_tidy.
Qed.

Lemma tidy_reset token error :
  lacks "<" token -> body_tidy (Done (AuthPages.reset_get (Some (MkTokenQuery (Some token) error)))).
Proof.
  intros Ht. unfold AuthPages.reset_get. cbn [reset_query default from_option id tq_token tq_error].
  destruct (AuthPages.present (Some token)) eqn:E; [|exact I]. apply present_some in E as ->.
  unfold page_ok. cbv zeta. cbn [body_tidy].
  apply tidy_shell; [done|apply alert_banner_tidy|]. apply tidy_form; [done..|].
  constructor; [by apply tidy_hidden|]. tidy_fields.
Qed.

Lemma tidy_verify token error :
  lacks "<" token -> body_tidy (Done (AuthPages.verify_get (Some (MkTokenQuery (Some token) error)))).
Proof.
  intros Ht. unfold AuthPages.verify_get. cbn [token_query default from_option id tq_token tq_error].
  destruct (AuthPages.present (Some token)) eqn:E; [|exact I]. apply present_some in E as ->.
  unfold page_ok. cbv zeta. cbn [body_tidy].
  apply tidy_shell; [done|apply alert_banner_tidy|]. apply tidy_form; [done..|].
  constructor; [by apply tidy_hidden|]. tidy_fields.
Qed.

Lemma tidy_resend query :
  lacks "<" (default ""%string (rq_email (resend_query query))) ->
  body_tidy (Done (AuthPages.resend_get query)).
Proof.
  intros Ht. unfold AuthPages.resend_get, page_ok. cbv zeta. cbn [body_tidy].
  apply tidy_shell; [done| |].
  - intros m. apply banner_if_tidy; [done|]. intros m'. apply alert_banner_tidy.
  - apply tidy_form; [done..|].
    constructor; [by apply tidy_field; [|apply tidy_prefill]|]. tidy_fields.
Qed.

Lemma tidy_delete query : body_tidy (Done (AuthPages.account_delete_get query)).
Proof.
  unfold AuthPages.account_delete_get. cbv zeta. destruct (cq_deleted _); [exact I|].
  unfold page_ok. cbn [body_tidy].
  apply tidy_form_page; [done| |done|done|tidy_fields|tidy_const].
  intros m. destruct (cq_error _ ≫= AuthPages.alert) eqn:E; intros [= <-].
  - by apply alert_banner_tidy with (cq_error (account_query query)).
  - by apply tidy_text.
Qed.

Lemma wp_tidy `{CR : Crates} `{SM : Serde Machine} `{SA : Serde AccountRecord}
    `{SI : Serde InviteRecord} `{SD : Serde EnrollmentDelivery} verify WORDS F fuel backend r req s :
  Forall (lacks "<") (reflected r) ->
  wp (X := EdgeSig) (edge_spec verify) (pages_router WORDS F fuel backend r req)
    (fun o _ => body_tidy o) s.
Proof.
  intros Hsafe. destruct (is_post r) eqn:Hp.
  { eapply wp_mono; [|by apply wp_post]. intros [[resp|]| |] s' H; try done.
    destruct H as (_ & Hb & _). destruct resp as [st loc ck body]. cbn in *. by subst body. }
  destruct r; try discriminate; cbn [pages_router wp body_tidy].
  - unfold MachinesPages.home. apply wp_whatever; [|done..]. by intros [|email] s'.
  - apply tidy_register.
  - apply tidy_login.
  - apply tidy_forgot.
  - destruct query as [[[token|] error]|]; [|done..]. by apply tidy_reset, Forall_singleton.
  - destruct query as [[[token|] error]|]; [|done..]. by apply tidy_verify, Forall_singleton.
  - apply tidy_resend. destruct query as [[[email|] error sent]|]; [|done..].
    by apply Forall_singleton.
  - by apply tidy_join, Forall_singleton.
  - apply tidy_delete.
  - unfold MachinesPages.machines. apply wp_whatever; [|done..]. intros [|email] s'.
    + by apply wp_redirect.
    + by apply wp_whatever.
Qed.

(** ** The wiki *)

(** The wiki has the pages its index links to, and no other; only the empty slug
    panics, and none escapes its folder. *)
Lemma docs_served (content markdown : string -> string) (css slug : string) :
  match Docs.docs_page content markdown css slug with
  | None => slug = ""%string
  | Some (Ok _) => slug ∈ map Docs.doc_slug Docs.DOC_PAGES
  | Some (Err _) => slug ∉ map Docs.doc_slug Docs.DOC_PAGES
  end.
Proof.
  unfold Docs.docs_page, Docs.doc_html, Docs.page_exists, Docs.assert_valid_slug.
  destruct (is_empty slug) eqn:He; [by destruct slug|].
  destruct (negb _) eqn:Hv; cbn [mbind option_bind].
  - destruct (existsb _ _) eqn:Hx.
    + apply existsb_exists in Hx as (p & Hp & Hs%bool_decide_eq_true_1). subst slug.
      apply list_elem_of_In, in_map_iff. by exists p.
    + intros Hin. apply list_elem_of_In, in_map_iff in Hin as (p & <- & Hp).
      assert (existsb (fun p0 => bool_decide (Docs.doc_slug p0 = Docs.doc_slug p)) Docs.DOC_PAGES = true)
        by (apply existsb_exists; exists p; split; [done|by apply bool_decide_eq_true_2]).
      congruence.
  - intros Hin. cbn in Hin. repeat (apply elem_of_cons in Hin as [->|Hin]; [by vm_compute in Hv|]).
    by apply not_elem_of_nil in Hin.
Qed.
