(* ===== verification/Joint.v ===== *)
(** The box and the edge together: the requests of the box's enrollment
    (client/src/pairing.rs) answered by the handlers of the site's machine API
    (site/src/api.rs) or of the control plane's own API
    (controlplane/src/controlplane/pairing.rs), with the owner acting while the box
    waits between two polls. *)

From stdpp Require Import base gmap strings list pretty.
From Stdlib Require Import ZArith Ascii.
From S2P Require Import Prelude Prog Addr ForwarderState World Forwarder Store Crates Errors.
From S2P Require Import ControlPlane Account Invite Box Tunnel Enroll Web Api Site.

Local Open Scope prog_scope.

(** ** The joint world *)

Definition joint_op : Type := (edge_op + box_op)%type.
Definition joint_ret (o : joint_op) : Type :=
  match o with inl o => edge_ret o | inr o => box_ret o end.
Definition JointSig : Sig := MkSig joint_op joint_ret.

Record joint := MkJoint { at_edge : edge; at_box : box }.

(** The network and the disk answer. *)
Definition answered (o : box_op) : box_ret o -> Prop :=
  match o with
  | ReadFile _ => fun r => is_ok r = true
  | CreateDirAll _ | WriteFile _ _ => fun r => is_ok r = true
  | HttpGet _ | HttpPost _ _ => fun r => exists st text, r = Ok (MkHttp st (Ok text))
  | _ => fun _ => True
  end.

(** Each side behaves as documented and leaves the other alone; while [up], the
    box's network and disk do not fail. *)
Definition joint_spec (verify : string -> string -> option bool) (up : Prop) (o : joint_op)
    : joint -> joint_ret o -> joint -> Prop :=
  match o with
  | inl o => fun s r s' =>
      healthy_spec verify o (at_edge s) r (at_edge s') /\ at_box s' = at_box s
  | inr o => fun s r s' =>
      box_spec o (at_box s) r (at_box s') /\ at_edge s' = at_edge s /\ (up -> answered o r)
  end.

(** ** Requests *)

Inductive method := GET | POST.

(** A handler running on the edge, and what its client gets: a panic closes the
    connection. *)
Fixpoint lift_edge {A B} (p : prog EdgeSig A) (k : Result A string -> prog JointSig B)
    : prog JointSig B :=
  match p with
  | Ret a => k (Ok a)
  | Panic m => k (Err m)
  | OutOfFuel => OutOfFuel
  | Vis o f => @Vis JointSig B (inl o) (fun r => lift_edge (f r) k)
  end.

Section Link.
(** What serves a request of the box. *)
Context (serve : method -> string -> Json -> prog EdgeSig HttpResponse).

(** One request: it is lost on the way, or it is served; then the answer arrives, or
    only its head does. *)
Definition exchange {B} (m : method) (url : string) (body : Json)
    (sent : Result HttpResponse string) (k : Result HttpResponse string -> prog JointSig B)
    : prog JointSig B :=
  match sent with
  | Err e => k (Err e)
  | Ok delivered =>
      lift_edge (serve m url body) (fun r =>
        k (match r with
           | Ok resp => Ok (MkHttp (http_status resp)
                              (match http_text delivered with
                               | Ok _ => http_text resp
                               | Err e => Err e
                               end))
           | Err e => Err e
           end))
  end.

(** A program of the box against the edge; [visits] are what the others do while the
    box sleeps, in order. *)
Fixpoint link {A B} (visits : list (prog EdgeSig unit)) (p : prog BoxSig A)
    (k : list (prog EdgeSig unit) -> A -> prog JointSig B) : prog JointSig B :=
  match p with
  | Ret a => k visits a
  | Panic m => Panic m
  | OutOfFuel => OutOfFuel
  | Vis o f =>
      @Vis JointSig B (inr o)
        (match o return (box_ret o -> prog BoxSig A) -> box_ret o -> prog JointSig B with
         | HttpGet url => fun f sent =>
             exchange GET url JNull sent (fun r => link visits (f r) k)
         | HttpPost url body => fun f sent =>
             exchange POST url body sent (fun r => link visits (f r) k)
         | Sleep d => fun f r =>
             match visits with
             | [] => link [] (f r) k
             | visit :: rest => lift_edge visit (fun _ => link rest (f r) k)
             end
         | _ => fun f r => link visits (f r) k
         end f)
  end.

Definition linked {A} (visits : list (prog EdgeSig unit)) (p : prog BoxSig A)
    : prog JointSig A := link visits p (fun _ a => Ret a).
End Link.

(** ** The two surfaces *)

Definition slash (c : ascii) : bool := Ascii.eqb c "/".

Section Surfaces.
Context `{CR : Crates} `{SM : Serde Machine} `{SA : Serde AccountRecord}.
Context `{SI : Serde InviteRecord} `{SD : Serde EnrollmentDelivery}.
Context (WORDS : list string) (FORWARDER : option Forwarder) (cp : ControlPlane).
(** [serde_json::to_string], the frameworks' percent-decoding of a path, and their
    answer to a request no route takes, or whose body lacks a field. *)
Context (json_print : Json -> string) (url_decode : string -> string).
Context (refused : HttpResponse).

Definition site_http (r : SiteApi.ApiResponse) : HttpResponse :=
  MkHttp (SiteApi.api_status r)
    (Ok (match SiteApi.api_body r with Some j => json_print j | None => ""%string end)).

(** axum's router of site/src/api.rs, under [base]. *)
Definition serve_site (base : string) (m : method) (url : string) (body : Json)
    : prog EdgeSig HttpResponse :=
  let backend := MkSiteBackend cp in
  let answer p := r <- p ;; Ret (site_http r) in
  match strip_prefix base url with
  | None => Ret refused
  | Some path =>
      match m, split_on slash path with
      | POST, [""; "api"; "invites"; code; "begin"]%string =>
          match jstr "public_key" body with
          | Some key => answer (SiteApi.invite_begin WORDS (url_decode code) key)
          | None => Ret refused
          end
      | GET, [""; "api"; "invites"; code; "poll"]%string =>
          answer (SiteApi.invite_poll WORDS (url_decode code))
      | GET, [""; "api"; "wireguard"; "info"]%string => answer (SiteApi.wireguard_info backend)
      | POST, [""; "api"; "device"; "register"]%string =>
          match jstr "device_token" body, jstr "public_key" body with
          | Some token, Some key =>
              answer (SiteApi.device_register FORWARDER backend token key)
          | _, _ => Ret refused
          end
      | _, _ => Ret refused
      end
  end.

(** An answer of the poem API: the poll's JSON, or a text. *)
Definition edge_http (r : InviteApiResponse) : HttpResponse :=
  MkHttp (invite_status r)
    (Ok (match r with
         | InviteOk outcome => json_print (poll_json outcome)
         | InviteBadRequest t | InviteUnauthorized t | InviteForbidden t | InviteNotFound t
         | InviteConflict t | InviteInternal t => t
         | _ => ""%string
         end)).

(** The invites API of controlplane/pairing.rs, under [base]: what fortress-edge
    serves of these paths. *)
Definition serve_edge (base : string) (m : method) (url : string) (body : Json)
    : prog EdgeSig HttpResponse :=
  let state := MkAppState (Some cp) true in
  let answer p := r <- p ;; Ret (edge_http r) in
  match strip_prefix base url with
  | None => Ret refused
  | Some path =>
      match m, split_on slash path with
      | POST, [""; "api"; "invites"; code; "begin"]%string =>
          match jstr "public_key" body with
          | Some key => answer (InvitesApi.begin WORDS state (url_decode code) key)
          | None => Ret refused
          end
      | GET, [""; "api"; "invites"; code; "poll"]%string =>
          answer (InvitesApi.poll WORDS state (url_decode code))
      | POST, [""; "api"; "device"; "register"]%string =>
          match jstr "device_token" body, jstr "public_key" body with
          | Some token, Some key =>
              answer (InvitesApi.device_register FORWARDER state token key)
          | _, _ => Ret refused
          end
      | _, _ => Ret refused
      end
  end.

(** The owner's visit: approve the machine that claimed the invite. *)
Definition owner_approves (email code name : string) : prog EdgeSig unit :=
  _r <- invite_approve WORDS cp FORWARDER email code name ;; Ret tt.
End Surfaces.
