(* ===== verification/JointProofs.v ===== *)
(** Lemmas about the box and the edge together: how a linked program is executed,
    what the box needs of the API it talks to, and the claim up to the approval. *)

From stdpp Require Import base gmap strings list pretty.
From Stdlib Require Import ZArith Lia Ascii.
From S2P Require Import Prelude Prog Addr AddrText ForwarderState World Forwarder Store Crates Errors.
From S2P Require Import ControlPlane Allocation Machines Account AccountProofs Invite InviteCodes.
From S2P Require Import InviteMoves InviteProofs Wg Box Tunnel Enroll Web Api HttpProofs EnrollProofs.
From S2P Require Import Site SiteProofs Joint.

Local Open Scope prog_scope.

(** ** Execution *)

(** What the box's operations promise while [up]. *)
Definition box_up_spec (up : Prop) (o : box_op) (s : box) (r : box_ret o) (s' : box) : Prop :=
  box_spec o s r s' /\ (up -> answered o r).

(** The operations that involve neither the edge nor the clock. *)
Definition local_op (o : box_op) : Prop :=
  match o with HttpGet _ | HttpPost _ _ | Sleep _ => False | _ => True end.

Section Exec.
Context (verify : string -> string -> option bool) (up : Prop).
Context (serve : method -> string -> Json -> prog EdgeSig HttpResponse).
Local Abbreviation wpj := (wp (X := JointSig) (joint_spec verify up)) (only parsing).
Local Abbreviation wph := (wp (X := EdgeSig) (healthy_spec verify)) (only parsing).

(** What a handler's end means for the program that waits for it. *)
Definition lifted {A B} (k : Result A string -> prog JointSig B) (Q : outcome B -> joint -> Prop)
    (b : box) (o : outcome A) (e : edge) : Prop :=
  match o with
  | Done a => wpj (k (Ok a)) Q (MkJoint e b)
  | Panicked m => wpj (k (Err m)) Q (MkJoint e b)
  | Stuck => Q Stuck (MkJoint e b)
  end.

Lemma wp_lift {A B} (p : prog EdgeSig A) (k : Result A string -> prog JointSig B) Q e b :
  wph p (lifted k Q b) e -> wpj (lift_edge p k) Q (MkJoint e b).
Proof.
  revert e. induction p as [a|m| |o f IH]; intros e H; cbn in *; try done.
  intros r [e' b'] [Hs Hb]. cbn in *. subst b'. auto.
Qed.

Lemma lift_ext {A B} (p : prog EdgeSig A) (k k' : Result A string -> prog JointSig B) Q s :
  (forall r s', wpj (k r) Q s' -> wpj (k' r) Q s') ->
  wpj (lift_edge p k) Q s -> wpj (lift_edge p k') Q s.
Proof.
  intros Hk. revert s. induction p as [a|m| |o f IH]; intros s H; cbn in *; auto.
Qed.

Lemma exchange_ext {B} m url body sent (k k' : Result HttpResponse string -> prog JointSig B) Q s :
  (forall r s', wpj (k r) Q s' -> wpj (k' r) Q s') ->
  wpj (exchange serve m url body sent k) Q s -> wpj (exchange serve m url body sent k') Q s.
Proof.
  intros Hk. unfold exchange. destruct sent as [d|e]; [|apply Hk].
  apply lift_ext. intros r s'. apply Hk.
Qed.

Lemma wp_link_bind {A B C} visits (p : prog BoxSig A) (f : A -> prog BoxSig B)
    (k : list (prog EdgeSig unit) -> B -> prog JointSig C) Q s :
  wpj (link serve visits p (fun v a => link serve v (f a) k)) Q s ->
  wpj (link serve visits (x <- p ;; f x) k) Q s.
Proof.
  revert visits s. induction p as [a|m| |o g IH]; intros visits s H; [done..|].
  cbn [link bind wp] in *. intros r s' Hr. specialize (H r s' Hr). revert H.
  destruct o; try apply IH.
  - apply exchange_ext. intros r' s1. apply IH.
  - apply exchange_ext. intros r' s1. apply IH.
  - destruct visits as [|v vs]; [apply IH|]. apply lift_ext. intros _ s1. apply IH.
Qed.

Lemma wp_link_try {A B E F C} visits (conv : E -> F) (p : prog BoxSig (Result A E))
    (f : A -> prog BoxSig (Result B F))
    (k : list (prog EdgeSig unit) -> Result B F -> prog JointSig C) Q s :
  wpj (link serve visits p (fun v r =>
         match r with Ok a => link serve v (f a) k | Err e => k v (Err (conv e)) end)) Q s ->
  wpj (link serve visits (bind_try conv p f) k) Q s.
Proof.
  intros H. unfold bind_try. apply wp_link_bind. revert visits s H.
  induction p as [a|m| |o g IH]; intros visits s H; cbn [link wp] in *;
    [by destruct a|done..|].
  intros r s' Hr. specialize (H r s' Hr). revert H. destruct o; try apply IH.
  - apply exchange_ext. intros r' s1. apply IH.
  - apply exchange_ext. intros r' s1. apply IH.
  - destruct visits as [|v vs]; [apply IH|]. apply lift_ext. intros _ s1. apply IH.
Qed.

(** What the end of a local program means for the linked one. *)
Definition local_post {A C} visits (k : list (prog EdgeSig unit) -> A -> prog JointSig C)
    (Q : outcome C -> joint -> Prop) (e : edge) (o : outcome A) (b : box) : Prop :=
  match o with
  | Done a => wpj (k visits a) Q (MkJoint e b)
  | Panicked m => Q (Panicked m) (MkJoint e b)
  | Stuck => Q Stuck (MkJoint e b)
  end.

Lemma wp_link_local {A C} visits (p : prog BoxSig A)
    (k : list (prog EdgeSig unit) -> A -> prog JointSig C) Q e b :
  only (X := BoxSig) local_op p ->
  wp (X := BoxSig) (box_up_spec up) p (local_post visits k Q e) b ->
  wpj (link serve visits p k) Q (MkJoint e b).
Proof.
  revert b. induction p as [a|m| |o f IH]; intros b Ho H; cbn [link wp only] in *; try done.
  destruct Ho as [Hl Hf]. intros r [e' b'] (Hs & He & Ha). cbn in Hs, He. subst e'.
  specialize (H r b' (conj Hs Ha)). destruct o; try done; by apply IH.
Qed.

(** One request of the box. *)
Lemma wp_http_get {A C} visits url (f : Result HttpResponse string -> prog BoxSig A)
    (k : list (prog EdgeSig unit) -> A -> prog JointSig C) Q e b :
  (forall sent, (up -> answered (HttpGet url) sent) ->
     wpj (exchange serve GET url JNull sent (fun r => link serve visits (f r) k)) Q
       (MkJoint e (log_http (Got url) b))) ->
  wpj (link serve visits (r <- @call BoxSig (HttpGet url) ;; f r) k) Q (MkJoint e b).
Proof.
  intros H r [e' b'] (Hs & He & Ha). cbn in Hs, He. subst. by apply H.
Qed.

Lemma wp_http_post {A C} visits url body (f : Result HttpResponse string -> prog BoxSig A)
    (k : list (prog EdgeSig unit) -> A -> prog JointSig C) Q e b :
  (forall sent, (up -> answered (HttpPost url body) sent) ->
     wpj (exchange serve POST url body sent (fun r => link serve visits (f r) k)) Q
       (MkJoint e (log_http (Posted url body) b))) ->
  wpj (link serve visits (r <- @call BoxSig (HttpPost url body) ;; f r) k) Q (MkJoint e b).
Proof.
  intros H r [e' b'] (Hs & He & Ha). cbn in Hs, He. subst. by apply H.
Qed.
End Exec.

(** ** What the box needs of the API *)

(** The poll of the edge, as the box sees it. *)
Definition box_view (p : PollOutcome) : BoxPoll :=
  MkBoxPoll (poll_status p) (m_wg_ip <$> poll_machine p) (m_hostname <$> poll_machine p)
    (poll_token p).

(** The box reads [p] from a response. *)
Definition reads `{JT : JsonText} (resp : HttpResponse) (p : PollOutcome) : Prop :=
  is_success (http_status resp) = true /\
  exists text v, http_text resp = Ok text /\ json_parse text = Ok v /\
                 poll_outcome v = box_view p.

(** A response to an invite operation: the poll it ended in, or a failure. *)
Definition tells `{JT : JsonText} (o : outcome (Result PollOutcome InviteError))
    (o' : outcome HttpResponse) : Prop :=
  match o, o' with
  | Done (Ok p), Done resp => reads resp p
  | Done (Err _), Done resp => is_success (http_status resp) = false
  | Panicked m, Panicked m' => m = m'
  | Stuck, Stuck => True
  | _, _ => False
  end.

Definition begin_path (code : string) : string := "/api/invites/" ++ code ++ "/begin".
Definition poll_path (code : string) : string := "/api/invites/" ++ code ++ "/poll".
Definition info_path : string := "/api/wireguard/info".

(** The contract of an API the box can claim an invite at: under [base], beginning
    and polling are the control plane's operations, told so that the box can read
    them. *)
Class ClaimApi `{CR : Crates} `{SM : Serde Machine} `{SI : Serde InviteRecord}
    `{SD : Serde EnrollmentDelivery} `{JT : JsonText} (WORDS : list string) (base : string)
    (serve : method -> string -> Json -> prog EdgeSig HttpResponse) : Prop := {
  api_begin code key :
    lacks "/" code -> lacks "%" code ->
    lockstep tells (invite_begin WORDS code key)
      (serve POST (base ++ begin_path code)%string (JObj [("public_key"%string, JStr key)]));
  api_poll code :
    lacks "/" code -> lacks "%" code ->
    lockstep tells (invite_poll WORDS code) (serve GET (base ++ poll_path code)%string JNull);
}.

Lemma split_segments (l : list string) :
  l <> [] -> Forall (lacks "/") l -> split_on slash (join "/" l) = l.
Proof.
  intros Hne Hl. apply (split_on_join slash "/"); [done|done|]. eapply Forall_impl; [exact Hl|].
  intros w. induction w as [|c w IH]; [done|]. intros [Hc Hw]%lacks_cons. cbn.
  rewrite (IH Hw), andb_true_r. unfold slash. by destruct (Ascii.eqb_spec c "/").
Qed.

Lemma split_invite_path code action :
  lacks "/" code -> lacks "/" action ->
  split_on slash ("/api/invites/" ++ code ++ String "/" action)
  = [""; "api"; "invites"; code; action]%string.
Proof.
  intros Hc Ha. apply (split_segments [""; "api"; "invites"; code; action]%string); [done|].
  repeat constructor; auto.
Qed.

Section Apis.
Context `{CR : Crates} `{SM : Serde Machine} `{SA : Serde AccountRecord}.
Context `{SI : Serde InviteRecord} `{SD : Serde EnrollmentDelivery} `{JT : JsonText}.
Context (WORDS : list string) (F : option Forwarder) (cp : ControlPlane).
Context (json_print : Json -> string) (url_decode : string -> string) (refused : HttpResponse).
Context (base : string).
Hypothesis print_parse : forall j, json_parse (json_print j) = Ok j.
Hypothesis decode_plain : forall s, lacks "%" s -> url_decode s = s.

Lemma strip_base path : strip_prefix base (base ++ path) = Some path.
Proof. by apply strip_prefix_spec. Qed.

Lemma jstr_key key : jstr "public_key" (JObj [("public_key"%string, JStr key)]) = Some key.
Proof. reflexivity. Qed.

Lemma invite_error_fails e : is_success (invite_status (invite_api_error e)) = false.
Proof. by destruct e. Qed.

#[export] Instance edge_claim_api :
  ClaimApi WORDS base (serve_edge WORDS F cp json_print url_decode refused base).
Proof.
  assert (forall r, tells (Done r) (Done (edge_http json_print
    (match r with Ok outcome => InviteOk outcome | Err err => invite_api_error err end)))) as Ht.
  { intros [p|e]; cbn [tells edge_http http_status]; [|apply invite_error_fails].
    split; [done|]. eexists _, _. cbn [edge_http http_text]. split; [done|].
    rewrite print_parse. split; [done|]. by destruct p as [st [m|] [t|]]. }
  split; intros code; [intros key|]; intros Hs Hp; unfold serve_edge, begin_path, poll_path;
    rewrite strip_base, split_invite_path, ?jstr_key, decode_plain by done; cbv beta iota zeta.
  - unfold InvitesApi.begin, InvitesApi.with_cp. cbn [app_cp]. along (invite_begin WORDS code key).
    intros r. apply lockstep_ret, Ht.
  - unfold InvitesApi.poll, InvitesApi.with_cp. cbn [app_cp]. along (invite_poll WORDS code).
    intros r. apply lockstep_ret, Ht.
Qed.

#[export] Instance site_claim_api :
  ClaimApi WORDS base (serve_site WORDS F cp json_print url_decode refused base).
Proof.
  assert (forall r, tells (Done r) (Done (site_http json_print (SiteApi.poll_response r)))) as Ht.
  { intros [p|e]; cbn [tells site_http http_status SiteApi.poll_response].
    - split; [done|]. eexists _, _. cbn [site_http http_text SiteApi.api_body]. split; [done|].
      rewrite print_parse. split; [done|]. by destruct p as [st [m|] [t|]].
    - by destruct e. }
  split; intros code; [intros key|]; intros Hs Hp; unfold serve_site, begin_path, poll_path;
    rewrite strip_base, split_invite_path, ?jstr_key, decode_plain by done; cbv beta iota zeta.
  - unfold SiteApi.invite_begin. along (invite_begin WORDS code key).
    intros r. apply lockstep_ret, Ht.
  - unfold SiteApi.invite_poll. along (invite_poll WORDS code).
    intros r. apply lockstep_ret, Ht.
Qed.
End Apis.

(** ** The box's client *)

Section Client.
Context `{CR : Crates} `{SM : Serde Machine} `{SA : Serde AccountRecord}.
Context `{SI : Serde InviteRecord} `{SD : Serde EnrollmentDelivery} `{JT : JsonText}.
Context (verify : string -> string -> option bool) (up : Prop).
Context (WORDS : list string) (base : string).
Context (serve : method -> string -> Json -> prog EdgeSig HttpResponse).
Context `{CA : !ClaimApi WORDS base serve}.
Local Abbreviation wpj := (wp (X := JointSig) (joint_spec verify up)) (only parsing).
Local Abbreviation wph := (wp (X := EdgeSig) (healthy_spec verify)) (only parsing).
Local Abbreviation client := (HttpEdgeClient.client base).

(** What a poll that the edge ended in [o] means for the box: the poll, or an API
    error, which is the network's fault if the edge did answer. *)
Definition told {C} visits (k : list (prog EdgeSig unit) -> Result BoxPoll EnrollError -> prog JointSig C)
    (Q : outcome C -> joint -> Prop) (b : box) (o : outcome (Result PollOutcome InviteError))
    (e : edge) : Prop :=
  match o with
  | Done (Ok p) =>
      wpj (k visits (Ok (box_view p))) Q (MkJoint e b) /\
      (~ up -> forall m, wpj (k visits (Err (EnrApi m))) Q (MkJoint e b))
  | Done (Err _) | Panicked _ => forall m, wpj (k visits (Err (EnrApi m))) Q (MkJoint e b)
  | Stuck => Q Stuck (MkJoint e b)
  end.

(** The answer to an invite operation as the client sees it. *)
Definition poll_of (url : string) (r : Result HttpResponse string) : Result BoxPoll EnrollError :=
  match HttpEdgeClient.response_json url r with
  | Ok v => Ok (poll_outcome v)
  | Err e => Err e
  end.

Lemma poll_of_lost url r :
  (forall resp, r = Ok resp -> is_success (http_status resp) = false \/
                               is_ok (http_text resp) = false) ->
  exists m, poll_of url r = Err (EnrApi m).
Proof.
  intros H. unfold poll_of, HttpEdgeClient.response_json. destruct r as [resp|err]; [|by eexists].
  destruct (H resp eq_refl) as [Hs|Ht].
  - destruct (http_text resp); [|by eexists]. rewrite Hs. by eexists.
  - destruct (http_text resp); [done|]. by eexists.
Qed.

Lemma poll_of_reads url st text p :
  reads (MkHttp st (Ok text)) p -> poll_of url (Ok (MkHttp st (Ok text))) = Ok (box_view p).
Proof.
  intros (Hs & t & v & [= <-] & Hp & Hv). unfold poll_of, HttpEdgeClient.response_json.
  cbn [http_text http_status] in *. rewrite Hs. cbn [negb]. rewrite Hp. cbn. by rewrite Hv.
Qed.

Lemma wp_exchange {C} (p : prog EdgeSig (Result PollOutcome InviteError)) m url body sent visits
    (k : list (prog EdgeSig unit) -> Result BoxPoll EnrollError -> prog JointSig C) Q e b :
  lockstep tells p (serve m url body) ->
  (up -> exists st text, sent = Ok (MkHttp st (Ok text))) ->
  wph p (told visits k Q b) e ->
  (~ up -> forall m, wpj (k visits (Err (EnrApi m))) Q (MkJoint e b)) ->
  wpj (exchange serve m url body sent (fun r => k visits (poll_of url r))) Q (MkJoint e b).
Proof.
  intros Hlock Hsent Hp Hlost. unfold exchange. destruct sent as [d|err]; cycle 1.
  { destruct (poll_of_lost url (Err err)) as [x ->]; [done|]. apply Hlost.
    intros Hup. by destruct (Hsent Hup) as (? & ? & ?). }
  apply wp_lift. eapply wp_mono; [|by apply (lockstep_wp tells _ _ _ _ _ Hlock Hp)].
  intros o' e' (o & Ho & Ht). unfold told in Ho. unfold lifted.
  destruct o' as [resp|x|]; cycle 1.
  { destruct (poll_of_lost url (Err x)) as [y ->]; [done|]. by destruct o as [[p'|e0]|x'|]. }
  { by destruct o as [[p'|e0]|x'|]. }
  destruct o as [[p'|e0]|x'|]; try done.
  - destruct Ho as [Hok Hno]. destruct (http_text d) as [text'|err] eqn:Hd.
    + destruct resp as [st [text|?]]; [|by destruct Ht as (_ & t & v & [=] & _)].
      cbn [http_status http_text]. by rewrite (poll_of_reads url st text p' Ht).
    + destruct (poll_of_lost url (Ok (MkHttp (http_status resp) (Err err)))) as [y ->].
      { intros ? [= <-]. by right. }
      apply Hno. intros Hup. destruct (Hsent Hup) as (st & t & [= ->]). done.
  - destruct (poll_of_lost url (Ok (MkHttp (http_status resp)
      (match http_text d with Ok _ => http_text resp | Err e => Err e end)))) as [y ->].
    + intros ? [= <-]. by left.
    + apply Ho.
Qed.

Lemma wp_client_begin {C} code key visits
    (k : list (prog EdgeSig unit) -> Result BoxPoll EnrollError -> prog JointSig C) Q e b :
  lacks "/" code -> lacks "%" code ->
  let b' := log_http (Posted (base ++ begin_path code) (JObj [("public_key"%string, JStr key)])) b in
  wph (invite_begin WORDS code key) (told visits k Q b') e ->
  (~ up -> forall m, wpj (k visits (Err (EnrApi m))) Q (MkJoint e b')) ->
  wpj (link serve visits (ec_begin client code key) k) Q (MkJoint e b).
Proof.
  intros Hs Hp b' Hw Hlost. cbn [ec_begin HttpEdgeClient.client]. unfold HttpEdgeClient.begin.
  apply wp_link_try. unfold HttpEdgeClient.post_json. apply wp_http_post. intros sent Hsent.
  eapply exchange_ext; [|eapply wp_exchange; [by apply api_begin|exact Hsent|exact Hw|exact Hlost]].
  intros r s' H. unfold poll_of in H. cbn [link].
  by destruct (HttpEdgeClient.response_json _ r).
Qed.

Lemma wp_client_poll {C} code visits
    (k : list (prog EdgeSig unit) -> Result BoxPoll EnrollError -> prog JointSig C) Q e b :
  lacks "/" code -> lacks "%" code ->
  let b' := log_http (Got (base ++ poll_path code)) b in
  wph (invite_poll WORDS code) (told visits k Q b') e ->
  (~ up -> forall m, wpj (k visits (Err (EnrApi m))) Q (MkJoint e b')) ->
  wpj (link serve visits (ec_poll client code) k) Q (MkJoint e b).
Proof.
  intros Hs Hp b' Hw Hlost. cbn [ec_poll HttpEdgeClient.client]. unfold HttpEdgeClient.poll.
  apply wp_link_try. unfold HttpEdgeClient.get_json. apply wp_http_get. intros sent Hsent.
  eapply exchange_ext; [|eapply wp_exchange; [by apply api_poll|exact Hsent|exact Hw|exact Hlost]].
  intros r s' H. unfold poll_of in H. cbn [link].
  by destruct (HttpEdgeClient.response_json _ r).
Qed.
End Client.

(** ** The invite on the edge *)

Section Invites.
Context `{CR : Crates} `{SM : Serde Machine} `{SA : Serde AccountRecord}.
Context `{SI : Serde InviteRecord} `{SD : Serde EnrollmentDelivery}.
Context `{LM : !SerdeLaws Machine} `{LA : !SerdeLaws AccountRecord}.
Context `{LI : !SerdeLaws InviteRecord} `{LD : !SerdeLaws EnrollmentDelivery}.
Context (WORDS : list string).
Local Abbreviation wph := (wp (X := EdgeSig) (healthy_spec bcrypt_verify)) (only parsing).

(** The store once the box has claimed the invite. *)
Definition begun_store (code email pk : string) (m : gmap string rval) : gmap string rval :=
  <[invite_key code := RStr (to_json (MkInvite email Waiting (Some pk))) (Some INVITE_TTL_SECS)]> m.

Lemma wp_begin_open code email st pk0 pk s
    (Q : outcome (Result PollOutcome InviteError) -> edge -> Prop) :
  invite_is WORDS s code (MkInvite email st pk0) -> st = Dormant \/ st = Waiting ->
  validate_wg_pubkey pk = Ok tt ->
  Q (Done (Ok (MkPoll "waiting" None None))) (set_kv (begun_store code email pk (kv s)) s) ->
  wph (invite_begin WORDS code pk) Q s.
Proof.
  intros Hi Hst Hv HQ. unfold invite_begin.
  assert (forall k : string -> InviteRecord -> prog EdgeSig (Result PollOutcome InviteError),
            wph (k code (MkInvite email st pk0)) Q s ->
            wph (with_code WORDS code (fun c =>
              match validate_wg_pubkey pk with
              | Err _ => Ret (Err (InvInvalidPubkey pk))
              | Ok _ => with_record c (k c)
              end)) Q s) as Hgo by (intros k Hw; rewrite Hv; by eapply wp_invite).
  apply Hgo. cbn [inv_status].
  destruct Hst as [-> | ->]; cbn [assert_ owner_email inv_status device_pubkey];
    rewrite !bool_decide_eq_true_2 by eauto; cbn [Bool.eqb]; unfold bind_try, set_record;
    (apply wp_healthy_redis; [done|]); exact HQ.
Qed.

Lemma wp_poll_waiting code r s (Q : outcome (Result PollOutcome InviteError) -> edge -> Prop) :
  invite_is WORDS s code r -> inv_status r = Waiting ->
  Q (Done (Ok (MkPoll "waiting" None None))) s -> wph (invite_poll WORDS code) Q s.
Proof.
  intros Hi Hst HQ. unfold invite_poll. apply (wp_invite WORDS _ _ _ _ _ Hi). by rewrite Hst.
Qed.

Lemma begun_is code email pk s :
  canonical_invite_code WORDS code = Some code ->
  invite_is WORDS (set_kv (begun_store code email pk (kv s)) s) code
    (MkInvite email Waiting (Some pk)).
Proof. intros Hc. split; [done|]. eexists. apply lookup_insert_eq. Qed.

(** A new route needs nothing of an invite's record. *)
Lemma fresh_route_begun cp f name key n l ip wg edge_key code email pk s :
  fresh_route cp f name key n l ip wg edge_key s ->
  fresh_route cp f name key n l ip wg edge_key (set_kv (begun_store code email pk (kv s)) s).
Proof.
  intros [Hwf Ht Hn Hk He Hc Hl Hh Hf Hi Hnew Hip Hwg Hp].
  assert (invite_key code <> alloc_key cp) as Ha.
  { destruct Hwf as (_ & _ & ->). done. }
  split; cbn [kv set_kv fws]; unfold begun_store; try done.
  - unfold counter_at. by rewrite lookup_insert_ne.
  - by rewrite lookup_insert_ne.
  - by rewrite lookup_insert_ne.
Qed.
End Invites.

(** The tunnel's facts are a pure derivation. *)
Lemma tunnel_info_ok `{CR : Crates} cp edge_key :
  cp_wf cp -> edge_public_key cp = Some (Ok edge_key) -> root_domain_ cp <> ""%string ->
  exists ips, to_string (wg_subnet cp) = Some ips /\
    tunnel_info cp = Ret (Ok (MkTunnelInfo edge_key (root_domain_ cp ++ ":51820") ips)).
Proof.
  intros (_ & Hwf & _) Hek Hd.
  destruct (to_string_some (wg_subnet cp) Hwf) as (a & _ & Hips).
  eexists. split; [exact Hips|]. unfold tunnel_info, with_edge_key, root_domain. rewrite Hek.
  cbn [expect]. rewrite (proj2 (is_empty_false _) Hd). cbn [negb assert_]. rewrite Hips.
  cbn [expect ti_endpoint ti_allowed_ips].
  assert (ends_with (":" ++ pretty WG_ENDPOINT_PORT) (root_domain_ cp ++ ":" ++ pretty WG_ENDPOINT_PORT)
          = true) as ->.
  { unfold ends_with. apply starts_with_spec. rewrite (str_rev_app (root_domain_ cp)). by eexists. }
  destruct (contains_char "/" _) eqn:E; [reflexivity|].
  apply (proj1 (contains_char_lacks _ _)), lacks_app in E as [_ E].
  by apply lacks_app in E as [E _].
Qed.

(** ** A claim *)

Section Claim.
Context `{CR : Crates} `{SM : Serde Machine} `{SA : Serde AccountRecord}.
Context `{SI : Serde InviteRecord} `{SD : Serde EnrollmentDelivery} `{JT : JsonText}.
Context `{LM : !SerdeLaws Machine} `{LA : !SerdeLaws AccountRecord}.
Context `{LI : !SerdeLaws InviteRecord} `{LD : !SerdeLaws EnrollmentDelivery}.
Context (up : Prop) (WORDS : list string) (base code : string).
Context (serve : method -> string -> Json -> prog EdgeSig HttpResponse).
Context `{CA : !ClaimApi WORDS base serve}.
Hypothesis code_slash : lacks "/" code.
Hypothesis code_percent : lacks "%" code.
Local Abbreviation wpj := (wp (X := JointSig) (joint_spec bcrypt_verify up)) (only parsing).
Local Abbreviation wph := (wp (X := EdgeSig) (healthy_spec bcrypt_verify)) (only parsing).
Local Abbreviation client := (HttpEdgeClient.client base).

Lemma wp_sleep {A C} visits d (p : prog BoxSig A)
    (k : list (prog EdgeSig unit) -> A -> prog JointSig C) Q e b :
  wpj (match visits with
       | [] => link serve [] p k
       | visit :: rest => lift_edge visit (fun _ => link serve rest p k)
       end) Q (MkJoint e b) ->
  wpj (link serve visits (@call BoxSig (Sleep d) ;;; p) k) Q (MkJoint e b).
Proof.
  intros H [] [e' b'] (Hs & He & _). cbn in Hs, He. subst. by destruct visits.
Qed.

(** A claim nobody decides is polled until the polls are used up. *)
Lemma wp_poll_undecided {C} n interval r
    (k : list (prog EdgeSig unit) -> Result BoxPoll EnrollError -> prog JointSig C) Q e b :
  invite_is WORDS e code r -> inv_status r = Waiting ->
  (forall b', files b' = files b ->
     wpj (k [] (Err (EnrTimedOut 0))) Q (MkJoint e b') /\
     (~ up -> forall m, wpj (k [] (Err (EnrApi m))) Q (MkJoint e b'))) ->
  wpj (link serve [] (poll_loop client code interval n) k) Q (MkJoint e b).
Proof.
  intros Hi Hst. revert b. induction n as [|n IH]; intros b Hk;
    (apply wp_link_try, (wp_client_poll bcrypt_verify up WORDS); [done..| |intros Hup m; by apply Hk]);
    (eapply (wp_poll_waiting WORDS); [done|done|]); (split; [|intros Hup m; by apply Hk]);
    cbn [box_view poll_status bp_status]; rewrite !bool_decide_eq_false_2 by done.
  - cbn. by apply Hk.
  - cbn. apply wp_sleep. apply IH. intros b' Hb'. apply Hk. by rewrite Hb'.
Qed.

(** The claim of an open invite, when the owner approves at the first pause: the
    poll after that delivers the machine and its token, or, if the machine could
    not be wired, the polls are used up. *)
Lemma wp_claimed {C} cp f email name pk (a : AccountRecord) ttl n l ip wg edge_key interval polls
    (k : list (prog EdgeSig unit) -> Result BoxPoll EnrollError -> prog JointSig C) Q e b :
  let e1 := set_kv (begun_store code email pk (kv e)) e in
  let m := fresh_machine cp (Some (uuid a)) name pk ip wg in
  canonical_invite_code WORDS code = Some code ->
  kv e !! account_key (norm_email email) = Some (RStr (to_json a) ttl) ->
  fresh_route cp f name pk n l ip wg edge_key e ->
  (forall e' b', files b' = files b ->
     (~ up -> forall v x, wpj (k v (Err (EnrApi x))) Q (MkJoint e' b')) /\
     (kv e' !! machine_key name = None ->
      wpj (k [] (Err (EnrTimedOut 0))) Q (MkJoint e' b')) /\
     (forall token,
        drawn_token token ->
        kv e' = delete (delivery_key code) (approved_store cp code email pk m token (n + 1) l (kv e1)) ->
        wg_log e' = wg_log e ++ [WgAdded wg pk] ->
        wpj (k [] (Ok (box_view (MkPoll "approved" (Some (enrolled_machine m token)) (Some token)))))
          Q (MkJoint e' b'))) ->
  wpj (link serve [owner_approves WORDS (Some f) cp email code name]
         (poll_loop client code interval (S polls)) k) Q (MkJoint e1 b).
Proof.
  intros e1 m Hc Ha Hfr Hk.
  assert (invite_is WORDS e1 code (MkInvite email Waiting (Some pk))) as Hi1 by by apply begun_is.
  pose proof (fresh_route_begun cp f name pk n l ip wg edge_key code email pk e Hfr) as Hfr1.
  cbn [poll_loop]. apply wp_link_try, (wp_client_poll bcrypt_verify up WORDS); [done..| |intros Hup x; by apply Hk].
  eapply (wp_poll_waiting WORDS); [done|done|]. split; [|intros Hup x; by apply Hk].
  cbn [box_view poll_status bp_status]. rewrite bool_decide_eq_false_2, bool_decide_eq_true_2 by done.
  apply wp_sleep, wp_lift. unfold owner_approves. rewrite wp_bind.
  eapply wp_mono; [|eapply (wp_approve WORDS); [exact Hi1| |exact Hfr1]]; cycle 1.
  { cbn [kv set_kv e1]. unfold begun_store. by rewrite lookup_insert_ne. }
  fold m. intros o e2 Hpost. destruct o as [[m'|err]| |]; try done; cbn [andthen wp lifted].
  - destruct Hpost as (-> & (token & Htoken & Hkv) & Hwg & _).
    destruct polls as [|polls]; cbn [poll_loop];
      (apply wp_link_try, (wp_client_poll bcrypt_verify up WORDS); [done..| |intros Hup x; by apply Hk]);
      (eapply (wp_poll_approved WORDS _ _ (MkInvite email Approved (Some pk)));
         [split; [done|eexists; rewrite Hkv; apply lookup_insert_eq]|done|]);
      (assert (kv e2 !! delivery_key code
               = Some (RStr (to_json (MkDelivery (enrolled_machine m token) token))
                         (Some DELIVERY_TTL_SECS))) as ->
         by (rewrite Hkv; unfold approved_store; rewrite lookup_insert_ne by done;
             apply lookup_insert_eq));
      rewrite from_to_json; (split; [|intros Hup x; by apply Hk]);
      cbn [box_view poll_status bp_status]; rewrite bool_decide_eq_true_2 by done; cbn [link];
      (eapply Hk; [done|exact Htoken|cbn [kv set_kv]; by rewrite Hkv|done]).
  - destruct err; try done. destruct Hpost as [Hkv _].
    assert (forall key, key <> alloc_key cp -> key <> MACHINE_INDEX -> kv e2 !! key = kv e1 !! key)
      as Hd.
    { intros key H1 H2. rewrite Hkv.
      destruct Hfr1 as [Hwf _ _ _ _ _ _ _ Hfree Hidx Hnew _ _ _].
      exact (proj2 (drop_committed bcrypt_verify cp m (n + 1) l (kv e1) key Hwf Hfree Hidx Hnew H1) H2). }
    destruct Hfr1 as [Hwf _ _ _ _ _ _ _ Hfree _ _ _ _ _].
    pose proof Hwf as (_ & _ & Halloc).
    eapply (wp_poll_undecided _ _ (MkInvite email Waiting (Some pk))); [|done|].
    + split; [done|]. destruct Hi1 as [_ [ttl1 H1]]. exists ttl1.
      rewrite Hd; [done|by rewrite Halloc|done].
    + intros b' Hb'. split; [|intros Hup x; by apply Hk].
      apply Hk; [done|]. rewrite <- Hfree. apply Hd; [|done].
      by apply machine_key_alloc.
Qed.
End Claim.

(** ** Enrollment *)

Section Enrollment.
Context `{CR : Crates} `{CL : !CratesLaws}.
Context `{SM : Serde Machine} `{SA : Serde AccountRecord}.
Context `{SI : Serde InviteRecord} `{SD : Serde EnrollmentDelivery}.
Context `{SP : Serde PersistedTunnel} `{JT : JsonText}.
Context `{LM : !SerdeLaws Machine} `{LA : !SerdeLaws AccountRecord}.
Context `{LI : !SerdeLaws InviteRecord} `{LD : !SerdeLaws EnrollmentDelivery}.
Context (up : Prop) (WORDS : list string) (base code : string).
Local Abbreviation wpj := (wp (X := JointSig) (joint_spec bcrypt_verify up)) (only parsing).
Local Abbreviation wpu := (wp (X := BoxSig) (box_up_spec up)) (only parsing).
Local Abbreviation client := (HttpEdgeClient.client base).

Lemma wp_up {A} (p : prog BoxSig A) Q b : wp (X := BoxSig) box_spec p Q b -> wpu p Q b.
Proof. apply wp_spec_mono. by intros o s r s' [H _]. Qed.

(** The key on disk is used; only a failing disk is an error. *)
Lemma wp_key_there path b t pk :
  files b !! path = Some t -> trim t <> ""%string -> derive_public_key (trim t) = Some pk ->
  wpu (ensure_keypair path)
    (fun o b' => b' = b /\ (o = Done (Ok pk) \/ (~ up /\ exists e, o = Done (Err e)))) b.
Proof.
  intros Ht Hne Hd. unfold ensure_keypair. cbn [bind call wp]. intros r b' [[-> Hr] Hup].
  destruct r as [t'|e].
  - assert (t' = t) as -> by congruence. rewrite (proj2 (is_empty_false _) Hne). cbn.
    unfold key_result. rewrite Hd. by split; [|left].
  - assert (~ up) as Hno by (intros H; by specialize (Hup H)).
    apply wp_up. eapply wp_mono; [|by apply wp_new_key_again].
    cbn beta. unfold again_post. rewrite Hd. intros o s' [-> [-> | [e' ->]]]; (split; [done|]).
    + by left.
    + right. split; [done|]. by eexists.
Qed.

(** Creating a file's directory and writing it. *)
Lemma wp_persist path data b (Q : outcome (Result unit EnrollError) -> box -> Prop) :
  (forall b', files b' = <[path := data]> (files b) -> Q (Done (Ok tt)) b') ->
  (~ up -> forall err b', Q (Done (Err (EnrIo err))) b') ->
  wpu (_d <-? create_parent path as EnrIo ;;
       _w <-? @call BoxSig (WriteFile path data) as EnrIo ;; Ret (Ok tt)) Q b.
Proof.
  intros HQ Hno. unfold bind_try at 1. rewrite wp_bind.
  assert (wpu (create_parent path)
            (fun o b' => b' = b /\ (o = Done (Ok tt) \/ (~ up /\ exists e, o = Done (Err e)))) b) as Hd.
  { unfold create_parent. destruct (parent path) as [dir|]; [|by split; [|left]].
    intros r b' [Hb Hup]. cbn in Hb. subst b'. split; [done|].
    destruct r as [[]|e]; [by left|right]. split; [intros H; by specialize (Hup H)|by eexists]. }
  eapply wp_mono; [|exact Hd]. intros o b' [-> [-> | [Hn [e ->]]]]; cbn [andthen wp]; [|by apply Hno].
  unfold bind_try. cbn [bind call wp]. intros r b' [Hb Hup]. destruct r as [[]|e].
  - apply HQ. cbn in Hb. by rewrite Hb.
  - apply Hno. intros H. by specialize (Hup H).
Qed.

(** What [enroll] does with the approved poll. *)
Definition finish (cfg : InviteConfig) (state_path token_path : string) (approved : BoxPoll)
    : prog BoxSig (Result TunnelConfig EnrollError) :=
  or_missing (bp_wg_ip approved) "wg_ip" (fun wg_ip =>
  or_missing (bp_hostname approved) "hostname" (fun hostname =>
  or_missing (bp_device_token approved) "device token" (fun device_token =>
    info <-? ec_edge_info client as (fun e => e) ;;
    let tunnel := MkTunnel (ic_iface cfg) wg_ip (ic_prefix cfg) (ei_public_key info)
                    (ei_endpoint info) (ei_allowed_ips info) (ic_listen_port cfg) in
    _s <-? persist_tunnel_state state_path tunnel hostname as (fun e => e) ;;
    _t <-? persist_device_token token_path device_token as (fun e => e) ;;
    Ret (Ok tunnel)))).

Context (serve : method -> string -> Json -> prog EdgeSig HttpResponse).
Context `{CA : !ClaimApi WORDS base serve}.
Hypothesis code_slash : lacks "/" code.
Hypothesis code_percent : lacks "%" code.

Lemma local_keypair path : only (X := BoxSig) local_op (ensure_keypair path).
Proof.
  assert (only (X := BoxSig) local_op (persist_new_key path)) as Hnew.
  { unfold persist_new_key, generate_keypair, bind_try. cbn [bind call only local_op].
    split; [done|]. intros bytes. cbn [bind call only local_op]. split; [done|].
    intros [[]|e].
    - cbn [bind call only local_op]. split; [done|]. intros [[]|e]; cbn; [|done].
      split; [done|]. by intros [[]|e].
    - destruct (io_kind e); cbn; try done. split; [done|]. by intros [t|e']. }
  unfold ensure_keypair. cbn [bind call only local_op]. split; [done|].
  intros [t|e]; [|done]. by destruct (negb _).
Qed.

Lemma wp_enroll_claim cp f email st pk0 name pk t (a : AccountRecord) ttl n l ip wg edge_key
    cfg b0 kp sp tp interval polls Q e b :
  let e1 := set_kv (begun_store code email pk (kv e)) e in
  let m := fresh_machine cp (Some (uuid a)) name pk ip wg in
  parse_invite_url (invite_url cfg) = Ok (b0, code) ->
  files b !! kp = Some t -> trim t <> ""%string -> derive_public_key (trim t) = Some pk ->
  invite_is WORDS e code (MkInvite email st pk0) -> st = Dormant \/ st = Waiting ->
  kv e !! account_key (norm_email email) = Some (RStr (to_json a) ttl) ->
  fresh_route cp f name pk n l ip wg edge_key e ->
  (forall err e' b', files b' = files b ->
     (up -> err = EnrTimedOut 0 /\ kv e' !! machine_key name = None) ->
     Q (Done (Err err)) (MkJoint e' b')) ->
  (forall token e' b', drawn_token token -> files b' = files b ->
     kv e' = delete (delivery_key code) (approved_store cp code email pk m token (n + 1) l (kv e1)) ->
     wg_log e' = wg_log e ++ [WgAdded wg pk] ->
     wpj (link serve []
            (finish cfg sp tp
               (box_view (MkPoll "approved" (Some (enrolled_machine m token)) (Some token))))
            (fun _ r => Ret r)) Q (MkJoint e' b')) ->
  wpj (linked serve [owner_approves WORDS (Some f) cp email code name]
         (enroll client cfg kp sp tp interval (S polls))) Q (MkJoint e b).
Proof.
  intros e1 m Hurl Hfile Hne Hd Hi Hst Ha Hfr Herr Hfin.
  assert (validate_wg_pubkey pk = Ok tt) as Hv by (by destruct Hfr).
  unfold linked, enroll, invite_config_parse. rewrite Hurl.
  apply wp_link_try, wp_link_local; [apply local_keypair|].
  eapply wp_mono; [|eapply (wp_key_there kp b t pk); done]. intros o b1 [-> [-> | [Hno [x ->]]]]; cbn [local_post wp];
    [|by apply Herr].
  apply wp_link_try, (wp_client_begin bcrypt_verify up WORDS); [done..| |].
  - eapply (wp_begin_open WORDS); [exact Hi|done|done|].
    split; [|intros Hup x; by apply Herr].
    cbn [box_view poll_status bp_status]. rewrite bool_decide_eq_false_2 by done.
    apply wp_link_try. eapply (wp_claimed up WORDS base code serve code_slash code_percent cp f email name pk a ttl n l ip wg edge_key); [by destruct Hi|exact Ha|exact Hfr|].
    intros e' b' Hb'. split_and!.
    + intros Hno v x. by apply Herr.
    + intros Hnone. by apply (Herr _ _ _ Hb').
    + intros token Htoken Hkv Hwg. by eapply Hfin.
  - intros Hno x. by apply Herr.
Qed.
End Enrollment.

(** ** The tail: the tunnel's facts, and what the box persists *)

Section Tail.
Context `{CR : Crates} `{CL : !CratesLaws}.
Context `{SM : Serde Machine} `{SA : Serde AccountRecord}.
Context `{SI : Serde InviteRecord} `{SD : Serde EnrollmentDelivery}.
Context `{SP : Serde PersistedTunnel} `{JT : JsonText}.
Context (up : Prop) (WORDS : list string) (base : string) (F : option Forwarder) (cp : ControlPlane).
Context (json_print : Json -> string) (url_decode : string -> string) (refused : HttpResponse).
Local Abbreviation wpj := (wp (X := JointSig) (joint_spec bcrypt_verify up)) (only parsing).
Local Abbreviation client := (HttpEdgeClient.client base).
Local Abbreviation site := (serve_site WORDS F cp json_print url_decode refused base).
Local Abbreviation edge_api := (serve_edge WORDS F cp json_print url_decode refused base).

Lemma drawn_nonempty token : drawn_token token -> is_empty token = false.
Proof.
  intros (bytes & Hl & ->). pose proof (hex_length bytes) as H. rewrite Hl in H.
  by destruct (hex_encode bytes).
Qed.

Lemma local_create_parent path : only (X := BoxSig) local_op (create_parent path).
Proof. unfold create_parent. by destruct (parent path). Qed.

Lemma local_persist path data :
  only (X := BoxSig) local_op
    (_d <-? create_parent path as EnrIo ;;
     _w <-? @call BoxSig (WriteFile path data) as EnrIo ;; Ret (Ok tt)).
Proof.
  unfold bind_try, create_parent.
  destruct (parent path); cbn [bind call only local_op]; repeat (split; [done|]; intros [[]|]);
    done.
Qed.

Lemma split_info_path : split_on slash info_path = [""; "api"; "wireguard"; "info"]%string.
Proof. by vm_compute. Qed.

(** The site serves the facts of the tunnel. *)
Lemma wp_info_site {C} edge_key ips visits
    (k : list (prog EdgeSig unit) -> Result EdgeInfo EnrollError -> prog JointSig C) Q e b :
  (forall j, json_parse (json_print j) = Ok j) ->
  tunnel_info cp = Ret (Ok (MkTunnelInfo edge_key (root_domain_ cp ++ ":51820") ips)) ->
  let b' := log_http (Got (base ++ info_path)) b in
  wpj (k visits (Ok (MkEdgeInfo edge_key (root_domain_ cp ++ ":51820") ips))) Q (MkJoint e b') ->
  (~ up -> forall m, wpj (k visits (Err (EnrApi m))) Q (MkJoint e b')) ->
  wpj (link site visits (ec_edge_info client) k) Q (MkJoint e b).
Proof.
  intros Hjson Hinfo b' HQ Hlost. cbn [ec_edge_info HttpEdgeClient.client].
  unfold HttpEdgeClient.edge_info. apply wp_link_try. unfold HttpEdgeClient.get_json.
  apply wp_http_get. intros sent Hsent. fold info_path b'. unfold exchange.
  destruct sent as [d|err]; cycle 1.
  { apply Hlost. intros Hup. by destruct (Hsent Hup) as (? & ? & ?). }
  unfold serve_site at 1. rewrite strip_base.
  rewrite split_info_path.
  cbv beta iota zeta. unfold SiteApi.wireguard_info. cbn [sb_cp]. rewrite Hinfo.
  cbn [bind lift_edge site_http SiteApi.api_status SiteApi.api_body http_status http_text].
  destruct (http_text d) as [t|err] eqn:Hd.
  - unfold HttpEdgeClient.response_json. cbn [http_text http_status]. rewrite Hjson.
    exact HQ.
  - cbn [link]. apply Hlost. intros Hup. destruct (Hsent Hup) as (st & t & [= ->]). done.
Qed.

(** fortress-edge does not. *)
Lemma wp_info_edge {C} visits
    (k : list (prog EdgeSig unit) -> Result EdgeInfo EnrollError -> prog JointSig C) Q e b :
  is_success (http_status refused) = false ->
  (forall m, wpj (k visits (Err (EnrApi m))) Q (MkJoint e (log_http (Got (base ++ info_path)) b))) ->
  wpj (link edge_api visits (ec_edge_info client) k) Q (MkJoint e b).
Proof.
  intros Hr HQ. cbn [ec_edge_info HttpEdgeClient.client].
  unfold HttpEdgeClient.edge_info. apply wp_link_try. unfold HttpEdgeClient.get_json.
  apply wp_http_get. intros sent _. fold info_path. unfold exchange.
  destruct sent as [d|err]; [|apply HQ].
  unfold serve_edge at 1. rewrite strip_base.
  rewrite split_info_path.
  cbv beta iota zeta. cbn [lift_edge]. unfold HttpEdgeClient.response_json.
  cbn [http_text http_status]. destruct (http_text d); [destruct (http_text refused)|];
    rewrite ?Hr; apply HQ.
Qed.

(** With the tunnel's facts in hand, the state and the token are persisted. *)
Lemma wp_finish serve cfg sp tp (m : Machine) token info Q e b :
  drawn_token token -> is_empty (m_hostname m) = false ->
  (forall k : list (prog EdgeSig unit) -> Result EdgeInfo EnrollError -> prog JointSig _,
     let b' := log_http (Got (base ++ info_path)) b in
     wpj (k [] (Ok info)) Q (MkJoint e b') ->
     (~ up -> forall x, wpj (k [] (Err (EnrApi x))) Q (MkJoint e b')) ->
     wpj (link serve [] (ec_edge_info client) k) Q (MkJoint e b)) ->
  (~ up -> forall err b', Q (Done (Err err)) (MkJoint e b')) ->
  (let tunnel := MkTunnel (ic_iface cfg) (m_wg_ip m) (ic_prefix cfg) (ei_public_key info)
                   (ei_endpoint info) (ei_allowed_ips info) (ic_listen_port cfg) in
   forall b', files b' = <[tp := token]> (<[sp := to_json (MkPersisted tunnel (m_hostname m))]> (files b)) ->
     Q (Done (Ok tunnel)) (MkJoint e b')) ->
  wpj (link serve [] (finish base cfg sp tp
         (box_view (MkPoll "approved" (Some (enrolled_machine m token)) (Some token))))
       (fun _ r => Ret r)) Q (MkJoint e b).
Proof.
  intros Ht Hh Hinfo Hno HQ. destruct m as [mn mo mh m6 m4 mk mt]. cbn [m_hostname m_wg_ip] in *.
  unfold finish. cbn [box_view poll_status poll_machine poll_token
    bp_wg_ip bp_hostname bp_device_token fmap option_fmap option_map enrolled_machine or_missing
    set_token_hash m_wg_ip m_hostname].
  apply wp_link_try, Hinfo; [|intros Hup x; by apply Hno].
  unfold persist_tunnel_state, persist_device_token. rewrite Hh, (drawn_nonempty _ Ht).
  cbn [negb assert_].
  apply wp_link_try, wp_link_local; [apply local_persist|]. apply wp_persist; cycle 1.
  { intros Hup err b1. by apply Hno. }
  intros b1 Hb1. cbn [local_post].
  apply wp_link_try, wp_link_local; [apply local_persist|]. apply wp_persist; cycle 1.
  { intros Hup err b2. by apply Hno. }
  intros b2 Hb2. cbn [local_post link wp]. apply HQ. by rewrite Hb2, Hb1.
Qed.
End Tail.
