(* ===== verification/DashDb.v ===== *)
(** The box's dashboard: its database (client/src/dashboard/db.rs), its password
    and session gate (client/src/dashboard/auth.rs), the service catalog
    (client/src/dashboard/catalog.rs). *)

From stdpp Require Import base gmap strings list pretty.
From Stdlib Require Import ZArith Lia Ascii.
From S2P Require Import Prelude Prog World Crates Web Box.

Local Open Scope prog_scope.

(** [Response] of the dashboard: the status and the headers the code sets, and
    the page with its properties. *)
Inductive ClaimView :=
| ViewClaimed (hostname : string)
| ViewUnclaimed
| ViewAwaiting
| ViewFailed (message : string).

Record LandingServiceProps := MkLandingService {
  ls_name : string;
  ls_description : string;
  ls_path : string;
  ls_healthy : bool;
}.
Record EditorServiceProps := MkEditorService {
  es_nixname : string;
  es_display_name : string;
  es_description : string;
  es_enabled : bool;
}.
Record EditorUserProps := MkEditorUser {
  eu_username : string;
  eu_is_admin : bool;
  eu_groups : gset string;
  eu_has_password : bool;
}.
Record EditorPageProps := MkEditorPage {
  ep_hostname : string;
  ep_base_domain : string;
  ep_services : list EditorServiceProps;
  ep_users : list EditorUserProps;
  ep_config_error : option string;
  ep_saved : bool;
  ep_save_error : option string;
  ep_remote : ClaimView;
}.

Inductive DashPage :=
| DashLanding (services : list LandingServiceProps)
| DashLogin (error : bool)
| DashEditor (props : EditorPageProps).

Record DashResponse := MkDash {
  d_status : Z;
  d_location : option string;
  d_set_cookie : option string;
  d_hx_redirect : option string;
  d_page : option DashPage;
}.

Definition dash_status (status : Z) : DashResponse := MkDash status None None None None.
Definition dash_html (p : DashPage) : DashResponse := MkDash 200 None None None (Some p).

(** What the handlers read of a request: its cookies, and whether htmx sent it. *)
Record DashRequest := MkDashRequest { d_cookie : option string; hx_request : bool }.

(** chrono: RFC 3339 text of an instant (in nanoseconds), and back. *)
Class Rfc3339 := {
  to_rfc3339 : Z -> string;
  parse_from_rfc3339 : string -> Result Z string;
}.
Class Rfc3339Laws `{Rfc3339} := {
  parse_to_rfc3339 t : parse_from_rfc3339 (to_rfc3339 t) = Ok t;
}.

(** ** The database *)

Definition SESSION_TTL : Z := 24 * 60 * 60 * 10 ^ 9.
Definition KV_PREFIX : string := "misc:".

Inductive DbError :=
| DbSqlx (e : string)
| DbIo (e : IoError)
| DbSessionNotFound (token : string)
| DbSessionExpired (token : string)
| DbCorrupt (table detail : string).

Definition db_error_display (e : DbError) : string :=
  match e with
  | DbSqlx e => "database error: " ++ e
  | DbIo e => "io error: " ++ io_text e
  | DbSessionNotFound token => "session token not found: " ++ token
  | DbSessionExpired token => "session token expired: " ++ token
  | DbCorrupt table detail => "corrupt row in " ++ table ++ ": " ++ detail
  end.

Record Session := MkSession {
  sess_token : string;
  sess_user_id : string;
  sess_created_at : Z;
  sess_expires_at : Z;
}.

Section Db.
Context `{RF : Rfc3339}.

Definition parse_timestamp (raw table : string) : Result Z DbError :=
  match parse_from_rfc3339 raw with
  | Ok t => Ok t
  | Err error => Err (DbCorrupt table (raw ++ ": " ++ error))
  end.

Definition create_session (user_id : string) : prog BoxSig (Result string DbError) :=
  assert_ (negb (is_empty user_id)) "user_id must be non-empty" (
  token <- @call BoxSig BoxUuid ;;
  now <- @call BoxSig BoxNow ;;
  let expires_at := (now + SESSION_TTL)%Z in
  inserted <-? @call BoxSig (DbInsertSession token
                 (MkSessionRow user_id (to_rfc3339 now) (to_rfc3339 expires_at))) as DbSqlx ;;
  assert_ (bool_decide (inserted = 1%Z)) "session insert must affect exactly one row"
    (Ret (Ok token))).

Definition get_session (token : string) : prog BoxSig (Result Session DbError) :=
  assert_ (negb (is_empty token)) "session token must be non-empty" (
  raw <-? @call BoxSig (DbSelectSession token) as DbSqlx ;;
  match raw with
  | None => Ret (Err (DbSessionNotFound token))
  | Some raw =>
      match parse_timestamp (row_created_at raw) "sessions" with
      | Err e => Ret (Err e)
      | Ok created_at =>
          match parse_timestamp (row_expires_at raw) "sessions" with
          | Err e => Ret (Err e)
          | Ok expires_at =>
              now <- @call BoxSig BoxNow ;;
              Ret (if (expires_at <=? now)%Z then Err (DbSessionExpired token)
                   else Ok (MkSession token (row_user_id raw) created_at expires_at))
          end
      end
  end).

Definition delete_session (token : string) : prog BoxSig (Result bool DbError) :=
  assert_ (negb (is_empty token)) "session token must be non-empty" (
  deleted <-? @call BoxSig (DbDeleteSession token) as DbSqlx ;;
  assert_ (deleted <=? 1)%Z "token is primary key; at most one row matches"
    (Ret (Ok (0 <? deleted)%Z))).

Definition kv_get (key : string) : prog BoxSig (Result (option string) DbError) :=
  assert_ (negb (is_empty key)) "kv key must be non-empty" (
  row <-? @call BoxSig (DbSelectKv (KV_PREFIX ++ key)) as DbSqlx ;;
  Ret (Ok row)).

Definition kv_set (key value : string) : prog BoxSig (Result unit DbError) :=
  assert_ (negb (is_empty key)) "kv key must be non-empty" (
  now <- @call BoxSig BoxNow ;;
  _u <-? @call BoxSig (DbUpsertKv (KV_PREFIX ++ key) value (to_rfc3339 now)) as DbSqlx ;;
  Ret (Ok tt)).
End Db.

(** ** The gate *)

Module DashAuth.
Section DashAuth.
Context `{CR : Crates} `{RF : Rfc3339}.

Definition SESSION_COOKIE : string := "fortress_session".

Record AdminConfig := MkAdminConfig { password_hash : string }.

Definition from_env : prog BoxSig (option AdminConfig) :=
  hash <- @call BoxSig (EnvVar "FORTRESS_ADMIN_PASSWORD_HASH") ;;
  Ret (MkAdminConfig <$> hash).

Definition verify_password (password hash : string) : bool :=
  default false (bcrypt_verify password hash).

Definition read_cookie (req : DashRequest) (name : string) : option string :=
  v ← d_cookie req;
  v ← header_to_str v;
  find_cookie name (split_on is_semicolon v).

(** [None] is the panic on a token no header can carry. *)
Definition session_cookie_header (token : string) (secure : bool) : option string :=
  let cookie := (SESSION_COOKIE ++ "=" ++ token ++ "; Path=/; HttpOnly; SameSite=Lax"
                   ++ (if secure then "; Secure" else ""))%string in
  if header_value_ok cookie then Some cookie else None.

Definition clear_session_cookie_header : string :=
  SESSION_COOKIE ++ "=; Path=/; HttpOnly; SameSite=Lax; Max-Age=0".

Definition login_response (req : DashRequest) : DashResponse :=
  if hx_request req then MkDash 401 None None (Some "/auth/login") None
  else MkDash 303 (Some "/auth/login") None None None.

(** The gate around an endpoint. *)
Definition gate_request (auth : AdminConfig) (endpoint : prog BoxSig DashResponse)
    (req : DashRequest) : prog BoxSig DashResponse :=
  assert_ (negb (is_empty (password_hash auth)))
    "gate_request requires a non-empty password hash" (
  authenticated <- match read_cookie req SESSION_COOKIE with
                   | Some token => s <- get_session token ;; Ret (is_ok s)
                   | None => Ret false
                   end ;;
  if authenticated : bool then endpoint else Ret (login_response req)).
End DashAuth.
End DashAuth.

(** ** The catalog *)

Record CatalogEntry := MkCatalogEntry {
  ce_name : string;
  ce_description : string;
  ce_path : string;
  ce_domain : string;
  ce_port : Z;
  ce_public : bool;
  ce_health_url : string;
}.

(** The checks of one entry; [None] when it passes. *)
Definition entry_error (file : string) (e : CatalogEntry) : option string :=
  if is_empty (ce_name e)
  then Some ("catalog " ++ file ++ ": an entry has an empty name")%string
  else if is_empty (ce_path e) || negb (starts_with "/" (ce_path e))
  then Some ("catalog " ++ file ++ ": " ++ ce_name e
               ++ " has a path that is not absolute — a card would link nowhere")%string
  else if is_empty (ce_health_url e)
  then Some ("catalog " ++ file ++ ": " ++ ce_name e
               ++ " has no healthUrl — liveness would silently show grey")%string
  else if negb (starts_with "http://" (ce_health_url e))
  then Some ("catalog " ++ file ++ ": " ++ ce_name e ++ " healthUrl must be plain http — the prober builds no root store, so an https target would silently probe down forever (" ++ ce_health_url e ++ ").")%string
  else None.

Fixpoint check_entries (file : string) (l : list CatalogEntry) : Result unit string :=
  match l with
  | [] => Ok tt
  | e :: l' => match entry_error file e with
               | Some err => Err err
               | None => check_entries file l'
               end
  end.

Section Catalog.
Context `{SC : Serde (list CatalogEntry)}.

Definition catalog_load (path : string) : prog BoxSig (Result (list CatalogEntry) string) :=
  text <-? @call BoxSig (ReadFile path) as
    (fun err => ("catalog " ++ path ++ ": " ++ io_text err)%string) ;;
  Ret (match (from_json text : Result (list CatalogEntry) string) with
       | Err err => Err ("catalog " ++ path ++ ": " ++ err)%string
       | Ok entries => match check_entries path entries with
                       | Err err => Err err
                       | Ok _ => Ok entries
                       end
       end).
End Catalog.

(** The liveness cache: when each URL was last probed, and the answer. *)
Definition CACHE_TTL : Z := 30 * 10 ^ 9.
Definition PROBE_TIMEOUT : Z := 2 * 10 ^ 9.

Record CacheEntry := MkCacheEntry { checked_at : Z; healthy : bool }.

(** A cached answer that is still believed at [now]. *)
Definition cache_hit (now : Z) (cache : gmap string CacheEntry) (url : string) : option bool :=
  match cache !! url with
  | Some hit => if (now - checked_at hit <? CACHE_TTL)%Z then Some (healthy hit) else None
  | None => None
  end.

(** The indices [snapshot] probes; [now] is the clock's reading at each index. *)
Fixpoint stale_from (index : nat) (now : nat -> Z) (cache : gmap string CacheEntry)
    (l : list CatalogEntry) : list (nat * string) :=
  match l with
  | [] => []
  | e :: l' =>
      match cache_hit (now index) cache (ce_health_url e) with
      | Some _ => stale_from (S index) now cache l'
      | None => (index, ce_health_url e) :: stale_from (S index) now cache l'
      end
  end.

(** A probe task that finished: its index and URL, when, and whether anything
    answered. *)
Record Probe := MkProbe { pr_index : nat; pr_url : string; pr_at : Z; pr_ok : bool }.

(** [Prober::snapshot], entry by entry looked up at [now], for probe tasks that finished in
    the order [done] (a task that failed is not in it): the answers, and the new
    cache. *)
Definition health_snapshot (now : nat -> Z) (cache : gmap string CacheEntry) (entries : list CatalogEntry)
    (done : list Probe) : list bool * gmap string CacheEntry :=
  (foldl (fun h p => <[pr_index p := pr_ok p]> h)
     (imap (fun i e => default false (cache_hit (now i) cache (ce_health_url e))) entries) done,
   foldl (fun c p => <[pr_url p := MkCacheEntry (pr_at p) (pr_ok p)]> c) cache done).
