(* ===== verification/Probes.v ===== *)
(** The liveness probes of the dashboard (client/src/dashboard/catalog.rs): the tasks
    that [Prober::snapshot] spawns, the semaphore they share and the cache they fill.

    The snapshot takes the stale entries under the lock, spawns one task for each, and joins
    them in the order of the entries; the tasks themselves run in any order, at
    most as many at once as the semaphore has permits. *)

From stdpp Require Import base gmap strings list relations.
From Stdlib Require Import ZArith Lia.
From S2P Require Import Prelude Prog World Box DashDb.

Definition MAX_CONCURRENT_PROBES : nat := 8.

(** [probe_one]: any answer is an answer. *)
Definition probe_one (url : string) : prog BoxSig bool :=
  bind (@call BoxSig (HttpGet url)) (fun r =>
    match r with Ok _ => Ret true | Err _ => Ret false end).

(** ** The tasks *)

Inductive task :=
| Queued                    (** waiting for a permit *)
| Probing
| Answered (ok : bool)      (** the cache is filled, the permit is back *)
| Lost.                     (** the task panicked; its permit is back *)

Record prober := MkProber {
  tasks : list (nat * string * task);
  permits : nat;
  cache : gmap string CacheEntry;
}.

(** [Prober::snapshot] up to the spawns; the clock is read for each entry. *)
Definition spawned (now : nat -> Z) (c : gmap string CacheEntry) (entries : list CatalogEntry) : prober :=
  MkProber (map (fun x => (x, Queued)) (stale_from 0 now c entries)) MAX_CONCURRENT_PROBES c.

(** The booleans under the lock: the believed answers, [false] for the stale ones. *)
Definition believed (now : nat -> Z) (c : gmap string CacheEntry) (entries : list CatalogEntry)
    : list bool :=
  imap (fun i e => default false (cache_hit (now i) c (ce_health_url e))) entries.

Inductive pstep : prober -> prober -> Prop :=
| p_acquire i idx url ts n c :
    ts !! i = Some (idx, url, Queued) ->
    pstep (MkProber ts (S n) c) (MkProber (<[i := (idx, url, Probing)]> ts) n c)
| p_answer i idx url ts n c at_ ok :
    ts !! i = Some (idx, url, Probing) ->
    pstep (MkProber ts n c)
      (MkProber (<[i := (idx, url, Answered ok)]> ts) (S n)
         (<[url := MkCacheEntry at_ ok]> c))
| p_lost i idx url ts n c :
    ts !! i = Some (idx, url, Probing) ->
    pstep (MkProber ts n c) (MkProber (<[i := (idx, url, Lost)]> ts) (S n) c).

(** Joining a handle: a lost task leaves its entry grey. *)
Definition join1 (h : list bool) (t : nat * string * task) : list bool :=
  match t with
  | (idx, _, Answered ok) => <[idx := ok]> h
  | _ => h
  end.
Definition joined (h : list bool) (p : prober) : list bool := foldl join1 h (tasks p).

Definition finished (t : nat * string * task) : bool :=
  match snd t with Answered _ | Lost => true | _ => false end.
Definition all_finished (p : prober) : bool := forallb finished (tasks p).

Definition is_probing (t : nat * string * task) : bool :=
  match snd t with Probing => true | _ => false end.
(** How many requests are on the wire. *)
Definition in_flight (p : prober) : nat := length (List.filter is_probing (tasks p)).

(** ** Counting *)

Definition weight (t : nat * string * task) : nat :=
  match snd t with Queued => 2 | Probing => 1 | _ => 0 end.
Definition work (p : prober) : nat := sum_list_with weight (tasks p).

Lemma sum_insert {A} (f : A -> nat) (l : list A) i x y :
  l !! i = Some x -> sum_list_with f (<[i := y]> l) + f x = sum_list_with f l + f y.
Proof.
  revert i. induction l as [|a l IH]; intros [|i] H; [done|done| |].
  - injection H as ->. cbn. lia.
  - change (<[S i := y]> (a :: l)) with (a :: <[i := y]> l). specialize (IH i H). cbn. lia.
Qed.

Lemma in_flight_sum p :
  in_flight p = sum_list_with (fun t => if is_probing t then 1 else 0) (tasks p).
Proof.
  unfold in_flight. induction (tasks p) as [|t l IH]; cbn; [done|].
  destruct (is_probing t); cbn; lia.
Qed.

(** Every permit is free or held by a request on the wire. *)
Definition permits_kept (p : prober) : Prop := in_flight p + permits p = MAX_CONCURRENT_PROBES.

(** The entry that a step replaces, counted by [f]. *)
Ltac count_step f :=
  match goal with
  | H : ?ts !! ?i = Some ?x |- context [<[?i := ?y]> ?ts] =>
      pose proof (sum_insert f ts i x y H) as Hcount; cbn in Hcount
  end.

Lemma permits_step p p' : pstep p p' -> permits_kept p -> permits_kept p'.
Proof.
  unfold permits_kept. rewrite !in_flight_sum.
  destruct 1; cbn [tasks permits]; count_step (fun t => if is_probing t then 1 else 0); cbn in *; lia.
Qed.

(** Every step is progress. *)
Lemma work_step p p' : pstep p p' -> work p = S (work p').
Proof. unfold work. destruct 1; cbn [tasks]; count_step weight; lia. Qed.

(** Whatever is not finished can go on. *)
Lemma pstep_progress p :
  permits_kept p -> all_finished p = false -> exists p', pstep p p'.
Proof.
  destruct p as [ts n c]. unfold permits_kept, in_flight, all_finished. cbn [tasks permits].
  intros Hp Hf.
  destruct (List.filter is_probing ts) as [|[[idx url] st] l] eqn:E.
  - cbn in Hp. subst n.
    apply not_true_iff_false in Hf. rewrite forallb_forall in Hf.
    assert (exists t, t ∈ ts /\ finished t = false) as ([[idx url] st] & Hin & Ht).
    { clear -Hf. induction ts as [|t ts IH]; [by destruct Hf|].
      destruct (finished t) eqn:Et; [|exists t; split; [by left|done]].
      destruct IH as (t' & ? & ?); [|exists t'; split; [by right|done]].
      intros H. apply Hf. intros x [<-|Hx]; auto. }
    apply list_elem_of_lookup in Hin as [i Hi].
    destruct st; try done; [eexists; by eapply p_acquire|].
    assert ((idx, url, Probing) ∈ List.filter is_probing ts) as Hin; [|by rewrite E in Hin; apply elem_of_nil in Hin].
    apply list_elem_of_In, filter_In. split; [|done].
    by eapply list_elem_of_In, list_elem_of_lookup_2.
  - assert (In (idx, url, st) (List.filter is_probing ts)) as Hin by (rewrite E; by left).
    apply filter_In in Hin as [Hin Ht]. apply list_elem_of_In, list_elem_of_lookup in Hin as [i Hi].
    destruct st; try done. eexists. by eapply p_lost.
Qed.

(** ** Which answers end up where *)

Section Run.
Context (now : nat -> Z) (c0 : gmap string CacheEntry) (entries : list CatalogEntry).

Lemma stale_from_spec n l idx url :
  (idx, url) ∈ stale_from n now c0 l <->
  exists e, n <= idx /\ l !! (idx - n) = Some e /\ url = ce_health_url e /\
            cache_hit (now idx) c0 url = None.
Proof.
  revert n. induction l as [|e l IH]; intros n; cbn [stale_from].
  - rewrite elem_of_nil. split; [done|]. by intros (e & _ & H & _).
  - assert (forall e', l !! (idx - S n) = Some e' -> S n <= idx ->
              (e :: l) !! (idx - n) = Some e') as Hshift.
    { intros e' H Hle. by replace (idx - n) with (S (idx - S n)) by lia. }
    assert (forall e', n < idx -> (e :: l) !! (idx - n) = Some e' ->
              l !! (idx - S n) = Some e') as Hback.
    { intros e' Hlt H. by replace (idx - n) with (S (idx - S n)) in H by lia. }
    destruct (cache_hit (now n) c0 (ce_health_url e)) eqn:Eh.
    + rewrite IH. split; intros (e' & Hle & Hl & -> & Hc); exists e'; [by auto with lia|].
      assert (n <> idx) by (intros ->; rewrite Nat.sub_diag in Hl; by simplify_eq/=).
      split; [lia|]. split; [|done]. apply Hback; [lia|done].
    + rewrite elem_of_cons, IH. split.
      * intros [[= -> ->]|(e' & Hle & Hl & -> & Hc)]; [|exists e'; by auto with lia].
        exists e. rewrite Nat.sub_diag. by split_and!.
      * intros (e' & Hle & Hl & -> & Hc). destruct (decide (n = idx)) as [->|Hne].
        -- left. rewrite Nat.sub_diag in Hl. by simplify_eq/=.
        -- right. exists e'. split; [lia|]. split; [|done]. apply Hback; [lia|done].
Qed.

Lemma stale_from_nodup n l : NoDup (map fst (stale_from n now c0 l)).
Proof.
  revert n. induction l as [|e l IH]; intros n; cbn [stale_from map]; [constructor|].
  destruct (cache_hit _ _ _); [done|]. cbn. constructor; [|done].
  rewrite list_elem_of_In, in_map_iff. intros ([idx url] & <- & Hin).
  apply list_elem_of_In, stale_from_spec in Hin as (e' & Hle & _). cbn in Hle. lia.
Qed.

(** *** Joining *)

Lemma join1_length h t : length (join1 h t) = length h.
Proof. destruct t as [[idx url] []]; cbn; [done..| |done]. apply length_insert. Qed.

Lemma join_length l h : length (foldl join1 h l) = length h.
Proof. revert h. induction l as [|t l IH]; intros h; cbn; [done|]. by rewrite IH, join1_length. Qed.

Lemma join1_other h t idx : fst (fst t) <> idx -> join1 h t !! idx = h !! idx.
Proof. destruct t as [[i url] []]; cbn; intros Hne; try done. by apply list_lookup_insert_ne. Qed.

Lemma join_unanswered l h idx :
  (forall url ok, (idx, url, Answered ok) ∉ l) -> foldl join1 h l !! idx = h !! idx.
Proof.
  revert h. induction l as [|[[i url] st] l IH]; intros h Hno; cbn; [done|].
  rewrite IH by (intros u ok Hin; apply (Hno u ok); by right).
  destruct st; cbn; try done. destruct (decide (i = idx)) as [->|Hne].
  - destruct (Hno url ok). by left.
  - by apply list_lookup_insert_ne.
Qed.

Lemma join_answered l h idx url ok :
  NoDup (map (fun t => fst (fst t)) l) -> (idx, url, Answered ok) ∈ l -> idx < length h ->
  foldl join1 h l !! idx = Some ok.
Proof.
  revert h. induction l as [|t l IH]; intros h Hnd Hin Hlt; [by apply elem_of_nil in Hin|].
  cbn [map] in Hnd. apply NoDup_cons in Hnd as [Hnew Hnd]. cbn [foldl].
  apply elem_of_cons in Hin as [<-|Hin].
  - rewrite join_unanswered.
    + cbn. by apply list_lookup_insert_eq.
    + intros u b Hb. apply Hnew, list_elem_of_In, in_map_iff.
      exists (idx, u, Answered b). split; [done|by apply list_elem_of_In].
  - apply IH; [done|done|]. by rewrite join1_length.
Qed.

(** *** The invariant *)

Record probed (p : prober) : Prop := {
  probed_tasks : map fst (tasks p) = stale_from 0 now c0 entries;
  probed_permits : permits_kept p;
  probed_filled idx url ok :
    (idx, url, Answered ok) ∈ tasks p -> is_Some (cache p !! url);
  probed_cache url :
    cache p !! url = c0 !! url \/
    exists idx e, cache p !! url = Some e /\ (idx, url, Answered (healthy e)) ∈ tasks p;
}.

Lemma map_insert_same {A B} (f : A -> B) (l : list A) i x y :
  l !! i = Some x -> f x = f y -> map f (<[i := y]> l) = map f l.
Proof.
  intros H Hf. change (f <$> <[i := y]> l = f <$> l). rewrite list_fmap_insert, <- Hf.
  apply list_insert_id. by rewrite list_lookup_fmap, H.
Qed.

Lemma answered_stays (ts : list (nat * string * task)) i x y idx url ok :
  ts !! i = Some x -> finished x = false ->
  (idx, url, Answered ok) ∈ ts -> (idx, url, Answered ok) ∈ <[i := y]> ts.
Proof.
  intros Hi Hx Hin. apply list_elem_of_lookup in Hin as [j Hj].
  assert (i <> j) by (intros ->; rewrite Hj in Hi; injection Hi as <-; done).
  apply list_elem_of_lookup. exists j. by rewrite list_lookup_insert_ne.
Qed.

Lemma answered_was (ts : list (nat * string * task)) i y idx url ok :
  (idx, url, Answered ok) ∈ <[i := y]> ts ->
  y = (idx, url, Answered ok) \/ (idx, url, Answered ok) ∈ ts.
Proof.
  intros Hin. apply list_elem_of_lookup in Hin as [j Hj].
  apply list_lookup_insert_Some in Hj as [(-> & <- & _)|[_ Hj]]; [by left|].
  right. by eapply list_elem_of_lookup_2.
Qed.

Lemma probed_spawned : probed (spawned now c0 entries).
Proof.
  split; cbn [spawned tasks cache permits].
  - rewrite map_map. apply map_id.
  - unfold permits_kept, in_flight, spawned. cbn [tasks permits].
    induction (stale_from 0 now c0 entries) as [|x l IH]; [done|exact IH].
  - intros idx url ok Hin. apply list_elem_of_In, in_map_iff in Hin as (x & Hx & _). done.
  - by left.
Qed.

Lemma probed_step p p' : pstep p p' -> probed p -> probed p'.
Proof.
  intros Hs [Ht Hp Hf Hc]. pose proof (permits_step _ _ Hs Hp) as Hp'.
  destruct Hs as [i idx url ts n c H|i idx url ts n c at_ ok H|i idx url ts n c H];
    cbn [tasks cache] in *; (split; cbn [tasks cache];
    [by rewrite (map_insert_same fst ts i _ _ H)|done| |]).
  - intros idx' url' ok Hin. apply answered_was in Hin as [?|Hin]; [done|]. eauto.
  - intros u. destruct (Hc u) as [Hu|(idx' & e & Hu & Hin)]; [by left|].
    right. exists idx', e. split; [done|]. by eapply answered_stays.
  - intros idx' url' ok' Hin. apply answered_was in Hin as [[= <- <- <-]|Hin].
    + rewrite lookup_insert_eq. eauto.
    + destruct (decide (url = url')) as [->|Hne].
      * rewrite lookup_insert_eq. eauto.
      * rewrite lookup_insert_ne by done. eauto.
  - intros u. destruct (decide (url = u)) as [->|Hne].
    + right. exists idx, (MkCacheEntry at_ ok). rewrite lookup_insert_eq. split; [done|].
      eapply list_elem_of_lookup_2, list_lookup_insert_eq, lookup_lt_Some, H.
    + rewrite lookup_insert_ne by done.
      destruct (Hc u) as [Hu|(idx' & e & Hu & Hin)]; [by left|].
      right. exists idx', e. split; [done|]. by eapply answered_stays.
  - intros idx' url' ok Hin. apply answered_was in Hin as [?|Hin]; [done|]. eauto.
  - intros u. destruct (Hc u) as [Hu|(idx' & e & Hu & Hin)]; [by left|].
    right. exists idx', e. split; [done|]. by eapply answered_stays.
Qed.

Lemma probed_reach p : rtc pstep (spawned now c0 entries) p -> probed p.
Proof.
  intros Hr. eapply (rtc_ind_r (R := pstep) probed); [apply probed_spawned| |exact Hr].
  intros y z _ Hyz Hy. by eapply probed_step.
Qed.

(** *** What the snapshot answers *)

Lemma believed_lookup i e :
  entries !! i = Some e ->
  believed now c0 entries !! i = Some (default false (cache_hit (now i) c0 (ce_health_url e))).
Proof.
  intros Hi. unfold believed. by rewrite list_lookup_imap, Hi.
Qed.

Lemma probed_task p i url st :
  probed p -> (i, url, st) ∈ tasks p ->
  exists e, entries !! i = Some e /\ url = ce_health_url e /\ cache_hit (now i) c0 url = None.
Proof.
  intros Hp Hin.
  assert ((i, url) ∈ stale_from 0 now c0 entries) as Hs.
  { rewrite <- (probed_tasks p Hp). apply list_elem_of_In, in_map_iff.
    exists (i, url, st). split; [done|by apply list_elem_of_In]. }
  apply stale_from_spec in Hs as (e & _ & He & Hu & Hc). rewrite Nat.sub_0_r in He. eauto.
Qed.

Lemma joined_hit p i e b :
  probed p -> entries !! i = Some e -> cache_hit (now i) c0 (ce_health_url e) = Some b ->
  joined (believed now c0 entries) p !! i = Some b.
Proof.
  intros Hp Hi Hb. unfold joined. rewrite join_unanswered.
  - by rewrite (believed_lookup _ _ Hi), Hb.
  - intros url ok Hin. apply (probed_task p) in Hin as (e' & He' & -> & Hc); [|done].
    rewrite Hi in He'. injection He' as ->. by rewrite Hb in Hc.
Qed.

Lemma nodup_map_inj {A B} (f : A -> B) (l : list A) x y :
  NoDup (map f l) -> x ∈ l -> y ∈ l -> f x = f y -> x = y.
Proof.
  intros Hnd [i Hi]%list_elem_of_lookup [j Hj]%list_elem_of_lookup Hf.
  change (NoDup (f <$> l)) in Hnd.
  assert (i = j) as ->; [|by rewrite Hi in Hj; injection Hj].
  eapply NoDup_lookup; [exact Hnd| |]; rewrite list_lookup_fmap; [by rewrite Hi|].
  rewrite Hj. cbn. by rewrite Hf.
Qed.

(** The verdict of a task. *)
Definition verdict (t : task) : bool := match t with Answered ok => ok | _ => false end.

Lemma joined_stale p i e :
  probed p -> entries !! i = Some e -> cache_hit (now i) c0 (ce_health_url e) = None ->
  exists st, (i, ce_health_url e, st) ∈ tasks p /\
    joined (believed now c0 entries) p !! i = Some (verdict st).
Proof.
  intros Hp Hi Hb.
  assert ((i, ce_health_url e) ∈ stale_from 0 now c0 entries) as Hs.
  { apply stale_from_spec. exists e. rewrite Nat.sub_0_r. split; [lia|done]. }
  rewrite <- (probed_tasks p Hp), list_elem_of_In, in_map_iff in Hs.
  destruct Hs as ([[? ?] st] & [= -> ->] & Hin). apply list_elem_of_In in Hin.
  assert (NoDup (map (fun t => fst (fst t)) (tasks p))) as Hnd.
  { rewrite <- (map_map fst fst), (probed_tasks p Hp). apply stale_from_nodup. }
  assert (i < length (believed now c0 entries)) as Hlt.
  { eapply lookup_lt_Some, believed_lookup, Hi. }
  exists st. split; [done|]. unfold joined.
  assert (forall url ok, (i, url, Answered ok) ∈ tasks p -> st = Answered ok) as Hone.
  { intros url ok Hin'. pose proof (nodup_map_inj _ _ _ _ Hnd Hin Hin' eq_refl) as Heq.
    by injection Heq. }
  destruct st; [|  |by eapply join_answered|];
    (rewrite join_unanswered, (believed_lookup _ _ Hi), Hb;
     [done|intros url ok Hin'; by apply Hone in Hin']).
Qed.

(** Every request is one of at most two steps of one stale entry. *)
Lemma work_spawned : work (spawned now c0 entries) <= 2 * length entries.
Proof.
  unfold work, spawned. cbn [tasks].
  assert (forall n l, length (stale_from n now c0 l) <= length l) as Hlen.
  { intros n l. revert n. induction l as [|e l IH]; intros n; cbn [stale_from length]; [lia|].
    specialize (IH (S n)). destruct (cache_hit _ _ _); cbn [length]; lia. }
  specialize (Hlen 0 entries). revert Hlen. generalize (stale_from 0 now c0 entries) as l.
  intros l Hlen. assert (sum_list_with weight (map (fun x => (x, Queued)) l) = 2 * length l) as ->;
    [|lia]. clear. induction l as [|x l IH]; cbn in *; lia.
Qed.

Lemma work_reach k p p' : nsteps pstep k p p' -> work p = k + work p'.
Proof. induction 1 as [p|k p q r Hs _ IH]; [done|]. apply work_step in Hs. lia. Qed.
End Run.

(** ** The property *)

(** C21: however the probe tasks of a snapshot are scheduled, and whichever of them are
    slow, lost or unanswered: never more than eight requests are on the wire; no task
    starves for a permit, so the snapshot always ends, within two steps per entry; and the
    booleans it returns line up with the catalog: a believed answer is kept, a stale
    entry gets the verdict of its own probe, and grey when that was lost.  The cache
    changes only for probed URLs, to an answer of a probe of that URL. *)
Theorem probes_line_up (now : nat -> Z) (c : gmap string CacheEntry) (entries : list CatalogEntry)
    (p : prober) (H : rtc pstep (spawned now c entries) p) :
  let healthy_ := joined (believed now c entries) p in
  in_flight p <= MAX_CONCURRENT_PROBES /\
  (all_finished p = false -> exists p', pstep p p') /\
  (forall k p', nsteps pstep k (spawned now c entries) p' -> k <= 2 * length entries) /\
  length healthy_ = length entries /\
  (forall i e, entries !! i = Some e ->
     match cache_hit (now i) c (ce_health_url e) with
     | Some b => healthy_ !! i = Some b
     | None => exists st, (i, ce_health_url e, st) ∈ tasks p /\ healthy_ !! i = Some (verdict st)
     end) /\
  (forall url, cache p !! url = c !! url \/
     exists i e, cache p !! url = Some e /\ (i, url, Answered (healthy e)) ∈ tasks p).
Proof.
  intros h. pose proof (probed_reach _ _ _ _ H) as Hp.
  split; [pose proof (probed_permits _ _ _ _ Hp); unfold permits_kept in *; lia|].
  split; [by apply pstep_progress, (probed_permits _ _ _ _ Hp)|].
  split; [intros k p' Hk; apply work_reach in Hk; pose proof (work_spawned now c entries); lia|].
  split; [unfold h, joined; rewrite join_length; apply length_imap|].
  split; [|apply (probed_cache _ _ _ _ Hp)].
  intros i e Hi. destruct (cache_hit _ _ _) as [b|] eqn:Hc.
  - by eapply joined_hit.
  - by apply joined_stale.
Qed.

Definition demo_entries : list CatalogEntry :=
  [MkCatalogEntry "Photos" "" "/photos" "photos" 2283 true "http://127.0.0.1:2283/";
   MkCatalogEntry "Notes" "" "/notes" "notes" 8080 true "http://127.0.0.1:8080/"].

(** The first answer is still believed, the second service is probed and answers. *)
Definition demo_cache : gmap string CacheEntry :=
  {["http://127.0.0.1:2283/"%string := MkCacheEntry 0 true]}.
Definition demo_end : prober :=
  MkProber [((1, "http://127.0.0.1:8080/"%string), Answered true)] 8
    (<["http://127.0.0.1:8080/"%string := MkCacheEntry 11 true]> demo_cache).

Lemma probes_line_up_witness :
  rtc pstep (spawned (fun _ => 10%Z) demo_cache demo_entries) demo_end /\
  joined (believed (fun _ => 10%Z) demo_cache demo_entries) demo_end !! 0 = Some true /\
  joined (believed (fun _ => 10%Z) demo_cache demo_entries) demo_end = [true; true].
Proof.
  assert (rtc pstep (spawned (fun _ => 10%Z) demo_cache demo_entries) demo_end) as H.
  { assert (spawned (fun _ => 10%Z) demo_cache demo_entries
            = MkProber [((1, "http://127.0.0.1:8080/"%string), Queued)] 8 demo_cache) as ->
      by (vm_compute; reflexivity).
    eapply rtc_l; [by apply (p_acquire 0)|].
    eapply rtc_l; [by apply (p_answer 0 1 "http://127.0.0.1:8080/" _ _ _ 11 true)|]. apply rtc_refl. }
  split; [exact H|]. split; [|vm_compute; reflexivity].
  pose proof (probes_line_up (fun _ => 10%Z) demo_cache demo_entries demo_end H) as (_ & _ & _ & _ & Hl & _).
  exact (Hl 0 _ eq_refl).
Defined.
