(* ===== verification/UiPages.v ===== *)
(** The pages the programs render with the design system: the control plane's
    (controlplane/web.rs), the box's dashboard (client/src/dashboard/components.rs),
    and the page a response carries as markup. *)

From stdpp Require Import base gmap strings list sorting.
From Stdlib Require Import ZArith Ascii.
From S2P Require Import Prelude Invite Web Site DashDb WebUi.
Import Ui.

Local Open Scope string_scope.

(** ** The control plane *)

Module WebPages.
Definition page_shell (title : string) (main : View) : View :=
  shell title App (el "main" (cls "mx-auto flex max-w-md flex-col gap-4 p-6") [main]).

Definition error_banner (message : string) : View :=
  el "div" [("role", "alert"); ("class", "alert-zine")] [txt message].

Definition banner (error : option string) : View :=
  match error with Some message => error_banner message | None => none end.

Definition h1 (text : string) : View := el "h1" (cls "text-2xl font-black uppercase") [txt text].

Definition column_form (action : string) (l : list View) : View :=
  el "form" [("method", "post"); ("action", action); ("class", "flex flex-col gap-4")] l.

Definition link_zine (href text : string) : View :=
  el "a" [("href", href); ("class", "link-zine")] [txt text].

Definition hidden (name value : string) : View :=
  el "input" [("type", "hidden"); ("name", name); ("value", value)] [].

Definition SignupPage (email : string) (error : option string) : View :=
  let resend_link :=
    match error with
    | Some _ => el "p" (cls "text-sm dim")
                  [link_zine "/auth/resend-verify" "Need the confirmation link resent?"]
    | None => none
    end in
  page_shell "Create an account"
    (card "" (frag
       [h1 "Create an account"; banner error; resend_link;
        column_form "/auth/signup"
          [field "Email" "email" FkEmail (Some email) None;
           field "Password" "password" FkPassword None None;
           zine_submit "Sign up" ""];
        el "p" (cls "text-sm dim") [txt "Already have an account? "; link_zine "/login" "Log in"]])).

Definition LoginPage (email : string) (error : option string) : View :=
  page_shell "Log in"
    (card "" (frag
       [h1 "Log in"; banner error;
        column_form "/auth/login"
          [field "Email" "email" FkEmail (Some email) None;
           field "Password" "password" FkPassword None None;
           zine_submit "Log in" ""];
        el "p" (cls "text-sm dim") [link_zine "/forgot" "Forgot your password?"];
        el "p" (cls "text-sm dim")
          [link_zine "/auth/resend-verify" "Need the confirmation link resent?"]])).

Definition MessagePage (kind : MsgKind) (title message : string) : View :=
  let icon := match kind with MsgOk => "✓" | MsgErr => "✗" end in
  page_shell title
    (card "" (frag
       [h1 title;
        el "div" [("role", "alert"); ("class", "alert-zine")]
          [el "span" [] [txt icon; txt message]];
        zine_button "/" "Go home" ""])).

Definition ForgotPage (outcome : ForgotOutcome) : View :=
  match outcome with
  | ForgotSent =>
      page_shell "Check your email"
        (card "" (frag
           [h1 "Check your email";
            el "p" (cls "dim") [txt "A reset link is on its way. It expires in 24 hours."];
            zine_button "/login" "Back to login" "btn-zine-red"]))
  | ForgotUnknownEmail =>
      page_shell "No account with that email"
        (card "" (frag
           [h1 "No account with that email";
            el "p" (cls "dim") [txt "There is no account registered with that address yet."];
            zine_button "/register" "Sign up" "btn-zine-red";
            link_zine "/forgot" "Try a different email"]))
  | ForgotPrompt =>
      page_shell "Reset your password"
        (card "" (frag
           [h1 "Reset your password";
            column_form "/auth/forgot"
              [field "Email" "email" FkEmail None None; zine_submit "Send reset link" ""]]))
  end.

Definition VerifyNoticePage (email : string) : View :=
  page_shell "Verify your email"
    (card "" (frag
       [h1 "Verify your email";
        el "p" (cls "dim")
          [txt "The account for "; el "span" (cls "font-mono") [txt email];
           txt " isn't verified yet. We'll email a fresh confirmation link — it expires in 24 hours."];
        column_form "/auth/resend-verify"
          [hidden "email" email; zine_submit "Resend confirmation link" ""];
        el "p" (cls "text-sm dim")
          [txt "Used a different email? "; link_zine "/login" "Log in with another address"]])).

Definition ResendPage (email : string) : View :=
  page_shell "Resend confirmation link"
    (card "" (frag
       [h1 "Resend confirmation link";
        el "p" (cls "dim") [txt "Enter the email you signed up with and we'll send a fresh link."];
        column_form "/auth/resend-verify"
          [field "Email" "email" FkEmail (Some email) None; zine_submit "Send new link" ""]])).

Definition ResetPage (token : string) (error : option string) : View :=
  page_shell "Choose a new password"
    (card "" (frag
       [h1 "Choose a new password"; banner error;
        column_form "/auth/reset"
          [hidden "token" token; field "New password" "password" FkPassword None None;
           zine_submit "Set password" ""]])).

Definition VerifyPage (token : string) : View :=
  page_shell "Confirm your email"
    (card "" (frag
       [h1 "Confirm your email";
        column_form "/auth/verify" [hidden "token" token; zine_submit "Confirm email" ""]])).

Definition JoinPage (code : string) : View :=
  page_shell "Join a machine"
    (card "" (frag
       [h1 "Join a machine";
        el "p" (cls "text-sm dim")
          [txt "This link enrolls a machine into its owner's fortress. On the box, open its ";
           el "code" [] [txt "dashboard"];
           txt " and paste the link into Remote access — then approve and name the machine from your machines page."];
        el "p" (cls "text-xs faint") [txt "Invite code: "; el "code" [] [txt code]];
        el "p" (cls "text-sm") [link_zine "/" "Back to the front page"]])).
End WebPages.

(** What a handler answers, as markup; the install script is not a page. *)
Definition web_page (p : Page) : option View :=
  match p with
  | Landing logged_in email => Some (landing_page logged_in email)
  | SignupPage email error => Some (WebPages.SignupPage email error)
  | LoginPage email error => Some (WebPages.LoginPage email error)
  | MessagePage kind title message => Some (WebPages.MessagePage kind title message)
  | ForgotPage outcome => Some (WebPages.ForgotPage outcome)
  | VerifyNoticePage email => Some (WebPages.VerifyNoticePage email)
  | ResendPage email => Some (WebPages.ResendPage email)
  | ResetPage token error => Some (WebPages.ResetPage token error)
  | VerifyPage token => Some (WebPages.VerifyPage token)
  | MachinesPage props => Some (machines_body props)
  | JoinPage code => Some (WebPages.JoinPage code)
  | InstallScript => None
  end.

(** ** The box's dashboard *)

Module DashPages.
Definition login_page (error : bool) : View :=
  let banner :=
    if error
    then el "div" [("role", "alert"); ("class", "alert-zine")] [txt "Incorrect password."]
    else none in
  shell "Sign in" App
    (el "main" (cls "min-h-screen flex items-center justify-center p-4")
       [card "w-full max-w-sm" (frag
          [el "h1" (cls "text-2xl font-black uppercase") [txt "Fortress"];
           el "p" (cls "text-sm dim") [txt "Sign in to the admin dashboard"];
           el "form" [("method", "post"); ("action", "/auth/login");
                      ("class", "flex flex-col gap-4")]
             [el "input" [("id", "password"); ("type", "password"); ("name", "password");
                          ("required", ""); ("placeholder", "Password"); ("class", "zine-input")] [];
              zine_submit "Sign in" ""];
           banner])]).

Definition landing_card (service : LandingServiceProps) : View :=
  el "a" [("href", ls_path service); ("class", "block border-2 border-ink px-4 py-3")]
    [el "span" (cls "flex items-center justify-between gap-3")
       [el "span" (cls "font-black") [txt (ls_name service)];
        stamp_small (if ls_healthy service then "up" else "down")];
     el "span" (cls "text-sm dim") [txt (ls_description service)]].

Definition landing_page (services : list LandingServiceProps) : View :=
  let empty :=
    match services with
    | [] => el "p" (cls "text-sm dim")
              [txt "No services are configured yet. Enable one in the admin panel."]
    | _ => none
    end in
  shell "Services" App
    (el "main" (cls "mx-auto flex max-w-3xl flex-col gap-6 p-6")
       [el "header" (cls "flex items-center justify-between gap-4")
          [el "div" []
             [el "h1" (cls "text-2xl font-black uppercase") [txt "Services"];
              el "p" (cls "text-sm dim") [txt "Everything this box is running."]];
           zine_button "/admin" "Admin" ""];
        el "section" (cls "flex flex-col gap-3") (map landing_card services ++ [empty])]).

Definition claim_form : View :=
  el "form" [("method", "post"); ("action", "/claim"); ("class", "flex flex-col gap-2")]
    [el "label" (cls "block")
       [el "div" (cls "tag dim mb-1") [txt "Invite link"];
        el "input" [("type", "text"); ("name", "invite_url"); ("required", "");
                    ("placeholder", "https://proletariat.tech/i/..."); ("class", "zine-input")] []];
     zine_submit "Claim this machine" ""].

Definition remote_access_card (view : ClaimView) : View :=
  let '(stamp, body) :=
    match view with
    | ViewClaimed hostname =>
        (stamp_small "claimed",
         frag [el "p" (cls "text-sm dim") [txt "Remote access is on. Sign in at your domain:"];
               el "p" [] [el "code" (cls "font-black") [txt ("https://" ++ hostname)]]])
    | ViewAwaiting =>
        (stamp_small "waiting",
         el "p" (cls "text-sm dim")
           [txt "Waiting for the owner's approval on the machines page — then this box restarts into remote access."])
    | ViewFailed message =>
        (stamp_small "failed",
         frag [el "div" [("role", "alert"); ("class", "alert-zine")] [txt message]; claim_form])
    | ViewUnclaimed =>
        (stamp_small "not claimed",
         frag [el "p" (cls "text-sm dim")
                 [txt "Generate an invite link on your machines page and paste it here to give this box remote access."];
               claim_form])
    end in
  card "" (frag
    [el "div" (cls "flex items-center gap-2")
       [el "h2" (cls "font-black uppercase") [txt "Remote access"]; stamp];
     body]).

Definition checked_attr (enabled : bool) : list (string * string) :=
  if enabled then [("checked", "true")] else [].

Definition app_nav : View :=
  el "nav" (cls "sticky top-0 z-40 flex items-center bg-paper border-b-2 border-ink px-6")
    [el "div" (cls "flex-1 flex items-center gap-2")
       [el "span" (cls "text-lg font-black uppercase tracking-tight") [txt "Fortress"]];
     el "div" (cls "flex-none flex items-center gap-4")
       [zine_button "/auth/logout" "Sign out" "btn-zine-sm"]].

Definition service_row (service : EditorServiceProps) : View :=
  el "label" (cls "flex items-center justify-between gap-4 border-2 border-ink px-4 py-3")
    [el "span" (cls "flex flex-col")
       [el "span" (cls "font-black") [txt (es_display_name service)];
        el "span" (cls "text-sm dim") [txt (es_description service)]];
     el "input" ([("type", "checkbox"); ("name", "svc_" ++ es_nixname service); ("value", "true")]
                 ++ checked_attr (es_enabled service) ++ [("class", "zine-toggle")]) []].

(** A [BTreeSet] in its order. *)
Definition string_le (a b : string) : Prop := Is_true (String.leb a b).
Definition sorted_groups (g : gset string) : list string := merge_sort string_le (elements g).

Definition user_row (user : EditorUserProps) : View :=
  el "div" (cls "flex items-center justify-between gap-4 border-2 border-ink px-4 py-3")
    [el "span" (cls "flex items-center gap-2")
       [el "span" (cls "font-black") [txt (eu_username user)];
        if eu_is_admin user then stamp_small "admin" else none;
        if eu_has_password user then stamp_small "password set" else none];
     el "span" (cls "flex flex-col items-end gap-1")
       [el "input" [("type", "text"); ("name", "groups_" ++ eu_username user);
                    ("value", String.concat ", " (sorted_groups (eu_groups user)));
                    ("class", "zine-input w-64")] []]].

Definition text_field (text name value : string) : View :=
  el "label" (cls "block")
    [el "div" (cls "tag dim mb-1") [txt text];
     el "input" [("type", "text"); ("name", name); ("value", value); ("class", "zine-input")] []].

Definition section_card (title : string) (l : list View) : View :=
  card "" (frag (el "h2" (cls "font-black uppercase") [txt title] :: l)).

Definition editor_form (props : EditorPageProps) : View :=
  el "form" [("method", "post"); ("action", "/"); ("class", "flex flex-col gap-6")]
    [section_card "System"
       [text_field "Hostname" "hostname" (ep_hostname props);
        text_field "Base domain" "base_domain" (ep_base_domain props)];
     section_card "Services" (map service_row (ep_services props));
     section_card "Users" (map user_row (ep_users props));
     zine_submit "Save" ""].

Definition editor_page (props : EditorPageProps) : View :=
  let alert prefix (message : option string) :=
    match message with
    | Some message => el "div" [("role", "alert"); ("class", "alert-zine")] [txt prefix; txt message]
    | None => none
    end in
  let saved_banner :=
    if ep_saved props
    then el "div" [("role", "alert"); ("class", "alert-zine-ok")] [txt "Saved."]
    else none in
  shell_with_head "Fortress" App htmx_script (frag
    [app_nav;
     el "main" (cls "mx-auto flex max-w-2xl flex-col gap-4 p-6")
       [alert "Could not load the config file: " (ep_config_error props);
        saved_banner;
        alert "Not saved: " (ep_save_error props);
        remote_access_card (ep_remote props);
        editor_form props]]).
End DashPages.

Definition dash_page (p : DashPage) : View :=
  match p with
  | DashLanding services => DashPages.landing_page services
  | DashLogin error => DashPages.login_page error
  | DashEditor props => DashPages.editor_page props
  end.
