(* ===== verification/NixConfig.v ===== *)
(** The editor of the box's Nix file (client/src/dashboard/nix_config_parser.rs):
    finding a value by attribute path in the syntax tree, and replacing or adding
    one value by splicing bytes into the text.

    The parser crate (rnix) is a parameter: a function from the text to the tree
    with byte ranges.  The tree has a constructor for each kind of node the code
    distinguishes; every other expression is [EOther]. *)

From stdpp Require Import base gmap strings list sorting.
From Stdlib Require Import ZArith Lia Ascii.
From S2P Require Import Prelude.

(** ** The syntax tree *)

(** [TextRange]: byte offsets. *)
Record Span := MkSpan { sp_start : nat; sp_end : nat }.

#[export] Instance Span_eq_dec : EqDecision Span.
Proof. solve_decision. Defined.

(** [InterpolPart], of [Str::normalized_parts]. *)
Inductive InterpolPart := Literal (s : string) | Interpolation.

Inductive Attr :=
| AttrIdent (text : string)
| AttrStr (parts : list InterpolPart)
| AttrDynamic.

Inductive Entry (E : Type) :=
| AttrpathValue (sp : Span) (attrpath : option (list Attr)) (value : option E)
| Inherit (sp : Span).
Arguments AttrpathValue {E} sp attrpath value.
Arguments Inherit {E} sp.

Inductive Expr :=
| EAttrSet (sp : Span) (entries : list (Entry Expr))
| ELambda (sp : Span) (body : option Expr)
| ELetIn (sp : Span) (body : option Expr)
| EParen (sp : Span) (inner : option Expr)
| EIdent (sp : Span) (text : string)
| EStr (sp : Span) (parts : list InterpolPart)
| EList (sp : Span) (items : list Expr)
| EOther (sp : Span).

Definition text_range (e : Expr) : Span :=
  match e with
  | EAttrSet sp _ | ELambda sp _ | ELetIn sp _ | EParen sp _
  | EIdent sp _ | EStr sp _ | EList sp _ | EOther sp => sp
  end.

Definition entry_range (e : Entry Expr) : Span :=
  match e with AttrpathValue sp _ _ | Inherit sp => sp end.

(** An attribute set, and its entries. *)
Record AttrSet := MkAttrSet { set_range : Span; set_entries : list (Entry Expr) }.

(** [rnix::Root::parse]: the first error's message, or the root's expression. *)
Class Rnix := { rnix_parse : string -> Result (option Expr) string }.

(** ** Values *)

Definition NixParseError : Type := string.
Definition nix_parse_error_display (e : NixParseError) : string := "nix parse error: " ++ e.

Inductive SetError := SetNotFound (path : string) | SetInvalidValue (value : string).

#[export] Instance SetError_eq_dec : EqDecision SetError.
Proof. solve_decision. Defined.

Definition set_error_display (e : SetError) : string :=
  match e with
  | SetNotFound path => "attrpath not found: " ++ path
  | SetInvalidValue value => "replacement would not parse: " ++ value
  end.

Inductive NixValue :=
| NixBool (b : bool)
| NixStr (s : string)
| NixStrList (items : list string)
| NixOther (raw : string).

#[export] Instance NixValue_eq_dec : EqDecision NixValue.
Proof. solve_decision. Defined.

Definition backslash : ascii := "\".

Definition quote_char (c : ascii) : string :=
  if Ascii.eqb c dquote then String backslash (String dquote "")
  else if Ascii.eqb c backslash then String backslash (String backslash "")
  else if Ascii.eqb c nl then String backslash "n"
  else if Ascii.eqb c tab then String backslash "t"
  else if Ascii.eqb c cr then String backslash "r"
  else String c "".

Fixpoint quote_chars (s : string) : string :=
  match s with
  | EmptyString => ""
  | String c s' => quote_char c ++ quote_chars s'
  end.

Definition quote_nix_string (s : string) : string :=
  String dquote (quote_chars s ++ String dquote "").

(** [NixValue::to_source]. *)
Definition to_source (v : NixValue) : string :=
  match v with
  | NixBool true => "true"
  | NixBool false => "false"
  | NixStr s => quote_nix_string s
  | NixStrList items => "[ " ++ join " " (map quote_nix_string items) ++ " ]"
  | NixOther raw => raw
  end.

Definition is_interpolation (p : InterpolPart) : bool :=
  match p with Interpolation => true | Literal _ => false end.
Definition part_text (p : InterpolPart) : string :=
  match p with Literal s => s | Interpolation => "" end.

Definition literal_string (parts : list InterpolPart) : option string :=
  if existsb is_interpolation parts then None else Some (String.concat "" (map part_text parts)).

Definition attr_name (a : Attr) : option string :=
  match a with
  | AttrIdent text => Some text
  | AttrStr parts => literal_string parts
  | AttrDynamic => None
  end.

(** The names of an attribute path: what has no name is left out. *)
Definition attr_names (l : list Attr) : list string := omap attr_name l.

(** [interpret]. *)
Definition interpret (node : Expr) (raw : string) : NixValue :=
  match node with
  | EIdent _ text =>
      if bool_decide (text = "true"%string) then NixBool true
      else if bool_decide (text = "false"%string) then NixBool false
      else NixOther raw
  | EStr _ parts =>
      match literal_string parts with Some s => NixStr s | None => NixOther raw end
  | EList _ items =>
      match mapM (fun item => match item with
                              | EStr _ parts => literal_string parts
                              | _ => None
                              end) items with
      | Some l => NixStrList l
      | None => NixOther raw
      end
  | _ => NixOther raw
  end.

(** ** Finding a value *)

Fixpoint root_expr_to_attrset (e : Expr) : option AttrSet :=
  match e with
  | EAttrSet sp entries => Some (MkAttrSet sp entries)
  | ELambda _ (Some b) | ELetIn _ (Some b) | EParen _ (Some b) => root_expr_to_attrset b
  | _ => None
  end.

(** Do the names agree with the path as far as both go? *)
Fixpoint zip_eq (names path : list string) : bool :=
  match names, path with
  | n :: names', p :: path' => bool_decide (n = p) && zip_eq names' path'
  | _, _ => true
  end.

(** A set's entries, searched; the recursion into a value's own set. *)
Fixpoint find_in_value (e : Expr) (path : list string) : option Expr :=
  match e with
  | EAttrSet _ entries =>
      (fix go (entries : list (Entry Expr)) : option Expr :=
         match entries with
         | [] => None
         | Inherit _ :: rest => go rest
         | AttrpathValue _ None _ :: _ => None
         | AttrpathValue _ (Some attrs) value :: rest =>
             let names := attr_names attrs in
             if Nat.eqb (length names) 0 || Nat.ltb (length path) (length names)
                || negb (zip_eq names path)
             then go rest
             else
               match value with
               | None => None
               | Some v =>
                   if Nat.eqb (length names) (length path) then Some v
                   else match find_in_value v (drop (length names) path) with
                        | Some found => Some found
                        | None => go rest
                        end
               end
         end) entries
  | _ => None
  end.

Definition find_in_attrset (s : AttrSet) (path : list string) : option Expr :=
  find_in_value (EAttrSet (set_range s) (set_entries s)) path.

Definition find_value_node (root : option Expr) (path : list string) : option Expr :=
  e ← root; s ← root_expr_to_attrset e; find_in_attrset s path.

(** ** Where a missing value goes *)

Record InsertPoint := MkInsertPoint { ip_attrset : AttrSet; ip_remaining : list string }.

Fixpoint is_strict_prefix (short long : list string) : bool :=
  match short, long with
  | [], _ :: _ => true
  | a :: short', b :: long' => bool_decide (a = b) && is_strict_prefix short' long'
  | _, _ => false
  end.

Fixpoint descend_value (e : Expr) (path : list string) : option InsertPoint :=
  match e with
  | EAttrSet sp all =>
      (fix go (entries : list (Entry Expr)) : option InsertPoint :=
         match entries with
         | [] => Some (MkInsertPoint (MkAttrSet sp all) path)
         | Inherit _ :: rest => go rest
         | AttrpathValue _ None _ :: rest => go rest
         | AttrpathValue _ (Some attrs) value :: rest =>
             let names := attr_names attrs in
             if Nat.eqb (length names) 0 || Nat.ltb (length path) (length names)
             then if negb (Nat.eqb (length names) 0) && is_strict_prefix path names
                  then None else go rest
             else if negb (zip_eq names path) then go rest
             else
               match value with
               | None => go rest
               | Some v =>
                   if Nat.eqb (length names) (length path) then None
                   else match v with
                        | EAttrSet _ _ => descend_value v (drop (length names) path)
                        | _ => None
                        end
               end
         end) all
  | _ => None
  end.

Definition descend (s : AttrSet) (path : list string) : option InsertPoint :=
  descend_value (EAttrSet (set_range s) (set_entries s)) path.

Definition insert_point (root : option Expr) (path : list string) : option InsertPoint :=
  e ← root; s ← root_expr_to_attrset e; descend s path.

(** ** Splicing *)

(** [&s[a..b]], [&s[..a]], [&s[a..]], for ranges of the tree of [s], which are in
    bounds. *)
Definition slice (a b : nat) (s : string) : string := String.substring a (b - a) s.
Definition until (a : nat) (s : string) : string := String.substring 0 a s.
Definition from (a : nat) (s : string) : string := String.substring a (String.length s - a) s.

Definition splice_span (source : string) (node : Expr) (replacement : string) : string :=
  let sp := text_range node in
  (until (sp_start sp) source ++ replacement ++ from (sp_end sp) source)%string.

Fixpoint spaces (n : nat) : string :=
  match n with O => "" | S n' => String " " (spaces n') end.

Definition trim_start (s : string) : string := trim_start_matches is_whitespace s.

Definition entry_indent (source : string) (open insert_at : nat) : string :=
  let body := slice open insert_at source in
  match rsplit_once nl body with
  | Some (_, line) =>
      let trimmed := trim_start line in
      if negb (is_empty trimmed) then spaces (String.length line - String.length trimmed)
      else "  "
  | None => "  "
  end.

(** The end of the last entry, or the place after the opening brace. *)
Definition insert_offset (s : AttrSet) : nat :=
  match last (set_entries s) with
  | Some e => sp_end (entry_range e)
  | None => S (sp_start (set_range s))
  end.

(** [None] is the panic of an assertion. *)
Definition splice_entry (source : string) (point : InsertPoint) (replacement : string)
    : option string :=
  match ip_remaining point with
  | [] => None
  | remaining =>
      let sp := set_range (ip_attrset point) in
      let text := slice (sp_start sp) (sp_end sp) source in
      if negb (starts_with "{" text && ends_with "}" text) then None
      else
        let insert_at := insert_offset (ip_attrset point) in
        let indent := entry_indent source (sp_start sp) insert_at in
        let addition := (String nl (indent ++ join "." remaining ++ " = " ++ replacement ++ ";"))%string in
        Some (until insert_at source ++ addition ++ from insert_at source)%string
  end.

(** ** The file *)

Record NixConfigFile := MkNixFile { source : string }.

Record LocatedValue := MkLocated {
  located_value : NixValue;
  located_span : Span;
  located_raw : string;
}.

Section File.
Context `{RX : Rnix}.

Definition validate (source : string) : Result unit NixParseError :=
  match rnix_parse source with Ok _ => Ok tt | Err message => Err message end.

Definition parse_root (source : string) : option (option Expr) :=
  match rnix_parse source with Ok root => Some root | Err _ => None end.

Definition nix_parse (source : string) : Result NixConfigFile NixParseError :=
  match validate source with Err e => Err e | Ok _ => Ok (MkNixFile source) end.

Definition find_attrpath (f : NixConfigFile) (path : list string) : option LocatedValue :=
  match path with
  | [] => None
  | _ =>
      root ← parse_root (source f);
      node ← find_value_node root path;
      let span := text_range node in
      let raw := slice (sp_start span) (sp_end span) (source f) in
      Some (MkLocated (interpret node raw) span raw)
  end.

(** [set_attrpath]: the new file on success; [None] is a panic.  The file is
    [&mut self], so the answer carries it in every case. *)
Definition set_attrpath (path : list string) (replacement : string) (f : NixConfigFile)
    : option (Result unit SetError * NixConfigFile) :=
  match path with
  | [] => None
  | _ =>
      match parse_root (source f) with
      | None => Some (Err (SetInvalidValue "source file does not parse"), f)
      | Some root =>
          let finish (candidate : string) :=
            match validate candidate with
            | Err _ =>
                Some (Err (SetInvalidValue (replacement ++ " at path " ++ join "." path)), f)
            | Ok _ => Some (Ok tt, MkNixFile candidate)
            end in
          match find_value_node root path with
          | Some node => finish (splice_span (source f) node replacement)
          | None =>
              match insert_point root path with
              | None => Some (Err (SetNotFound (join "." path)), f)
              | Some point =>
                  candidate ← splice_entry (source f) point replacement;
                  finish candidate
              end
          end
      end
  end.
End File.

(** ** The keys under a path *)

(** Whether something was found, and the keys in the order they were pushed. *)
Fixpoint collect_child_keys (e : Expr) (path : list string) : bool * list string :=
  match e with
  | EAttrSet _ entries =>
      (fix go (entries : list (Entry Expr)) : bool * list string :=
         match entries with
         | [] => (false, [])
         | AttrpathValue _ (Some attrs) (Some v) :: rest =>
             let names := attr_names attrs in
             if Nat.eqb (length names) 0 || negb (zip_eq names path) then go rest
             else
               let '(found, keys) :=
                 if Nat.ltb (length path) (length names) then
                   (true, match names !! length path with Some child => [child] | None => [] end)
                 else collect_child_keys v (drop (length names) path) in
               let '(found', keys') := go rest in
               (found || found', keys ++ keys')
         | _ :: rest => go rest
         end) entries
  | _ => (false, [])
  end.

(** [Vec::sort] and [dedup] on strings, byte by byte. *)
Definition str_le (a b : string) : Prop := String.leb a b = true.
#[export] Instance str_le_dec : RelDecision str_le.
Proof. intros a b. unfold str_le. solve_decision. Defined.

Fixpoint dedup (l : list string) : list string :=
  match l with
  | a :: (b :: _) as l' => if bool_decide (a = b) then dedup l' else a :: dedup l'
  | _ => l
  end.

Definition attrset_keys `{RX : Rnix} (f : NixConfigFile) (path : list string)
    : option (list string) :=
  root ← parse_root (source f);
  e ← root;
  s ← root_expr_to_attrset e;
  let '(found, keys) := collect_child_keys (EAttrSet (set_range s) (set_entries s)) path in
  if found : bool then Some (dedup (merge_sort str_le keys)) else None.

(** ** What the dashboard shows *)

Record ConfigSchema := MkSchema {
  schema_hostname : list string;
  schema_root_domain : list string;
  services_root : list string;
  users_root : list string;
}.

Definition ConfigSchema_default : ConfigSchema := {|
  schema_hostname := ["networking"; "hostName"];
  schema_root_domain := ["fortress"; "baseDomain"];
  services_root := ["fortress"; "services"];
  users_root := ["users"; "users"];
|}%string.

Record ServiceInfo := MkService { nixname : string; display_name : string; description : string }.

Definition SERVICE_LIST : list ServiceInfo := [
  MkService "jellyfin" "Jellyfin" "Netflix, but for your own movies";
  MkService "cryptpad" "Cryptpad" "Google docs, but fully self-encrypted";
  MkService "forgejo" "Forgejo" "Your own git forge, with single sign-on";
  MkService "media" "Media Automation" "One switch: search, request, download movies and TV"
].

Record CocoUser := MkCocoUser {
  username : string;
  hashed_password : option string;
  groups : gset string;
  groups_declared : bool;
}.

Definition is_admin (u : CocoUser) : bool := bool_decide ("wheel"%string ∈ groups u).

(** The [BTreeMap] of users is kept as its entries in key order. *)
Record FortressConfig := MkFortress {
  fc_hostname : option string;
  fc_root_domain : option string;
  services_enabled : gmap string bool;
  users : list (string * CocoUser);
}.

Definition FortressConfig_default : FortressConfig := MkFortress None None ∅ [].

Section Extract.
Context `{RX : Rnix} (file : NixConfigFile) (schema : ConfigSchema).

Definition find_str (path : list string) : option string :=
  match find_attrpath file path with
  | Some l => match located_value l with NixStr s => Some s | _ => None end
  | None => None
  end.

Definition service_path (service : string) : list string :=
  services_root schema ++ [service; "enable"%string].

Definition add_service (m : gmap string bool) (service : ServiceInfo) : gmap string bool :=
  match find_attrpath file (service_path (nixname service)) with
  | Some l => match located_value l with
              | NixBool enabled => <[nixname service := enabled]> m
              | _ => m
              end
  | None => m
  end.

Definition extract_services : gmap string bool := foldl add_service ∅ SERVICE_LIST.

Definition extract_user (name : string) : CocoUser :=
  let hashed := find_str (users_root schema ++ [name; "hashedPassword"%string]) in
  match find_attrpath file (users_root schema ++ [name; "groups"%string]) with
  | Some l => match located_value l with
              | NixStrList items => MkCocoUser name hashed (list_to_set items) true
              | _ => MkCocoUser name hashed ∅ false
              end
  | None => MkCocoUser name hashed ∅ false
  end.

(** [FortressConfig::extract]; the names come sorted and without repetition, so
    inserting them one by one gives the entries in this order. *)
Definition extract : FortressConfig := {|
  fc_hostname := find_str (schema_hostname schema);
  fc_root_domain := find_str (schema_root_domain schema);
  services_enabled := extract_services;
  users := map (fun name => (name, extract_user name))
             (default [] (attrset_keys file (users_root schema)));
|}.
End Extract.
