(* ===== verification/Dashboard.v ===== *)
(** The box's dashboard (client/src/dashboard/mod.rs): reading and saving the Nix
    file, the editor's form, claims, login, and the routes behind the gate. *)

From stdpp Require Import base gmap strings list pretty.
From Stdlib Require Import ZArith Lia Ascii.
From S2P Require Import Prelude Prog ForwarderState World Crates Web Box Tunnel Enroll.
From S2P Require Import DashDb NixConfig.

Local Open Scope prog_scope.

Definition enroll_error_display (e : EnrollError) : string :=
  match e with
  | EnrInviteUrl url => "invalid invite URL: " ++ url
  | EnrApi what => "edge api: " ++ what
  | EnrDenied => "denied: the owner denied this machine's enrollment"
  | EnrTimedOut polls => "owner did not approve in time (" ++ pretty polls ++ " polls)"
  | EnrIo e => "state persistence failed: " ++ io_text e
  | EnrNoTunnelIp => "assigned tunnel ip is missing from the approval payload"
  end.

(** What the dashboard needs to drive claims; the state itself is the box's. *)
Record ClaimSupport := MkClaimSupport { cs_tunnel_state_path : string }.

(** ** The file *)

Definition ConfigPath : Type := string.

Definition resolve : prog BoxSig ConfigPath :=
  v <- @call BoxSig (EnvVar "FORTRESS_CONFIG_PATH") ;;
  Ret (default "nixosConfigurations/dashboard.nix"%string v).

Inductive ConfigReadError :=
| ReadNotFound (path : string)
| ReadIo (path : string) (e : IoError)
| ReadParse (e : NixParseError).

Definition config_read_error_display (e : ConfigReadError) : string :=
  match e with
  | ReadNotFound path => "config file not found at " ++ path
  | ReadIo path e => "config file unreadable at " ++ path ++ ": " ++ io_text e
  | ReadParse e => "config file is not valid Nix: " ++ nix_parse_error_display e
  end.

Record ConfigEdit := MkConfigEdit { edit_path : list string; edit_source : string }.

Inductive SaveError :=
| SaveRead (e : ConfigReadError)
| SaveEdit (path : string) (e : SetError)
| SaveIo (e : IoError).

Definition save_error_display (e : SaveError) : string :=
  match e with
  | SaveRead e => config_read_error_display e
  | SaveEdit path e => "edit failed at " ++ path ++ ": " ++ set_error_display e
  | SaveIo e => "write failed: " ++ io_text e
  end.

(** [Path::join] of one component. *)
Definition path_join (dir name : string) : string :=
  if is_empty dir then name
  else if ends_with "/" dir then dir ++ name else dir ++ "/" ++ name.

Section Editor.
Context `{RX : Rnix}.

Definition read_config (path : ConfigPath)
    : prog BoxSig (Result NixConfigFile ConfigReadError) :=
  there <- @call BoxSig (PathExists path) ;;
  if negb there then Ret (Err (ReadNotFound path))
  else
    source <-? @call BoxSig (ReadFile path) as ReadIo path ;;
    Ret (map_err ReadParse (nix_parse source)).

Definition tmp_name (uuid : string) : string := ".fortress-dashboard." ++ uuid ++ ".tmp".

Definition write_atomic (path : string) (contents : string)
    : prog BoxSig (Result unit SaveError) :=
  match parent path with
  | None => Ret (Err (SaveIo (MkIo OtherKind "config path has no parent directory")))
  | Some dir =>
      uuid <- @call BoxSig BoxUuid ;;
      let tmp := path_join dir (tmp_name uuid) in
      _w <-? @call BoxSig (WriteFile tmp contents) as SaveIo ;;
      r <-? @call BoxSig (RenameFile tmp path) as SaveIo ;;
      Ret (Ok r)
  end.

(** The edits, one after the other on the candidate; [None] is a panic. *)
Fixpoint apply_edits (edits : list ConfigEdit) (candidate : NixConfigFile)
    : option (Result NixConfigFile SaveError) :=
  match edits with
  | [] => Some (Ok candidate)
  | edit :: rest =>
      match set_attrpath (edit_path edit) (edit_source edit) candidate with
      | None => None
      | Some (Err error, _) => Some (Err (SaveEdit (join "." (edit_path edit)) error))
      | Some (Ok _, candidate') => apply_edits rest candidate'
      end
  end.

Definition save_config (path : ConfigPath) (edits : list ConfigEdit)
    : prog BoxSig (Result unit SaveError) :=
  candidate <-? read_config path as SaveRead ;;
  expect (apply_edits edits candidate) "set_attrpath panics" (fun r =>
    match r with
    | Err e => Ret (Err e)
    | Ok candidate => write_atomic path (source candidate)
    end).

(** ** The editor page *)

Definition editor_props (config : FortressConfig) (config_error : option string)
    (saved : bool) (save_error : option string) (remote : ClaimView) : EditorPageProps := {|
  ep_hostname := default ""%string (fc_hostname config);
  ep_base_domain := default ""%string (fc_root_domain config);
  ep_services :=
    map (fun service => MkEditorService (nixname service) (display_name service)
           (description service)
           (default false (services_enabled config !! nixname service))) SERVICE_LIST;
  ep_users :=
    map (fun '(_, user) => MkEditorUser (username user) (is_admin user) (groups user)
           (bool_decide (is_Some (hashed_password user)))) (users config);
  ep_config_error := config_error;
  ep_saved := saved;
  ep_save_error := save_error;
  ep_remote := remote;
|}.

Definition editor_page (config : FortressConfig) (config_error : option string)
    (saved : bool) (save_error : option string) (remote : ClaimView) : DashResponse :=
  dash_html (DashEditor (editor_props config config_error saved save_error remote)).

Definition editor_state (path : ConfigPath) : prog BoxSig (FortressConfig * option string) :=
  r <- read_config path ;;
  Ret (match r with
       | Ok file => (extract file ConfigSchema_default, None)
       | Err error => (FortressConfig_default, Some (config_read_error_display error))
       end).

Record EditorForm := MkEditorForm {
  form_hostname : option string;
  form_base_domain : option string;
  dynamic : gmap string string;
}.

Definition service_checked (form : EditorForm) (nixname : string) : bool :=
  bool_decide (dynamic form !! ("svc_" ++ nixname)%string = Some "true"%string).

Definition user_groups (form : EditorForm) (username : string) : option string :=
  dynamic form !! ("groups_" ++ username)%string.

Definition is_group_sep (c : ascii) : bool := is_whitespace c || Ascii.eqb c ",".

Definition split_groups (text : string) : list string :=
  List.filter (fun g => negb (is_empty g)) (split_on is_group_sep text).

Definition hostname_edit (config : FortressConfig) (form : EditorForm) : list ConfigEdit :=
  match form_hostname form, fc_hostname config with
  | Some hostname, Some _ =>
      [MkConfigEdit ["networking"; "hostName"] (to_source (NixStr hostname))]
  | _, _ => []
  end.

Definition domain_edit (config : FortressConfig) (form : EditorForm) : list ConfigEdit :=
  match form_base_domain form, fc_root_domain config with
  | Some domain, Some _ =>
      [MkConfigEdit ["fortress"; "baseDomain"] (to_source (NixStr domain))]
  | _, _ => []
  end.

Definition service_edit (config : FortressConfig) (form : EditorForm) (service : ServiceInfo)
    : list ConfigEdit :=
  let declared := bool_decide (is_Some (services_enabled config !! nixname service)) in
  let enabled := service_checked form (nixname service) in
  if negb declared && negb enabled then []
  else [MkConfigEdit ["fortress"; "services"; nixname service; "enable"]
          (to_source (NixBool enabled))].

Definition user_edit (form : EditorForm) (entry : string * CocoUser) : list ConfigEdit :=
  let '(username, user) := entry in
  match user_groups form username with
  | None => []
  | Some groups_text =>
      let groups := split_groups groups_text in
      if negb (groups_declared user) && bool_decide (groups = []) then []
      else [MkConfigEdit ["users"; "users"; username; "groups"] (to_source (NixStrList groups))]
  end.

Definition build_edits (config : FortressConfig) (form : EditorForm) : list ConfigEdit :=
  hostname_edit config form ++ domain_edit config form
  ++ concat (map (service_edit config form) SERVICE_LIST)
  ++ concat (map (user_edit form) (users config)).
End Editor.

(** ** Handlers *)

Module Dash.
Definition see_other (location : string) : DashResponse :=
  MkDash 303 (Some location) None None None.

Section Dash.
Context `{RX : Rnix} `{RF : Rfc3339} `{CR : Crates} `{SP : Serde PersistedTunnel}.
Context (auth : DashAuth.AdminConfig) (config_path : ConfigPath) (claim : ClaimSupport).

(** A persisted enrollment wins; otherwise the live claim state. *)
Definition remote_view : prog BoxSig ClaimView :=
  persisted <- persisted_tunnel_state (cs_tunnel_state_path claim) ;;
  match persisted with
  | Some persisted => Ret (ViewClaimed (pt_hostname persisted))
  | None =>
      state <- @call BoxSig ClaimGet ;;
      Ret (match state with
           | Unclaimed => ViewUnclaimed
           | Awaiting => ViewAwaiting
           | ClaimFailed message => ViewFailed message
           end)
  end.

Definition admin : prog BoxSig DashResponse :=
  cfg <- editor_state config_path ;;
  let '(config, error) := cfg in
  remote <- remote_view ;;
  Ret (editor_page config error false None remote).

(** The mutex is held up to the redirect or the spawn. *)
Definition claim_submit (invite_url : option string) : prog BoxSig DashResponse :=
  let url := trim (default ""%string invite_url) in
  persisted <- persisted_tunnel_state (cs_tunnel_state_path claim) ;;
  match persisted with
  | Some _ =>
      @call BoxSig (ClaimSet (ClaimFailed "This box is already claimed.")) ;;;
      Ret (see_other "/")
  | None =>
      state <- @call BoxSig ClaimGet ;;
      if bool_decide (state = Awaiting) then Ret (see_other "/")
      else
        match from_url url with
        | Ok _ =>
            @call BoxSig (ClaimSet Awaiting) ;;;
            @call BoxSig (SpawnClaim url) ;;;
            Ret (see_other "/")
        | Err err =>
            @call BoxSig (ClaimSet (ClaimFailed
              ("That is not an invite link: " ++ enroll_error_display err)%string)) ;;;
            Ret (see_other "/")
        end
  end.

Definition admin_save (form : EditorForm) : prog BoxSig DashResponse :=
  remote <- remote_view ;;
  cfg <- editor_state config_path ;;
  let '(config, read_error) := cfg in
  match read_error with
  | Some error => Ret (editor_page config (Some error) false None remote)
  | None =>
      saved <- save_config config_path (build_edits config form) ;;
      match saved with
      | Ok _ =>
          again <- editor_state config_path ;;
          let '(saved_config, read_error) := again in
          Ret (editor_page saved_config read_error true None remote)
      | Err error => Ret (editor_page config None false (Some (save_error_display error)) remote)
      end
  end.

Definition login_page (error : bool) : DashResponse := dash_html (DashLogin error).
Definition login_page_get : DashResponse := login_page false.

Definition login_page_post (password : option string) : prog BoxSig DashResponse :=
  match password with
  | None => Ret (login_page true)
  | Some password =>
      if negb (DashAuth.verify_password password (DashAuth.password_hash auth))
      then Ret (login_page true)
      else
        r <- create_session "admin" ;;
        match r with
        | Ok token =>
            expect (DashAuth.session_cookie_header token false)
              "session cookie header is valid" (fun cookie =>
              Ret (MkDash 303 (Some "/"%string) (Some cookie) None None))
        | Err _ => Ret (dash_status 500)
        end
  end.

Definition logout (req : DashRequest) : prog BoxSig DashResponse :=
  match DashAuth.read_cookie req DashAuth.SESSION_COOKIE with
  | Some token => r <- delete_session token ;; Ret tt
  | None => Ret tt
  end ;;;
  Ret (MkDash 303 (Some "/"%string) (Some DashAuth.clear_session_cookie_header) None None).

(** The landing page, for the liveness a snapshot gave. *)
Definition landing (catalog : list CatalogEntry) (liveness : list bool) : DashResponse :=
  dash_html (DashLanding
    (zip_with (fun entry healthy =>
       MkLandingService (ce_name entry) (ce_description entry) (ce_path entry) healthy)
       catalog liveness)).

Definition with_session (ep : prog BoxSig DashResponse) (req : DashRequest)
    : prog BoxSig DashResponse :=
  DashAuth.gate_request auth ep req.

(** The registered routes, their form fields and query. *)
Inductive route :=
| GetLanding (liveness : list bool)
| GetLogin
| PostLogin (password : option string)
| GetAdmin
| PostAdmin (form : EditorForm)
| PostClaim (invite_url : option string)
| GetLogout.

Definition app (catalog : list CatalogEntry) (r : route) (req : DashRequest)
    : prog BoxSig DashResponse :=
  match r with
  | GetLanding liveness => Ret (landing catalog liveness)
  | GetLogin => Ret login_page_get
  | PostLogin password => login_page_post password
  | GetAdmin => with_session admin req
  | PostAdmin form => with_session (admin_save form) req
  | PostClaim invite_url => with_session (claim_submit invite_url) req
  | GetLogout => with_session (logout req) req
  end.

Definition public (r : route) : bool :=
  match r with GetLanding _ | GetLogin | PostLogin _ => true | _ => false end.
End Dash.
End Dash.
