(* ===== verification/DbFile.v ===== *)
(** Where the dashboard's database lives and how it is opened
    (client/src/dashboard/db.rs): [local_db_path], [Db::open] and [migrate].

    What the other files of the dashboard call [DbOpen] is here the sequence of calls it
    makes, on the environment, the directories and SQLite; SQLite is the
    tables of each database file. *)

From stdpp Require Import base gmap strings list.
From S2P Require Import Prelude Prog World Box Web Tunnel Enroll DashDb NixConfig Dashboard.

Local Open Scope prog_scope.

(** ** The outside *)

Record Column := MkColumn { col_name : string; col_type : string }.
Record Table := MkTable { columns : list Column; rows : list (list string) }.

Inductive statement := CreateTableIfNotExists (name : string) (cols : list Column).

Inductive file_op :=
| VarOs (name : string)
| MkDirs (path : string)
| Connect (filename : string)          (** [create_if_missing(true)] *)
| Execute (stmt : statement).

Definition file_ret (o : file_op) : Type :=
  match o with
  | VarOs _ => option string
  | MkDirs _ => Result unit IoError
  | Connect _ | Execute _ => Result unit string
  end.

Definition FileSig : Sig := MkSig file_op file_ret.

(** Variables, the database files with their tables, the open one. *)
Record files := MkFiles {
  vars : gmap string string;
  dbs : gmap string (gmap string Table);
  opened : option string;
}.

Definition execute (stmt : statement) (tables : gmap string Table) : gmap string Table :=
  match stmt with
  | CreateTableIfNotExists name cols =>
      match tables !! name with
      | Some _ => tables
      | None => <[name := MkTable cols []]> tables
      end
  end.

Definition file_spec (o : file_op) (s : files) : file_ret o -> files -> Prop :=
  match o return file_ret o -> files -> Prop with
  | VarOs name => fun r s' => r = vars s !! name /\ s' = s
  | MkDirs _ => fun _ s' => s' = s
  | Connect f => fun r s' =>
      match r with
      | Ok _ => s' = MkFiles (vars s) (<[f := default ∅ (dbs s !! f)]> (dbs s)) (Some f)
      | Err _ => s' = s \/ s' = MkFiles (vars s) (<[f := default ∅ (dbs s !! f)]> (dbs s)) (opened s)
      end
  | Execute stmt => fun r s' =>
      match r, opened s with
      | Ok _, Some f =>
          s' = MkFiles (vars s) (<[f := execute stmt (default ∅ (dbs s !! f))]> (dbs s)) (Some f)
      | Ok _, None => False
      | Err _, _ => s' = s
      end
  end.

(** ** The code *)

Definition local_db_path : prog FileSig string :=
  xdg <- @call FileSig (VarOs "XDG_DATA_HOME") ;;
  data_home <-
    match xdg with
    | Some dir => Ret dir
    | None =>
        home <- @call FileSig (VarOs "HOME") ;;
        Ret (match home with
             | Some home => path_join (path_join home ".local") "share"
             | None => "."%string
             end)
    end ;;
  Ret (path_join (path_join data_home "fortress") "dashboard.db").

Definition SESSIONS : list Column :=
  [MkColumn "token" "TEXT PRIMARY KEY"; MkColumn "user_id" "TEXT NOT NULL";
   MkColumn "created_at" "TEXT NOT NULL"; MkColumn "expires_at" "TEXT NOT NULL"].
Definition KV : list Column :=
  [MkColumn "key" "TEXT PRIMARY KEY"; MkColumn "value" "TEXT NOT NULL";
   MkColumn "updated_at" "TEXT NOT NULL"].

Definition migrate : prog FileSig (Result unit DbError) :=
  _s <-? @call FileSig (Execute (CreateTableIfNotExists "sessions" SESSIONS)) as DbSqlx ;;
  _k <-? @call FileSig (Execute (CreateTableIfNotExists "kv" KV)) as DbSqlx ;;
  Ret (Ok tt).

Section Open.
(** [SqliteConnectOptions::from_str]: the file that a URL names. *)
Context (sqlite_filename : string -> option string).

Definition open : prog FileSig (Result unit DbError) :=
  path <- local_db_path ;;
  made <- match parent path with
          | Some dir => @call FileSig (MkDirs dir)
          | None => Ret (Ok tt)
          end ;;
  match made with
  | Err e => Ret (Err (DbIo e))
  | Ok _ =>
      expect (sqlite_filename path) "db path parses as sqlite url" (fun file =>
        _c <-? @call FileSig (Connect file) as DbSqlx ;;
        migrate)
  end.

(** ** What opening does *)

(** The directory of the user's data, as the code resolves it. *)
Definition data_home_of (m : gmap string string) : string :=
  match m !! "XDG_DATA_HOME"%string with
  | Some dir => dir
  | None => match m !! "HOME"%string with
            | Some home => path_join (path_join home ".local") "share"
            | None => "."%string
            end
  end.
Definition db_path_of (m : gmap string string) : string :=
  path_join (path_join (data_home_of m) "fortress") "dashboard.db".

(** The schema is there; tables and rows that were there are as they were. *)
Definition migrated (before after : gmap string Table) : Prop :=
  (forall t x, before !! t = Some x -> after !! t = Some x) /\
  (before !! "sessions"%string = None -> after !! "sessions"%string = Some (MkTable SESSIONS [])) /\
  (before !! "kv"%string = None -> after !! "kv"%string = Some (MkTable KV [])) /\
  (forall t, t <> "sessions"%string -> t <> "kv"%string -> after !! t = before !! t).

Lemma migrated_executed before :
  migrated before (execute (CreateTableIfNotExists "kv" KV)
                     (execute (CreateTableIfNotExists "sessions" SESSIONS) before)).
Proof.
  unfold migrated, execute.
  destruct (before !! "sessions"%string) as [x|] eqn:Es.
  - destruct (before !! "kv"%string) as [y|] eqn:Ek; [done|].
    split_and!; [|done|by rewrite lookup_insert_eq|intros t _ Ht; by rewrite lookup_insert_ne].
    intros t z Ht. rewrite lookup_insert_ne; [done|by intros <-; rewrite Ek in Ht].
  - rewrite lookup_insert_ne by done. destruct (before !! "kv"%string) as [y|] eqn:Ek.
    + split_and!; [|by rewrite lookup_insert_eq|done|intros t Ht _; by rewrite lookup_insert_ne].
      intros t z Ht. rewrite lookup_insert_ne; [done|by intros <-; rewrite Es in Ht].
    + split_and!.
      * intros t z Ht. rewrite !lookup_insert_ne; [done|intros <-..]; by rewrite ?Es, ?Ek in Ht.
      * intros _. rewrite lookup_insert_ne by done. apply lookup_insert_eq.
      * intros _. apply lookup_insert_eq.
      * intros t H1 H2. by rewrite !lookup_insert_ne.
Qed.

(** Opening it again changes nothing. *)
Lemma migrated_again before after :
  is_Some (before !! "sessions"%string) -> is_Some (before !! "kv"%string) ->
  migrated before after -> after = before.
Proof.
  intros [x Hx] [y Hy] (Hkeep & _ & _ & Hother). apply map_eq. intros t.
  destruct (before !! t) as [z|] eqn:E; [by apply Hkeep|].
  rewrite Hother; [done|intros ->; congruence..].
Qed.

Lemma wp_local_db_path {B} (k : string -> prog FileSig B) Q s :
  wp (X := FileSig) file_spec (k (db_path_of (vars s))) Q s ->
  wp (X := FileSig) file_spec (bind local_db_path k) Q s.
Proof.
  intros HQ. unfold db_path_of, data_home_of in HQ. cbn. intros r s1 [-> ->].
  destruct (vars s !! "XDG_DATA_HOME"%string) as [dir|]; [exact HQ|].
  cbn. intros r s1 [-> ->]. destruct (vars s !! "HOME"%string); exact HQ.
Qed.

(** The file that the path names is open with the schema in place, no row of it is lost,
    and no other database is touched. *)
Definition open_post (s : files) (o : outcome (Result unit DbError)) (s' : files) : Prop :=
  match o with
  | Done (Ok _) =>
      exists file after, sqlite_filename (db_path_of (vars s)) = Some file /\
        opened s' = Some file /\ dbs s' = <[file := after]> (dbs s) /\
        migrated (default ∅ (dbs s !! file)) after
  | Done (Err _) => vars s' = vars s
  | _ => False
  end.

Lemma wp_connect_migrate file s :
  sqlite_filename (db_path_of (vars s)) = Some file ->
  wp (X := FileSig) file_spec (_c <-? @call FileSig (Connect file) as DbSqlx ;; migrate)
    (open_post s) s.
Proof.
  intros Hf. cbn. intros [u1|e1] s1; [intros ->|by intros [-> | ->]].
  cbn. intros [u2|e2] s2; cbn; [intros ->|by intros ->].
  cbn. intros [u3|e3] s3; cbn; [intros ->|by intros ->].
  exists file. eexists. split; [done|]. split; [done|].
  cbn. rewrite !lookup_insert_eq, !insert_insert_eq. cbn.
  split; [done|]. apply migrated_executed.
Qed.

Lemma wp_open s :
  is_Some (sqlite_filename (db_path_of (vars s))) ->
  wp (X := FileSig) file_spec open (open_post s) s.
Proof.
  intros [file Hf]. unfold open. apply wp_local_db_path. cbv beta zeta. rewrite Hf.
  destruct (parent (db_path_of (vars s))); [|by apply wp_connect_migrate].
  intros r s1. cbn [file_spec]. intros ->. destruct r; [by apply wp_connect_migrate|done].
Qed.
End Open.
