(* ===== verification/Routes.v ===== *)
(** From markup to requests and from requests to routes: the forms and links of a
    page, what a browser submits, and the routing tables of the three servers with
    the fields and query parameters their handlers extract. *)

From stdpp Require Import base gmap strings list.
From Stdlib Require Import ZArith Ascii.
From S2P Require Import Prelude Invite Web Site DashDb Dashboard WebUi UiPages Joint.
Import Ui.

Local Open Scope string_scope.

(** ** Forms and links *)

Record Input := MkInput {
  in_type : string;
  in_name : string;
  in_value : string;
  in_checked : bool;
}.

Record FormView := MkForm {
  fm_method : string;
  fm_action : string;
  fm_inputs : list Input;
}.

Definition attr (name : string) (attrs : list (string * string)) : option string :=
  assoc name attrs.

Definition input_of (attrs : list (string * string)) : Input :=
  MkInput (default "text" (attr "type" attrs)) (default "" (attr "name" attrs))
    (default "" (attr "value" attrs)) (bool_decide (is_Some (attr "checked" attrs))).

(** The inputs below a node, in document order. *)
Fixpoint inputs (n : Node) : list Input :=
  match n with
  | Fragment l => flat_map inputs l
  | Elem tag attrs l =>
      if bool_decide (tag = "input") then [input_of attrs] else flat_map inputs l
  | _ => []
  end.

(** The forms; a form does not nest. *)
Fixpoint forms (n : Node) : list FormView :=
  match n with
  | Fragment l => flat_map forms l
  | Elem tag attrs l =>
      if bool_decide (tag = "form")
      then [MkForm (default "get" (attr "method" attrs)) (default "" (attr "action" attrs))
              (flat_map inputs l)]
      else flat_map forms l
  | _ => []
  end.

Fixpoint links (n : Node) : list string :=
  match n with
  | Fragment l => flat_map links l
  | Elem tag attrs l =>
      if bool_decide (tag = "a") then [default "" (attr "href" attrs)] else flat_map links l
  | _ => []
  end.

(** What reaches the unescaped sink. *)
Fixpoint raws (n : Node) : list RawHtml :=
  match n with
  | Fragment l | Elem _ _ l => flat_map raws l
  | RawElem _ _ html => [html]
  | _ => []
  end.

(** ** Submission *)

(** What the user leaves in a control: the text, or for a checkbox whether it is
    checked. *)
Definition user : Type := Input -> option string.

Definition untouched : user := fun i =>
  if bool_decide (in_type i = "checkbox")
  then if in_checked i then Some (in_value i) else None
  else Some (in_value i).

(** The user types [text name] and leaves the checkboxes. *)
Definition types (text : string -> string) : user := fun i =>
  if bool_decide (in_type i = "checkbox")
  then if in_checked i then Some (in_value i) else None
  else Some (text (in_name i)).

(** The pairs a browser sends; a hidden input keeps its value. *)
Definition pairs (u : user) (l : list Input) : list (string * string) :=
  omap (fun i => if bool_decide (in_type i = "hidden")
                 then Some (in_name i, in_value i)
                 else (fun v => (in_name i, v)) <$> u i) l.

Definition submit {R} (at_ : method -> string -> list (string * string) -> option R)
    (u : user) (f : FormView) : option R :=
  let m := if bool_decide (fm_method f = "post") then POST else GET in
  at_ m (fm_action f) (pairs u (fm_inputs f)).

(** Following a link: a fragment stays on the page. *)
Definition follows {R} (at_ : method -> string -> list (string * string) -> option R)
    (href : string) : bool :=
  starts_with "#" href || bool_decide (is_Some (at_ GET href [])).

(** ** Routing tables *)

(** [web_routes] of controlplane/web.rs, with the form bodies and queries.  The path
    is the one a request has after percent-decoding; the codes and names in it are
    words of letters, digits and hyphens, which need none. *)
Definition web_at (m : method) (path : string) (fields : list (string * string))
    : option Web.route :=
  let f name := assoc name fields in
  match m, split_on slash path with
  | GET, [""; ""] => Some Web.GetLanding
  | GET, [""; "install.sh"] => Some Web.GetInstallSh
  | GET, [""; "register"] => Some Web.GetRegister
  | GET, [""; "login"] => Some Web.GetLogin
  | GET, [""; "forgot"] => Some Web.GetForgot
  | GET, [""; "reset"] => Some (Web.GetReset (f "token"))
  | GET, [""; "verify"] => Some (Web.GetVerify (f "token"))
  | GET, [""; "machines"] => Some (Web.GetMachines (f "invited"))
  | GET, [""; "i"; code] => Some (Web.GetJoin code)
  | POST, [""; "auth"; "signup"] => Some (Web.PostSignup (f "email") (f "password"))
  | POST, [""; "auth"; "login"] => Some (Web.PostLogin (f "email") (f "password"))
  | POST, [""; "auth"; "logout"] => Some Web.PostLogout
  | POST, [""; "auth"; "forgot"] => Some (Web.PostForgot (f "email"))
  | GET, [""; "auth"; "resend-verify"] => Some (Web.GetResendVerify (f "email"))
  | POST, [""; "auth"; "resend-verify"] => Some (Web.PostResendVerify (f "email"))
  | POST, [""; "auth"; "reset"] => Some (Web.PostReset (f "token") (f "password"))
  | POST, [""; "auth"; "verify"] => Some (Web.PostVerify (f "token"))
  | POST, [""; "auth"; "account"; "delete"] => Some (Web.PostAccountDelete (f "confirm"))
  | POST, [""; "auth"; "invite"] => Some Web.PostInvite
  | POST, [""; "auth"; "invite"; code; "approve"] => Some (Web.PostApprove code (f "name"))
  | POST, [""; "auth"; "invite"; code; "deny"] => Some (Web.PostDeny code)
  | POST, [""; "auth"; "invite"; code; "revoke"] => Some (Web.PostRevoke code)
  | _, _ => None
  end.

(** The [#[page]] attributes of site/src/pages, with the form bodies, whose fields
    are required, and the queries. *)
Definition site_at (m : method) (path : string) (fields : list (string * string))
    : option site_route :=
  let f name := assoc name fields in
  let auth := Some (MkAuthQuery (f "error") (f "check") (f "verified") (f "reset") (f "sent")) in
  let token := Some (MkTokenQuery (f "token") (f "error")) in
  match m, split_on slash path with
  | GET, [""; ""] => Some SGetHome
  | GET, [""; "register"] => Some (SGetRegister auth)
  | POST, [""; "register"] => e ← f "email"; p ← f "password"; Some (SPostRegister e p)
  | GET, [""; "login"] => Some (SGetLogin auth)
  | POST, [""; "login"] => e ← f "email"; p ← f "password"; Some (SPostLogin e p)
  | POST, [""; "auth"; "logout"] => Some SPostLogout
  | GET, [""; "forgot"] => Some (SGetForgot auth)
  | POST, [""; "forgot"] => SPostForgot <$> f "email"
  | GET, [""; "reset"] => Some (SGetReset token)
  | POST, [""; "reset"] => t ← f "token"; p ← f "password"; Some (SPostReset t p)
  | GET, [""; "verify"] => Some (SGetVerify token)
  | POST, [""; "verify"] => SPostVerify <$> f "token"
  | GET, [""; "resend"] => Some (SGetResend (Some (MkResendQuery (f "email") (f "error") (f "sent"))))
  | POST, [""; "resend"] => SPostResend <$> f "email"
  | GET, [""; "i"; code] => Some (SGetJoin code)
  | GET, [""; "account"; "delete"] =>
      Some (SGetAccountDelete (Some (MkAccountQuery (f "error") (f "deleted"))))
  | POST, [""; "account"; "delete"] => Some SPostAccountDelete
  | GET, [""; "machines"] => Some (SGetMachines (Some (MkMachinesQuery (f "invited") (f "error"))))
  | POST, [""; "auth"; "invite"] => Some SPostInvite
  | POST, [""; "auth"; "invite"; code; "approve"] => SPostApprove code <$> f "name"
  | POST, [""; "auth"; "invite"; code; "deny"] => Some (SPostDeny code)
  | POST, [""; "auth"; "invite"; code; "revoke"] => Some (SPostRevoke code)
  | _, _ => None
  end.

(** [serde(flatten)]: the fields that are not the form's own go to the map. *)
Definition editor_form_of (fields : list (string * string)) : EditorForm :=
  MkEditorForm (assoc "hostname" fields) (assoc "base_domain" fields)
    (list_to_map (List.filter (fun p => negb (bool_decide (p.1 = "hostname" \/ p.1 = "base_domain")))
                    fields)).

(** [app] of client/src/dashboard/mod.rs; [liveness] is the prober's. *)
Definition dash_at (liveness : list bool) (m : method) (path : string)
    (fields : list (string * string)) : option Dash.route :=
  match m, split_on slash path with
  | GET, [""; ""] => Some (Dash.GetLanding liveness)
  | GET, [""; "auth"; "login"] => Some Dash.GetLogin
  | POST, [""; "auth"; "login"] => Some (Dash.PostLogin (assoc "password" fields))
  | GET, [""; "admin"] => Some Dash.GetAdmin
  | POST, [""; "admin"] => Some (Dash.PostAdmin (editor_form_of fields))
  | POST, [""; "claim"] => Some (Dash.PostClaim (assoc "invite_url" fields))
  | GET, [""; "auth"; "logout"] => Some Dash.GetLogout
  | _, _ => None
  end.
