(* ===== verification/UiProofs.v ===== *)
(** Lemmas about the pages: how the forms of a tree come from its parts, and what
    each page's forms submit. *)

From stdpp Require Import base gmap strings list sorting.
From Stdlib Require Import ZArith Lia Ascii.
From S2P Require Import Prelude NumText Invite Web Site DashDb Dashboard NixConfig WebUi UiPages.
From S2P Require Import EnrollProofs Joint JointProofs Routes.
Import Ui.

Local Open Scope string_scope.

(** ** Trees and their parts *)

Lemma mapM_id_spec {A} (l : list (option A)) ns : mapM id l = Some ns -> l = map Some ns.
Proof.
  revert ns. induction l as [|x l IH]; intros ns H; cbn in H; [by injection H as <-|].
  destruct x as [a|]; [|done]. cbn in H. destruct (mapM id l) as [ns'|]; [|done].
  cbn in H. injection H as <-. cbn. by rewrite (IH ns').
Qed.

Lemma el_spec tag attrs l n :
  el tag attrs l = Some n -> exists ns, l = map Some ns /\ n = Elem tag attrs ns.
Proof.
  unfold el. destruct (mapM id l) as [ns|] eqn:E; [|done]. intros [= <-].
  exists ns. split; [by apply mapM_id_spec|done].
Qed.

Lemma frag_spec l n : frag l = Some n -> exists ns, l = map Some ns /\ n = Fragment ns.
Proof.
  unfold frag. destruct (mapM id l) as [ns|] eqn:E; [|done]. intros [= <-].
  exists ns. split; [by apply mapM_id_spec|done].
Qed.

Definition of_view {A} (g : Node -> list A) (v : View) : list A :=
  match v with Some n => g n | None => [] end.

Lemma flat_map_views {A} (g : Node -> list A) ns :
  flat_map g ns = flat_map (of_view g) (map Some ns).
Proof. induction ns as [|n ns IH]; cbn; [done|]. by rewrite IH. Qed.

(** The forms of an element are those of its parts, and so for links and raw text. *)
Lemma forms_el tag attrs l n :
  el tag attrs l = Some n -> bool_decide (tag = "form") = false ->
  forms n = flat_map (of_view forms) l.
Proof.
  intros (ns & -> & ->)%el_spec Ht. cbn [forms]. rewrite Ht. apply flat_map_views.
Qed.

Lemma links_el tag attrs l n :
  el tag attrs l = Some n -> bool_decide (tag = "a") = false ->
  links n = flat_map (of_view links) l.
Proof.
  intros (ns & -> & ->)%el_spec Ht. cbn [links]. rewrite Ht. apply flat_map_views.
Qed.

Lemma raws_el tag attrs l n : el tag attrs l = Some n -> raws n = flat_map (of_view raws) l.
Proof. intros (ns & -> & ->)%el_spec. cbn [raws]. apply flat_map_views. Qed.

Lemma of_views_map {A B} (g : Node -> list A) (f : B -> View) (h : B -> list A) l ns :
  map f l = map Some ns -> (forall x n, x ∈ l -> f x = Some n -> g n = h x) ->
  flat_map (of_view g) (map f l) = flat_map h l.
Proof.
  revert ns. induction l as [|x l IH]; intros ns Hl Hf; [done|]. destruct ns as [|n ns]; [done|].
  cbn in Hl. injection Hl as Hx Hl. cbn [map flat_map]. rewrite Hx. cbn [of_view].
  f_equal; [apply Hf; [by left|done]|]. eapply IH; [exact Hl|]. intros y m Hy. apply Hf. by right.
Qed.

(** ** The machines dashboard *)

(** The forms beside an invite. *)
Definition invite_forms (invite : InviteRow) : list FormView :=
  let code := row_code invite in
  let decision action := MkForm "post" (invite_path code action) [] in
  match row_status invite with
  | Waiting =>
      [MkForm "post" (invite_path code "approve") [MkInput "text" "name" "" false];
       decision "deny"; decision "revoke"]
  | Dormant => [decision "revoke"]
  | Approved | Denied => []
  end.

Lemma invite_item_spec domain invited invite n :
  invite_item domain invited invite = Some n ->
  forms n = invite_forms invite /\ links n = [] /\ raws n = [].
Proof.
  unfold invite_item. destruct (bool_decide (Some (row_code invite) = invited)).
  all: destruct invite as [code [] [pk|]]; intros H; vm_compute in H; injection H as <-;
    vm_compute; done.
Qed.

Lemma machine_item_spec machine n :
  machine_item machine = Some n -> forms n = [] /\ links n = [] /\ raws n = [].
Proof. destruct machine as [nm hn]. intros H. vm_compute in H. by injection H as <-. Qed.

Definition dashboard_forms (props : MachinesProps) : list FormView :=
  MkForm "post" "/auth/invite" [] :: flat_map invite_forms (props_invites props)
  ++ [MkForm "post" "/auth/logout" []].

Lemma flat_map_nil {A B} (l : list A) : flat_map (fun _ => @nil B) l = [].
Proof. by induction l. Qed.

Lemma machines_body_spec props n :
  machines_body props = Some n ->
  forms n = dashboard_forms props /\ links n = [] /\
  raws n = [TAILWIND_BROWSER_JS; ZINE_CSS].
Proof.
  destruct props as [ms invs ic domain err]. unfold machines_body, dashboard_forms.
  cbn [props_root_domain props_error props_machines props_invites invited_code].
  destruct (is_empty domain); [done|].
  set (banner := match err with Some _ => _ | None => _ end).
  assert (exists nb, banner = Some nb /\ forms nb = [] /\ links nb = [] /\ raws nb = [])
    as (nb & -> & Fb & Lb & Rb) by (destruct err; by eexists).
  set (lm := match ms with [] => _ | _ => _ end).
  set (li := match invs with [] => _ | _ => _ end).
  destruct (el "ul" (cls "flex flex-col gap-1 list-none p-0 m-0") lm) as [um|] eqn:Em;
    [|intros H; by vm_compute in H].
  destruct (el "ul" (cls "flex flex-col gap-4 list-none p-0 m-0") li) as [ui|] eqn:Ei;
    [|intros H; by vm_compute in H].
  assert (forms um = [] /\ links um = [] /\ raws um = []) as (Fm & Lm & Rm).
  { pose proof (el_spec _ _ _ _ Em) as (ns & Hns & _).
    rewrite (forms_el _ _ _ _ Em), (links_el _ _ _ _ Em), (raws_el _ _ _ _ Em) by done.
    subst lm. destruct ms as [|m ms]; [done|].
    rewrite !(of_views_map _ _ (fun _ => []) _ _ Hns), !flat_map_nil by
      (intros x y _ H; by apply machine_item_spec in H as (? & ? & ?)). done. }
  assert (forms ui = flat_map invite_forms invs /\ links ui = [] /\ raws ui = []) as (Fi & Li & Ri).
  { pose proof (el_spec _ _ _ _ Ei) as (ns & Hns & _).
    rewrite (forms_el _ _ _ _ Ei), (links_el _ _ _ _ Ei), (raws_el _ _ _ _ Ei) by done.
    subst li. destruct invs as [|i invs]; [done|].
    rewrite (of_views_map forms _ invite_forms _ _ Hns) by
      (intros x y _ H; by apply invite_item_spec in H as (? & ? & ?)).
    rewrite !(of_views_map _ _ (fun _ => []) _ _ Hns), !flat_map_nil by
      (intros x y _ H; by apply invite_item_spec in H as (? & ? & ?)). done. }
  clearbody lm li. intros H. vm_compute in H. injection H as <-. split_and!.
  - cbn. rewrite Fb, Fm, Fi. cbn. by rewrite !app_nil_r.
  - cbn. by rewrite Lb, Lm, Li.
  - cbn. by rewrite Rb, Rm, Ri.
Qed.

Lemma el_some tag attrs l : Forall is_Some l -> is_Some (el tag attrs l).
Proof.
  intros H. unfold el. enough (is_Some (mapM id l)) as [ns ->] by by eexists.
  induction H as [|v l [n ->] Hl [ns IH]]; cbn; [by eexists|]. rewrite IH. by eexists.
Qed.

Lemma invite_item_some domain invited invite : is_Some (invite_item domain invited invite).
Proof.
  unfold invite_item. destruct (bool_decide (Some (row_code invite) = invited)).
  all: destruct invite as [code [] [pk|]]; vm_compute; by eexists.
Qed.

Lemma machines_body_some props :
  machines_body props = None -> is_empty (props_root_domain props) = true.
Proof.
  destruct props as [ms invs ic domain err]. unfold machines_body.
  cbn [props_root_domain props_error props_machines props_invites invited_code].
  destruct (is_empty domain); [done|].
  set (banner := match err with Some _ => _ | None => _ end).
  assert (exists nb, banner = Some nb) as (nb & ->) by (destruct err; by eexists).
  set (lm := match ms with [] => _ | _ => _ end).
  set (li := match invs with [] => _ | _ => _ end).
  destruct (el_some "ul" (cls "flex flex-col gap-1 list-none p-0 m-0") lm) as [um ->].
  { subst lm. destruct ms as [|m ms]; [by repeat constructor|]. apply Forall_map, Forall_true.
    intros [nm hn]. by eexists. }
  destruct (el_some "ul" (cls "flex flex-col gap-4 list-none p-0 m-0") li) as [ui ->].
  { subst li. destruct invs as [|i invs]; [by repeat constructor|]. apply Forall_map, Forall_true.
    intros x. apply invite_item_some. }
  clearbody lm li. intros H. by vm_compute in H.
Qed.

(** ** What the forms submit *)

(** The moves the dashboard offers for an invite. *)
Definition web_moves (text : string -> string) (invite : InviteRow) : list Web.route :=
  let code := row_code invite in
  match row_status invite with
  | Waiting => [Web.PostApprove code (Some (text "name")); Web.PostDeny code; Web.PostRevoke code]
  | Dormant => [Web.PostRevoke code]
  | Approved | Denied => []
  end.

Definition site_moves (text : string -> string) (invite : InviteRow) : list site_route :=
  let code := row_code invite in
  match row_status invite with
  | Waiting => [SPostApprove code (text "name"); SPostDeny code; SPostRevoke code]
  | Dormant => [SPostRevoke code]
  | Approved | Denied => []
  end.

(** The requests of a page's forms, in order, when the user has typed [text]. *)
Definition page_requests (text : string -> string) (p : Page) : list Web.route :=
  match p with
  | Landing logged_in _ => if logged_in then [Web.PostLogout] else []
  | SignupPage _ _ => [Web.PostSignup (Some (text "email")) (Some (text "password"))]
  | LoginPage _ _ => [Web.PostLogin (Some (text "email")) (Some (text "password"))]
  | ForgotPage ForgotPrompt => [Web.PostForgot (Some (text "email"))]
  | VerifyNoticePage email => [Web.PostResendVerify (Some email)]
  | ResendPage _ => [Web.PostResendVerify (Some (text "email"))]
  | ResetPage token _ => [Web.PostReset (Some token) (Some (text "password"))]
  | VerifyPage token => [Web.PostVerify (Some token)]
  | MachinesPage props =>
      Web.PostInvite :: flat_map (web_moves text) (props_invites props) ++ [Web.PostLogout]
  | ForgotPage _ | MessagePage _ _ _ | JoinPage _ | InstallScript => []
  end%list.

(** The pages the site renders with these components. *)
Definition site_requests (text : string -> string) (p : Page) : list site_route :=
  match p with
  | Landing logged_in _ => if logged_in then [SPostLogout] else []
  | MachinesPage props =>
      SPostInvite :: flat_map (site_moves text) (props_invites props) ++ [SPostLogout]
  | _ => []
  end%list.

(** The raw text of the pages: constants of the programs. *)
Definition trusted : list RawHtml :=
  [TAILWIND_BROWSER_JS; HTMX_JS; ZINE_CSS; LOUD_CSS;
   CodeText "curl https://proletariat.tech/install.sh | bash"].

(** What assertions refuse to render. *)
Definition blank (p : Page) : bool :=
  match p with
  | MessagePage _ title _ => is_empty (trim title)
  | MachinesPage props => is_empty (props_root_domain props)
  | _ => false
  end.

Definition row_codes (p : Page) : list string :=
  match p with MachinesPage props => map row_code (props_invites props) | _ => [] end.

Lemma split_invite_action code action :
  lacks "/" code -> lacks "/" action ->
  split_on slash (invite_path code action) = [""; "auth"; "invite"; code; action].
Proof.
  intros Hc Ha. apply (split_segments [""; "auth"; "invite"; code; action]); [done|].
  repeat constructor; auto.
Qed.

Lemma submit_moves text invite :
  lacks "/" (row_code invite) ->
  map (submit web_at (types text)) (invite_forms invite) = map Some (web_moves text invite) /\
  map (submit site_at (types text)) (invite_forms invite) = map Some (site_moves text invite).
Proof.
  destruct invite as [code st pk]. cbn [row_code]. intros Hc.
  pose proof (split_invite_action code "approve" Hc ltac:(by apply contains_char_lacks)) as Ha.
  pose proof (split_invite_action code "deny" Hc ltac:(by apply contains_char_lacks)) as Hd.
  pose proof (split_invite_action code "revoke" Hc ltac:(by apply contains_char_lacks)) as Hr.
  unfold invite_forms, web_moves, site_moves. cbn [row_code row_status].
  destruct st; cbn [map]; unfold submit; cbn [fm_method fm_action fm_inputs];
    unfold web_at, site_at; rewrite ?Ha, ?Hd, ?Hr; done.
Qed.

Lemma submit_all {R} (at_ : method -> string -> list (string * string) -> option R) u
    (moves : InviteRow -> list R) (l : list InviteRow) :
  Forall (fun i => map (submit at_ u) (invite_forms i) = map Some (moves i)) l ->
  map (submit at_ u) (flat_map invite_forms l) = map Some (flat_map moves l).
Proof.
  induction 1 as [|i l Hi Hl IH]; cbn [flat_map map]; [done|]. by rewrite !map_app, Hi, IH.
Qed.

Lemma dashboard_requests text props :
  Forall (lacks "/") (map row_code (props_invites props)) ->
  map (submit web_at (types text)) (dashboard_forms props)
  = map Some (page_requests text (MachinesPage props)) /\
  map (submit site_at (types text)) (dashboard_forms props)
  = map Some (site_requests text (MachinesPage props)).
Proof.
  rewrite Forall_map. intros Hc. unfold dashboard_forms. cbn [page_requests site_requests map].
  rewrite !map_app.
  split; [rewrite (submit_all web_at _ (web_moves text))|rewrite (submit_all site_at _ (site_moves text))];
    try done; (eapply Forall_impl; [exact Hc|]); intros i Hi; by apply submit_moves.
Qed.

(** The invite a request decides on. *)
Definition decides_on (m : Web.route) : option string :=
  match m with
  | Web.PostApprove code _ | Web.PostDeny code | Web.PostRevoke code => Some code
  | _ => None
  end.

(** The rows that show [code] show it with the status [st]. *)
Definition shows (props : MachinesProps) (code : string) (st : InviteStatus) : Prop :=
  (exists i, i ∈ props_invites props /\ row_code i = code) /\
  (forall i, i ∈ props_invites props -> row_code i = code -> row_status i = st).

(** A request that decides on [code] comes from a form of the page if and only if it
    is a move of the status shown. *)
Lemma dashboard_offers text props n code st pk m :
  machines_body props = Some n -> Forall (lacks "/") (map row_code (props_invites props)) ->
  shows props code st -> decides_on m = Some code ->
  Some m ∈ map (submit web_at (types text)) (forms n)
  <-> m ∈ web_moves text (MkInviteRow code st pk).
Proof.
  intros (-> & _ & _)%machines_body_spec Hc [(i & Hi & Hci) Hst] Hm.
  destruct (dashboard_requests text props Hc) as [-> _].
  assert (forall l : list Web.route, Some m ∈ map Some l <-> m ∈ l) as ->.
  { intros l. rewrite list_elem_of_fmap. split; [by intros (y & [= <-] & Hy)|by exists m]. }
  cbn [page_requests]. rewrite elem_of_cons, elem_of_app, list_elem_of_singleton.
  assert (forall j, row_status j = st -> row_code j = code ->
            web_moves text j = web_moves text (MkInviteRow code st pk)) as Hj
    by (intros [c s k]; cbn; by intros -> ->).
  split.
  - intros [->|[H| ->]]; [done| |done].
    apply list_elem_of_In, in_flat_map in H as (j & Hin & Hmj).
    apply list_elem_of_In in Hin, Hmj.
    assert (row_code j = code) as Hcj.
    { unfold web_moves in Hmj. destruct (row_status j); set_unfold in Hmj; destruct_or?; subst m;
        try done; by injection Hm. }
    by rewrite <- (Hj j (Hst j Hin Hcj) Hcj).
  - intros H. right. left. apply list_elem_of_In, in_flat_map. exists i.
    rewrite <- !list_elem_of_In. split; [done|]. by rewrite (Hj i (Hst i Hi Hci) Hci).
Qed.

#[export] Instance web_route_eq_dec : EqDecision Web.route.
Proof. solve_decision. Defined.

(** ** The editor *)

Lemma inputs_el tag attrs l n :
  el tag attrs l = Some n -> bool_decide (tag = "input") = false ->
  inputs n = flat_map (of_view inputs) l.
Proof.
  intros (ns & -> & ->)%el_spec Ht. cbn [inputs]. rewrite Ht. apply flat_map_views.
Qed.

Definition service_input (service : EditorServiceProps) : Input :=
  MkInput "checkbox" ("svc_" ++ es_nixname service) "true" (es_enabled service).

Definition user_input (u : EditorUserProps) : Input :=
  MkInput "text" ("groups_" ++ eu_username u) (String.concat ", " (DashPages.sorted_groups (eu_groups u))) false.

Definition editor_inputs (props : EditorPageProps) : list Input :=
  (MkInput "text" "hostname" (ep_hostname props) false
   :: MkInput "text" "base_domain" (ep_base_domain props) false
   :: map service_input (ep_services props) ++ map user_input (ep_users props))%list.

Definition claim_forms (view : ClaimView) : list FormView :=
  match view with
  | ViewFailed _ | ViewUnclaimed => [MkForm "post" "/claim" [MkInput "text" "invite_url" "" false]]
  | ViewClaimed _ | ViewAwaiting => []
  end.

Lemma service_row_spec service :
  exists n, DashPages.service_row service = Some n /\
    forms n = [] /\ links n = [] /\ inputs n = [service_input service].
Proof. destruct service as [nn dn ds []]; eexists; (split; [reflexivity|]); vm_compute; done. Qed.

(** The text of the groups' input is kept apart: it is only carried. *)
Lemma user_row_spec u :
  exists n, DashPages.user_row u = Some n /\
    forms n = [] /\ links n = [] /\ inputs n = [user_input u].
Proof.
  destruct u as [un adm g pw]. unfold DashPages.user_row, user_input.
  cbn [eu_username eu_is_admin eu_has_password eu_groups].
  generalize (String.concat ", " (DashPages.sorted_groups g)). intros text.
  destruct adm, pw; eexists; (split; [reflexivity|]); vm_compute; done.
Qed.

Lemma section_card_spec {B} title (f : B -> View) (h : B -> Input) l :
  (forall x, exists n, f x = Some n /\ forms n = [] /\ links n = [] /\ inputs n = [h x]) ->
  exists n, DashPages.section_card title (map f l) = Some n /\
    forms n = [] /\ links n = [] /\ inputs n = map h l.
Proof.
  intros Hf.
  assert (exists ns, mapM id (map f l) = Some ns /\
            flat_map forms ns = [] /\ flat_map links ns = [] /\ flat_map inputs ns = map h l)
    as (ns & Hns & HF & HL & HI).
  { induction l as [|x l (ns & IH & F & L & I)]; [by exists []|].
    destruct (Hf x) as (n & Hx & F' & L' & I'). exists (n :: ns). cbn. rewrite Hx, IH.
    cbn. by rewrite F', L', I', F, L, I. }
  unfold DashPages.section_card, card, frag, el. cbn [mapM id]. cbn. rewrite Hns. cbn.
  eexists. split; [reflexivity|]. cbn. by rewrite HF, HL, HI, !app_nil_r.
Qed.

Lemma editor_form_spec props :
  exists n, DashPages.editor_form props = Some n /\
    forms n = [MkForm "post" "/" (editor_inputs props)] /\ links n = [].
Proof.
  destruct props as [host domain services users cerr saved serr remote].
  destruct (section_card_spec "Services" _ service_input services service_row_spec)
    as (ns & Hs & _ & Ls & Is).
  destruct (section_card_spec "Users" _ user_input users user_row_spec)
    as (nu & Hu & _ & Lu & Iu).
  unfold DashPages.editor_form, editor_inputs. cbn [ep_hostname ep_base_domain ep_services ep_users].
  rewrite Hs, Hu. eexists. split; [reflexivity|]. cbn. by rewrite Ls, Lu, Is, Iu, !app_nil_r.
Qed.

Lemma editor_page_spec props :
  exists n, dash_page (DashEditor props) = Some n /\
    forms n = (claim_forms (ep_remote props) ++ [MkForm "post" "/" (editor_inputs props)])%list /\
    links n = ["/auth/logout"].
Proof.
  destruct (editor_form_spec props) as (nf & Hf & Ff & Lf).
  unfold dash_page, DashPages.editor_page. rewrite Hf. clear Hf. revert Ff.
  generalize (editor_inputs props). intros inputs Ff.
  destruct props as [host domain services users cerr saved serr remote].
  cbn [ep_config_error ep_saved ep_save_error ep_remote].
  destruct cerr, saved, serr, remote; (eexists; split; [reflexivity|]); cbn;
    by rewrite Ff, Lf.
Qed.

(** ** What an untouched editor form says *)

Lemma assoc_app k (l1 l2 : list (string * string)) :
  assoc k (l1 ++ l2)%list = match assoc k l1 with Some v => Some v | None => assoc k l2 end.
Proof. induction l1 as [|[k' v] l1 IH]; cbn; [done|]. by case_bool_decide. Qed.

Lemma assoc_none k (l : list (string * string)) :
  Forall (fun p => p.1 <> k) l -> assoc k l = None.
Proof.
  induction 1 as [|[k' v] l Hk Hl IH]; cbn; [done|]. by rewrite bool_decide_eq_false_2.
Qed.

Lemma assoc_elem k v (l : list (string * string)) :
  NoDup (map fst l) -> (k, v) ∈ l -> assoc k l = Some v.
Proof.
  induction l as [|[k' v'] l IH]; cbn; intros Hnd Hin; [by apply elem_of_nil in Hin|].
  apply NoDup_cons in Hnd as [Hk Hnd]. apply elem_of_cons in Hin as [[= -> ->]|Hin].
  - by rewrite bool_decide_eq_true_2.
  - rewrite bool_decide_eq_false_2; [by apply IH|]. intros ->. apply Hk.
    apply list_elem_of_In, in_map_iff. exists (k, v). split; [done|]. by apply list_elem_of_In.
Qed.

(** The first of equal keys counts, as the map is built from the right. *)
Lemma list_to_map_assoc k (l : list (string * string)) :
  (list_to_map l : gmap string string) !! k = assoc k l.
Proof.
  induction l as [|[k' v] l IH]; cbn; [done|]. case_bool_decide as H.
  - subst. apply lookup_insert_eq.
  - by rewrite lookup_insert_ne.
Qed.

Lemma assoc_filter (keep : string * string -> bool) k l :
  (forall v, keep (k, v) = true) -> assoc k (List.filter keep l) = assoc k l.
Proof.
  intros Hk. induction l as [|[k' v] l IH]; cbn; [done|].
  destruct (bool_decide (k' = k)) eqn:E.
  - apply bool_decide_eq_true in E as ->. rewrite Hk. cbn. by rewrite bool_decide_eq_true_2.
  - destruct (keep (k', v)); [cbn; by rewrite E|done].
Qed.

(** The groups' text reads back as the groups. *)
Definition group_ok (g : string) : Prop :=
  g <> "" /\ str_forallb (fun c => negb (is_group_sep c)) g = true.

Lemma split_groups_concat l : Forall group_ok l -> split_groups (String.concat ", " l) = l.
Proof.
  induction 1 as [|g l [Hne Hg] Hl IH]; [done|].
  assert (forall tl, List.filter (fun g => negb (is_empty g)) (g :: tl)
                     = g :: List.filter (fun g => negb (is_empty g)) tl) as Hkeep.
  { intros tl. cbn. by rewrite (proj2 (is_empty_false g) Hne). }
  destruct l as [|g' l].
  - unfold split_groups. cbn [String.concat]. rewrite split_on_single by done. by rewrite Hkeep.
  - change (String.concat ", " (g :: g' :: l))
      with (g ++ String "," (String " " (String.concat ", " (g' :: l)))).
    unfold split_groups in *. rewrite split_on_app by done.
    assert (forall t, split_on is_group_sep (String " " t) = "" :: split_on is_group_sep t) as Hsp
      by (intros t; by apply (split_on_app is_group_sep " " "")).
    rewrite Hsp, Hkeep. cbn [List.filter is_empty negb]. by rewrite IH.
Qed.

Lemma sorted_groups_set (g : gset string) : list_to_set (DashPages.sorted_groups g) = g.
Proof.
  apply set_eq. intros x. rewrite elem_of_list_to_set. unfold DashPages.sorted_groups.
  by rewrite merge_sort_Permutation, elem_of_elements.
Qed.

Lemma groups_read_back (g : gset string) :
  (forall x, x ∈ g -> group_ok x) ->
  list_to_set (split_groups (String.concat ", " (DashPages.sorted_groups g))) = g.
Proof.
  intros Hg. rewrite split_groups_concat; [apply sorted_groups_set|].
  apply Forall_forall. intros x Hx. apply Hg. rewrite <- (sorted_groups_set g).
  by apply elem_of_list_to_set.
Qed.

(** The form is what the configuration says. *)
Definition says (config : FortressConfig) (form : EditorForm) : Prop :=
  form_hostname form = Some (default "" (fc_hostname config)) /\
  form_base_domain form = Some (default "" (fc_root_domain config)) /\
  (forall sv, sv ∈ SERVICE_LIST ->
     service_checked form (nixname sv)
     = default false (services_enabled config !! nixname sv)) /\
  (forall n u, (n, u) ∈ users config ->
     exists text, user_groups form n = Some text /\ list_to_set (split_groups text) = groups u).

(** A configuration as [extract] makes it, of a file whose groups are names. *)
Definition config_ok (config : FortressConfig) : Prop :=
  NoDup (map fst (users config)) /\
  Forall (fun '(n, u) => username u = n /\ forall g, g ∈ groups u -> group_ok g) (users config).

Definition untouched_pairs (config : FortressConfig) : list (string * string) :=
  (omap (fun sv => if default false (services_enabled config !! nixname sv)
                   then Some (("svc_" ++ nixname sv)%string, "true") else None) SERVICE_LIST
   ++ map (fun '(_, u) => (("groups_" ++ username u)%string,
                           String.concat ", " (DashPages.sorted_groups (groups u)))) (users config))%list.

Lemma omap_map_some {A B C} (f : B -> option C) (g : A -> B) (h : A -> C) l :
  (forall x, f (g x) = Some (h x)) -> omap f (map g l) = map h l.
Proof. intros H. induction l as [|x l IH]; cbn; [done|]. by rewrite H, IH. Qed.

Lemma pairs_editor config err saved serr remote :
  pairs untouched (editor_inputs (editor_props config err saved serr remote))
  = (("hostname", default "" (fc_hostname config))
     :: ("base_domain", default "" (fc_root_domain config)) :: untouched_pairs config)%list.
Proof.
  unfold editor_inputs, pairs, untouched_pairs, editor_props.
  cbn [ep_hostname ep_base_domain ep_services ep_users omap list_omap in_type in_name in_value untouched
       fmap option_fmap option_map].
  rewrite !bool_decide_eq_false_2 by done. cbn [fmap option_fmap option_map]. f_equal. f_equal.
  rewrite omap_app. f_equal.
  - induction SERVICE_LIST as [|sv l IH]; [done|]. cbn [map omap list_omap].
    rewrite bool_decide_eq_false_2 by done. unfold untouched at 1.
    cbn [in_type service_input in_checked es_enabled]. rewrite bool_decide_eq_true_2 by done.
    destruct (default false _); cbn; by rewrite IH.
  - rewrite map_map. apply omap_map_some. by intros [n u].
Qed.

(** A dynamic field of the form is looked up among the submitted pairs. *)
Lemma dynamic_lookup config k :
  k <> "hostname" -> k <> "base_domain" ->
  dynamic (editor_form_of (("hostname", default "" (fc_hostname config))
                           :: ("base_domain", default "" (fc_root_domain config))
                           :: untouched_pairs config)) !! k
  = assoc k (untouched_pairs config).
Proof.
  intros Hh Hb. unfold editor_form_of. cbn [dynamic]. rewrite list_to_map_assoc, assoc_filter.
  - cbn [assoc]. by rewrite !bool_decide_eq_false_2 by congruence.
  - intros v. cbn [fst]. rewrite bool_decide_eq_false_2; [done|]. by intros [].
Qed.

Lemma service_pairs config sv :
  sv ∈ SERVICE_LIST ->
  assoc ("svc_" ++ nixname sv) (untouched_pairs config)
  = if default false (services_enabled config !! nixname sv) then Some "true" else None.
Proof.
  intros Hsv. unfold untouched_pairs. rewrite assoc_app.
  rewrite (assoc_none _ (map _ (users config))); cycle 1.
  { apply Forall_map, Forall_true. intros [n u]. cbn. done. }
  unfold SERVICE_LIST in Hsv |- *. rewrite !elem_of_cons, elem_of_nil in Hsv.
  assert (forall o : option string, match o with Some v => Some v | None => None end = o) as Hid
    by (by intros []).
  rewrite Hid. cbn [omap list_omap nixname].
  destruct Hsv as [->|[->|[->|[->|[]]]]]; cbn [nixname];
    destruct (default false (services_enabled config !! "jellyfin")),
      (default false (services_enabled config !! "cryptpad")),
      (default false (services_enabled config !! "forgejo")),
      (default false (services_enabled config !! "media")); vm_compute; done.
Qed.

Lemma group_pairs config n u :
  config_ok config -> (n, u) ∈ users config ->
  assoc ("groups_" ++ n) (untouched_pairs config)
  = Some (String.concat ", " (DashPages.sorted_groups (groups u))).
Proof.
  intros [Hnd Hok] Hin. unfold untouched_pairs. rewrite assoc_app.
  rewrite (assoc_none _ (omap _ SERVICE_LIST)); cycle 1.
  { apply Forall_forall. intros [k v] (sv & _ & Hk)%list_elem_of_omap.
    destruct (default false _); [|done]. by injection Hk as <- <-. }
  rewrite Forall_forall in Hok. pose proof (Hok _ Hin) as [Hn _].
  apply assoc_elem.
  - rewrite map_map.
    rewrite (map_ext_in _ (fun p => "groups_" ++ p.1)).
    + rewrite <- map_map. apply (NoDup_fmap_2_strong (fun n => "groups_" ++ n)); [|done].
      intros x y _ _ H. cbn in H. by injection H.
    + intros [k w] Hk. cbn. apply list_elem_of_In in Hk. apply Hok in Hk as [-> _]. done.
  - apply list_elem_of_In, in_map_iff. exists (n, u). split; [by rewrite Hn|].
    by apply list_elem_of_In.
Qed.

Lemma untouched_says config :
  config_ok config ->
  says config (editor_form_of (("hostname", default "" (fc_hostname config))
                               :: ("base_domain", default "" (fc_root_domain config))
                               :: untouched_pairs config)).
Proof.
  intros Hok. split_and!; [done..| |].
  - intros sv Hsv. unfold service_checked. rewrite dynamic_lookup, service_pairs by done.
    destruct (default false _); [by rewrite bool_decide_eq_true_2|].
    by rewrite bool_decide_eq_false_2.
  - intros n u Hin. exists (String.concat ", " (DashPages.sorted_groups (groups u))).
    unfold user_groups. rewrite dynamic_lookup by done. split; [by apply group_pairs|].
    apply groups_read_back. destruct Hok as [_ Hok]. rewrite Forall_forall in Hok.
    by apply Hok in Hin as [_ Hg].
Qed.
