(* ===== verification/App.v ===== *)
(** The box's process (crates/client/src/app.rs): flags, configuration, boot, the
    runtime claim, and how the running tasks end. *)

From stdpp Require Import base gmap strings list pretty.
From Stdlib Require Import ZArith Lia Ascii.
From S2P Require Import Prelude Prog ForwarderState World Crates Web Box Health Tunnel Enroll.
From S2P Require Import Forwarder DashDb NixConfig Dashboard.

Local Open Scope prog_scope.

(** ** Flags and configuration *)

Record ConfigFile := MkConfigFile {
  cf_forwards : list Forward;
  cf_tunnel : option TunnelConfig;
  cf_invite : option InviteConfig;
}.

Record Flags := MkFlags {
  config_path : string;
  log_format : Format;
  health_addr : string;
  dashboard_addr : string;
  catalog_path : option string;
}.

(** The flags as text, before the log format is read. *)
Record RawFlags := MkRaw {
  raw_config : string;
  raw_format : string;
  raw_health : string;
  raw_dashboard : string;
  raw_catalog : option string;
}.

Definition set_flag (arg value : string) (f : RawFlags) : option RawFlags :=
  if bool_decide (arg = "-config"%string)
  then Some (MkRaw value (raw_format f) (raw_health f) (raw_dashboard f) (raw_catalog f))
  else if bool_decide (arg = "-log-format"%string)
  then Some (MkRaw (raw_config f) value (raw_health f) (raw_dashboard f) (raw_catalog f))
  else if bool_decide (arg = "-health-addr"%string)
  then Some (MkRaw (raw_config f) (raw_format f) value (raw_dashboard f) (raw_catalog f))
  else if bool_decide (arg = "-dashboard-addr"%string)
  then Some (MkRaw (raw_config f) (raw_format f) (raw_health f) value (raw_catalog f))
  else if bool_decide (arg = "-catalog"%string)
  then Some (MkRaw (raw_config f) (raw_format f) (raw_health f) (raw_dashboard f) (Some value))
  else None.

Fixpoint read_flags (component : string) (args : list string) (f : RawFlags)
    : Result RawFlags string :=
  match args with
  | [] => Ok f
  | [arg] => Err (component ++ ": flag " ++ arg ++ " requires a value")%string
  | arg :: value :: rest =>
      match set_flag arg value f with
      | Some f => read_flags component rest f
      | None => Err (component ++ ": unknown flag " ++ arg)%string
      end
  end.

Definition parse_flag_args (component default_config : string) (args : list string)
    : Result Flags string :=
  match read_flags component args
          (MkRaw default_config "text" "127.0.0.1:9090" "127.0.0.1:3210" None) with
  | Err e => Err e
  | Ok f =>
      match format_parse (raw_format f) with
      | Err e => Err (logger_error_display e)
      | Ok format =>
          Ok (MkFlags (raw_config f) format (raw_health f) (raw_dashboard f) (raw_catalog f))
      end
  end.

(** ** The boot mode *)

Inductive BootMode := Full | Claimable.

#[export] Instance BootMode_eq_dec : EqDecision BootMode.
Proof. solve_decision. Defined.

(** The assertion after it restates the match. *)
Definition boot_mode (tunnel : option TunnelConfig) (forwards : list Forward) : BootMode :=
  match tunnel, existsb forward_needs_tunnel forwards with
  | None, true => Claimable
  | _, _ => Full
  end.

(** The outer [None] is a panic. *)
Definition bindable_forwards (tunnel : option TunnelConfig) (forwards : list Forward)
    : option (option (list Forward)) :=
  match forwards with
  | [] => Some None
  | _ =>
      match (match tunnel with
             | Some t => substitute_tunnel_ip forwards t
             | None => Some forwards
             end) with
      | None => None
      | Some resolved =>
          if forallb (fun f => negb (forward_needs_tunnel f)) resolved
          then Some (Some resolved) else None
      end
  end.

Definition key_path : string := "/var/lib/fortress/wg-private.key".

(** ** The runtime claim *)

Section Claim.
Context `{CR : Crates} `{SP : Serde PersistedTunnel}.

(** [claim], for the [Restarter] it is given; restarting is not expected to
    return. *)
Definition claim (restart : prog BoxSig unit) (edge : EdgeClient)
    (invite_url key_path tunnel_state_path device_token_path : string)
    : prog BoxSig (Result unit EnrollError) :=
  assert_ (negb (is_empty invite_url)) "claim needs an invite URL" (
  match from_url invite_url with
  | Err e => Ret (Err e)
  | Ok invite =>
      _t <-? enroll edge invite key_path tunnel_state_path device_token_path 5 10000 as (fun e => e) ;;
      restart ;;;
      Ret (Ok tt)
  end).

(** The task [spawn_claim] starts. *)
Definition claim_task `{JT : JsonText} (restart : prog BoxSig unit)
    (key_path tunnel_state_path device_token_path url : string) : prog BoxSig unit :=
  let failed message := @call BoxSig (ClaimSet (ClaimFailed message)) in
  match HttpEdgeClient.new url with
  | Err err => failed (enroll_error_display err)
  | Ok edge =>
      result <- claim restart edge url key_path tunnel_state_path device_token_path ;;
      match result with
      | Ok _ => Ret tt
      | Err EnrDenied => failed "the owner denied this machine's enrollment"%string
      | Err other => failed (enroll_error_display other)
      end
  end.

(** The restarter of production: the image of the process is replaced by its own
    command line.  [exec] returns only when it failed. *)
Definition process_restart (argv : list string) : prog BoxSig unit :=
  match argv with
  | [] => Panic "restart requires argv[0]"
  | arg0 :: rest =>
      err <- @call BoxSig (ReExec arg0 rest) ;;
      Panic ("re-exec of this process failed: " ++ io_text err)
  end.

(** What the dashboard of a running box is given: its claims, and the task that a
    submitted link starts. *)
Definition claim_support : ClaimSupport := MkClaimSupport tunnel_state_path.

Definition spawn_claim `{JT : JsonText} (argv : list string) (url : string) : prog BoxSig unit :=
  claim_task (process_restart argv) key_path tunnel_state_path device_token_path url.
End Claim.

(** ** Boot *)

(** What a box that has booted runs. *)
Record Booted := MkBooted {
  bt_flags : Flags;
  bt_admin : DashAuth.AdminConfig;
  bt_tunnel : option TunnelConfig;
  bt_forwarder : option Forwarder;
  bt_catalog : list CatalogEntry;
  bt_config_path : ConfigPath;
}.

Inductive Boot := Exited (code : Z) | Running (b : Booted).

Module App.
Section App.
Context `{CR : Crates} `{SP : Serde PersistedTunnel} `{SC : Serde ConfigFile}.
Context `{SL : Serde (list CatalogEntry)} `{JT : JsonText}.

(** Go on with a value, or exit with code 1. *)
Definition or_exit {A E} (r : Result A E) (k : A -> prog BoxSig Boot) : prog BoxSig Boot :=
  match r with Ok a => k a | Err _ => Ret (Exited 1) end.

(** The tunnel of a box that is not enrolled: the invite of the configuration, or its
    static tunnel. *)
Definition enroll_or_static (cfg : ConfigFile)
    : prog BoxSig (Result (option TunnelConfig) EnrollError) :=
  match cf_invite cfg with
  | Some invite =>
      match HttpEdgeClient.new (invite_url invite) with
      | Err err => Ret (Err err)
      | Ok edge =>
          t <-? enroll edge invite key_path tunnel_state_path device_token_path 5 10000
            as (fun e => e) ;;
          Ret (Ok (Some t))
      end
  | None => Ret (Ok (cf_tunnel cfg))
  end.

(** A persisted enrollment comes first. *)
Definition resolve_tunnel (cfg : ConfigFile) : prog BoxSig (Result (option TunnelConfig) EnrollError) :=
  persisted <- persisted_tunnel_state tunnel_state_path ;;
  match persisted with
  | Some persisted => Ret (Ok (Some (pt_tunnel persisted)))
  | None => enroll_or_static cfg
  end.

Definition bring_up (tunnel : option TunnelConfig) : prog BoxSig (Result unit TunnelError) :=
  match tunnel with
  | None => Ret (Ok tt)
  | Some t =>
      _k <-? ensure_keypair key_path as (fun e => e) ;;
      bring_up_wg0 t key_path
  end.

(** The forwarder, in mode [Full] and with something to forward. *)
Definition build_forwarder (component : string) (tunnel : option TunnelConfig) (cfg : ConfigFile)
    : prog BoxSig (Result (option Forwarder) ConfigError) :=
  match boot_mode tunnel (cf_forwards cfg) with
  | Claimable => Ret (Ok None)
  | Full =>
      expect (bindable_forwards tunnel (cf_forwards cfg))
        "claimable mode gates every forward that still needs a tunnel" (fun o =>
        match o with
        | None => Ret (Ok None)
        | Some resolved =>
            now <- @call BoxSig BoxNow ;;
            Ret (match ForwarderState.new
                         (MkConfig resolved 30000 30000 300000 component None) now with
                 | Ok f => Ok (Some f)
                 | Err e => Err e
                 end)
        end)
  end.

Definition load_catalog (path : option string) : prog BoxSig (Result (list CatalogEntry) string) :=
  match path with
  | Some path => catalog_load path
  | None => Ret (Ok [])
  end.

(** The session store opens, or the process does not run. *)
Definition open_dashboard : prog BoxSig (Result ConfigPath string) :=
  db <- @call BoxSig DbOpen ;;
  match db with
  | Ok _ => path <- resolve ;; Ret (Ok path)
  | Err err => Ret (Err err)
  end.

(** [run], up to the point where its tasks are started. *)
Definition run (component default_config : string) (args : list string) : prog BoxSig Boot :=
  or_exit (parse_flag_args component default_config args) (fun flags =>
  data <- @call BoxSig (ReadFile (config_path flags)) ;;
  or_exit data (fun data =>
  or_exit (from_json data) (fun cfg : ConfigFile =>
  if bool_decide (is_Some (cf_tunnel cfg)) && bool_decide (is_Some (cf_invite cfg))
  then Ret (Exited 1)
  else
    admin <- DashAuth.from_env ;;
    match admin with
    | None => Ret (Exited 1)
    | Some admin =>
        tunnel <- resolve_tunnel cfg ;;
        or_exit tunnel (fun tunnel =>
        up <- bring_up tunnel ;;
        or_exit up (fun _ =>
        forwarder <- build_forwarder component tunnel cfg ;;
        or_exit forwarder (fun forwarder =>
        catalog <- load_catalog (catalog_path flags) ;;
        or_exit catalog (fun catalog =>
        path <- open_dashboard ;;
        or_exit path (fun path =>
        Ret (Running (MkBooted flags admin tunnel forwarder catalog path)))))))
    end))).

(** [main] of the binary, for the command line of the process. *)
Definition main (argv : list string) : prog BoxSig Boot :=
  run "fortress-client" "/etc/fortress-client.json" (tail argv).
End App.
End App.

(** What the health server asks: the statistics of the forwarder, when there is one. *)
Definition status_func `{ST : StatusText} (forwarder : option Forwarder) : prog EdgeSig Json :=
  match forwarder with
  | Some f => st <- stats f ;; Ret (stats_json st)
  | None => Ret claimable_status
  end.

(** ** The running tasks *)

(** An HTTP server on a listener: it accepts until the shutdown, then waits for the
    connections that are still open. *)
Inductive Server :=
| SrvBinding
| SrvListening (conns : nat)
| SrvDraining (conns : nat)
| SrvEnded.

Inductive server_event := Opens | Closes | Runs.

(** [run_with_graceful_shutdown]: [down] is the signal future, [grace] the time it
    gives the open connections, in milliseconds; without one it waits for them.  The
    server is over at once when its address is empty, and when its bind or its
    accept loop fails. *)
Inductive server_step (grace : option Z) (down : Prop) : server_event -> Server -> Server -> Prop :=
| srv_bound : server_step grace down Runs SrvBinding (SrvListening 0)
| srv_over_unbound : server_step grace down Runs SrvBinding SrvEnded
| srv_over n : server_step grace down Runs (SrvListening n) SrvEnded
| srv_accepts n : server_step grace down Opens (SrvListening n) (SrvListening (S n))
| srv_closes n : server_step grace down Closes (SrvListening (S n)) (SrvListening n)
| srv_drain n : down -> server_step grace down Runs (SrvListening n) (SrvDraining n)
| srv_drains n : server_step grace down Closes (SrvDraining (S n)) (SrvDraining n)
| srv_drained : server_step grace down Runs (SrvDraining 0) SrvEnded
| srv_grace_over n : is_Some grace -> server_step grace down Runs (SrvDraining n) SrvEnded.

(** [HealthServer::run] gives its connections five seconds, [dashboard::serve] all
    the time they take. *)
Definition health_grace : option Z := Some 5000%Z.
Definition dashboard_grace : option Z := None.

(** It has a connection that can send a request. *)
Definition connected (v : Server) : bool :=
  match v with SrvListening (S _) | SrvDraining (S _) => true | _ => false end.

(** What [run] awaits first, for its exit code: [Forwarder::run], which binds its
    forwards in turn, or, without a forwarder, the shutdown. *)
Inductive Awaited :=
| AwNone
| AwBinding (todo : nat)
| AwServing
| AwDraining
| AwOver (code : Z).

(** A bind that fails for good is code 1; the drain is over when the tasks are, and by
    [shutdown_timeout] at the latest. *)
Inductive awaited_step (down : Prop) : Awaited -> Awaited -> Prop :=
| aw_released : down -> awaited_step down AwNone (AwOver 0)
| aw_bound n : awaited_step down (AwBinding (S n)) (AwBinding n)
| aw_bind_failed n : awaited_step down (AwBinding (S n)) (AwOver 1)
| aw_running : awaited_step down (AwBinding 0) AwServing
| aw_shutdown : down -> awaited_step down AwServing AwDraining
| aw_drained : awaited_step down AwDraining (AwOver 0).

(** The signal task owns the sender of the shutdown: it sends on SIGINT or SIGTERM; when
    a handler cannot be installed it panics, and the sender is dropped. *)
Inductive SignalTask := SigWaiting | SigSent | SigPanicked.

(** Where [run] is: its awaits, in their order, and the code it returns. *)
Inductive RunAt :=
| AtForwarder
| AtHealth (code : Z)
| AtDashboard (code : Z)
| AtSignal (code : Z)
| Returned (code : Z).

Record Serving := MkServing {
  sv_signal : SignalTask;
  sv_health : Server;
  sv_dashboard : Server;
  sv_forwarder : Awaited;
  sv_main : RunAt;
}.

(** [forwards] is the number of the forwarder's forwards, when there is one. *)
Definition serving_start (forwards : option nat) : Serving :=
  MkServing SigWaiting SrvBinding SrvBinding
    (match forwards with Some n => AwBinding n | None => AwNone end) AtForwarder.

(** Whether [wait_for(|v| *v)] on a receiver is over: the value was sent, or the sender
    is gone. *)
Definition down (s : Serving) : Prop := sv_signal s <> SigWaiting.

Inductive serve_event :=
| ByHealth (e : server_event)
| ByDashboard (e : server_event)
| ByRest.

Inductive serve_step : serve_event -> Serving -> Serving -> Prop :=
| serve_signal h d f m :
    serve_step ByRest (MkServing SigWaiting h d f m) (MkServing SigSent h d f m)
| serve_no_handler h d f m :
    serve_step ByRest (MkServing SigWaiting h d f m) (MkServing SigPanicked h d f m)
| serve_health e g h h' d f m :
    server_step health_grace (g <> SigWaiting) e h h' ->
    serve_step (ByHealth e) (MkServing g h d f m) (MkServing g h' d f m)
| serve_dashboard e g h d d' f m :
    server_step dashboard_grace (g <> SigWaiting) e d d' ->
    serve_step (ByDashboard e) (MkServing g h d f m) (MkServing g h d' f m)
| serve_forwarder g h d f f' m :
    awaited_step (g <> SigWaiting) f f' ->
    serve_step ByRest (MkServing g h d f m) (MkServing g h d f' m)
| await_forwarder g h d code :
    serve_step ByRest (MkServing g h d (AwOver code) AtForwarder)
      (MkServing g h d (AwOver code) (AtHealth code))
| await_health g d f code :
    serve_step ByRest (MkServing g SrvEnded d f (AtHealth code))
      (MkServing g SrvEnded d f (AtDashboard code))
| await_dashboard g h f code :
    serve_step ByRest (MkServing g h SrvEnded f (AtDashboard code))
      (MkServing g h SrvEnded f (AtSignal code))
| await_signal g h d f code :
    g <> SigWaiting ->
    serve_step ByRest (MkServing g h d f (AtSignal code)) (MkServing g h d f (Returned code)).

(** The exit code, when [run] has returned. *)
Definition returned (s : Serving) : option Z :=
  match sv_main s with Returned code => Some code | _ => None end.
