(* ===== verification/NixProofs.v ===== *)
(** Lemmas on the editor of the Nix file: the search as a left-to-right scan, the
    descent to the deepest set of a path, what an edit does to the tree, the trees up to
    byte ranges, the literals, and the laws of the grammar ([RnixLaws]) by which an
    edit of the text is an edit of the tree. *)

From stdpp Require Import base gmap strings list sorting.
From Stdlib Require Import ZArith Lia Ascii.
From S2P Require Import Prelude NixConfig.

Abbreviation entries := (list (Entry Expr)).

(** ** The scan *)

(** [find_in_attrset] depends on the entries alone. *)
Definition find_entries (es : entries) (path : list string) : option Expr :=
  find_in_value (EAttrSet (MkSpan 0 0) es) path.

Lemma find_in_value_set sp es path : find_in_value (EAttrSet sp es) path = find_entries es path.
Proof. done. Qed.

Lemma find_attrset_entries s path : find_in_attrset s path = find_entries (set_entries s) path.
Proof. done. Qed.

(** The names of an entry apply to the path. *)
Definition names_apply (names path : list string) : bool :=
  negb (Nat.eqb (length names) 0 || Nat.ltb (length path) (length names)
        || negb (zip_eq names path)).

Lemma zip_eq_app names rest : zip_eq names (names ++ rest) = true.
Proof. induction names as [|n names IH]; cbn; [done|]. by rewrite bool_decide_eq_true_2, IH. Qed.

Lemma names_apply_spec names path :
  names_apply names path = true <-> names <> [] /\ exists rest, path = names ++ rest.
Proof.
  unfold names_apply. rewrite negb_true_iff, !orb_false_iff, negb_false_iff.
  rewrite Nat.eqb_neq, Nat.ltb_ge. split.
  - intros [[Hn Hl] Hz]. split; [by intros ->|].
    clear Hn. revert path Hl Hz. induction names as [|n names IH]; intros path Hl Hz.
    + by exists path.
    + destruct path as [|p path]; cbn in *; [lia|].
      apply andb_true_iff in Hz as [Hp Hz]. apply bool_decide_eq_true in Hp as ->.
      destruct (IH path) as [rest ->]; [lia|done|]. by exists rest.
  - intros [Hn [rest ->]]. rewrite length_app, zip_eq_app. repeat split; [|lia].
    destruct names; [done|cbn; lia].
Qed.

(** One step of the scan. *)
Lemma find_entries_cons e es path :
  find_entries (e :: es) path =
  match e with
  | Inherit _ => find_entries es path
  | AttrpathValue _ None _ => None
  | AttrpathValue _ (Some attrs) value =>
      let names := attr_names attrs in
      if negb (names_apply names path) then find_entries es path
      else v ← value;
           if Nat.eqb (length names) (length path) then Some v
           else match find_in_value v (drop (length names) path) with
                | Some found => Some found
                | None => find_entries es path
                end
  end.
Proof.
  destruct e as [sp [attrs|] value|sp]; [|done..]. unfold names_apply. rewrite negb_involutive.
  unfold find_entries. cbn [find_in_value]. cbv zeta. destruct (_ || _ || _); [done|].
  by destruct value.
Qed.

(** An entry the scan passes over. *)
Definition skips (path : list string) (e : Entry Expr) : Prop :=
  match e with
  | Inherit _ => True
  | AttrpathValue _ None _ => False
  | AttrpathValue _ (Some attrs) value =>
      let names := attr_names attrs in
      names_apply names path = false \/
      exists v, value = Some v /\ length names <> length path /\
                find_in_value v (drop (length names) path) = None
  end.

Lemma find_skip path e es : skips path e -> find_entries (e :: es) path = find_entries es path.
Proof.
  rewrite find_entries_cons. destruct e as [sp [attrs|] value|sp]; cbn; try done.
  intros [->|(v & -> & Hl & Hf)]; [done|]. destruct (negb _); [done|]. cbn.
  apply Nat.eqb_neq in Hl as ->. by rewrite Hf.
Qed.

Lemma find_skips path pre es :
  Forall (skips path) pre -> find_entries (pre ++ es) path = find_entries es path.
Proof.
  intros Hp. induction Hp as [|e pre He Hp IH]; [done|].
  cbn [app]. by rewrite find_skip.
Qed.

(** An error-free tree has no holes. *)
Fixpoint complete (e : Expr) : Prop :=
  match e with
  | EAttrSet _ es =>
      (fix go (es : entries) : Prop :=
         match es with
         | [] => True
         | Inherit _ :: rest => go rest
         | AttrpathValue _ (Some _) (Some v) :: rest => complete v /\ go rest
         | AttrpathValue _ _ _ :: _ => False
         end) es
  | _ => True
  end.

Definition complete_entries (es : entries) : Prop := complete (EAttrSet (MkSpan 0 0) es).

Definition complete_entry (e : Entry Expr) : Prop :=
  match e with
  | Inherit _ => True
  | AttrpathValue _ (Some _) (Some v) => complete v
  | _ => False
  end.

Lemma complete_cons e es :
  complete_entries (e :: es) <-> complete_entry e /\ complete_entries es.
Proof. destruct e as [sp [attrs|] [v|]|sp]; cbn; tauto. Qed.

Lemma complete_forall es : complete_entries es <-> Forall complete_entry es.
Proof.
  induction es as [|e es IH]; [by split|]. by rewrite complete_cons, Forall_cons, IH.
Qed.

(** An entry the scan stops at: its names are the path, or the start of a path
    that goes on inside its value. *)
Definition hit (path : list string) (node : Expr) (attrs : list Attr) (v : Expr) : Prop :=
  attr_names attrs <> [] /\
  exists rest, path = attr_names attrs ++ rest /\
    (rest = [] /\ v = node \/ rest <> [] /\ find_in_value v rest = Some node).

(** What the scan finds, it finds in an entry with nothing before it that
    counts. *)
Lemma find_split es path node :
  find_entries es path = Some node ->
  exists pre sp attrs v post,
    es = pre ++ AttrpathValue sp (Some attrs) (Some v) :: post /\
    Forall (skips path) pre /\ hit path node attrs v.
Proof.
  induction es as [|e es IH]; [done|]. rewrite find_entries_cons.
  assert (skips path e -> find_entries es path = Some node ->
          exists pre sp attrs v post,
            e :: es = pre ++ AttrpathValue sp (Some attrs) (Some v) :: post /\
            Forall (skips path) pre /\ hit path node attrs v) as Hnext.
  { intros Hs H. destruct (IH H) as (pre & sp & attrs & v & post & -> & Hp & H1).
    exists (e :: pre), sp, attrs, v, post. split_and!; [done|by constructor|done]. }
  destruct e as [sp [attrs|] value|sp]; [|done|by apply Hnext].
  cbv zeta. destruct (names_apply (attr_names attrs) path) eqn:Ha; cbn [negb];
    [|apply Hnext; by left].
  destruct value as [v|]; [cbn|done].
  pose proof Ha as (Hn & rest & Hpath)%names_apply_spec.
  assert (length (attr_names attrs) = length path <-> rest = []) as Hlen.
  { rewrite Hpath, length_app. destruct rest; cbn; split; [done|lia|lia|done]. }
  assert (drop (length (attr_names attrs)) path = rest) as Hdrop
    by (rewrite Hpath; apply drop_app_length).
  destruct (Nat.eqb_spec (length (attr_names attrs)) (length path)) as [He|He].
  - intros [= ->]. exists [], sp, attrs, node, es. split_and!; [done|done|].
    split; [done|]. exists rest. split; [done|]. left. tauto.
  - destruct (find_in_value v _) as [found|] eqn:Hf.
    + intros [= ->]. exists [], sp, attrs, v, es. split_and!; [done|done|].
      split; [done|]. exists rest. split; [done|]. right. rewrite Hdrop in Hf. tauto.
    + apply Hnext. right. by exists v.
Qed.

Lemma find_hit path node sp attrs v es :
  hit path node attrs v ->
  find_entries (AttrpathValue sp (Some attrs) (Some v) :: es) path = Some node.
Proof.
  intros (Hn & rest & -> & H). rewrite find_entries_cons. cbv zeta.
  rewrite (proj2 (names_apply_spec _ _)) by (split; [done|by exists rest]). cbn.
  rewrite length_app, drop_app_length. destruct H as [[-> ->]|[Hr ->]].
  - cbn. by rewrite Nat.add_0_r, Nat.eqb_refl.
  - destruct (Nat.eqb_spec (length (attr_names attrs)) (length (attr_names attrs) + length rest));
      [destruct rest; [done|cbn in *; lia]|done].
Qed.

(** ** Edits of the tree *)

(** The entries [es] with the value of [path] replaced by [new], or with a new
    entry for what is left of [path] at the end of the deepest set on it. *)
Inductive edited (new : Expr) : list string -> entries -> entries -> Prop :=
| edited_here pre sp attrs v post path :
    Forall (skips path) pre -> path <> [] -> attr_names attrs = path ->
    edited new path (pre ++ AttrpathValue sp (Some attrs) (Some v) :: post)
                    (pre ++ AttrpathValue sp (Some attrs) (Some new) :: post)
| edited_new es sp attrs path :
    Forall (skips path) es -> path <> [] -> attr_names attrs = path ->
    edited new path es (es ++ [AttrpathValue sp (Some attrs) (Some new)])
| edited_in pre sp attrs ssp es es' post rest :
    Forall (skips (attr_names attrs ++ rest)) pre ->
    attr_names attrs <> [] -> rest <> [] -> edited new rest es es' ->
    edited new (attr_names attrs ++ rest)
      (pre ++ AttrpathValue sp (Some attrs) (Some (EAttrSet ssp es)) :: post)
      (pre ++ AttrpathValue sp (Some attrs) (Some (EAttrSet ssp es')) :: post).

Lemma hit_here path node attrs :
  path <> [] -> attr_names attrs = path -> hit path node attrs node.
Proof.
  intros Hp Hn. split; [by rewrite Hn|]. exists []. rewrite app_nil_r. split; [done|]. by left.
Qed.

(** After the edit the path leads to the new value. *)
Lemma edited_find new path es es' : edited new path es es' -> find_entries es' path = Some new.
Proof.
  intros He. induction He as [pre sp attrs v post path Hpre Hp Hn
                             |es sp attrs path Hes Hp Hn
                             |pre sp attrs ssp es es' post rest Hpre Hn Hr He IH].
  - rewrite find_skips by done. apply find_hit. by apply hit_here.
  - rewrite find_skips by done. apply find_hit. by apply hit_here.
  - rewrite find_skips by done. apply find_hit. split; [done|]. exists rest.
    split; [done|]. right. by rewrite find_in_value_set.
Qed.

(** Neither path continues the other. *)
Definition apart (p q : list string) : Prop := ~ p `prefix_of` q /\ ~ q `prefix_of` p.

Lemma apart_app n p q : apart (n ++ p) (n ++ q) -> apart p q.
Proof. intros [H1 H2]. split; intros H; [apply H1|apply H2]; by apply prefix_app. Qed.

Lemma find_change pre e e' post q :
  (forall rest, find_entries (e :: rest) q = find_entries (e' :: rest) q) ->
  find_entries (pre ++ e :: post) q = find_entries (pre ++ e' :: post) q.
Proof.
  intros He. induction pre as [|x pre IH]; [apply He|].
  cbn [app]. by rewrite !(find_entries_cons x), IH.
Qed.

Lemma names_apply_false names q : names <> [] -> ~ names `prefix_of` q -> names_apply names q = false.
Proof.
  intros Hn Hq. apply not_true_iff_false. intros (_ & rest & ->)%names_apply_spec.
  apply Hq. by exists rest.
Qed.

(** No other path notices. *)
Lemma edited_frame new path es es' :
  edited new path es es' -> forall q, apart path q -> find_entries es' q = find_entries es q.
Proof.
  intros He. induction He as [pre sp attrs v post path Hpre Hp Hn
                             |es sp attrs path Hes Hp Hn
                             |pre sp attrs ssp es es' post rest Hpre Hn Hr He IH]; intros q Hq.
  - apply find_change. intros rest. rewrite !find_entries_cons. cbv zeta.
    rewrite names_apply_false; [done|by rewrite Hn|rewrite Hn; apply Hq].
  - clear Hes. induction es as [|x es IH]; cbn [app].
    + rewrite find_entries_cons. cbv zeta.
      rewrite names_apply_false; [done|by rewrite Hn|rewrite Hn; apply Hq].
    + by rewrite !(find_entries_cons x), IH.
  - apply find_change. intros tl. rewrite !find_entries_cons. cbv zeta.
    destruct (names_apply (attr_names attrs) q) eqn:Ha; cbn [negb]; [|done].
    apply names_apply_spec in Ha as (_ & q' & ->). cbn [mbind option_bind].
    rewrite length_app, drop_app_length.
    destruct (Nat.eqb_spec (length (attr_names attrs)) (length (attr_names attrs) + length q'))
      as [Hl|_].
    + destruct q'; [|cbn in Hl; lia]. destruct Hq as [_ Hq]. destruct Hq.
      rewrite app_nil_r. by exists rest.
    + by rewrite !find_in_value_set, IH by (by eapply apart_app).
Qed.

(** ** Edits by byte range *)

(** The ranges of the values an attribute path can lead to. *)
Fixpoint value_spans (e : Expr) : list Span :=
  match e with
  | EAttrSet _ es =>
      (fix go (es : entries) : list Span :=
         match es with
         | [] => []
         | AttrpathValue _ _ (Some v) :: rest => text_range v :: value_spans v ++ go rest
         | _ :: rest => go rest
         end) es
  | _ => []
  end.

Definition entries_spans (es : entries) : list Span := value_spans (EAttrSet (MkSpan 0 0) es).
Definition entry_spans (e : Entry Expr) : list Span :=
  match e with
  | AttrpathValue _ _ (Some v) => text_range v :: value_spans v
  | _ => []
  end.

Lemma entries_spans_cons e es : entries_spans (e :: es) = entry_spans e ++ entries_spans es.
Proof. by destruct e as [sp attrs [v|]|sp]. Qed.

Lemma entries_spans_app a b : entries_spans (a ++ b) = entries_spans a ++ entries_spans b.
Proof.
  induction a as [|e a IH]; [done|]. cbn [app]. by rewrite !entries_spans_cons, IH, app_assoc.
Qed.

(** Replace the value at a range; put an entry at the end of the set at a range. *)
Fixpoint replace_value (at_ : Span) (new : Expr) (e : Expr) : Expr :=
  match e with
  | EAttrSet sp es =>
      EAttrSet sp
        ((fix go (es : entries) : entries :=
            match es with
            | [] => []
            | AttrpathValue esp attrs (Some v) :: rest =>
                AttrpathValue esp attrs
                  (Some (if decide (text_range v = at_) then new else replace_value at_ new v))
                :: go rest
            | x :: rest => x :: go rest
            end) es)
  | _ => e
  end.

Fixpoint append_entry (at_ : Span) (x : Entry Expr) (e : Expr) : Expr :=
  match e with
  | EAttrSet sp es =>
      let es' := (fix go (es : entries) : entries :=
            match es with
            | [] => []
            | AttrpathValue esp attrs (Some v) :: rest =>
                AttrpathValue esp attrs (Some (append_entry at_ x v)) :: go rest
            | y :: rest => y :: go rest
            end) es in
      EAttrSet sp (if decide (sp = at_) then es' ++ [x] else es')
  | _ => e
  end.

Definition replace_entry (at_ : Span) (new : Expr) (e : Entry Expr) : Entry Expr :=
  match e with
  | AttrpathValue esp attrs (Some v) =>
      AttrpathValue esp attrs
        (Some (if decide (text_range v = at_) then new else replace_value at_ new v))
  | x => x
  end.

Definition append_in_entry (at_ : Span) (x : Entry Expr) (e : Entry Expr) : Entry Expr :=
  match e with
  | AttrpathValue esp attrs (Some v) => AttrpathValue esp attrs (Some (append_entry at_ x v))
  | y => y
  end.

Lemma replace_value_set at_ new sp es :
  replace_value at_ new (EAttrSet sp es) = EAttrSet sp (map (replace_entry at_ new) es).
Proof.
  cbn. f_equal. induction es as [|[esp attrs [v|]|esp] es IH]; cbn; by rewrite ?IH.
Qed.

Lemma append_entry_set at_ x sp es :
  append_entry at_ x (EAttrSet sp es)
  = EAttrSet sp (map (append_in_entry at_ x) es ++ (if decide (sp = at_) then [x] else [])).
Proof.
  cbn. assert (forall l, l = map (append_in_entry at_ x) es ->
    EAttrSet sp (if decide (sp = at_) then l ++ [x] else l)
    = EAttrSet sp (map (append_in_entry at_ x) es ++ (if decide (sp = at_) then [x] else [])))
    as H by (intros l ->; destruct (decide _); by rewrite ?app_nil_r).
  apply H. clear H. induction es as [|[esp attrs [v|]|esp] es IH]; cbn; by rewrite ?IH.
Qed.

Definition entry_all (P : Expr -> Prop) (x : Entry Expr) : Prop :=
  match x with AttrpathValue _ _ (Some v) => P v | _ => True end.

(** Induction on the sets of a tree. *)
Lemma set_ind (P : Expr -> Prop) :
  (forall sp es, Forall (entry_all P) es -> P (EAttrSet sp es)) ->
  (forall e, match e with EAttrSet _ _ => False | _ => True end -> P e) ->
  forall e, P e.
Proof.
  intros Hset Hleaf. fix rec 1. intros e. destruct e as [sp es|sp b|sp b|sp b|sp t|sp t|sp t|sp].
  1: { apply Hset. induction es as [|[esp attrs [v|]|esp] es IH]; constructor; try done.
       apply rec. }
  all: by apply Hleaf.
Qed.

Lemma map_same {A} (f : A -> A) (l : list A) : Forall (fun x => f x = x) l -> map f l = l.
Proof. induction 1 as [|x l Hx Hl IH]; [done|]. cbn. by rewrite Hx, IH. Qed.

Lemma replace_absent at_ new e : at_ ∉ value_spans e -> replace_value at_ new e = e.
Proof.
  induction e as [sp es IH|e He] using set_ind; [|by destruct e].
  rewrite replace_value_set. change (value_spans (EAttrSet sp es)) with (entries_spans es).
  intros Hin. f_equal. apply map_same. induction IH as [|x es Hx IH IH2]; [constructor|].
  rewrite entries_spans_cons, elem_of_app in Hin. constructor; [|apply IH2; tauto].
  destruct x as [esp attrs [v|]|esp]; cbn in *; [|done..].
  rewrite elem_of_cons in Hin. rewrite decide_False by naive_solver. rewrite Hx by tauto. done.
Qed.

Lemma replace_entries_absent at_ new es :
  at_ ∉ entries_spans es -> map (replace_entry at_ new) es = es.
Proof.
  intros Hin. pose proof (replace_absent at_ new (EAttrSet (MkSpan 0 0) es) Hin) as H.
  rewrite replace_value_set in H. by injection H.
Qed.

Lemma append_absent at_ x e :
  at_ <> text_range e -> at_ ∉ value_spans e -> append_entry at_ x e = e.
Proof.
  induction e as [sp es IH|e He] using set_ind; [|by destruct e]. intros Hne.
  rewrite append_entry_set. rewrite decide_False by (cbn in Hne; congruence).
  rewrite app_nil_r. change (value_spans (EAttrSet sp es)) with (entries_spans es).
  intros Hin. f_equal. apply map_same. induction IH as [|y es Hy IH IH2]; [constructor|].
  rewrite entries_spans_cons, elem_of_app in Hin. constructor; [|apply IH2; tauto].
  destruct y as [esp attrs [v|]|esp]; cbn in *; [|done..].
  rewrite elem_of_cons in Hin. rewrite Hy by tauto. done.
Qed.

Lemma append_entries_absent at_ x es :
  at_ ∉ entries_spans es -> map (append_in_entry at_ x) es = es.
Proof.
  intros Hin. apply map_same, Forall_forall. intros y Hy.
  destruct y as [esp attrs [v|]|esp]; cbn; [|done..]. rewrite append_absent; [done| |];
    intros H; apply Hin; apply list_elem_of_In, in_split in Hy as (a & b & ->);
    rewrite entries_spans_app, entries_spans_cons, !elem_of_app; right; left; cbn;
    rewrite elem_of_cons; [by left|by right].
Qed.

(** What the scan finds is a value of the tree. *)
Lemma find_in_spans es path node :
  find_entries es path = Some node -> text_range node ∈ entries_spans es.
Proof.
  remember (length path) as n eqn:Hn. revert es path Hn.
  induction (lt_wf n) as [n _ IH]. intros es path -> H.
  apply find_split in H as (pre & sp & attrs & v & post & -> & _ & Hne & rest & -> & H).
  rewrite entries_spans_app, entries_spans_cons, !elem_of_app. right; left. cbn.
  rewrite elem_of_cons. destruct H as [[_ ->]|[_ H]]; [by left|right].
  destruct v as [ssp es| | | | | | |]; try done. rewrite find_in_value_set in H.
  eapply (IH (length rest)); [|done|exact H].
  rewrite length_app. destruct (attr_names attrs); [done|cbn; lia].
Qed.

(** The three places of a range in a list of entries with distinct ranges. *)
Lemma spans_parts pre x post :
  NoDup (entries_spans (pre ++ x :: post)) ->
  NoDup (entry_spans x) /\
  forall sp, sp ∈ entry_spans x -> sp ∉ entries_spans pre /\ sp ∉ entries_spans post.
Proof.
  rewrite entries_spans_app, entries_spans_cons, !NoDup_app.
  intros (Hp & Hd & Hx & Hd2 & Hq). split; [done|]. intros sp Hsp. split.
  - intros Hin. apply (Hd sp Hin). rewrite elem_of_app. by left.
  - by apply Hd2.
Qed.

(** Replacing the range of what [path] finds is an edit of [path]. *)
Lemma replace_edited new es path node :
  NoDup (entries_spans es) -> find_entries es path = Some node ->
  edited new path es (map (replace_entry (text_range node) new) es).
Proof.
  remember (length path) as n eqn:Hn. revert es path Hn.
  induction (lt_wf n) as [n _ IH]. intros es path -> Hnd H.
  apply find_split in H as (pre & sp & attrs & v & post & -> & Hpre & Hne & rest & -> & H).
  apply spans_parts in Hnd as [Hx Hout]. rewrite map_app. cbn [map replace_entry].
  assert (text_range node ∈ entry_spans (AttrpathValue sp (Some attrs) (Some v))) as Hin.
  { cbn. rewrite elem_of_cons. destruct H as [[_ ->]|[_ H]]; [by left|right].
    destruct v as [ssp es| | | | | | |]; try done. by apply find_in_spans in H. }
  destruct (Hout _ Hin) as [H1 H2]. rewrite !replace_entries_absent by done.
  destruct H as [[-> ->]|[Hr H]].
  - rewrite decide_True by done. apply edited_here; rewrite ?app_nil_r; try done.
    by rewrite app_nil_r in Hpre.
  - destruct v as [ssp es| | | | | | |]; try done. rewrite find_in_value_set in H.
    cbn [entry_spans] in Hx. apply NoDup_cons in Hx as [Hx1 Hx2].
    apply find_in_spans in H as Hs. rewrite decide_False by (intros Heq; apply Hx1; by rewrite Heq).
    rewrite replace_value_set. apply edited_in; [done..|].
    eapply (IH (length rest)); [|done|done|done].
    rewrite length_app. destruct (attr_names attrs); [done|cbn; lia].
Qed.

(** ** The descent to an insertion point *)

Definition descend_entries (sp : Span) (all es : entries) (path : list string)
    : option InsertPoint :=
  (fix go (es : entries) : option InsertPoint :=
     match es with
     | [] => Some (MkInsertPoint (MkAttrSet sp all) path)
     | Inherit _ :: rest => go rest
     | AttrpathValue _ None _ :: rest => go rest
     | AttrpathValue _ (Some attrs) value :: rest =>
         let names := attr_names attrs in
         if Nat.eqb (length names) 0 || Nat.ltb (length path) (length names)
         then if negb (Nat.eqb (length names) 0) && is_strict_prefix path names
              then None else go rest
         else if negb (zip_eq names path) then go rest
         else
           match value with
           | None => go rest
           | Some v =>
               if Nat.eqb (length names) (length path) then None
               else match v with
                    | EAttrSet _ _ => descend_value v (drop (length names) path)
                    | _ => None
                    end
           end
     end) es.

Lemma descend_value_set sp es path :
  descend_value (EAttrSet sp es) path = descend_entries sp es es path.
Proof. done. Qed.

(** The descent ends in this set, past every entry, or goes into one. *)
Lemma descend_split sp all es path point :
  complete_entries es -> find_entries es path = None ->
  descend_entries sp all es path = Some point ->
  Forall (skips path) es /\ point = MkInsertPoint (MkAttrSet sp all) path \/
  exists pre esp attrs ssp inner post rest,
    es = pre ++ AttrpathValue esp (Some attrs) (Some (EAttrSet ssp inner)) :: post /\
    Forall (skips path) pre /\ attr_names attrs <> [] /\ rest <> [] /\
    path = attr_names attrs ++ rest /\ complete_entries inner /\
    find_entries inner rest = None /\
    descend_value (EAttrSet ssp inner) rest = Some point.
Proof.
  induction es as [|x es IH]; intros Hc Hf Hd; [left; by injection Hd as <-|].
  apply complete_cons in Hc as [Hcx Hc].
  assert (skips path x -> descend_entries sp all es path = Some point ->
    Forall (skips path) (x :: es) /\ point = MkInsertPoint (MkAttrSet sp all) path \/
    exists pre esp attrs ssp inner post rest,
      x :: es = pre ++ AttrpathValue esp (Some attrs) (Some (EAttrSet ssp inner)) :: post /\
      Forall (skips path) pre /\ attr_names attrs <> [] /\ rest <> [] /\
      path = attr_names attrs ++ rest /\ complete_entries inner /\
      find_entries inner rest = None /\
      descend_value (EAttrSet ssp inner) rest = Some point) as Hnext.
  { intros Hs Hd'. rewrite find_skip in Hf by done.
    destruct (IH Hc Hf Hd') as [[H1 H2]|(pre & esp & attrs & ssp & inner & post & rest & -> & H)].
    - left. split; [by constructor|done].
    - right. exists (x :: pre), esp, attrs, ssp, inner, post, rest. split; [done|].
      destruct H as (H & ?). split; [by constructor|done]. }
  destruct x as [esp [attrs|] [v|]|esp]; cbn in Hcx; try done; [|by apply Hnext].
  cbn in Hd. rewrite find_entries_cons in Hf. cbv zeta in Hf.
  assert (names_apply (attr_names attrs) path
          = negb (Nat.eqb (length (attr_names attrs)) 0
                  || Nat.ltb (length path) (length (attr_names attrs))
                  || negb (zip_eq (attr_names attrs) path))) as Ha by done.
  destruct (Nat.eqb _ 0 || _) eqn:E1; cbn [orb negb] in Ha.
  { rewrite Ha in Hf. destruct (_ && is_strict_prefix _ _); [done|].
    apply Hnext; [by left|done]. }
  destruct (zip_eq _ _) eqn:E2; cbn [negb] in Ha, Hd; [|apply Hnext; [by left|done]].
  rewrite Ha in Hf. cbn [negb mbind option_bind] in Hf.
  apply names_apply_spec in Ha as (Hne & rest & ->).
  destruct (Nat.eqb _ (length (_ ++ _))) eqn:E3; [done|].
  rewrite drop_app_length in Hd, Hf. destruct v as [ssp inner| | | | | | |]; try done.
  rewrite find_in_value_set in Hf. destruct (find_entries inner rest) eqn:E4; [done|].
  right. exists [], esp, attrs, ssp, inner, es, rest. split_and!; try done.
  intros ->. rewrite app_nil_r, Nat.eqb_refl in E3. done.
Qed.

Lemma length_rest (names rest : list string) :
  names <> [] -> length rest < length (names ++ rest).
Proof. intros H. rewrite length_app. destruct names; [done|cbn; lia]. Qed.

Lemma descend_range sp es path point :
  complete_entries es -> find_entries es path = None ->
  descend_value (EAttrSet sp es) path = Some point ->
  set_range (ip_attrset point) ∈ sp :: entries_spans es.
Proof.
  remember (length path) as n eqn:Hn. revert sp es path Hn.
  induction (lt_wf n) as [n _ IH]. intros sp es path -> Hc Hf Hd.
  rewrite descend_value_set in Hd. apply descend_split in Hd as
    [[_ ->]|(pre & esp & attrs & ssp & inner & post & rest & -> & _ & Hne & _ & -> & Hci & Hfi & Hd)];
    [cbn; by left| |done..].
  apply (IH (length rest)) in Hd; [|by apply length_rest|done..].
  rewrite elem_of_cons. right. rewrite entries_spans_app, entries_spans_cons, !elem_of_app.
  right. left. exact Hd.
Qed.

(** ** Where an edit goes, by the names alone *)

(** A value of [path]: an entry whose names are the path, or one whose names start
    it and whose set has a value of the rest. *)
Inductive value_at : entries -> list string -> Expr -> Prop :=
| at_here es sp attrs v :
    AttrpathValue sp (Some attrs) (Some v) ∈ es -> attr_names attrs <> [] ->
    value_at es (attr_names attrs) v
| at_in es sp attrs ssp inner rest v :
    AttrpathValue sp (Some attrs) (Some (EAttrSet ssp inner)) ∈ es ->
    attr_names attrs <> [] -> rest <> [] -> value_at inner rest v ->
    value_at es (attr_names attrs ++ rest) v.

(** An entry that lies on the path: its names start the path, or continue it. *)
Definition on_path (path : list string) (e : Entry Expr) : Prop :=
  match e with
  | AttrpathValue _ (Some attrs) (Some _) =>
      attr_names attrs <> [] /\
      (attr_names attrs `prefix_of` path \/ path `prefix_of` attr_names attrs)
  | _ => False
  end.

(** [deepest s path s' rest]: following the entries of [path] from [s] leads into
    [s'] with [rest] left over, and no entry of [s'] lies on [rest]. *)
Inductive deepest : AttrSet -> list string -> AttrSet -> list string -> Prop :=
| deepest_here s path :
    path <> [] -> Forall (fun e => ~ on_path path e) (set_entries s) -> deepest s path s path
| deepest_in s sp attrs ssp inner rest s' rest' :
    AttrpathValue sp (Some attrs) (Some (EAttrSet ssp inner)) ∈ set_entries s ->
    attr_names attrs <> [] -> deepest (MkAttrSet ssp inner) rest s' rest' ->
    deepest s (attr_names attrs ++ rest) s' rest'.

Lemma find_value_at es path node : find_entries es path = Some node -> value_at es path node.
Proof.
  remember (length path) as n eqn:Hn. revert es path Hn.
  induction (lt_wf n) as [n _ IH]. intros es path -> H.
  apply find_split in H as (pre & sp & attrs & v & post & -> & _ & Hne & rest & -> & H).
  assert (AttrpathValue sp (Some attrs) (Some v)
          ∈ pre ++ AttrpathValue sp (Some attrs) (Some v) :: post) as Hin
    by (rewrite elem_of_app, elem_of_cons; tauto).
  destruct H as [[-> ->]|[Hr H]]; [rewrite app_nil_r; by eapply at_here|].
  destruct v as [ssp inner| | | | | | |]; try done.
  eapply at_in; [exact Hin|done|done|]. eapply (IH (length rest)); [by apply length_rest|done|done].
Qed.

Lemma strict_prefix_spec short long :
  is_strict_prefix short long = true <-> exists rest, rest <> [] /\ long = short ++ rest.
Proof.
  revert long. induction short as [|a short IH]; intros [|b long]; cbn.
  - split; [done|]. by intros (rest & ? & <-).
  - split; [by exists (b :: long)|done].
  - split; [done|]. by intros (? & ? & ?).
  - rewrite andb_true_iff, bool_decide_eq_true, IH. split.
    + intros (-> & rest & Hr & ->). by exists rest.
    + intros (rest & Hr & [= -> ->]). split; [done|]. by exists rest.
Qed.

Lemma strict_prefix_length short long :
  is_strict_prefix short long = true -> length short < length long.
Proof.
  intros (rest & Hr & ->)%strict_prefix_spec. rewrite length_app. destruct rest; [done|cbn; lia].
Qed.

(** One step of the descent. *)
Lemma descend_entries_cons sp all x es path :
  descend_entries sp all (x :: es) path =
  match x with
  | AttrpathValue _ (Some attrs) value =>
      let names := attr_names attrs in
      if names_apply names path then
        match value with
        | None => descend_entries sp all es path
        | Some v => if Nat.eqb (length names) (length path) then None
                    else match v with
                         | EAttrSet _ _ => descend_value v (drop (length names) path)
                         | _ => None
                         end
        end
      else if negb (Nat.eqb (length names) 0) && is_strict_prefix path names then None
           else descend_entries sp all es path
  | _ => descend_entries sp all es path
  end.
Proof.
  destruct x as [esp [attrs|] value|esp]; [|done..]. cbn [descend_entries]. cbv zeta.
  unfold names_apply. destruct (Nat.eqb _ 0 || Nat.ltb _ _) eqn:E; cbn [orb negb]; [done|].
  destruct (zip_eq _ path); cbn [negb]; [done|].
  destruct (is_strict_prefix path (attr_names attrs)) eqn:Hs; [|by rewrite andb_false_r].
  apply strict_prefix_length in Hs. apply orb_false_iff in E as [_ E].
  apply Nat.ltb_ge in E. lia.
Qed.

(** The entries that the descent has passed are off the path; it stops past the
    last, or goes into the set of one that starts it. *)
Lemma descend_scan sp all es path point :
  path <> [] -> descend_entries sp all es path = Some point ->
  Forall (fun e => ~ on_path path e) es /\ point = MkInsertPoint (MkAttrSet sp all) path \/
  exists esp attrs ssp inner rest,
    AttrpathValue esp (Some attrs) (Some (EAttrSet ssp inner)) ∈ es /\
    attr_names attrs <> [] /\ rest <> [] /\ path = attr_names attrs ++ rest /\
    descend_value (EAttrSet ssp inner) rest = Some point.
Proof.
  intros Hp. induction es as [|x es IH]; intros Hd; [left; by injection Hd as <-|].
  assert (~ on_path path x -> descend_entries sp all es path = Some point ->
    Forall (fun e => ~ on_path path e) (x :: es) /\
      point = MkInsertPoint (MkAttrSet sp all) path \/
    exists esp attrs ssp inner rest,
      AttrpathValue esp (Some attrs) (Some (EAttrSet ssp inner)) ∈ x :: es /\
      attr_names attrs <> [] /\ rest <> [] /\ path = attr_names attrs ++ rest /\
      descend_value (EAttrSet ssp inner) rest = Some point) as Hnext.
  { intros Hx Hd'. destruct (IH Hd') as [[H1 H2]|(esp & attrs & ssp & inner & rest & Hin & H)].
    - left. split; [by constructor|done].
    - right. exists esp, attrs, ssp, inner, rest. split; [by right|done]. }
  rewrite descend_entries_cons in Hd.
  destruct x as [esp [attrs|] value|esp]; [|apply Hnext; [by intros []|exact Hd]..].
  cbv zeta in Hd. destruct (names_apply (attr_names attrs) path) eqn:Ha.
  - apply names_apply_spec in Ha as (Hne & rest & Hrest).
    destruct value as [v|]; [|apply Hnext; [intros []|exact Hd]].
    rewrite Hrest, length_app, drop_app_length in Hd.
    destruct (Nat.eqb_spec (length (attr_names attrs)) (length (attr_names attrs) + length rest))
      as [|Hl]; [done|].
    destruct v as [ssp inner| | | | | | |]; try done. right.
    exists esp, attrs, ssp, inner, rest. split_and!; try done; [by left|].
    intros ->. cbn in Hl. lia.
  - destruct (negb _ && _) eqn:Hs; [done|]. apply Hnext; [|exact Hd]. cbn.
    destruct value as [v|]; [|intros []]. intros [Hne Hx].
    apply andb_false_iff in Hs as [Hs|Hs].
    { apply negb_false_iff, Nat.eqb_eq in Hs. by apply length_zero_iff_nil in Hs. }
    apply not_true_iff_false in Ha, Hs. destruct Hx as [[rest Hrest]|[rest Hrest]].
    + apply Ha, names_apply_spec. split; [done|]. by exists rest.
    + destruct (decide (rest = [])) as [->|Hr].
      * apply Ha, names_apply_spec. split; [done|]. exists []. by rewrite Hrest, !app_nil_r.
      * apply Hs, strict_prefix_spec. by exists rest.
Qed.

Lemma descend_deepest sp es path point :
  path <> [] -> descend_value (EAttrSet sp es) path = Some point ->
  deepest (MkAttrSet sp es) path (ip_attrset point) (ip_remaining point).
Proof.
  remember (length path) as n eqn:Hn. revert sp es path Hn.
  induction (lt_wf n) as [n _ IH]. intros sp es path -> Hp Hd.
  rewrite descend_value_set in Hd. apply descend_scan in Hd as
    [[Hall ->]|(esp & attrs & ssp & inner & rest & Hin & Hne & Hr & -> & Hd)]; [| |done].
  - by apply deepest_here.
  - eapply deepest_in; [exact Hin|done|]. eapply (IH (length rest)); [by apply length_rest|done..].
Qed.

Lemma deepest_rest s path s' rest : deepest s path s' rest -> rest <> [].
Proof. by induction 1. Qed.

(** The searches, from the root of a file. *)
Lemma insert_point_deepest root path point :
  path <> [] -> insert_point root path = Some point ->
  exists e s, root = Some e /\ root_expr_to_attrset e = Some s /\
    deepest s path (ip_attrset point) (ip_remaining point).
Proof.
  intros Hp H. unfold insert_point in H. destruct root as [e|]; [|done]. cbn in H.
  destruct (root_expr_to_attrset e) as [s|] eqn:Hs; [|done]. exists e, s.
  split_and!; [done..|]. destruct s. by apply descend_deepest.
Qed.

Lemma find_node_value root path node :
  find_value_node root path = Some node ->
  exists e s, root = Some e /\ root_expr_to_attrset e = Some s /\ value_at (set_entries s) path node.
Proof.
  intros H. unfold find_value_node in H. destruct root as [e|]; [|done]. cbn in H.
  destruct (root_expr_to_attrset e) as [s|] eqn:Hs; [|done]. exists e, s.
  split_and!; [done..|]. by apply find_value_at.
Qed.

(** Adding an entry to the set of the insertion point is an edit of [path]. *)
Lemma append_edited new attrs0 esp0 sp es path point :
  complete_entries es -> NoDup (sp :: entries_spans es) -> find_entries es path = None ->
  descend_value (EAttrSet sp es) path = Some point -> path <> [] ->
  attr_names attrs0 = ip_remaining point ->
  exists es',
    append_entry (set_range (ip_attrset point)) (AttrpathValue esp0 (Some attrs0) (Some new))
      (EAttrSet sp es) = EAttrSet sp es' /\ edited new path es es'.
Proof.
  intros Hc Hnd Hf Hd Hp Hnames. rewrite append_entry_set. eexists. split; [done|].
  remember (length path) as n eqn:Hn. revert sp es path Hn Hc Hnd Hf Hd Hp.
  induction (lt_wf n) as [n _ IH]. intros sp es path -> Hc Hnd Hf Hd Hp.
  apply NoDup_cons in Hnd as [Hsp Hnd].
  rewrite descend_value_set in Hd. apply descend_split in Hd as
    [[Hs ->]|(pre & esp & attrs & ssp & inner & post & rest & -> & Hpre & Hne & Hr & -> & Hci & Hfi & Hd)];
    [| |done..].
  - cbn [ip_attrset ip_remaining set_range] in *. rewrite decide_True by done.
    rewrite append_entries_absent by done. by apply edited_new.
  - apply spans_parts in Hnd as [Hx Hout].
    pose proof (descend_range _ _ _ _ Hci Hfi Hd) as Hin.
    destruct (Hout _ Hin) as [H1 H2].
    rewrite decide_False.
    2: { intros Heq. apply Hsp. rewrite Heq, entries_spans_app, entries_spans_cons, !elem_of_app.
         right. left. exact Hin. }
    rewrite app_nil_r, map_app. cbn [map append_in_entry].
    rewrite !append_entries_absent, append_entry_set by done.
    apply edited_in; [done..|].
    apply (IH (length rest)); [by apply length_rest|done..].
Qed.

(** ** Trees up to byte ranges *)

Definition no_span : Span := MkSpan 0 0.

Fixpoint strip (e : Expr) : Expr :=
  match e with
  | EAttrSet _ es =>
      EAttrSet no_span
        (map (fun x => match x with
                       | AttrpathValue _ attrs (Some v) => AttrpathValue no_span attrs (Some (strip v))
                       | AttrpathValue _ attrs None => AttrpathValue no_span attrs None
                       | Inherit _ => Inherit no_span
                       end) es)
  | ELambda _ (Some b) => ELambda no_span (Some (strip b))
  | ELambda _ None => ELambda no_span None
  | ELetIn _ (Some b) => ELetIn no_span (Some (strip b))
  | ELetIn _ None => ELetIn no_span None
  | EParen _ (Some b) => EParen no_span (Some (strip b))
  | EParen _ None => EParen no_span None
  | EIdent _ t => EIdent no_span t
  | EStr _ p => EStr no_span p
  | EList _ l => EList no_span (map strip l)
  | EOther _ => EOther no_span
  end.

Definition strip_entry (x : Entry Expr) : Entry Expr :=
  match x with
  | AttrpathValue _ attrs (Some v) => AttrpathValue no_span attrs (Some (strip v))
  | AttrpathValue _ attrs None => AttrpathValue no_span attrs None
  | Inherit _ => Inherit no_span
  end.

Lemma strip_set sp es : strip (EAttrSet sp es) = EAttrSet no_span (map strip_entry es).
Proof. done. Qed.

Lemma find_strip es path :
  find_entries (map strip_entry es) path = strip <$> find_entries es path.
Proof.
  remember (length path) as n eqn:Hn. revert es path Hn.
  induction (lt_wf n) as [n _ IH]. intros es path ->.
  induction es as [|x es IHes]; [done|]. cbn [map]. rewrite !find_entries_cons.
  destruct x as [sp [attrs|] [v|]|sp]; cbn [strip_entry]; try done.
  all: cbv zeta; destruct (names_apply _ _) eqn:Ha; cbn [negb mbind option_bind]; try done.
  apply names_apply_spec in Ha as (Hne & rest & ->).
  destruct (Nat.eqb_spec (length (attr_names attrs)) (length (attr_names attrs ++ rest)));
    [done|]. rewrite drop_app_length.
  assert (find_in_value (strip v) rest = strip <$> find_in_value v rest) as ->.
  { destruct v as [ssp inner|sp' []|sp' []|sp' []| | | |]; try done.
    rewrite strip_set, !find_in_value_set. apply (IH (length rest)); [by apply length_rest|done]. }
  by destruct (find_in_value v rest).
Qed.

Lemma mapM_map {A B C} (f : B -> option C) (g : A -> B) l : mapM f (map g l) = mapM (fun x => f (g x)) l.
Proof. induction l as [|x l IH]; [done|]. cbn. by rewrite IH. Qed.

Lemma interpret_strip e raw : interpret (strip e) raw = interpret e raw.
Proof.
  destruct e as [sp es|sp []|sp []|sp []|sp t|sp p|sp l|sp]; try done.
  cbn. rewrite mapM_map.
  assert (forall (l : list Expr),
    mapM (fun x => match strip x with EStr _ parts => literal_string parts | _ => None end) l
    = mapM (fun x => match x with EStr _ parts => literal_string parts | _ => None end) l) as H.
  { clear. induction l as [|x l IH]; [done|]. cbn. rewrite IH.
    by destruct x as [|? []|? []|? []| | | |]. }
  by rewrite H.
Qed.

Lemma root_strip e :
  root_expr_to_attrset (strip e)
  = (fun s => MkAttrSet no_span (map strip_entry (set_entries s))) <$> root_expr_to_attrset e.
Proof. revert e. fix rec 1. intros [sp es|sp [b|]|sp [b|]|sp [b|]|sp t|sp p|sp l|sp]; try reflexivity; exact (rec b). Qed.

(** What an attribute path leads to, up to byte ranges. *)
Definition lookup (root : option Expr) (path : list string) : option Expr :=
  strip <$> find_value_node root path.

Lemma lookup_strip a b path : strip a = strip b -> lookup (Some a) path = lookup (Some b) path.
Proof.
  intros H. unfold lookup, find_value_node. cbn [mbind option_bind].
  pose proof (root_strip a) as Ha. pose proof (root_strip b) as Hb. rewrite H in Ha.
  rewrite Ha in Hb. destruct (root_expr_to_attrset a) as [sa|], (root_expr_to_attrset b) as [sb|];
    cbn in Hb; try done. injection Hb as Hb. cbn [mbind option_bind].
  by rewrite !find_attrset_entries, <- !find_strip, Hb.
Qed.

(** ** Edits of a whole file's tree *)

Fixpoint edit_root (f : Expr -> Expr) (e : Expr) : Expr :=
  match e with
  | EAttrSet _ _ => f e
  | ELambda sp (Some b) => ELambda sp (Some (edit_root f b))
  | ELetIn sp (Some b) => ELetIn sp (Some (edit_root f b))
  | EParen sp (Some b) => EParen sp (Some (edit_root f b))
  | _ => e
  end.

Lemma root_edit f e s es' :
  root_expr_to_attrset e = Some s ->
  f (EAttrSet (set_range s) (set_entries s)) = EAttrSet (set_range s) es' ->
  root_expr_to_attrset (edit_root f e) = Some (MkAttrSet (set_range s) es').
Proof.
  intros He Hf. revert e He. fix rec 1.
  intros [sp es|sp [b|]|sp [b|]|sp [b|]|sp t|sp p|sp l|sp] He; try discriminate He.
  1: { clear rec. injection He as <-. cbn in *. by rewrite Hf. }
  all: exact (rec b He).
Qed.

(** What an error-free parse promises of its tree: no holes, and no two of its
    sets and values share a range. *)
Definition tree_ok (t : Expr) : Prop :=
  forall s, root_expr_to_attrset t = Some s ->
    complete_entries (set_entries s) /\ NoDup (set_range s :: entries_spans (set_entries s)).

(** The tree after the edit that [set_attrpath] makes for [path]. *)
Definition edit_tree (path : list string) (new t : Expr) : Expr :=
  match find_value_node (Some t) path with
  | Some node => edit_root (replace_value (text_range node) new) t
  | None =>
      match insert_point (Some t) path with
      | Some point =>
          edit_root (append_entry (set_range (ip_attrset point))
                       (AttrpathValue no_span (Some (map AttrIdent (ip_remaining point))) (Some new))) t
      | None => t
      end
  end.

Lemma ident_names l : attr_names (map AttrIdent l) = l.
Proof. induction l as [|x l IH]; [done|]. unfold attr_names in *. cbn. by rewrite IH. Qed.

(** The edit's tree, seen from the root set. *)
Lemma edit_tree_edited path new t :
  tree_ok t -> path <> [] ->
  is_Some (find_value_node (Some t) path) \/ is_Some (insert_point (Some t) path) ->
  exists s es',
    root_expr_to_attrset t = Some s /\
    root_expr_to_attrset (edit_tree path new t) = Some (MkAttrSet (set_range s) es') /\
    edited new path (set_entries s) es'.
Proof.
  intros Hok Hp Hsome.
  assert (exists s, root_expr_to_attrset t = Some s) as [s Hs].
  { unfold find_value_node, insert_point in Hsome. cbn [mbind option_bind] in Hsome.
    destruct (root_expr_to_attrset t) as [s|]; [by exists s|].
    by destruct Hsome as [[? ?]|[? ?]]. }
  destruct (Hok s Hs) as [Hc Hnd]. exists s.
  assert (find_value_node (Some t) path = find_entries (set_entries s) path) as Hfind
    by (unfold find_value_node; cbn [mbind option_bind]; by rewrite Hs).
  assert (insert_point (Some t) path = descend_value (EAttrSet (set_range s) (set_entries s)) path)
    as Hins by (unfold insert_point; cbn [mbind option_bind]; by rewrite Hs).
  unfold edit_tree. rewrite Hfind, Hins in *.
  destruct (find_entries (set_entries s) path) as [node|] eqn:Hf.
  - eexists. split; [done|]. split; [by apply root_edit; [|apply replace_value_set]|].
    apply replace_edited; [by eapply NoDup_cons_1_2|done].
  - destruct Hsome as [[? ?]|[point Hd]]; [done|]. rewrite Hd.
    destruct (append_edited new (map AttrIdent (ip_remaining point)) no_span
                (set_range s) (set_entries s) path point Hc Hnd Hf Hd Hp (ident_names _))
      as (es' & He & Hed).
    exists es'. split; [done|]. split; [|done]. by apply root_edit.
Qed.

(** After the edit, [path] leads to the new value and every path apart from it
    where it led before. *)
Lemma edit_tree_lookup path new t :
  tree_ok t -> path <> [] ->
  is_Some (find_value_node (Some t) path) \/ is_Some (insert_point (Some t) path) ->
  lookup (Some (edit_tree path new t)) path = Some (strip new) /\
  forall q, apart path q -> lookup (Some (edit_tree path new t)) q = lookup (Some t) q.
Proof.
  intros Hok Hp Hsome.
  destruct (edit_tree_edited path new t Hok Hp Hsome) as (s & es' & Hs & Hs' & Hed).
  unfold lookup, find_value_node. cbn [mbind option_bind]. rewrite Hs, Hs'.
  cbn [mbind option_bind].
  split; [|intros q Hq]; rewrite !find_attrset_entries; cbn [set_entries];
    [by rewrite (edited_find _ _ _ _ Hed)|by rewrite (edited_frame _ _ _ _ Hed q Hq)].
Qed.

(** ** Values as expressions *)

(** The parts of a string literal. *)
Definition str_parts (s : string) : list InterpolPart := if is_empty s then [] else [Literal s].

(** The expression whose text [to_source] writes. *)
Definition lit (v : NixValue) : option Expr :=
  match v with
  | NixBool true => Some (EIdent no_span "true")
  | NixBool false => Some (EIdent no_span "false")
  | NixStr s => Some (EStr no_span (str_parts s))
  | NixStrList l => Some (EList no_span (map (fun s => EStr no_span (str_parts s)) l))
  | NixOther _ => None
  end.

Lemma literal_str_parts s : literal_string (str_parts s) = Some s.
Proof.
  by destruct s as [|c s].
Qed.

Lemma interpret_lit v e raw : lit v = Some e -> interpret e raw = v.
Proof.
  destruct v as [[]|s|l|r]; intros [= <-]; cbn; [done..| |].
  - by rewrite literal_str_parts.
  - assert (mapM (fun item => match item with EStr _ parts => literal_string parts | _ => None end)
              (map (fun s => EStr no_span (str_parts s)) l) = Some l) as ->; [|done].
    rewrite mapM_map. induction l as [|s l IH]; [done|]. cbn. by rewrite literal_str_parts, IH.
Qed.

(** ** String literals as Nix reads them *)

Definition unescape (c : ascii) : ascii :=
  if Ascii.eqb c "n" then nl else if Ascii.eqb c "r" then cr else if Ascii.eqb c "t" then tab else c.

(** The body of a Nix string literal, up to the closing quote: its text and what
    follows; [None] when it is not closed or has an interpolation.  A dollar sign
    takes the next ordinary character with it, so [$${] is no interpolation. *)
Fixpoint read_body (s : string) : option (string * string) :=
  match s with
  | EmptyString => None
  | String c s' =>
      if Ascii.eqb c dquote then Some (EmptyString, s')
      else if Ascii.eqb c backslash then
        match s' with
        | EmptyString => None
        | String d s'' =>
            match read_body s'' with
            | Some (t, rest) => Some (String (unescape d) t, rest)
            | None => None
            end
        end
      else if Ascii.eqb c "$" then
        match s' with
        | String d s'' =>
            if Ascii.eqb d "{" then None
            else if Ascii.eqb d "$" then
              match read_body s'' with
              | Some (t, rest) => Some (String c (String d t), rest)
              | None => None
              end
            else match read_body s' with
                 | Some (t, rest) => Some (String c t, rest)
                 | None => None
                 end
        | EmptyString => None
        end
      else match read_body s' with
           | Some (t, rest) => Some (String c t, rest)
           | None => None
           end
  end.

Definition read_literal (s : string) : option string :=
  match s with
  | String c s' =>
      if Ascii.eqb c dquote then
        match read_body s' with Some (t, EmptyString) => Some t | _ => None end
      else None
  | EmptyString => None
  end.

(** No interpolation starts in the text. *)
Fixpoint plain (s : string) : bool :=
  match s with
  | EmptyString => true
  | String c s' =>
      if Ascii.eqb c "$" then
        match s' with
        | String d s'' => if Ascii.eqb d "{" then false
                          else if Ascii.eqb d "$" then plain s'' else plain s'
        | EmptyString => true
        end
      else plain s'
  end.

Definition cons_text (c : ascii) (r : option (string * string)) : option (string * string) :=
  match r with Some (t, rest) => Some (String c t, rest) | None => None end.

Lemma read_quoted_char c rest :
  c <> "$"%char -> read_body (quote_char c ++ rest) = cons_text c (read_body rest).
Proof.
  intros Hd. unfold quote_char.
  repeat match goal with
  | |- context [Ascii.eqb c ?x] =>
      destruct (Ascii.eqb_spec c x) as [->|?]; [reflexivity|]
  end.
  cbn [String.append read_body].
  repeat match goal with
  | |- context [Ascii.eqb c ?x] => destruct (Ascii.eqb_spec c x) as [->|?]; [done|]
  end. done.
Qed.

Lemma quoted_head c :
  c <> "$"%char -> c <> "{"%char ->
  exists x tl, quote_char c = String x tl /\ Ascii.eqb x "$" = false /\ Ascii.eqb x "{" = false.
Proof.
  intros H1 H2. unfold quote_char.
  repeat match goal with
  | |- context [Ascii.eqb c ?x] =>
      destruct (Ascii.eqb_spec c x) as [->|?]; [by eexists _, _|]
  end.
  exists c, ""%string. split; [done|].
  destruct (Ascii.eqb_spec c "$"), (Ascii.eqb_spec c "{"); done.
Qed.

Lemma read_dollar x s :
  Ascii.eqb x "$" = false -> Ascii.eqb x "{" = false ->
  read_body (String "$" (String x s)) = cons_text "$" (read_body (String x s)).
Proof.
  intros H1 H2. remember (String x s) as y eqn:Hy. cbn. rewrite Hy at 1. rewrite H1, H2.
  by rewrite Hy.
Qed.

Lemma read_quoted s :
  read_body (quote_chars s ++ String dquote "") = (if plain s then Some (s, "") else None)%string.
Proof.
  remember (String.length s) as n eqn:Hn. revert s Hn.
  induction (lt_wf n) as [n _ IH]. intros s ->.
  destruct s as [|c s]; [done|]. cbn [quote_chars plain]. rewrite <- str_app_assoc.
  destruct (Ascii.eqb_spec c "$") as [->|Hc].
  - cbn [quote_char]. destruct s as [|d s]; [done|].
    destruct (Ascii.eqb_spec d "{") as [->|Hb]; [done|].
    destruct (Ascii.eqb_spec d "$") as [->|Hd].
    + specialize (IH (String.length s) ltac:(cbn; lia) s eq_refl).
      cbn [quote_chars]. change (quote_char "$") with "$"%string. cbn [String.append].
      set (body := (quote_chars s ++ String dquote "")%string) in *.
      change (match read_body body with
              | Some (t, rest) => Some (String "$" (String "$" t), rest)
              | None => None
              end = if plain s then Some (String "$" (String "$" s), ""%string) else None).
      rewrite IH. by destruct (plain s).
    + specialize (IH (String.length (String d s)) ltac:(cbn; lia) (String d s) eq_refl).
      cbn [quote_chars] in IH |- *. rewrite <- str_app_assoc in IH |- *.
      destruct (quoted_head d Hd Hb) as (x & tl & Hx & H1 & H2). rewrite Hx in IH |- *.
      change (quote_char "$") with "$"%string. cbn [String.append] in IH |- *.
      rewrite read_dollar by done. rewrite IH. by destruct (plain _).
  - rewrite read_quoted_char by done.
    rewrite (IH (String.length s) ltac:(cbn; lia) s eq_refl). by destruct (plain s).
Qed.

Lemma quote_reads s : plain s = true -> read_literal (quote_nix_string s) = Some s.
Proof.
  intros Hs. unfold quote_nix_string, read_literal. change (Ascii.eqb dquote dquote) with true.
  cbv iota. by rewrite read_quoted, Hs.
Qed.

(** The texts of the booleans, of the string literals without interpolation and
    of the lists of them, with the expressions they are. *)
Inductive literal : string -> Expr -> Prop :=
| literal_true : literal "true" (EIdent no_span "true")
| literal_false : literal "false" (EIdent no_span "false")
| literal_str text s : read_literal text = Some s -> literal text (EStr no_span (str_parts s))
| literal_list texts items :
    Forall2 (fun text s => read_literal text = Some s) texts items ->
    literal ("[ " ++ join " " texts ++ " ]")
      (EList no_span (map (fun s => EStr no_span (str_parts s)) items)).

(** The values the editor writes as such a text. *)
Definition plain_value (v : NixValue) : bool :=
  match v with
  | NixBool _ => true
  | NixStr s => plain s
  | NixStrList items => forallb plain items
  | NixOther _ => false
  end.

Lemma to_source_literal v :
  plain_value v = true -> exists e, lit v = Some e /\ literal (to_source v) e.
Proof.
  destruct v as [[]|s|l|r]; intros Hv; [eexists; split; [done|constructor; by try apply quote_reads]..| |done].
  eexists. split; [done|]. apply literal_list. cbn in Hv. rewrite forallb_forall in Hv.
  induction l as [|s l IH]; constructor; [apply quote_reads, Hv; by left|].
  apply IH. intros x Hx. apply Hv. by right.
Qed.

Definition is_other (v : NixValue) : bool := match v with NixOther _ => true | _ => false end.

(** The raw text matters only for the values kept as text. *)
Lemma interpret_raw e r r' :
  interpret e r = interpret e r' \/
  is_other (interpret e r) = true /\ is_other (interpret e r') = true.
Proof.
  destruct e as [| | | |sp t|sp p|sp l|]; cbn; try (by right).
  - repeat case_bool_decide; auto.
  - destruct (literal_string p); auto.
  - destruct (mapM _ l); auto.
Qed.

(** Two readings agree, byte ranges and kept text apart. *)
Definition same_reading (a b : option LocatedValue) : Prop :=
  match a, b with
  | None, None => True
  | Some x, Some y =>
      located_value x = located_value y \/
      is_other (located_value x) = true /\ is_other (located_value y) = true
  | _, _ => False
  end.

(** ** What the parser promises *)

(** Identifiers that are no keyword. *)
Definition ident_start (c : ascii) : bool :=
  is_ascii_lowercase c || is_ascii_uppercase c || Ascii.eqb c "_".
Definition ident_char (c : ascii) : bool :=
  ident_start c || is_ascii_digit c || Ascii.eqb c "'" || Ascii.eqb c "-".
Definition keywords : list string :=
  ["assert"; "else"; "if"; "in"; "inherit"; "let"; "or"; "rec"; "then"; "with"]%string.
Definition ident_ok (s : string) : bool :=
  match s with
  | EmptyString => false
  | String c s' => ident_start c && str_forallb ident_char s' && negb (bool_decide (s ∈ keywords))
  end.

(** The sets under a set: itself, and those its entries have as values. *)
Inductive under : AttrSet -> AttrSet -> Prop :=
| under_self s : under s s
| under_entry s sp attrs ssp inner s' :
    AttrpathValue sp (Some attrs) (Some (EAttrSet ssp inner)) ∈ set_entries s ->
    under (MkAttrSet ssp inner) s' -> under s s'.

(** Where an entry goes that is written last into a set: at the end of its last
    entry, or after the opening brace. *)
Definition after_entries (s : AttrSet) : nat :=
  match last (set_entries s) with
  | Some x => sp_end (entry_range x)
  | None => S (sp_start (set_range s))
  end.

(** The Nix grammar as rnix implements it, for the two places the editor writes
    to: a tree without errors has an expression, no holes, and a range for each
    set and value; a literal written over the bytes of a value is that value now;
    a binding of identifiers written after the last entry of a set is one more
    entry of it; everything else is parsed as before. *)
Class RnixLaws `{RX : Rnix} : Prop := {
  rnix_root s r : parse_root s = Some r -> is_Some r;
  rnix_tree s t : parse_root s = Some (Some t) -> tree_ok t;
  rnix_value s t root at_ text e t' :
    parse_root s = Some (Some t) -> root_expr_to_attrset t = Some root ->
    at_ ∈ entries_spans (set_entries root) -> literal text e ->
    parse_root (until (sp_start at_) s ++ text ++ from (sp_end at_) s) = Some (Some t') ->
    strip t' = strip (edit_root (replace_value at_ e) t);
  rnix_entry s t root set indent names text e t' :
    parse_root s = Some (Some t) -> root_expr_to_attrset t = Some root -> under root set ->
    starts_with "{" (slice (sp_start (set_range set)) (sp_end (set_range set)) s) = true ->
    str_forallb is_whitespace indent = true -> names <> [] -> forallb ident_ok names = true ->
    literal text e ->
    parse_root (until (after_entries set) s
                ++ String nl (indent ++ join "." names ++ " = " ++ text ++ ";")
                ++ from (after_entries set) s) = Some (Some t') ->
    strip t' = strip (edit_root
      (append_entry (set_range set) (AttrpathValue no_span (Some (map AttrIdent names)) (Some e))) t);
}.
Arguments RnixLaws : clear implicits.
Arguments RnixLaws {RX}.

Lemma deepest_under s path s' rest : deepest s path s' rest -> under s s'.
Proof. induction 1; [constructor|by eapply under_entry]. Qed.

Lemma deepest_suffix s path s' rest : deepest s path s' rest -> rest `suffix_of` path.
Proof.
  induction 1 as [|s sp attrs ssp inner rest s' rest' _ _ _ [l ->]]; [done|].
  exists (attr_names attrs ++ l). by rewrite app_assoc.
Qed.

Section Find.
Context `{RX : Rnix}.

Lemma find_attrpath_root f path t :
  path <> [] -> parse_root (source f) = Some t ->
  find_attrpath f path =
  (fun node => let sp := text_range node in
               let raw := slice (sp_start sp) (sp_end sp) (source f) in
               MkLocated (interpret node raw) sp raw) <$> find_value_node t path.
Proof.
  intros Hp Ht. unfold find_attrpath. destruct path; [done|]. rewrite Ht. cbn.
  by destruct (find_value_node t _).
Qed.

Lemma same_lookup f g path a b :
  path <> [] -> parse_root (source f) = Some a -> parse_root (source g) = Some b ->
  lookup a path = lookup b path -> same_reading (find_attrpath f path) (find_attrpath g path).
Proof.
  intros Hp Ha Hb. rewrite (find_attrpath_root f path a), (find_attrpath_root g path b) by done.
  unfold lookup. destruct (find_value_node a path) as [x|], (find_value_node b path) as [y|];
    cbn; intros H; try done. injection H as H.
  set (r := slice _ _ (source f)). set (r' := slice _ _ (source g)).
  rewrite <- (interpret_strip x), <- (interpret_strip y), H. apply interpret_raw.
Qed.

Lemma lookup_lit f path t v e :
  path <> [] -> parse_root (source f) = Some t -> lit v = Some e ->
  lookup t path = Some (strip e) ->
  exists l, find_attrpath f path = Some l /\ located_value l = v.
Proof.
  intros Hp Ht Hv. rewrite (find_attrpath_root f path t) by done. unfold lookup.
  destruct (find_value_node t path) as [x|]; [|done]. cbn. intros [= H].
  eexists. split; [done|]. cbn. by rewrite <- interpret_strip, H, interpret_strip, (interpret_lit v).
Qed.

(** What a successful edit did. *)
Lemma set_attrpath_ok path r f f' :
  set_attrpath path r f = Some (Ok tt, f') ->
  path <> [] /\ is_ok (rnix_parse (source f')) = true /\
  exists root, parse_root (source f) = Some root /\
    ((exists node, find_value_node root path = Some node /\
                   source f' = splice_span (source f) node r) \/
     (find_value_node root path = None /\
      exists point, insert_point root path = Some point /\
                    splice_entry (source f) point r = Some (source f'))).
Proof.
  unfold set_attrpath. destruct path as [|p path]; [done|].
  destruct (parse_root (source f)) as [root|]; [|done]. unfold validate.
  destruct (find_value_node root _) as [node|] eqn:Hf.
  - destruct (rnix_parse (splice_span _ _ _)) eqn:Hv; [|done]. intros [= <-].
    split; [done|]. cbn [source]. rewrite Hv. split; [done|]. exists root. split; [done|].
    left. by exists node.
  - destruct (insert_point root _) as [point|] eqn:Hi; [|done]. cbn.
    destruct (splice_entry _ point r) as [c|] eqn:Hs; cbn; [|done].
    destruct (rnix_parse c) eqn:Hv; [|done]. intros [= <-].
    split; [done|]. cbn [source]. rewrite Hv. split; [done|]. exists root. split; [done|].
    right. split; [done|]. by exists point.
Qed.

(** The line that an insertion writes. *)
Lemma splice_entry_line old point r new :
  splice_entry old point r = Some new ->
  let sp := set_range (ip_attrset point) in
  let at_ := after_entries (ip_attrset point) in
  starts_with "{" (slice (sp_start sp) (sp_end sp) old) = true /\
  exists indent, str_forallb is_whitespace indent = true /\
    new = (until at_ old
           ++ String nl (indent ++ join "." (ip_remaining point) ++ " = " ++ r ++ ";")
           ++ from at_ old)%string.
Proof.
  unfold splice_entry. destruct (ip_remaining point) as [|n l]; [done|].
  destruct (negb _) eqn:Hb; [done|]. intros [= <-].
  apply negb_false_iff, andb_true_iff in Hb as [Hb _]. split; [done|].
  exists (entry_indent old (sp_start (set_range (ip_attrset point))) (insert_offset (ip_attrset point))).
  split; [|done]. unfold entry_indent. destruct (rsplit_once nl _) as [[? line]|]; [|done].
  destruct (negb _); [|done]. generalize (String.length line - String.length (trim_start line)).
  intros k. induction k as [|k IH]; [done|exact IH].
Qed.

Context `{RL : !RnixLaws}.

(** The parser reads the edited text as the edited tree. *)
Lemma set_parses path v e f f' :
  lit v = Some e -> literal (to_source v) e ->
  (find_attrpath f path = None -> forallb ident_ok path = true) ->
  set_attrpath path (to_source v) f = Some (Ok tt, f') ->
  exists t t', parse_root (source f) = Some (Some t) /\ parse_root (source f') = Some (Some t') /\
    strip t' = strip (edit_tree path e t).
Proof.
  intros Hv Hl Hid Hset. apply set_attrpath_ok in Hset as (Hp & Hok & root & Hr & H).
  destruct (rnix_root _ _ Hr) as [t ->]. exists t.
  assert (exists r', parse_root (source f') = Some r') as [r' Hr'].
  { unfold parse_root. destruct (rnix_parse (source f')); [by eexists|done]. }
  destruct (rnix_root _ _ Hr') as [t' ->]. exists t'. split_and!; [done..|].
  unfold edit_tree. destruct H as [(node & Hn & Hs)|(Hn & point & Hpt & Hs)].
  - rewrite Hn. unfold find_value_node in Hn. cbn [mbind option_bind] in Hn.
    destruct (root_expr_to_attrset t) as [root|] eqn:Hroot; [|done].
    apply find_in_spans in Hn. eapply rnix_value; [exact Hr|exact Hroot|exact Hn|exact Hl|].
    by rewrite <- Hr', Hs.
  - rewrite (find_attrpath_root f path (Some t)), Hn in Hid by done.
    rewrite Hn, Hpt. apply insert_point_deepest in Hpt as (? & root & [= <-] & Hroot & Hd); [|done].
    apply splice_entry_line in Hs as (Hb & indent & Hi & Hs).
    eapply rnix_entry; [exact Hr|exact Hroot|by eapply deepest_under|exact Hb|exact Hi| | |exact Hl|].
    + by apply deepest_rest in Hd.
    + apply deepest_suffix in Hd as [l Hd]. specialize (Hid eq_refl).
      rewrite Hd, forallb_app in Hid. by apply andb_true_iff in Hid as [_ ?].
    + by rewrite <- Hr', Hs.
Qed.

(** A set followed by finds. *)
Lemma set_find path v f f' :
  plain_value v = true -> (find_attrpath f path = None -> forallb ident_ok path = true) ->
  set_attrpath path (to_source v) f = Some (Ok tt, f') ->
  (exists l, find_attrpath f' path = Some l /\ located_value l = v) /\
  (forall q, q <> [] -> apart path q -> same_reading (find_attrpath f q) (find_attrpath f' q)).
Proof.
  intros Hpl Hid Hset. destruct (to_source_literal v Hpl) as (e & Hv & Hl).
  destruct (set_parses path v e f f' Hv Hl Hid Hset) as (t & t' & Ht & Ht' & Hreads).
  pose proof (rnix_tree _ _ Ht) as Hok.
  apply set_attrpath_ok in Hset as (Hp & _ & root & Hr & H).
  assert (root = Some t) as -> by congruence.
  assert (is_Some (find_value_node (Some t) path) \/ is_Some (insert_point (Some t) path)) as Hsome.
  { destruct H as [(node & -> & _)|(_ & point & -> & _)]; eauto. }
  destruct (edit_tree_lookup path e t Hok Hp Hsome) as [Hlk Hf].
  split.
  - apply (lookup_lit f' path (Some t') v e); try done. by rewrite (lookup_strip _ _ _ Hreads).
  - intros q Hq Hap. apply (same_lookup f f' q (Some t) (Some t')); try done.
    by rewrite (lookup_strip _ _ _ Hreads), Hf.
Qed.
End Find.
