(* ===== verification/DashProofs.v ===== *)
(** Lemmas on the dashboard: saving the file, the session gate, claims. *)

From stdpp Require Import base gmap strings list pretty.
From Stdlib Require Import ZArith Lia Ascii.
From S2P Require Import Prelude Prog ForwarderState World Crates Web Box Tunnel Enroll.
From S2P Require Import HttpProofs DashDb NixConfig Dashboard NixProofs.

Local Open Scope prog_scope.
Local Abbreviation wpb := (wp (X := BoxSig) box_spec) (only parsing).
Local Abbreviation alwaysb := (always (X := BoxSig) box_spec) (only parsing).

(** ** The file *)

Section Editor.
Context `{RX : Rnix}.

Lemma wp_read_config path s (Q : outcome (Result NixConfigFile ConfigReadError) -> box -> Prop) :
  (forall e, Q (Done (Err e)) s) ->
  (forall f, files s !! path = Some (source f) -> is_ok (rnix_parse (source f)) = true ->
     Q (Done (Ok f)) s) ->
  wpb (read_config path) Q s.
Proof.
  intros He Hok. unfold read_config. intros there s1 [-> _]. destruct there; cbn [negb]; [|apply He].
  unfold bind_try. intros r s1 [-> Hr]. destruct r as [text|e]; [|apply He]. cbn.
  unfold nix_parse, validate. destruct (rnix_parse text) as [t|e] eqn:Hp; [|apply He].
  apply Hok; [exact Hr|cbn; by rewrite Hp].
Qed.

Lemma always_read_config path s :
  alwaysb (fun s' => s' = s) (read_config path) s.
Proof.
  unfold read_config. cbn. split; [done|]. intros there s1 [-> _]. destruct there; [|done].
  cbn. split; [done|]. intros r s1 [-> _]. by destruct r.
Qed.

(** The temporary file is not the configuration itself. *)
Definition tmp_apart (path : string) : Prop :=
  forall dir u, parent path = Some dir -> path_join dir (tmp_name u) <> path.

Lemma wp_write_atomic path contents s :
  tmp_apart path ->
  wpb (write_atomic path contents)
    (fun o s' =>
       match o with
       | Done (Ok _) => exists tmp, tmp <> path /\
                          files s' = <[path := contents]> (delete tmp (files s))
       | Done (Err (SaveIo _)) => files s' !! path = files s !! path /\
           exists tmp, forall p, p <> tmp -> files s' !! p = files s !! p
       | _ => False
       end) s.
Proof.
  intros Hap. unfold write_atomic. destruct (parent path) as [dir|] eqn:Hp;
    [|by split; [|exists path]].
  intros uuid s1 (-> & Hne & Hu). specialize (Hap dir uuid Hp).
  set (tmp := path_join dir (tmp_name uuid)) in *. unfold bind_try.
  intros w s1 Hw. destruct w as [[]|e]; cbn.
  2: { destruct Hw as [t ->]. cbn. rewrite lookup_partial_alter_ne by done. split; [done|].
       exists tmp. intros p Hpt. by rewrite lookup_partial_alter_ne. }
  cbn in Hw. subst s1. intros r s2 Hr. destruct r as [[]|e]; cbn in Hr |- *.
  - destruct Hr as (d & Hd & ->). rewrite lookup_insert_eq in Hd. injection Hd as <-.
    exists tmp. split; [done|]. cbn. by rewrite delete_insert_eq.
  - subst s2. cbn. split; [by rewrite lookup_insert_ne|]. exists tmp. intros p Hpt.
    by rewrite lookup_insert_ne.
Qed.

Lemma always_write_atomic path contents s :
  tmp_apart path ->
  alwaysb (fun s' => files s' !! path = files s !! path \/ files s' !! path = Some contents)
    (write_atomic path contents) s.
Proof.
  intros Hap. unfold write_atomic. destruct (parent path) as [dir|] eqn:Hp; [|by split; [left|]].
  split; [by left|]. intros uuid s1 (-> & Hne & Hu). specialize (Hap dir uuid Hp).
  set (tmp := path_join dir (tmp_name uuid)) in *. cbn. split; [by left|].
  intros w s1 Hw. destruct w as [[]|e]; cbn.
  2: { destruct Hw as [t ->]. split; [|done]. left. cbn. by rewrite lookup_partial_alter_ne. }
  subst s1. split; [left; cbn; by rewrite lookup_insert_ne|].
  intros r s2 Hr. destruct r as [[]|e]; cbn in Hr |- *.
  - destruct Hr as (d & Hd & ->). rewrite lookup_insert_eq in Hd. injection Hd as <-.
    split; [|done]. right. cbn. by rewrite lookup_insert_eq.
  - subst s2. split; [|done]. left. cbn. by rewrite lookup_insert_ne.
Qed.

(** A successful list of edits leaves a file that parses. *)
Lemma apply_edits_parses edits f f' :
  is_ok (rnix_parse (source f)) = true -> apply_edits edits f = Some (Ok f') ->
  is_ok (rnix_parse (source f')) = true.
Proof.
  revert f. induction edits as [|e edits IH]; intros f Hf; cbn; [by intros [= <-]|].
  destruct (set_attrpath _ _ f) as [[[[]|err] f1]|] eqn:Hs; [|done..].
  apply IH. by apply set_attrpath_ok in Hs as (_ & H & _).
Qed.

(** What a save may leave. *)
Definition save_post (path : string) (edits : list ConfigEdit) (s : box)
    (o : outcome (Result unit SaveError)) (s' : box) : Prop :=
  match o with
  | Done (Ok _) =>
      exists f f', files s !! path = Some (source f) /\ apply_edits edits f = Some (Ok f') /\
        is_ok (rnix_parse (source f')) = true /\ files s' !! path = Some (source f')
  | Done (Err _) => files s' !! path = files s !! path
  | Panicked _ =>
      s' = s /\ exists f, files s !! path = Some (source f) /\ apply_edits edits f = None
  | Stuck => False
  end.

Lemma wp_save_config path edits s :
  tmp_apart path -> wpb (save_config path edits) (save_post path edits s) s.
Proof.
  intros Hap. unfold save_config, bind_try. rewrite wp_bind. apply wp_read_config; [done|].
  intros f Hf Hp. cbn [andthen]. destruct (apply_edits edits f) as [[f'|e]|] eqn:Ha;
    cbn [expect wp]; [|done|split; [done|by exists f]].
  eapply wp_mono; [|by apply wp_write_atomic]. intros o s' Ho.
  destruct o as [[[]|[]]| |]; try done; cbn.
  - destruct Ho as (tmp & Ht & ->). exists f, f'. split_and!; try done.
    + by eapply apply_edits_parses.
    + by rewrite lookup_insert_eq.
  - by destruct Ho.
Qed.

(** At every point of a save the file has its old text or the whole new one. *)
Lemma always_save_config path edits s :
  tmp_apart path ->
  alwaysb (fun s' => files s' !! path = files s !! path \/
             exists f f', files s !! path = Some (source f) /\
               apply_edits edits f = Some (Ok f') /\ files s' !! path = Some (source f'))
    (save_config path edits) s.
Proof.
  intros Hap. unfold save_config, bind_try. apply always_bind.
  { eapply always_mono; [|apply always_read_config]. intros s' ->. by left. }
  apply wp_read_config; [by split; [left|]|]. intros f Hf Hp.
  destruct (apply_edits edits f) as [[f'|e]|] eqn:Ha; cbn [expect]; [|by split; [left|]..].
  eapply always_mono; [|by apply always_write_atomic]. intros s' [H|H]; [by left|right].
  by exists f, f'.
Qed.
End Editor.

(** ** Sessions and the gate *)

(** Only the clock was read. *)
Definition same_but_clock (s s' : box) : Prop := s' = s \/ exists t, s' = set_clock t s.

Section Gate.
Context `{CR : Crates} `{RF : Rfc3339}.

(** The row of [token] names a session until [e]. *)
Definition session_until (s : box) (token : string) (e : Z) : Prop :=
  exists row c, sessions s !! token = Some row /\
    parse_from_rfc3339 (row_created_at row) = Ok c /\
    parse_from_rfc3339 (row_expires_at row) = Ok e.

(** The answers of a system where reads and the database work. *)
Definition steady (o : op BoxSig) (s : box) (r : ret BoxSig o) (s' : box) : Prop :=
  box_spec o s r s' /\
  match o as o return ret BoxSig o -> Prop with
  | ReadFile p => fun r => is_ok r = false -> files s !! p = None
  | DbSelectSession _ | DbDeleteSession _ | DbUpsertKv _ _ _ | DbSelectKv _ =>
      fun r => is_ok r = true
  | DbInsertSession t _ => fun r => sessions s !! t = None -> is_ok r = true
  | DbOpen => fun r => is_ok r = true
  | _ => fun _ => True
  end r.

Lemma wp_get_session token s (Q : outcome (Result Session DbError) -> box -> Prop) :
  (token = ""%string -> Q (Panicked "session token must be non-empty") s) ->
  (forall e s', same_but_clock s s' -> Q (Done (Err e)) s') ->
  (forall e now sess, token <> ""%string -> session_until s token e -> (now < e)%Z ->
     Q (Done (Ok sess)) (set_clock now s)) ->
  wpb (get_session token) Q s.
Proof.
  intros H0 He Hok. unfold get_session. destruct (is_empty token) eqn:Ht; cbn [negb assert_ wp].
  { destruct token; [by apply H0|done]. }
  assert (token <> ""%string) as Hne by (by destruct token).
  unfold bind_try. intros raw s1 [-> Hraw]. destruct raw as [[row|]|e]; cbn;
    [|apply He; by left|apply He; by left].
  unfold parse_timestamp. destruct (parse_from_rfc3339 (row_created_at row)) as [c|] eqn:Hc;
    [|apply He; by left].
  destruct (parse_from_rfc3339 (row_expires_at row)) as [x|] eqn:Hx; [|apply He; by left].
  cbn. intros now s1 ->. destruct (Z.leb_spec x now).
  - apply He. right. by exists now.
  - apply (Hok x); [done|by exists row, c|done].
Qed.

(** The gate: a bounce, the panic on an empty token, or the endpoint. *)
Lemma wp_gate auth ep req s (Q : outcome DashResponse -> box -> Prop) :
  DashAuth.password_hash auth <> ""%string ->
  (DashAuth.read_cookie req DashAuth.SESSION_COOKIE = Some ""%string ->
     Q (Panicked "session token must be non-empty") s) ->
  (forall s', same_but_clock s s' -> Q (Done (DashAuth.login_response req)) s') ->
  (forall token e now, DashAuth.read_cookie req DashAuth.SESSION_COOKIE = Some token ->
     session_until s token e -> (now < e)%Z -> wpb ep Q (set_clock now s)) ->
  wpb (DashAuth.gate_request auth ep req) Q s.
Proof.
  intros Hh H0 Hb Hok. unfold DashAuth.gate_request.
  destruct (is_empty (DashAuth.password_hash auth)) eqn:Hm;
    [by destruct (DashAuth.password_hash auth)|]. cbn [negb assert_].
  rewrite wp_bind. destruct (DashAuth.read_cookie req _) as [token|]; [|cbn; apply Hb; by left].
  rewrite wp_bind. apply wp_get_session; cbn.
  - intros ->. by apply H0.
  - intros e s' Hs. by apply Hb.
  - intros e now sess Ht Hu Hlt. by eapply Hok.
Qed.
End Gate.

(** ** Login and logout where the database works *)

Section Sessions.
Context `{CR : Crates} `{RF : Rfc3339} `{RL : !Rfc3339Laws}.
Local Abbreviation wps := (wp (X := BoxSig) steady) (only parsing).

Lemma wp_gate_live auth ep req token e s (Q : outcome DashResponse -> box -> Prop) :
  DashAuth.password_hash auth <> ""%string ->
  DashAuth.read_cookie req DashAuth.SESSION_COOKIE = Some token -> token <> ""%string ->
  session_until s token e ->
  (forall now, (now < e)%Z -> wps ep Q (set_clock now s)) ->
  (forall now, (e <= now)%Z -> Q (Done (DashAuth.login_response req)) (set_clock now s)) ->
  wps (DashAuth.gate_request auth ep req) Q s.
Proof.
  intros Hh Hc Ht (row & c & Hrow & Hc1 & Hc2) Hlive Hdead. unfold DashAuth.gate_request.
  destruct (is_empty (DashAuth.password_hash auth)) eqn:Hm;
    [by destruct (DashAuth.password_hash auth)|]. cbn [negb assert_].
  rewrite Hc, !wp_bind. unfold get_session.
  destruct (is_empty token) eqn:Hm2; [by destruct token|]. cbn [negb assert_].
  unfold bind_try. intros r s1 [[-> Hr] Hok]. destruct r as [raw|]; [|done].
  rewrite Hr, Hrow. cbn. unfold parse_timestamp. rewrite Hc1, Hc2. cbn.
  intros now s1 [-> _]. destruct (Z.leb_spec e now); [by apply Hdead|by apply Hlive].
Qed.

Lemma wp_gate_dead auth ep req token s (Q : outcome DashResponse -> box -> Prop) :
  DashAuth.password_hash auth <> ""%string ->
  DashAuth.read_cookie req DashAuth.SESSION_COOKIE = Some token -> token <> ""%string ->
  sessions s !! token = None -> Q (Done (DashAuth.login_response req)) s ->
  wps (DashAuth.gate_request auth ep req) Q s.
Proof.
  intros Hh Hc Ht Hrow HQ. unfold DashAuth.gate_request.
  destruct (is_empty (DashAuth.password_hash auth)) eqn:Hm;
    [by destruct (DashAuth.password_hash auth)|]. cbn [negb assert_].
  rewrite Hc, !wp_bind. unfold get_session.
  destruct (is_empty token) eqn:Hm2; [by destruct token|]. cbn [negb assert_].
  unfold bind_try. intros r s1 [[-> Hr] Hok]. destruct r as [raw|]; [|done].
  by rewrite Hr, Hrow.
Qed.

Lemma uuid_char_cookie c : uuid_char c = true -> cookie_char c = true.
Proof. destruct c as [[] [] [] [] [] [] [] []]; vm_compute; done. Qed.

Lemma cookie_char_header c :
  cookie_char c = true ->
  header_char c || negb (ch_le c (Ascii.ascii_of_nat 127)) = true.
Proof. intros H. apply cookie_char_facts in H as (-> & _). done. Qed.

Definition session_request (token : string) (hx : bool) : DashRequest :=
  MkDashRequest (Some (DashAuth.SESSION_COOKIE ++ "=" ++ token)%string) hx.

Lemma read_session_cookie token hx :
  str_forallb uuid_char token = true ->
  DashAuth.read_cookie (session_request token hx) DashAuth.SESSION_COOKIE = Some token.
Proof.
  intros Hu. change (DashAuth.read_cookie (session_request token hx) DashAuth.SESSION_COOKIE)
    with (read_cookie_from_headers (Some (cookie_line [(DashAuth.SESSION_COOKIE, token)]))
            DashAuth.SESSION_COOKIE).
  rewrite read_cookie_line; [|constructor; [|constructor]|done].
  - cbn. by rewrite bool_decide_eq_true_2.
  - split; [reflexivity|]. split; [|reflexivity]. cbn.
    eapply str_forallb_impl; [|exact Hu]. apply uuid_char_cookie.
Qed.

Lemma session_cookie_some token :
  str_forallb uuid_char token = true ->
  is_Some (DashAuth.session_cookie_header token false).
Proof.
  intros Hu. unfold DashAuth.session_cookie_header, header_value_ok.
  rewrite !str_forallb_app.
  assert (str_forallb (fun c => header_char c || negb (ch_le c (Ascii.ascii_of_nat 127))) token = true)
    as ->.
  { eapply str_forallb_impl; [|exact Hu]. intros c Hc. by apply cookie_char_header, uuid_char_cookie. }
  cbn. by eexists.
Qed.

(** The session [create_session] opens. *)
Lemma wp_create_session user s :
  user <> ""%string ->
  wps (create_session user)
    (fun o s1 =>
       match o with
       | Done (Ok token) =>
           token <> ""%string /\ str_forallb uuid_char token = true /\
           session_until s1 token (clock s1 + SESSION_TTL) /\
           sessions s !! token = None /\ files s1 = files s
       | Done (Err _) => sessions s1 = sessions s /\ files s1 = files s
       | _ => False
       end) s.
Proof.
  intros Hu. unfold create_session. destruct (is_empty user) eqn:Hm; [by destruct user|].
  cbn [negb assert_]. intros token s1 [(-> & Hne & Hc) _]. intros now s1 [-> _].
  unfold bind_try. intros r s1 [Hr Hok]. destruct r as [n|e]; cbn in Hr |- *.
  - destruct Hr as (-> & Hnone & ->). rewrite bool_decide_eq_true_2 by done. cbn.
    split_and!; try done.
    exists (MkSessionRow user (to_rfc3339 now) (to_rfc3339 (now + SESSION_TTL))), now.
    cbn. by rewrite lookup_insert_eq, !parse_to_rfc3339.
  - by subst s1.
Qed.

Lemma wp_dash_logout token hx s :
  token <> ""%string -> str_forallb uuid_char token = true ->
  wps (Dash.logout (session_request token hx))
    (fun o s1 =>
       o = Done (MkDash 303 (Some "/"%string) (Some DashAuth.clear_session_cookie_header) None None) /\
       s1 = set_sessions (delete token (sessions s)) s) s.
Proof.
  intros Hne Hu. unfold Dash.logout. rewrite read_session_cookie by done.
  rewrite wp_bind, wp_bind. unfold delete_session.
  destruct (is_empty token) eqn:Hm; [by destruct token|]. cbn [negb assert_].
  unfold bind_try. intros r s1 [Hr Hok]. destruct r as [n|]; [|done].
  cbn in Hr. destruct Hr as [-> ->]. by destruct (decide _).
Qed.
End Sessions.

(** ** Claims *)

Section Claims.
Context `{CR : Crates} `{SP : Serde PersistedTunnel}.
Local Abbreviation wps := (wp (X := BoxSig) steady) (only parsing).

(** What claims depend on: is an enrollment persisted, the live state, and how
    many claim tasks run. *)
Record claim_machine := MkClaim { cm_persisted : bool; cm_state : ClaimState; cm_running : nat }.

(** A submitted link: the new state, and the task to start. *)
Definition submit (persisted : bool) (state : ClaimState) (invite_url : option string)
    : ClaimState * list string :=
  let url := trim (default ""%string invite_url) in
  if persisted then (ClaimFailed "This box is already claimed.", [])
  else if bool_decide (state = Awaiting) then (Awaiting, [])
  else match from_url url with
       | Ok _ => (Awaiting, [url])
       | Err err => (ClaimFailed ("That is not an invite link: " ++ enroll_error_display err)%string, [])
       end.

(** The persisted enrollment, as [persisted_tunnel_state] sees it. *)
Definition persisted_in (s : box) (path : string) : option PersistedTunnel :=
  text ← files s !! path;
  match from_json text with Ok p => Some p | Err _ => None end.

Lemma wp_persisted path s (Q : outcome (option PersistedTunnel) -> box -> Prop) :
  Q (Done (persisted_in s path)) s -> wps (persisted_tunnel_state path) Q s.
Proof.
  intros HQ. unfold persisted_tunnel_state. intros r s1 [[-> Hr] Hs]. cbn.
  unfold persisted_in in HQ. destruct r as [text|e]; [by rewrite Hr in HQ|].
  by rewrite Hs in HQ.
Qed.

Definition is_claimed (s : box) (path : string) : bool := bool_decide (is_Some (persisted_in s path)).

(** The handler does what the machine does. *)
Lemma wp_claim_submit claim url s :
  wps (Dash.claim_submit claim url)
    (fun o s' =>
       let step := submit (is_claimed s (cs_tunnel_state_path claim)) (claim_state s) url in
       o = Done (Dash.see_other "/") /\ claim_state s' = fst step /\
       spawned s' = spawned s ++ snd step /\ files s' = files s) s.
Proof.
  unfold Dash.claim_submit, is_claimed. rewrite wp_bind. apply wp_persisted.
  cbn [andthen]. destruct (persisted_in s _) as [p|].
  - rewrite bool_decide_eq_true_2 by done. cbn [bind call wp].
    intros [] s1 [-> _]. cbn. by rewrite app_nil_r.
  - rewrite bool_decide_eq_false_2 by (by intros [? ?]). cbn [bind call wp].
    intros c s1 [[-> ->] _]. unfold submit.
    destruct (decide (claim_state s = Awaiting)) as [Hc|Hc].
    { rewrite !bool_decide_eq_true_2 by done. cbn. by rewrite Hc, app_nil_r. }
    rewrite !bool_decide_eq_false_2 by done.
    destruct (from_url _) as [cfg|err]; cbn [bind call wp].
    + intros [] s1 [-> _]. cbn [bind call wp]. intros [] s2 [-> _]. by cbn.
    + intros [] s1 [-> _]. cbn. by rewrite app_nil_r.
Qed.

(** Requests and running tasks, interleaved: a task persists the enrollment or
    ends in failure, nothing removes what is persisted. *)
Inductive claim_step : claim_machine -> claim_machine -> Prop :=
| step_submit m url :
    claim_step m (MkClaim (cm_persisted m)
                    (fst (submit (cm_persisted m) (cm_state m) url))
                    (cm_running m + length (snd (submit (cm_persisted m) (cm_state m) url))))
| step_persist m :
    cm_running m <> O -> claim_step m (MkClaim true (cm_state m) (cm_running m))
| step_fail m message n :
    cm_running m = S n -> claim_step m (MkClaim (cm_persisted m) (ClaimFailed message) n).

Definition claim_ok (m : claim_machine) : Prop :=
  cm_running m <= 1 /\ (cm_running m = 1 -> cm_state m = Awaiting \/ cm_persisted m = true).

Lemma claim_step_ok m m' : claim_step m m' -> claim_ok m -> claim_ok m'.
Proof.
  intros Hstep [H1 H2]. destruct Hstep as [m url|m Hr|m message n Hr]; unfold claim_ok;
    cbn [cm_running cm_state cm_persisted]; [|split; [lia|by right]|split; lia].
  unfold submit. destruct (cm_persisted m) eqn:Hp; [cbn; split; [lia|by right]|].
  case_bool_decide as Hc; [cbn; split; [lia|by left]|].
  destruct (from_url _); cbn; (destruct (decide (cm_running m = 1)) as [Hr|];
    [destruct (H2 Hr); congruence|split; [lia|]]); [by left|lia].
Qed.
End Claims.

(** ** Programs that do not read the clock *)

Definition not_now (o : op BoxSig) : Prop := o <> BoxNow.
Abbreviation no_now := (only (X := BoxSig) not_now).

Lemma no_now_bind {A B} (p : prog BoxSig A) (f : A -> prog BoxSig B) :
  no_now p -> (forall a, no_now (f a)) -> no_now (bind p f).
Proof. apply only_bind. Qed.

Lemma not_now_clock o s r s' : not_now o -> box_spec o s r s' -> clock s' = clock s.
Proof.
  intros Ho Hr. destruct o; cbn in Hr;
    repeat match goal with
    | H : not_now BoxNow |- _ => by destruct H
    | H : exists _, _ |- _ => destruct H
    | H : _ /\ _ |- _ => destruct H
    | H : match ?r with Ok _ => _ | Err _ => _ end |- _ => destruct r
    | H : s' = _ |- _ => rewrite H
    end; done.
Qed.

Lemma no_now_clock {A} (p : prog BoxSig A) (Q : outcome A -> box -> Prop) s :
  no_now p -> (forall o s', clock s' = clock s -> Q o s') -> wpb p Q s.
Proof.
  intros Hp HQ. eapply (wp_only _ _ (fun s' => clock s' = clock s)); [exact Hp| |done|exact HQ].
  intros o s1 r s2 Ho Hr <-. by eapply not_now_clock.
Qed.

Section NoNow.
Context `{RX : Rnix} `{CR : Crates} `{SP : Serde PersistedTunnel}.

Lemma no_now_read_config path : no_now (read_config path).
Proof. cbn. split; [done|]. intros []; cbn; [|done]. split; [done|]. by intros []. Qed.

Lemma no_now_editor_state path : no_now (editor_state path).
Proof. apply no_now_bind; [apply no_now_read_config|done]. Qed.

Lemma no_now_remote_view claim : no_now (Dash.remote_view claim).
Proof.
  cbn. split; [done|]. intros [text|]; cbn; [|by repeat split].
  destruct (from_json text); cbn; by repeat split.
Qed.

Lemma no_now_save_config path edits : no_now (save_config path edits).
Proof.
  apply no_now_bind; [apply no_now_read_config|]. intros [f|]; [|done].
  destruct (apply_edits edits f) as [[f'|]|]; try done. cbn [expect]. unfold write_atomic.
  destruct (parent path); [|done]. cbn. split; [done|]. intros u. split; [done|].
  intros []; cbn; [|done]. split; [done|]. by intros [].
Qed.

Lemma no_now_admin path claim : no_now (Dash.admin path claim).
Proof.
  apply no_now_bind; [apply no_now_editor_state|]. intros [config error].
  apply no_now_bind; [apply no_now_remote_view|done].
Qed.

Lemma no_now_admin_save path claim form : no_now (Dash.admin_save path claim form).
Proof.
  apply no_now_bind; [apply no_now_remote_view|]. intros remote.
  apply no_now_bind; [apply no_now_editor_state|]. intros [config [e|]]; [done|].
  apply no_now_bind; [apply no_now_save_config|]. intros [[]|]; [|done].
  apply no_now_bind; [apply no_now_editor_state|]. by intros [].
Qed.

Lemma no_now_claim_submit claim url : no_now (Dash.claim_submit claim url).
Proof.
  unfold Dash.claim_submit. apply no_now_bind.
  - cbn. split; [done|]. intros [text|]; [|done]. by destruct (from_json text).
  - intros [p|]; cbn; [by repeat split|]. split; [done|]. intros c. case_bool_decide; [done|].
    destruct (from_url _); by repeat split.
Qed.

Lemma no_now_logout req : no_now (Dash.logout req).
Proof.
  apply no_now_bind; [|done]. destruct (DashAuth.read_cookie req _) as [token|]; [|done].
  apply no_now_bind; [|done]. unfold delete_session. destruct (negb _); [|done]. cbn.
  split; [done|]. intros [n|]; [|done]. by destruct (n <=? 1)%Z.
Qed.
End NoNow.

(** ** Saving the form *)

Section Save.
Context `{RX : Rnix} `{CR : Crates} `{SP : Serde PersistedTunnel}.

Lemma wp_editor_state (path : string) s (Q : outcome (FortressConfig * option string) -> box -> Prop) :
  (forall e, Q (Done (FortressConfig_default, Some e)) s) ->
  (forall f, files s !! path = Some (source f) ->
     Q (Done (extract f ConfigSchema_default, None)) s) ->
  wpb (editor_state path) Q s.
Proof.
  intros He Hf. unfold editor_state. rewrite wp_bind. apply wp_read_config.
  - intros e. apply He.
  - intros f H _. by apply Hf.
Qed.

Lemma wp_remote_view claim s (Q : outcome ClaimView -> box -> Prop) :
  (forall v, Q (Done v) s) -> wpb (Dash.remote_view claim) Q s.
Proof.
  intros HQ. cbn. intros r s1 [-> _]. destruct r as [text|]; cbn; [|intros c s1 [-> _]; apply HQ].
  destruct (from_json text); cbn; [apply HQ|]. intros c s1 [-> _]. apply HQ.
Qed.

(** The handler saves the form's edits of the file it read, and says so. *)
Lemma wp_admin_save (path : string) claim form s :
  tmp_apart path ->
  wpb (Dash.admin_save path claim form)
    (fun o s' =>
       match o with
       | Done resp => exists props, resp = dash_html (DashEditor props) /\
           if ep_saved props
           then exists f f', files s !! path = Some (source f) /\
                  apply_edits (build_edits (extract f ConfigSchema_default) form) f = Some (Ok f') /\
                  files s' !! path = Some (source f')
           else files s' !! path = files s !! path
       | Panicked _ => s' = s
       | Stuck => False
       end) s.
Proof.
  intros Hap. unfold Dash.admin_save. rewrite wp_bind. apply wp_remote_view. intros remote.
  cbn [andthen]. rewrite wp_bind. apply wp_editor_state; cbn [andthen].
  { intros e. by eexists. }
  intros f Hf. rewrite wp_bind. eapply wp_mono; [|by apply wp_save_config].
  intros o s' Ho. destruct o as [[[]|e]|m|]; cbn in Ho; cbn [andthen]; [| |by destruct Ho|done].
  - destruct Ho as (f1 & f' & Hf1 & Ha & Hp & Hs'). rewrite Hf in Hf1. injection Hf1 as Hf1.
    assert (f1 = f) as -> by (destruct f1, f; cbn in Hf1; by subst). 
    rewrite wp_bind. apply wp_editor_state; cbn [andthen wp].
    + intros e. eexists. split; [reflexivity|]. by exists f, f'.
    + intros f2 Hf2. eexists. split; [reflexivity|]. by exists f, f'.
  - eexists. split; [reflexivity|]. done.
Qed.
End Save.
