(* ===== verification/AppProofs.v ===== *)
(** Lemmas on the box's boot and claim. *)

From stdpp Require Import base gmap strings list pretty relations.
From Stdlib Require Import ZArith Lia Ascii.
From S2P Require Import Prelude Prog ForwarderState World Wg Crates Web Box Health Tunnel Enroll.
From S2P Require Import EnrollProofs DashDb NixConfig Dashboard App DashProofs.

Local Open Scope prog_scope.
Local Abbreviation wpb := (wp (X := BoxSig) box_spec) (only parsing).

(** ** What touches nothing but the key file and asks nobody *)

Definition local_op (o : op BoxSig) : Prop :=
  match o with
  | HttpGet _ | HttpPost _ _ | RenameFile _ _ | ClaimSet _ | SpawnClaim _ | ReExec _ _ => False
  | WriteFile p _ | CreateNew p | AppendFile p _ => p = key_path
  | _ => True
  end.

Definition frame (s s' : box) : Prop :=
  http_log s' = http_log s /\ env_vars s' = env_vars s /\
  forall p, p <> key_path -> files s' !! p = files s !! p.

Lemma frame_refl s : frame s s.
Proof. done. Qed.

Lemma frame_trans s1 s2 s3 : frame s1 s2 -> frame s2 s3 -> frame s1 s3.
Proof.
  intros (H1 & H2 & H3) (H4 & H5 & H6). split_and!; [congruence..|].
  intros p Hp. by rewrite H6, H3.
Qed.

Lemma local_frame o s r s' : local_op o -> box_spec o s r s' -> frame s s'.
Proof.
  intros Ho Hr. destruct o; cbn in Ho, Hr; try done;
    repeat match goal with
    | H : exists _, _ |- _ => destruct H
    | H : _ /\ _ |- _ => destruct H
    | H : match ?r with Ok _ => _ | Err _ => _ end |- _ => destruct r
    | H : s' = _ |- _ => rewrite H; clear H
    end; try done; split_and!; cbn; try done; intros p Hp; subst path;
    by rewrite ?lookup_insert_ne, ?lookup_partial_alter_ne.
Qed.

Lemma wp_local {A} (p : prog BoxSig A) s (Q : outcome A -> box -> Prop) :
  calm (X := BoxSig) local_op p -> (forall a s', frame s s' -> Q (Done a) s') -> wpb p Q s.
Proof.
  intros Hp HQ. eapply (wp_calm _ _ (frame s)); [exact Hp| |apply frame_refl|exact HQ].
  intros o s1 r s2 Ho Hr Hf. eapply frame_trans; [exact Hf|]. by eapply local_frame.
Qed.

Section Local.
Context `{CR : Crates} `{SL : Serde (list CatalogEntry)}.

Lemma local_run_command c args : calm (X := BoxSig) local_op (run_command c args).
Proof. cbn. split; [done|]. intros [out|]; cbn; [|done]. by destruct (status_success _). Qed.

Lemma local_run_unless b c args : calm (X := BoxSig) local_op (run_unless b c args).
Proof. destruct b; [done|apply local_run_command]. Qed.

Lemma local_link_exists i : calm (X := BoxSig) local_op (link_exists i).
Proof. by cbn. Qed.

Lemma local_addr_present i a : calm (X := BoxSig) local_op (addr_present i a).
Proof. by cbn. Qed.

Lemma local_try {A B} (p : prog BoxSig (Result A TunnelError))
    (f : A -> prog BoxSig (Result B TunnelError)) :
  calm (X := BoxSig) local_op p -> (forall a, calm (X := BoxSig) local_op (f a)) ->
  calm (X := BoxSig) local_op (bind_try (fun e => e) p f).
Proof. intros Hp Hf. apply calm_bind; [done|]. intros [a|]; [apply Hf|done]. Qed.

Lemma local_bring_up_wg0 cfg : calm (X := BoxSig) local_op (bring_up_wg0 cfg key_path).
Proof.
  unfold bring_up_wg0. apply calm_bind; [apply local_link_exists|]. intros b.
  apply local_try; [apply local_run_unless|]. intros _.
  apply local_try; [apply local_run_command|]. intros _.
  apply local_try; [apply local_run_command|]. intros _.
  apply calm_bind; [apply local_addr_present|]. intros b'.
  apply local_try; [apply local_run_unless|]. intros _.
  apply local_try; [apply local_run_command|]. by intros _.
Qed.

Lemma local_ensure_keypair : calm (X := BoxSig) local_op (ensure_keypair key_path).
Proof.
  assert (calm (X := BoxSig) local_op (persist_new_key key_path)) as Hnew.
  { unfold persist_new_key, generate_keypair. cbn [bind call calm]. split; [done|]. intros secret.
    split; [done|]. intros [[]|e].
    - unfold bind_try. cbn [bind call calm]. split; [done|]. intros [[]|]; [|done].
      cbn [bind call calm]. split; [done|]. by intros [[]|].
    - destruct (io_kind e); try done. cbn. split; [done|]. by intros [|]. }
  unfold ensure_keypair. cbn [bind call calm]. split; [done|]. intros [text|]; [|done].
  by destruct (negb _).
Qed.

Lemma local_bring_up tunnel : calm (X := BoxSig) local_op (App.bring_up tunnel).
Proof.
  destruct tunnel as [t|]; [|done].
  apply local_try; [apply local_ensure_keypair|]. intros _. apply local_bring_up_wg0.
Qed.

Lemma local_load_catalog path : calm (X := BoxSig) local_op (App.load_catalog path).
Proof.
  destruct path as [path|]; [|done]. cbn. split; [done|]. by intros [text|].
Qed.
End Local.

(** ** The forwards that are bound *)

(** What a forward of the configuration is bound as: with the tunnel's address for
    the placeholder in both its addresses. *)
Definition bound_as (tunnel : option TunnelConfig) (f f' : Forward) : Prop :=
  match tunnel with
  | Some t =>
      f' = MkForward (replace TUNNEL_IP (tun_ip t) (listen_addr f)) (proto f)
             (replace TUNNEL_IP (tun_ip t) (dest_addr f))
  | None => f' = f
  end.

Lemma replace_none pat by_ s : contains_str pat s = false -> replace pat by_ s = s.
Proof.
  unfold replace. induction s as [|c s IH]; [done|]. cbn [contains_str replace_go].
  destruct (starts_with pat (String c s)) eqn:E; [done|]. cbn [orb]. intros H. by rewrite IH.
Qed.

Lemma substitute_field_replace field ip x :
  substitute_field field ip = Some x -> x = replace TUNNEL_IP ip field.
Proof.
  unfold substitute_field. destruct (contains_str TUNNEL_IP field) eqn:E.
  - destruct (is_empty ip); [done|]. by intros [= <-].
  - intros [= <-]. by rewrite replace_none.
Qed.

Lemma substitute_bound t l l' :
  substitute_tunnel_ip l t = Some l' -> Forall2 (bound_as (Some t)) l l'.
Proof.
  intros H%mapM_Some. eapply Forall2_impl; [exact H|]. intros f f'. unfold substitute_forward.
  destruct (substitute_field (listen_addr f) _) as [x|] eqn:Ex; [|done]. cbn.
  destruct (substitute_field (dest_addr f) _) as [y|] eqn:Ey; [|done]. cbn. intros [= <-].
  by rewrite (substitute_field_replace _ _ _ Ex), (substitute_field_replace _ _ _ Ey).
Qed.

Lemma bindable_spec tunnel l :
  match bindable_forwards tunnel l with
  | None => l <> []
  | Some None => l = []
  | Some (Some l') =>
      Forall2 (bound_as tunnel) l l' /\ l <> [] /\
      Forall (fun f => forward_needs_tunnel f = false) l'
  end.
Proof.
  unfold bindable_forwards. destruct l as [|f l]; [done|].
  set (r := match tunnel with Some t => _ | None => _ end).
  assert (forall l', r = Some l' -> Forall2 (bound_as tunnel) (f :: l) l') as Hb.
  { intros l'. unfold r. destruct tunnel as [t|]; [apply substitute_bound|].
    intros [= <-]. by apply Forall_Forall2_diag, Forall_true. }
  destruct r as [l'|]; [|done]. specialize (Hb l' eq_refl).
  destruct (forallb _ l') eqn:Hall; [|done]. split_and!; [done..|].
  apply Forall_forall. intros x Hx. rewrite list_elem_of_In in Hx.
  apply (proj1 (forallb_forall _ _) Hall) in Hx. by apply negb_true_iff in Hx.
Qed.

Lemma new_live_addrs i l :
  new_live_from i l = Ok tt ->
  Forall (fun f => listen_addr f <> "" /\ dest_addr f <> "")%string l.
Proof.
  revert i. induction l as [|f l IH]; intros i H; [constructor|]. cbn in H.
  destruct (is_empty (listen_addr f)) eqn:El; [done|].
  destruct (is_empty (dest_addr f)) eqn:Ed; [done|].
  constructor; [|by eapply IH]. split; intros E; rewrite E in *; discriminate.
Qed.

Lemma new_forwards c now f :
  ForwarderState.new c now = Ok f ->
  cfg f = c /\ state0 f = FState_default /\
  Forall (fun fwd => listen_addr fwd <> "" /\ dest_addr fwd <> "")%string (cfg_forwards c).
Proof.
  unfold ForwarderState.new, new_live. intros H.
  assert (exists u, new_live_from 0 (cfg_forwards c) = Ok u /\
            f = {| cfg := c; state0 := FState_default; fwd_started_at := now |}) as ([] & Hl & ->).
  { destruct (cfg_forwards c) eqn:Hc; [done|].
    destruct (new_live_from 0 _) as [u|] eqn:E; [|done].
    exists u. split; [done|]. destruct u. by injection H as <-. }
  split_and!; [done..|]. by eapply new_live_addrs.
Qed.

(** ** Boot *)

Section Boot.
Context `{CR : Crates} `{CL : !CratesLaws} `{SP : Serde PersistedTunnel} `{PL : !SerdeLaws PersistedTunnel}.
Context `{SC : Serde ConfigFile} `{SL : Serde (list CatalogEntry)} `{JT : JsonText}.

Lemma env_kept o s r s' : box_spec o s r s' -> env_vars s' = env_vars s.
Proof.
  intros Hr. destruct o; cbn in Hr;
    repeat match goal with
    | H : exists _, _ |- _ => destruct H
    | H : _ /\ _ |- _ => destruct H
    | H : match ?r with Ok _ => _ | Err _ => _ end |- _ => destruct r
    | H : s' = _ |- _ => rewrite H; clear H
    end; done.
Qed.

Lemma wp_env {A} (p : prog BoxSig A) s : wpb p (fun _ s' => env_vars s' = env_vars s) s.
Proof.
  apply (wp_invariant _ (fun s' => env_vars s' = env_vars s)); [|done].
  intros o s1 r s2 Hr <-. by eapply env_kept.
Qed.

(** The panics of an enrollment: an edge that approves without a host name or a
    token. *)
Definition enroll_panic (m : string) : Prop :=
  m = "an approved machine always has a hostname"%string \/
  m = "device token must be non-empty"%string.

Lemma paths_apart : tunnel_state_path <> device_token_path.
Proof. discriminate. Qed.

Lemma wp_enroll_state base cfg kp sp tp interval n s b code :
  sp <> tp -> parse_invite_url (invite_url cfg) = Ok (b, code) ->
  wpb (enroll (HttpEdgeClient.client base) cfg kp sp tp interval n)
    (fun o s' =>
       match o with
       | Done (Ok t) => exists hostname, files s' !! sp = Some (to_json (MkPersisted t hostname))
       | Done (Err _) => True
       | Panicked m => enroll_panic m
       | Stuck => False
       end) s.
Proof.
  intros Hne Hu. eapply wp_mono; [|by eapply wp_enroll]. intros o s' [_ Ho].
  destruct o as [[t|e]|m|]; [|done..]. destruct Ho as (_ & _ & _ & h & tk & _ & _ & H & _). by exists h.
Qed.

Definition resolved (cfg : ConfigFile) (s : box) (t : option TunnelConfig) (s' : box) : Prop :=
  (s' = s /\ exists p, persisted_in s tunnel_state_path = Some p /\ t = Some (pt_tunnel p)) \/
  (s' = s /\ cf_invite cfg = None /\ t = cf_tunnel cfg) \/
  (exists tc, is_Some (cf_invite cfg) /\ t = Some tc /\
     exists hostname, persisted_in s' tunnel_state_path = Some (MkPersisted tc hostname)).

Definition resolve_post (cfg : ConfigFile) (s : box)
    (o : outcome (Result (option TunnelConfig) EnrollError)) (s' : box) : Prop :=
  match o with
  | Done (Ok t) => resolved cfg s t s'
  | Done (Err _) => True
  | Panicked m => enroll_panic m
  | Stuck => False
  end.

Lemma wp_resolve_tunnel cfg s :
  wpb (App.resolve_tunnel cfg)
    (resolve_post cfg s) s.
Proof.
  unfold App.resolve_tunnel. intros r s1 [-> Hr]. cbn [bind].
  assert (wpb (App.enroll_or_static cfg) (resolve_post cfg s) s) as Hrest.
  { unfold App.enroll_or_static. destruct (cf_invite cfg) as [invite|] eqn:Hi; [|right; left; done].
    unfold HttpEdgeClient.new. destruct (parse_invite_url (invite_url invite)) as [[base code]|e] eqn:Hu;
      [|done].
    unfold bind_try. rewrite wp_bind.
    eapply wp_mono; [|eapply wp_enroll_state; [exact paths_apart|exact Hu]].
    intros o s' Ho. destruct o as [[t|e]|m|]; cbn [andthen wp]; [|done..].
    destruct Ho as [h Hh]. right. right. exists t. rewrite Hi. split_and!; [by eexists|done|].
    exists h. unfold persisted_in. rewrite Hh. cbn. by rewrite from_to_json. }
  destruct r as [text|e]; cbn [bind]; [|exact Hrest].
  destruct (from_json text) as [p|] eqn:Hp; [|exact Hrest].
  left. split; [done|]. exists p. split; [|done]. unfold persisted_in. rewrite Hr. cbn. by rewrite Hp.
Qed.

Definition forwarder_ok (component : string) (tunnel : option TunnelConfig) (cfg : ConfigFile)
    (o : option Forwarder) : Prop :=
  match o with
  | Some f =>
      exists fwds,
        ForwarderState.cfg f = MkConfig fwds 30000 30000 300000 component None /\
        state0 f = FState_default /\
        cf_forwards cfg <> [] /\ Forall2 (bound_as tunnel) (cf_forwards cfg) fwds /\
        Forall (fun fwd => forward_needs_tunnel fwd = false /\
                  listen_addr fwd <> ""%string /\ dest_addr fwd <> ""%string) fwds
  | None =>
      cf_forwards cfg = [] \/
      tunnel = None /\ existsb forward_needs_tunnel (cf_forwards cfg) = true
  end.

(** What [run] leaves behind. *)
Definition boot_post (component default_config : string) (args : list string) (s : box)
    (b : Booted) (s' : box) : Prop :=
  exists cfg data s1,
    parse_flag_args component default_config args = Ok (bt_flags b) /\
    files s !! config_path (bt_flags b) = Some data /\ from_json data = Ok cfg /\
    (cf_tunnel cfg = None \/ cf_invite cfg = None) /\
    env_vars s !! "FORTRESS_ADMIN_PASSWORD_HASH"%string = Some (DashAuth.password_hash (bt_admin b)) /\
    bt_config_path b = default "nixosConfigurations/dashboard.nix"%string
                         (env_vars s !! "FORTRESS_CONFIG_PATH"%string) /\
    resolved cfg s (bt_tunnel b) s1 /\ frame s1 s' /\
    forwarder_ok component (bt_tunnel b) cfg (bt_forwarder b).

Definition built (component : string) (tunnel : option TunnelConfig) (cfg : ConfigFile) (s : box)
    (o : outcome (Result (option Forwarder) ConfigError)) (s' : box) : Prop :=
  frame s s' /\
  match o with
  | Done (Ok f) => forwarder_ok component tunnel cfg f
  | Done (Err _) => True
  | Panicked m =>
      m = "claimable mode gates every forward that still needs a tunnel"%string /\
      bindable_forwards tunnel (cf_forwards cfg) = None
  | Stuck => False
  end.

Lemma wp_build_forwarder component tunnel cfg s :
  wpb (App.build_forwarder component tunnel cfg)
    (built component tunnel cfg s) s.
Proof.
  unfold App.build_forwarder, boot_mode. pose proof (bindable_spec tunnel (cf_forwards cfg)) as Hb.
  assert (wpb (expect (bindable_forwards tunnel (cf_forwards cfg))
     "claimable mode gates every forward that still needs a tunnel" (fun o =>
        match o with
        | None => Ret (Ok None)
        | Some resolved =>
            now <- @call BoxSig BoxNow ;;
            Ret (match ForwarderState.new (MkConfig resolved 30000 30000 300000 component None) now with
                 | Ok f => Ok (Some f)
                 | Err e => Err e
                 end)
        end)) (built component tunnel cfg s) s) as Hfull.
  { destruct (bindable_forwards tunnel (cf_forwards cfg)) as [[l|]|] eqn:Hbf; cbn [expect]; [|by split; [|left]|by split_and!].
    intros now s1 ->. cbn [bind wp]. split; [done|].
    destruct (ForwarderState.new _ now) as [f|e] eqn:Hn; [|done].
    apply new_forwards in Hn as (Hc & Hs & Ha). destruct Hb as (H1 & H2 & H3).
    exists l. split_and!; [done..|]. rewrite Forall_forall in H3, Ha |- *.
    intros x Hx. split; [by apply H3|by apply Ha]. }
  destruct tunnel as [t|]; [exact Hfull|].
  destruct (existsb forward_needs_tunnel (cf_forwards cfg)) eqn:He; [|exact Hfull].
  split; [done|]. by right.
Qed.

Lemma wp_app_run component default_config args s :
  wpb (App.run component default_config args)
    (fun o s' =>
       match o with
       | Done (Running b) => boot_post component default_config args s b s'
       | Done (Exited code) => code = 1%Z
       | Panicked m => enroll_panic m \/
           m = "claimable mode gates every forward that still needs a tunnel"%string
       | Stuck => False
       end) s.
Proof.
  unfold App.run. destruct (parse_flag_args component default_config args) as [flags|] eqn:Hfl;
    cbn [App.or_exit]; [|done].
  intros data s1 [-> Hd]. cbn [bind]. destruct data as [data|]; cbn [App.or_exit]; [|done].
  destruct (from_json data) as [cfg|] eqn:Hcfg; cbn [App.or_exit]; [|done].
  destruct (bool_decide (is_Some (cf_tunnel cfg)) && bool_decide (is_Some (cf_invite cfg))) eqn:Hboth;
    [done|].
  intros hash s1 [-> ->]. cbn [bind].
  destruct (env_vars s !! "FORTRESS_ADMIN_PASSWORD_HASH"%string) as [h|] eqn:Hh; cbn [fmap option_fmap option_map]; [|done].
  rewrite wp_bind. eapply wp_mono; [|apply wp_conj; [apply wp_resolve_tunnel|apply wp_env]].
  intros o s1 [Ho He1]. destruct o as [[tunnel|e]|m|]; cbn [andthen App.or_exit wp]; [|done|by left|done].
  rewrite wp_bind. apply wp_local; [apply local_bring_up|]. intros up s2 Hf2.
  cbn [andthen]. destruct up as [[]|]; cbn [App.or_exit wp]; [|done].
  rewrite wp_bind. eapply wp_mono; [|apply wp_build_forwarder]. intros o s3 [Hf3 Ho3].
  destruct o as [[forwarder|e]|m|]; cbn [andthen App.or_exit wp]; [|done|by right; destruct Ho3|done].
  rewrite wp_bind. apply wp_local; [apply local_load_catalog|]. intros cat s4 Hf4.
  cbn [andthen]. destruct cat as [cat|]; cbn [App.or_exit wp]; [|done].
  unfold App.open_dashboard. intros db s5 ->. cbn [bind].
  destruct db as [[]|]; cbn [bind App.or_exit wp]; [|done].
  intros v s5 [-> ->]. cbn [bind App.or_exit wp].
  exists cfg, data, s1. cbn [bt_flags bt_admin bt_tunnel bt_forwarder bt_config_path].
  split_and!; try done.
  - apply andb_false_iff in Hboth. by destruct (cf_tunnel cfg), (cf_invite cfg); try (by left);
      try (by right); destruct Hboth.
  - destruct Hf2 as (_ & H2 & _), Hf3 as (_ & H3 & _), Hf4 as (_ & H4 & _).
    by rewrite H4, H3, H2, He1.
  - eapply frame_trans; [exact Hf2|]. by eapply frame_trans.
Qed.
End Boot.

(** ** The running tasks *)

#[export] Instance Server_eq_dec : EqDecision Server.
Proof. solve_decision. Defined.

Lemma down_dec (g : SignalTask) : {g <> SigWaiting} + {g = SigWaiting}.
Proof. destruct g; [by right|by left..]. Defined.

(** A step of the process. *)
Definition serves (x y : Serving) : Prop := exists e, serve_step e x y.

(** A step that opens no connection. *)
Definition quiet_step (x y : Serving) : Prop :=
  exists e, e <> ByHealth Opens /\ e <> ByDashboard Opens /\ serve_step e x y.

(** A step of the process itself, with no part in it for a client. *)
Definition own_step (x y : Serving) : Prop :=
  exists e, e <> ByHealth Opens /\ e <> ByDashboard Opens /\
    e <> ByHealth Closes /\ e <> ByDashboard Closes /\ serve_step e x y.

(** Every client keeps its connection to the dashboard. *)
Definition held_step (x y : Serving) : Prop :=
  exists e, e <> ByDashboard Closes /\ serve_step e x y.

Definition conns (v : Server) : nat :=
  match v with SrvListening n | SrvDraining n => n | _ => 0 end.

Definition to_bind (f : Awaited) : nat := match f with AwBinding n => n | _ => 0 end.

(** What is left to do, when no connection is opened. *)
Definition server_cost (v : Server) : nat :=
  match v with SrvBinding => 3 | SrvListening n => 2 + n | SrvDraining n => 1 + n | SrvEnded => 0 end.

Definition awaited_cost (f : Awaited) : nat :=
  match f with AwNone => 1 | AwBinding n => 3 + n | AwServing => 2 | AwDraining => 1 | AwOver _ => 0 end.

Definition main_cost (m : RunAt) : nat :=
  match m with
  | AtForwarder => 4 | AtHealth _ => 3 | AtDashboard _ => 2 | AtSignal _ => 1 | Returned _ => 0
  end.

Definition serving_cost (s : Serving) : nat :=
  (if down_dec (sv_signal s) then 0 else 1) + server_cost (sv_health s)
  + server_cost (sv_dashboard s) + awaited_cost (sv_forwarder s) + main_cost (sv_main s).

Lemma serving_cost_bound s :
  serving_cost s
  <= 14 + to_bind (sv_forwarder s) + conns (sv_health s) + conns (sv_dashboard s).
Proof.
  assert (forall v, server_cost v <= 3 + conns v) as Hv by (intros []; cbn; lia).
  pose proof (Hv (sv_health s)). pose proof (Hv (sv_dashboard s)).
  assert (awaited_cost (sv_forwarder s) <= 3 + to_bind (sv_forwarder s))
    by (destruct (sv_forwarder s); cbn; lia).
  assert (main_cost (sv_main s) <= 4) by (destruct (sv_main s); cbn; lia).
  unfold serving_cost. destruct (down_dec _); lia.
Qed.

Lemma server_step_cost grace d e v v' :
  server_step grace d e v v' -> e <> Opens -> server_cost v' < server_cost v.
Proof. by destruct 1; cbn; intros; try lia. Qed.

Lemma quiet_cost x y : quiet_step x y -> serving_cost y < serving_cost x.
Proof.
  intros (e & Hh & Hd & H). unfold serving_cost. destruct H; cbn [sv_signal sv_health sv_dashboard
    sv_forwarder sv_main main_cost]; try (destruct (down_dec _); lia); try (destruct (down_dec g); lia).
  - cbn. lia.
  - cbn. lia.
  - apply server_step_cost in H; [lia|congruence].
  - apply server_step_cost in H; [lia|congruence].
  - destruct H; cbn; lia.
Qed.

Lemma quiet_bound n x y : nsteps quiet_step n x y -> n + serving_cost y <= serving_cost x.
Proof.
  induction 1 as [|n x y z Hxy _ IH]; [lia|]. apply quiet_cost in Hxy. lia.
Qed.

(** After the shutdown a server that is not over goes on by itself, when it limits the
    time of its open connections or has none. *)
Lemma server_alone grace (d : Prop) v :
  d -> v <> SrvEnded -> is_Some grace \/ (forall n, v <> SrvDraining (S n)) ->
  exists v', server_step grace d Runs v v'.
Proof.
  intros Hd Hv Hg. destruct v as [|n|[|n]|]; [| | | |done].
  - exists (SrvListening 0). constructor.
  - exists (SrvDraining n). by constructor.
  - exists SrvEnded. constructor.
  - exists SrvEnded. apply srv_grace_over. destruct Hg as [Hg|Hg]; [done|by destruct (Hg n)].
Qed.

Lemma awaited_goes_on (d : Prop) f :
  d -> (forall code, f <> AwOver code) -> exists f', awaited_step d f f'.
Proof.
  intros Hd Hf. destruct f as [|[|n]| | |code]; [by eexists; constructor..|].
  by destruct (Hf code).
Qed.

(** By itself, unless the dashboard drains a connection. *)
Lemma serving_alone s :
  down s -> returned s = None -> (forall n, sv_dashboard s <> SrvDraining (S n)) ->
  exists y, own_step s y.
Proof.
  destruct s as [g h d f m]. unfold down, returned. cbn. intros Hg Hm Hd0.
  destruct m as [|code|code|code|code]; [| | | |done].
  - destruct f as [|n| | |code].
    5:{ eexists. exists ByRest. split_and!; [done..|apply await_forwarder]. }
    all: match goal with |- context [MkServing _ _ _ ?f _] =>
           destruct (awaited_goes_on (g <> SigWaiting) f Hg) as [f' Hf]; [done|] end;
      exists (MkServing g h d f' AtForwarder), ByRest; (split_and!; [done..|by apply serve_forwarder]).
  - destruct (decide (h = SrvEnded)) as [->|Hh].
    + eexists. exists ByRest. split_and!; [done..|apply await_health].
    + assert (is_Some health_grace) as Hgr by (by eexists).
      destruct (server_alone health_grace (g <> SigWaiting) h Hg Hh (or_introl Hgr)) as [h' Hs].
      eexists. exists (ByHealth Runs). split_and!; [done..|by apply serve_health].
  - destruct (decide (d = SrvEnded)) as [->|Hd].
    + eexists. exists ByRest. split_and!; [done..|apply await_dashboard].
    + destruct (server_alone dashboard_grace (g <> SigWaiting) d Hg Hd (or_intror Hd0)) as [d' Hs].
      eexists. exists (ByDashboard Runs). split_and!; [done..|by apply serve_dashboard].
  - eexists. exists ByRest. split_and!; [done..|by apply await_signal].
Qed.

Lemma serving_goes_on s : down s -> returned s = None -> exists y, quiet_step s y.
Proof.
  intros Hg Hm. destruct s as [g h d f m]. destruct d as [|n|[|n]|] eqn:Hd.
  4: { eexists. exists (ByDashboard Closes). split_and!; [done..|]. apply serve_dashboard. constructor. }
  all: edestruct serving_alone as (y & e & H1 & H2 & _ & _ & H); [exact Hg|exact Hm|done|];
    by exists y, e.
Qed.

(** The code of the forwarder: 1 needs a forward, 0 the shutdown. *)
Definition awaited_inv (forwards : option nat) (d : Prop) (f : Awaited) : Prop :=
  match f with
  | AwNone => forwards = None
  | AwBinding k => exists n, forwards = Some n /\ k <= n
  | AwServing => is_Some forwards
  | AwDraining => d
  | AwOver code => code = 0%Z /\ d \/ code = 1%Z /\ exists n, forwards = Some (S n)
  end.

(** What the awaits that are over have seen. *)
Definition main_inv (s : Serving) : Prop :=
  match sv_main s with
  | AtForwarder => True
  | AtHealth code => sv_forwarder s = AwOver code
  | AtDashboard code => sv_forwarder s = AwOver code /\ sv_health s = SrvEnded
  | AtSignal code =>
      sv_forwarder s = AwOver code /\ sv_health s = SrvEnded /\ sv_dashboard s = SrvEnded
  | Returned code =>
      sv_forwarder s = AwOver code /\ sv_health s = SrvEnded /\ sv_dashboard s = SrvEnded /\ down s
  end.

Definition serving_inv (forwards : option nat) (s : Serving) : Prop :=
  awaited_inv forwards (down s) (sv_forwarder s) /\ main_inv s.

Lemma awaited_inv_step forwards (d : Prop) f f' :
  awaited_step d f f' -> awaited_inv forwards d f -> awaited_inv forwards d f'.
Proof.
  destruct 1; cbn; try by auto.
  - intros (m & -> & Hm). exists m. split; [done|lia].
  - intros ([|m] & -> & Hm); [lia|]. right. split; [done|by exists m].
  - intros (m & -> & _). by eexists.
Qed.

Lemma awaited_inv_mono forwards (d d' : Prop) f :
  (d -> d') -> awaited_inv forwards d f -> awaited_inv forwards d' f.
Proof. intros Hd. destruct f; cbn; tauto. Qed.

Lemma ended_stays grace d e v v' : server_step grace d e v v' -> v <> SrvEnded.
Proof. by destruct 1. Qed.

Lemma over_stays d f f' code : awaited_step d f f' -> f <> AwOver code.
Proof. by destruct 1. Qed.

Lemma serving_inv_step forwards e x y :
  serve_step e x y -> serving_inv forwards x -> serving_inv forwards y.
Proof.
  intros Hxy [Hf Hm]. unfold serving_inv, main_inv, down in *. destruct Hxy; cbn in *.
  - split; [by eapply awaited_inv_mono; [|exact Hf]|]. destruct m; tauto.
  - split; [by eapply awaited_inv_mono; [|exact Hf]|]. destruct m; tauto.
  - split; [done|]. apply ended_stays in H. destruct m; tauto.
  - split; [done|]. apply ended_stays in H. destruct m; tauto.
  - split; [by eapply awaited_inv_step|].
    destruct m as [|c|c|c|c]; [done|..]; pose proof (over_stays _ _ _ c H); tauto.
  - done.
  - tauto.
  - tauto.
  - tauto.
Qed.

Lemma serving_inv_reach forwards s : rtc serves (serving_start forwards) s -> serving_inv forwards s.
Proof.
  assert (serving_inv forwards (serving_start forwards)) as H0.
  { destruct forwards as [n|]; (split; [|done]); cbn; eauto. }
  revert H0. generalize (serving_start forwards). intros x H0 Hr.
  induction Hr as [|x y z [e Hxy] _ IH]; [done|]. apply IH. by eapply serving_inv_step.
Qed.

Lemma held_dashboard n x y :
  rtc held_step x y -> sv_dashboard x = SrvDraining (S n) -> sv_dashboard y = SrvDraining (S n).
Proof.
  induction 1 as [|x y z (e & He & Hxy) _ IH]; [done|]. intros Hx. apply IH.
  destruct Hxy as [| | |e g h d d' f m Hs| | | | |]; cbn in *; try done. subst d.
  inversion Hs; subst; try done. by match goal with H : is_Some dashboard_grace |- _ => destruct H end.
Qed.
