(* ===== verification/EditProofs.v ===== *)
(** Lemmas on the editor's form: the keys of a set are listed once, the edits of
    one form are apart, and a run of edits that are apart sets them all. *)

From stdpp Require Import base gmap strings list sorting.
From Stdlib Require Import ZArith Lia Ascii.
From S2P Require Import Prelude Prog World Crates Web Box Tunnel Enroll DashDb.
From S2P Require Import NixConfig Dashboard NixProofs.

(** ** Sorted keys *)

Lemma str_compare_cons a s b t :
  String.compare (String a s) (String b t)
  = match Ascii.compare a b with Eq => String.compare s t | c => c end.
Proof. done. Qed.

Lemma ascii_compare_N a b : Ascii.compare a b = N.compare (N_of_ascii a) (N_of_ascii b).
Proof. done. Qed.

Lemma str_le_cons a s b t :
  str_le (String a s) (String b t) <->
  (N_of_ascii a < N_of_ascii b)%N \/ a = b /\ str_le s t.
Proof.
  unfold str_le, String.leb. rewrite str_compare_cons, ascii_compare_N.
  destruct (N.compare_spec (N_of_ascii a) (N_of_ascii b)) as [H|H|H].
  - apply (f_equal ascii_of_N) in H. rewrite !ascii_N_embedding in H. subst b.
    split; [by right|]. intros [H|[_ H]]; [lia|done].
  - split; [by left|done].
  - split; [done|]. intros [H'|[-> _]]; lia.
Qed.

#[export] Instance str_le_trans : Transitive str_le.
Proof.
  intros x. induction x as [|a x IH]; intros y z.
  - intros _ _. by destruct z.
  - destruct y as [|b y]; [done|]. destruct z as [|c z]; [done|].
    rewrite !str_le_cons. intros [H1|[-> H1]] [H2|[-> H2]]; [left; lia|by left|by left|].
    right. split; [done|]. by eapply IH.
Qed.

#[export] Instance str_le_total : Total str_le.
Proof. intros x y. apply String.leb_total. Qed.

Lemma elem_of_dedup x l : x ∈ dedup l <-> x ∈ l.
Proof.
  induction l as [|a l IH]; [done|]. destruct l as [|b l]; [done|].
  change (dedup (a :: b :: l)) with (if bool_decide (a = b) then dedup (b :: l) else a :: dedup (b :: l)).
  case_bool_decide as Hab.
  - subst b. rewrite IH, !elem_of_cons. tauto.
  - rewrite !elem_of_cons, IH, elem_of_cons. done.
Qed.

Lemma dedup_nodup l : StronglySorted str_le l -> NoDup (dedup l).
Proof.
  intros Hs. induction Hs as [|a l Hs IH Ha]; [constructor|]. destruct l as [|b l]; [by apply NoDup_singleton|].
  change (dedup (a :: b :: l)) with (if bool_decide (a = b) then dedup (b :: l) else a :: dedup (b :: l)).
  case_bool_decide as Hab; [done|]. constructor; [|done]. rewrite elem_of_dedup.
  intros Hin. apply Hab. apply elem_of_cons in Hin as [?|Hin]; [done|].
  apply Sorted.StronglySorted_inv in Hs as [_ Hb].
  rewrite Forall_forall in Ha, Hb. apply String.leb_antisym.
  - apply Ha. by left.
  - by apply Hb.
Qed.

Lemma attrset_keys_nodup `{RX : Rnix} f path l : attrset_keys f path = Some l -> NoDup l.
Proof.
  unfold attrset_keys. destruct (parse_root (source f)) as [[e|]|]; [|done..].
  cbn [mbind option_bind]. destruct (root_expr_to_attrset e) as [s|]; [|done].
  cbn [mbind option_bind].
  destruct (collect_child_keys (EAttrSet (set_range s) (set_entries s)) path) as [[] keys]; [|done]. intros [= <-].
  apply dedup_nodup, StronglySorted_merge_sort; apply _.
Qed.

(** ** Runs of edits *)

Section Edits.
Context `{RX : Rnix}.

Definition mk_edit (e : list string * NixValue) : ConfigEdit :=
  MkConfigEdit (fst e) (to_source (snd e)).

(** An edit whose text the parser reads as its value, wherever it is written. *)
Definition writable (e : list string * NixValue) : Prop :=
  plain_value (snd e) = true /\ forallb ident_ok (fst e) = true.

Lemma same_reading_refl x : same_reading x x.
Proof. destruct x; [by left|done]. Qed.

Lemma same_reading_trans x y z : same_reading x y -> same_reading y z -> same_reading x z.
Proof.
  destruct x, y, z; cbn; try done.
  intros [H1|[H1 H2]] [H3|[H3 H4]]; [left; congruence|right; split; congruence..].
Qed.

(** A run of edits that succeeds, edit by edit. *)
Lemma apply_edits_cons path v rest f f' :
  apply_edits (map mk_edit ((path, v) :: rest)) f = Some (Ok f') ->
  exists f1, set_attrpath path (to_source v) f = Some (Ok tt, f1) /\
             apply_edits (map mk_edit rest) f1 = Some (Ok f').
Proof.
  cbn. destruct (set_attrpath path (to_source v) f) as [[[[]|e] f1]|]; intros H; try done.
  by exists f1.
Qed.

Section Read.
Context `{RL : !RnixLaws}.

Lemma edits_frame edits f f' q :
  Forall writable edits -> apply_edits (map mk_edit edits) f = Some (Ok f') -> q <> [] ->
  Forall (fun e => apart (fst e) q) edits -> same_reading (find_attrpath f q) (find_attrpath f' q).
Proof.
  intros Hw. revert f. induction Hw as [|[path v] rest [Hv Hid] Hw IH]; intros f Ha Hq Hall.
  - injection Ha as <-. apply same_reading_refl.
  - apply apply_edits_cons in Ha as (f1 & Hset & Ha). apply Forall_cons in Hall as [Hap Hall].
    destruct (set_find path v f f1 Hv (fun _ => Hid) Hset) as [_ Hf].
    eapply same_reading_trans; [by apply Hf|by apply IH].
Qed.

(** After the run every path of it reads as its value. *)
Lemma edits_find edits f f' :
  Forall writable edits -> apply_edits (map mk_edit edits) f = Some (Ok f') ->
  ForallOrdPairs (fun x y => apart (fst y) (fst x)) edits ->
  Forall (fun e => exists l, find_attrpath f' (fst e) = Some l /\ located_value l = snd e) edits.
Proof.
  intros Hw. revert f. induction Hw as [|[path v] rest [Hv Hid] Hw IH]; intros f Ha Hpairs;
    [constructor|].
  apply apply_edits_cons in Ha as (f1 & Hset & Ha). inversion Hpairs as [|? ? Hall Hrest]; subst.
  constructor; [|by eapply IH]. cbn [fst snd] in *.
  destruct (set_find path v f f1 Hv (fun _ => Hid) Hset) as [(l & Hl & Hlv) _].
  assert (path <> []) as Hne by (by intros ->).
  pose proof (edits_frame rest f1 f' path Hw Ha Hne Hall) as Hs.
  rewrite Hl in Hs. destruct (find_attrpath f' path) as [l'|]; [|done].
  exists l'. split; [done|]. cbn in Hs. rewrite Hlv in Hs.
  destruct Hs as [<-|[Ho _]]; [done|]. destruct v; done.
Qed.
End Read.

(** The form's edits, with the values they write. *)
Definition hostname_value (config : FortressConfig) (form : EditorForm) :=
  match form_hostname form, fc_hostname config with
  | Some h, Some _ => [(["networking"; "hostName"]%string, NixStr h)]
  | _, _ => []
  end.
Definition domain_value (config : FortressConfig) (form : EditorForm) :=
  match form_base_domain form, fc_root_domain config with
  | Some d, Some _ => [(["fortress"; "baseDomain"]%string, NixStr d)]
  | _, _ => []
  end.
Definition service_value (config : FortressConfig) (form : EditorForm) (sv : ServiceInfo) :=
  if negb (bool_decide (is_Some (services_enabled config !! nixname sv)))
     && negb (service_checked form (nixname sv)) then []
  else [(["fortress"; "services"; nixname sv; "enable"]%string,
         NixBool (service_checked form (nixname sv)))].
Definition user_value (form : EditorForm) (u : string * CocoUser) :=
  match user_groups form (fst u) with
  | None => []
  | Some text =>
      if negb (groups_declared (snd u)) && bool_decide (split_groups text = []) then []
      else [(["users"; "users"; fst u; "groups"]%string, NixStrList (split_groups text))]
  end.

Definition form_values (config : FortressConfig) (form : EditorForm)
    : list (list string * NixValue) :=
  hostname_value config form ++ domain_value config form
  ++ concat (map (service_value config form) SERVICE_LIST)
  ++ concat (map (user_value form) (users config)).

Lemma build_edits_values config form :
  build_edits config form = map mk_edit (form_values config form).
Proof.
  unfold build_edits, form_values. rewrite !map_app, !concat_map, !map_map. f_equal; [|f_equal; [|f_equal]].
  - unfold hostname_edit, hostname_value. by destruct (form_hostname form), (fc_hostname config).
  - unfold domain_edit, domain_value. by destruct (form_base_domain form), (fc_root_domain config).
  - f_equal. apply map_ext. intros sv. unfold service_edit, service_value. by destruct (_ && _).
  - f_equal. apply map_ext. intros [n u]. unfold user_edit, user_value. cbn [fst snd].
    destruct (user_groups form n); [|done]. by destruct (_ && _).
Qed.

(** A form whose texts start no interpolation, for users with identifiers as names. *)
Definition form_plain (config : FortressConfig) (form : EditorForm) : bool :=
  plain (default "" (form_hostname form)) && plain (default "" (form_base_domain form))
  && forallb (fun u => ident_ok (fst u)
                && forallb plain (split_groups (default "" (user_groups form (fst u)))))
       (users config).

Lemma concat_all {A B} (P : B -> Prop) (f : A -> list B) l :
  Forall (fun x => Forall P (f x)) l -> Forall P (concat (map f l)).
Proof. induction 1 as [|x l Hx Hl IH]; cbn; [constructor|by apply Forall_app]. Qed.

Lemma form_writable config form :
  form_plain config form = true -> Forall writable (form_values config form).
Proof.
  unfold form_plain. intros [[Hh Hd]%andb_true_iff Hu]%andb_true_iff. unfold form_values.
  rewrite !Forall_app. split_and!.
  - unfold hostname_value. destruct (form_hostname form), (fc_hostname config); by repeat constructor.
  - unfold domain_value. destruct (form_base_domain form), (fc_root_domain config); by repeat constructor.
  - apply concat_all. repeat constructor; unfold service_value; destruct (_ && _);
      repeat constructor.
  - apply concat_all. rewrite forallb_forall in Hu. apply Forall_forall. intros u Hin.
    apply list_elem_of_In, Hu, andb_true_iff in Hin as [Hn Hg]. unfold user_value.
    destruct (user_groups form (fst u)) as [text|]; [|constructor]. destruct (_ && _); [constructor|].
    repeat constructor; [done|]. cbn. by rewrite Hn.
Qed.

(** ** The edits of a form are apart *)

Lemma apart_head a b p q : a <> b -> apart (a :: p) (b :: q).
Proof. intros Hne. split; intros [k Hk]; by injection Hk. Qed.

Lemma apart_cons a p q : apart p q -> apart (a :: p) (a :: q).
Proof.
  intros [H1 H2]. split; intros [k Hk]; [apply H1|apply H2]; exists k; by injection Hk.
Qed.

Lemma ordpairs_app {A} (R : A -> A -> Prop) l k :
  ForallOrdPairs R l -> ForallOrdPairs R k -> (forall x y, x ∈ l -> y ∈ k -> R x y) ->
  ForallOrdPairs R (l ++ k).
Proof.
  intros Hl Hk H. induction Hl as [|x l Hx Hl IH]; [done|]. cbn. constructor.
  - apply Forall_app. split; [done|]. apply Forall_forall. intros y Hy. apply H; [by left|done].
  - apply IH. intros z y Hz Hy. apply H; [by right|done].
Qed.

(** Each key contributes at most one entry, at its own path. *)
Lemma ordpairs_keys {A} (key : A -> string) (path : string -> list string)
    (f : A -> list (list string * NixValue)) (l : list A) :
  (forall k k', k <> k' -> apart (path k) (path k')) ->
  (forall x, f x = [] \/ exists v, f x = [(path (key x), v)]) ->
  NoDup (map key l) ->
  ForallOrdPairs (fun x y => apart (fst y) (fst x)) (concat (map f l)).
Proof.
  intros Hap Hf Hnd. induction l as [|x l IH]; [constructor|]. cbn in Hnd |- *.
  apply NoDup_cons in Hnd as [Hx Hnd]. apply ordpairs_app; [|by apply IH|].
  - destruct (Hf x) as [->|[v ->]]; [constructor|]. repeat constructor.
  - intros e e' He He'. destruct (Hf x) as [Hn|[v Hv]]; [rewrite Hn in He; by apply elem_of_nil in He|].
    rewrite Hv in He. apply list_elem_of_singleton in He as ->.
    apply list_elem_of_In, in_concat in He' as (m & Hm & He').
    apply in_map_iff in Hm as (y & <- & Hy).
    destruct (Hf y) as [Hn|[w Hw]]; [by rewrite Hn in He'|]. rewrite Hw in He'.
    destruct He' as [<-|[]]. cbn. apply Hap. intros Heq. apply Hx. rewrite <- Heq.
    apply list_elem_of_In. by apply in_map.
Qed.

Lemma elem_concat_keys {A} (key : A -> string) (path : string -> list string)
    (f : A -> list (list string * NixValue)) (l : list A) e :
  (forall x, f x = [] \/ exists v, f x = [(path (key x), v)]) ->
  e ∈ concat (map f l) -> exists k, fst e = path k.
Proof.
  intros Hf He. apply list_elem_of_In, in_concat in He as (m & Hm & He).
  apply in_map_iff in Hm as (y & <- & Hy).
  destruct (Hf y) as [Hn|[w Hw]]; [by rewrite Hn in He|]. rewrite Hw in He.
  destruct He as [<-|[]]. by exists (key y).
Qed.

Definition enable_path (n : string) : list string := ["fortress"; "services"; n; "enable"]%string.
Definition groups_path (n : string) : list string := ["users"; "users"; n; "groups"]%string.

Lemma service_value_one config form sv :
  service_value config form sv = [] \/
  exists v, service_value config form sv = [(enable_path (nixname sv), v)].
Proof. unfold service_value. destruct (_ && _); [by left|right; by eexists]. Qed.

Lemma user_value_one form u :
  user_value form u = [] \/ exists v, user_value form u = [(groups_path (fst u), v)].
Proof.
  unfold user_value. destruct (user_groups form (fst u)); [|by left].
  destruct (_ && _); [by left|right; by eexists].
Qed.

Lemma form_values_apart config form :
  NoDup (map fst (users config)) ->
  ForallOrdPairs (fun x y => apart (fst y) (fst x)) (form_values config form).
Proof.
  intros Hu. unfold form_values.
  assert (forall e, e ∈ hostname_value config form -> fst e = ["networking"; "hostName"]%string) as H1.
  { unfold hostname_value. destruct (form_hostname form), (fc_hostname config);
      intros e He; try by apply elem_of_nil in He. by apply list_elem_of_singleton in He as ->. }
  assert (forall e, e ∈ domain_value config form -> fst e = ["fortress"; "baseDomain"]%string) as H2.
  { unfold domain_value. destruct (form_base_domain form), (fc_root_domain config);
      intros e He; try by apply elem_of_nil in He. by apply list_elem_of_singleton in He as ->. }
  pose proof (fun e => elem_concat_keys nixname enable_path (service_value config form) SERVICE_LIST e
                (service_value_one config form)) as H3.
  pose proof (fun e => elem_concat_keys fst groups_path (user_value form) (users config) e
                (user_value_one form)) as H4.
  apply ordpairs_app; [|apply ordpairs_app; [|apply ordpairs_app|]|].
  - unfold hostname_value. destruct (form_hostname form), (fc_hostname config); repeat constructor.
  - unfold domain_value. destruct (form_base_domain form), (fc_root_domain config); repeat constructor.
  - apply (ordpairs_keys nixname enable_path); [|apply service_value_one|].
    + intros k k' Hk. by apply apart_cons, apart_cons, apart_head.
    + apply (bool_decide_unpack _). vm_compute. done.
  - apply (ordpairs_keys fst groups_path); [|apply user_value_one|done].
    intros k k' Hk. by apply apart_cons, apart_cons, apart_head.
  - intros x y Hx Hy. destruct (H3 x Hx) as [k ->]. destruct (H4 y Hy) as [k' ->].
    by apply apart_head.
  - intros x y Hx Hy. rewrite (H2 x Hx). apply elem_of_app in Hy as [Hy|Hy].
    + destruct (H3 y Hy) as [k ->]. by apply apart_cons, apart_head.
    + destruct (H4 y Hy) as [k ->]. by apply apart_head.
  - intros x y Hx Hy. rewrite (H1 x Hx). rewrite !elem_of_app in Hy.
    destruct Hy as [Hy|[Hy|Hy]]; [rewrite (H2 y Hy)|destruct (H3 y Hy) as [k ->]|destruct (H4 y Hy) as [k ->]];
      by apply apart_head.
Qed.

(** ** What the page shows after the save *)

Lemma services_other f schema l (m : gmap string bool) n :
  n ∉ map nixname l -> foldl (add_service f schema) m l !! n = m !! n.
Proof.
  revert m. induction l as [|x l IH]; intros m Hn; [done|]. cbn in Hn |- *.
  rewrite not_elem_of_cons in Hn. destruct Hn as [Hx Hn]. rewrite IH by done.
  unfold add_service. destruct (find_attrpath _ _) as [y|]; [|done].
  destruct (located_value y); try done. by rewrite lookup_insert_ne.
Qed.

Lemma services_lookup f schema l (m : gmap string bool) n y b :
  NoDup (map nixname l) -> n ∈ map nixname l ->
  find_attrpath f (service_path schema n) = Some y -> located_value y = NixBool b ->
  foldl (add_service f schema) m l !! n = Some b.
Proof.
  intros Hnd Hin Hf Hy. revert m. induction l as [|x l IH]; intros m; [by apply elem_of_nil in Hin|].
  cbn in Hnd, Hin |- *. apply NoDup_cons in Hnd as [Hx Hnd].
  apply elem_of_cons in Hin as [->|Hin]; [|by apply IH].
  rewrite services_other by done. unfold add_service. rewrite Hf, Hy. apply lookup_insert_eq.
Qed.

(** The submitted form is what the saved configuration shows. *)
Definition shows (config : FortressConfig) (form : EditorForm) (f : NixConfigFile) : Prop :=
  let saved := extract f ConfigSchema_default in
  (forall h, form_hostname form = Some h -> is_Some (fc_hostname config) ->
     fc_hostname saved = Some h) /\
  (forall d, form_base_domain form = Some d -> is_Some (fc_root_domain config) ->
     fc_root_domain saved = Some d) /\
  (forall sv, sv ∈ SERVICE_LIST ->
     is_Some (services_enabled config !! nixname sv) \/ service_checked form (nixname sv) = true ->
     services_enabled saved !! nixname sv = Some (service_checked form (nixname sv))) /\
  (forall n u text, (n, u) ∈ users config -> user_groups form n = Some text ->
     groups_declared u = true \/ split_groups text <> [] ->
     let shown := extract_user f ConfigSchema_default n in
     groups shown = list_to_set (split_groups text) /\ groups_declared shown = true).

Lemma elem_concat {A B} (f : A -> list B) l x y : x ∈ l -> y ∈ f x -> y ∈ concat (map f l).
Proof.
  rewrite !list_elem_of_In. intros Hx Hy. apply in_concat. exists (f x). split; [|done].
  by apply in_map.
Qed.

Lemma edits_show `{RL : !RnixLaws} config form f f' :
  NoDup (map fst (users config)) -> form_plain config form = true ->
  apply_edits (build_edits config form) f = Some (Ok f') -> shows config form f'.
Proof.
  intros Hu Hp Ha. rewrite build_edits_values in Ha.
  pose proof (edits_find _ f f' (form_writable _ _ Hp) Ha (form_values_apart config form Hu)) as Hf.
  rewrite Forall_forall in Hf. unfold form_values in Hf.
  setoid_rewrite elem_of_app in Hf. setoid_rewrite elem_of_app in Hf.
  setoid_rewrite elem_of_app in Hf. unfold shows. cbn zeta. split_and!.
  - intros h Hh [x Hx]. destruct (Hf (["networking"; "hostName"]%string, NixStr h)) as (l & Hl & Hlv).
    { left. unfold hostname_value. rewrite Hh, Hx. by left. }
    cbn in Hl, Hlv. cbn. unfold find_str. cbn. by rewrite Hl, Hlv.
  - intros d Hd [x Hx]. destruct (Hf (["fortress"; "baseDomain"]%string, NixStr d)) as (l & Hl & Hlv).
    { right. left. unfold domain_value. rewrite Hd, Hx. by left. }
    cbn in Hl, Hlv. cbn. unfold find_str. cbn. by rewrite Hl, Hlv.
  - intros sv Hsv Hor.
    destruct (Hf (enable_path (nixname sv), NixBool (service_checked form (nixname sv))))
      as (l & Hl & Hlv).
    { right. right. left. eapply elem_concat; [exact Hsv|]. unfold service_value.
      destruct Hor as [H|H]; [rewrite (bool_decide_eq_true_2 _ H)|rewrite H, andb_false_r];
        by left. }
    cbn [fst snd] in Hl, Hlv. cbn [services_enabled extract]. unfold extract_services.
    eapply services_lookup; [| |exact Hl|exact Hlv].
    + apply (bool_decide_unpack _). vm_compute. done.
    + apply list_elem_of_In, in_map. by apply list_elem_of_In.
  - intros n u text Hin Htext Hor.
    destruct (Hf (groups_path n, NixStrList (split_groups text))) as (l & Hl & Hlv).
    { right. right. right. eapply elem_concat; [exact Hin|]. unfold user_value. cbn [fst snd].
      rewrite Htext. destruct Hor as [->|H]; [by left|].
      rewrite (bool_decide_eq_false_2 _ H), andb_false_r. by left. }
    unfold extract_user.
    change (users_root ConfigSchema_default ++ [n; "groups"%string]) with (groups_path n).
    cbn [fst snd] in Hl, Hlv. by rewrite Hl, Hlv.
Qed.
End Edits.
