(* ===== verification/Demo.v ===== *)
(** Concrete inputs: one control plane, one forwarder, one empty world, and the
    concrete crates, for evaluating the program and instantiating theorems. *)

From stdpp Require Import base gmap strings list pretty countable.
From Stdlib Require Import ZArith Lia Ascii.
From S2P Require Import Prelude Prog Addr NumText AddrText ForwarderState World Retry.
From S2P Require Import Forwarder Dns Wg Store Crates Errors ControlPlane Allocation.
From S2P Require Import Account Invite Mail.

Local Open Scope Z_scope.

Module Demo.
#[export] Instance crates : Crates := Concrete.crates.
#[export] Instance serde_machine : Serde Machine := Concrete.serde Machine.
#[export] Instance serde_machine_laws : SerdeLaws Machine := Concrete.serde_laws Machine.
#[export] Instance serde_account : Serde AccountRecord := Concrete.serde AccountRecord.
#[export] Instance serde_account_laws : SerdeLaws AccountRecord :=
  Concrete.serde_laws AccountRecord.
#[export] Instance serde_invite : Serde InviteRecord := Concrete.serde InviteRecord.
#[export] Instance serde_invite_laws : SerdeLaws InviteRecord :=
  Concrete.serde_laws InviteRecord.
#[export] Instance serde_delivery : Serde EnrollmentDelivery := Concrete.serde EnrollmentDelivery.
(** lettre: a mailbox is an address with an "@", a message is its fields. *)
#[export] Instance lettre : Lettre := {|
  Mailbox := string;
  Message := string * string * string * string;
  parse_mailbox := fun s =>
    if contains_str "@" s then Ok s else Err "missing domain or user"%string;
  build := fun f t subj ct b => Ok (f, t, subj, b);
  msg_from := fun m => m.1.1.1;
  msg_to := fun m => m.1.1.2;
  msg_subject := fun m => m.1.2;
  msg_body := fun m => m.2;
  starttls_relay := fun host => if is_empty host then Some "empty host"%string else None;
|}.
#[export] Instance lettre_laws : LettreLaws.
Proof. split. intros f t s ct b m. cbn. intros [= <-]. done. Qed.

#[export] Instance serde_delivery_laws : SerdeLaws EnrollmentDelivery :=
  Concrete.serde_laws EnrollmentDelivery.

Definition subnet6 : Subnet64 := MkSubnet [42; 1; 4; 248; 12; 23; 0; 1] 64.
Definition subnet4 : WgSubnet := MkSubnet [10; 10; 0] 24.

Definition key (b : Z) : string := Concrete.key32 b.

Definition cp : ControlPlane :=
  MkControlPlane subnet6 subnet4 "example.net" (key 7) ALLOC_COUNTER.

Definition fwd : Forwarder := MkForwarder Config_default FState_default 0.

Definition world (m : gmap string rval) : edge :=
  MkEdge m ∅ [] [] [] FState_default 0.

Definition verify : string -> string -> option bool := bcrypt_verify.
Definition exec := ref_exec Concrete.bcrypt_hash.
Definition start (m : gmap string rval) : ref_world := MkRef (world m) [] [] [].

Lemma subnet6_text : from_str "2a01:4f8:c17:1::/64" = Ok subnet6.
Proof. vm_compute. reflexivity. Qed.

Lemma subnet4_text : from_str "10.10.0.0/24" = Ok subnet4.
Proof. vm_compute. reflexivity. Qed.

Lemma cp_ok : cp_wf cp.
Proof.
  split; [|split; [|done]];
    [apply (from_str_wf (A := Ipv6Addr) "2a01:4f8:c17:1::/64"); apply subnet6_text
    |apply (from_str_wf (A := Ipv4Addr) "10.10.0.0/24"); apply subnet4_text].
Defined.

Lemma empty_inv : alloc_inv cp ∅.
Proof.
  exists 1. split_and!; try lia.
  - by left.
  - intros name v H. by rewrite lookup_empty in H.
  - intros n1 n2 mc1 mc2 [H _]. by rewrite lookup_empty in H.
Defined.

Definition edge_key : string := b64_encode (x25519_public (replicate 32%nat 7)).

Lemma edge_key_ok : edge_public_key cp = Some (Ok edge_key).
Proof. vm_compute. reflexivity. Qed.

(** The record of host index [i]. *)
Definition route (name : string) (owner : option string) (i : Z) (k : string) : Machine :=
  MkMachine name owner (machine_hostname name "example.net")
    (default ""%string (host_string subnet6 i)) (default ""%string (host_string subnet4 i)) k None.

(** A word list: the four-letter words over twelve letters. *)
Definition letters : list ascii :=
  ["a"; "b"; "c"; "d"; "e"; "f"; "g"; "h"; "i"; "j"; "k"; "l"]%char.
Definition words : list string :=
  a ← letters; b ← letters; c ← letters; d ← letters;
  [String a (String b (String c (String d "")))].

Lemma words_fine : words_ok words = true.
Proof. vm_compute. reflexivity. Qed.

Definition code : string := "aaaa-aaab-aaac-aaad".

Lemma code_canonical : canonical_invite_code words code = Some code.
Proof. vm_compute. reflexivity. Qed.

(** An active account with password [hunter22]. *)
Definition account : AccountRecord :=
  MkAccount "uuid-1" Active (Concrete.bcrypt_hash "hunter22") None.
Definition email : string := "ann@example.net".
End Demo.
