(* ===== verification/BoxDemo.v ===== *)
(** A concrete box for the witnesses: encodings of the persisted enrollment, of time, and
    of JSON values as text that parses back. *)

From stdpp Require Import base gmap strings list pretty countable.
From Stdlib Require Import ZArith Lia Ascii.
From S2P Require Import Prelude Prog World Crates Web Box Tunnel Enroll DashDb Demo.

#[export] Instance TunnelConfig_eq_dec : EqDecision TunnelConfig.
Proof. solve_decision. Defined.

#[export] Instance PersistedTunnel_eq_dec : EqDecision PersistedTunnel.
Proof. solve_decision. Defined.

#[export] Instance PersistedTunnel_countable : Countable PersistedTunnel.
Proof.
  refine (inj_countable'
    (fun p => let t := pt_tunnel p in
              ((tun_iface t, tun_ip t, tun_prefix t, edge_pubkey t),
               (edge_endpoint t, edge_allowed_ips t, tun_listen_port t, pt_hostname p)))
    (fun '((a, b, c, d), (e, f, g, h)) => MkPersisted (MkTunnel a b c d e f g) h) _).
  by intros [[] ?].
Defined.

#[export] Instance demo_persisted : Serde PersistedTunnel := Concrete.serde PersistedTunnel.
#[export] Instance demo_json : JsonText :=
  {| json_parse _ := Err "not json"%string; status_display := pretty |}.

#[export] Instance demo_time : Rfc3339 := {|
  to_rfc3339 := to_json (Serde := Concrete.serde Z);
  parse_from_rfc3339 := from_json (Serde := Concrete.serde Z);
|}.
#[export] Instance demo_time_laws : Rfc3339Laws.
Proof. split. intros t. apply (from_to_json (SerdeLaws := Concrete.serde_laws Z)). Qed.

(** ** JSON *)

Local Open Scope Z_scope.

(** The leaves of a JSON value. *)
Definition leaf : Type := option (bool + Z + string).

(** Arrays are nodes of label 0, objects nodes of label 1 whose members are nodes of
    label 2. *)
Fixpoint to_tree (j : Json) : gen_tree leaf :=
  match j with
  | JNull => GenLeaf None
  | JBool b => GenLeaf (Some (inl (inl b)))
  | JNum z => GenLeaf (Some (inl (inr z)))
  | JStr s => GenLeaf (Some (inr s))
  | JArr l => GenNode 0 (map to_tree l)
  | JObj l =>
      GenNode 1 (map (fun m => match m with
                               | (k, v) => GenNode 2 [GenLeaf (Some (inr k)); to_tree v]
                               end) l)
  end.

Fixpoint of_tree (t : gen_tree leaf) : Json :=
  match t with
  | GenLeaf None => JNull
  | GenLeaf (Some (inl (inl b))) => JBool b
  | GenLeaf (Some (inl (inr z))) => JNum z
  | GenLeaf (Some (inr s)) => JStr s
  | GenNode 0 l => JArr (map of_tree l)
  | GenNode 1 l =>
      JObj (map (fun m => match m with
                          | GenNode _ [GenLeaf (Some (inr k)); v] => (k, of_tree v)
                          | _ => (""%string, JNull)
                          end) l)
  | GenNode _ _ => JNull
  end.

Fixpoint of_to_tree (j : Json) : of_tree (to_tree j) = j.
Proof.
  destruct j as [|b|z|s|l|l]; cbn; try done; f_equal;
    (induction l as [|x l IH]; cbn; [done|]; rewrite IH; clear IH; f_equal).
  - apply of_to_tree.
  - destruct x as [k v]. by rewrite of_to_tree.
Qed.

#[export] Instance json_eq_dec : EqDecision Json.
Proof.
  intros x y. destruct (decide (to_tree x = to_tree y)) as [H|H].
  - left. by rewrite <- (of_to_tree x), H, of_to_tree.
  - right. by intros ->.
Defined.

#[export] Instance json_countable : Countable Json := inj_countable' to_tree of_tree of_to_tree.

Definition json_serde : Serde Json := Concrete.serde Json.

Definition json_print (j : Json) : string := to_json (Serde := json_serde) j.

Definition json_text : JsonText := {|
  json_parse := from_json (Serde := json_serde);
  status_display _ := "status"%string;
|}.

Lemma print_parse j : json_parse (JsonText := json_text) (json_print j) = Ok j.
Proof. exact (from_to_json (SerdeLaws := Concrete.serde_laws Json) j). Qed.
