(* ===== verification/NixProps.v ===== *)
(** The properties of the Nix editor: what an edit changes, in the text and in
    what the file means; and quoting. *)

From stdpp Require Import base gmap strings list.
From Stdlib Require Import ZArith Lia Ascii.
From S2P Require Import Prelude NixConfig NixProofs.

(** The text [r] stands in [new] in place of the bytes [a] to [b] of [old]. *)
Definition spliced (old new r : string) (a b : nat) : Prop :=
  new = (until a old ++ r ++ from b old)%string.

(** C32: an edit is local and leaves a file that parses.  On success the new text
    parses and is the old one with either the bytes of a value of the path
    replaced, or, when the path had no value, one line inserted in the deepest
    set on the path: the one that is reached by following the path's entries and
    that has no entry on what is left of the path, at the end of its last entry,
    or after its opening brace.  On an error the file is as before.  The only
    panics are the empty path and a deepest set whose text is not between braces. *)
Theorem nix_edit_local `{RX : Rnix} (path : list string) (r : string) (f : NixConfigFile) :
  match set_attrpath path r f with
  | None =>
      path = [] \/
      exists e root s rest, parse_root (source f) = Some (Some e) /\
        root_expr_to_attrset e = Some root /\ deepest root path s rest /\
        let text := slice (sp_start (set_range s)) (sp_end (set_range s)) (source f) in
        starts_with "{" text && ends_with "}" text = false
  | Some (Err _, f') => f' = f
  | Some (Ok _, f') =>
      is_ok (rnix_parse (source f')) = true /\
      exists e root, parse_root (source f) = Some (Some e) /\ root_expr_to_attrset e = Some root /\
        ((exists v, value_at (set_entries root) path v /\
            spliced (source f) (source f') r (sp_start (text_range v)) (sp_end (text_range v))) \/
         (find_attrpath f path = None /\
          exists s rest indent, deepest root path s rest /\ str_forallb is_whitespace indent = true /\
            let at_ := match last (set_entries s) with
                       | Some x => sp_end (entry_range x)
                       | None => S (sp_start (set_range s))
                       end in
            spliced (source f) (source f')
              (String nl (indent ++ join "." rest ++ " = " ++ r ++ ";")) at_ at_))
  end.
Proof.
  destruct (set_attrpath path r f) as [[[[]|e] f']|] eqn:Hset.
  - apply set_attrpath_ok in Hset as (Hp & Hok & root & Hr & H). split; [done|].
    destruct H as [(node & Hn & Hs)|(Hn & point & Hpt & Hs)].
    { apply find_node_value in Hn as (e & s & -> & Hs' & Hv). exists e, s.
      split_and!; [done..|]. left. by exists node. }
    apply insert_point_deepest in Hpt as (e & s & -> & Hs' & Hd); [|done].
    exists e, s. split_and!; [done..|]. right.
    split; [by rewrite (find_attrpath_root f path (Some e)), Hn|].
    apply splice_entry_line in Hs as (_ & indent & Hi & Hs).
    by exists (ip_attrset point), (ip_remaining point), indent.
  - unfold set_attrpath in Hset. destruct path; [done|].
    destruct (parse_root (source f)) as [root|]; [|by injection Hset].
    destruct (find_value_node root _) as [node|].
    + destruct (validate _); by injection Hset.
    + destruct (insert_point root _) as [point|]; [|by injection Hset]. cbn in Hset.
      destruct (splice_entry _ point r) as [c|]; cbn in Hset; [|done].
      destruct (validate c); by injection Hset.
  - unfold set_attrpath in Hset. destruct path as [|p path]; [by left|right].
    destruct (parse_root (source f)) as [root|] eqn:Hr; [|done].
    destruct (find_value_node root _) as [node|]; [by destruct (validate _)|].
    destruct (insert_point root _) as [point|] eqn:Hp; [|done].
    apply insert_point_deepest in Hp as (e & s & -> & Hs & Hd); [|done].
    exists e, s, (ip_attrset point), (ip_remaining point). split_and!; [done..|].
    cbn in Hset. unfold splice_entry in Hset. apply deepest_rest in Hd.
    destruct (ip_remaining point); [done|].
    destruct (starts_with _ _ && _) eqn:Hb; [|done]. cbn in Hset. by destruct (validate _).
Qed.

(** C17: what is set is found: when setting a path to a boolean, a string or a list
    of strings succeeds, that path reads as that value afterwards, and every path
    that neither continues it nor is continued by it reads as before.  A string
    is one that starts no interpolation, and a path that had no value is made of
    identifiers.  It relies on the grammar of the parser ([RnixLaws]): a literal
    written over the bytes of a value is that value, and a binding written after
    the last entry of a set is one more entry of it. *)
Theorem nix_set_find `{RX : Rnix} `{RL : !RnixLaws} (path : list string) (v : NixValue)
    (f f' : NixConfigFile)
    (Hv : plain_value v = true)
    (Hid : find_attrpath f path = None -> forallb ident_ok path = true)
    (Hset : set_attrpath path (to_source v) f = Some (Ok tt, f')) :
  (exists l, find_attrpath f' path = Some l /\ located_value l = v) /\
  (forall q, q <> [] -> apart path q -> same_reading (find_attrpath f q) (find_attrpath f' q)).
Proof. by eapply set_find. Qed.

(** ** Quoting *)

(** The strings the editor quotes read back as themselves exactly when they
    start no interpolation; with one, the file gets a string that Nix evaluates. *)
Theorem nix_quote_reads (s : string) :
  read_literal (quote_nix_string s) = (if plain s then Some s else None).
Proof.
  unfold quote_nix_string, read_literal. change (Ascii.eqb dquote dquote) with true. cbv iota.
  rewrite read_quoted. by destruct (plain s).
Qed.

(** ** A file for the parser to have read *)

Definition demo_text : string := "{ a.b = true; c = { }; }".
Definition demo_tree : Expr :=
  EAttrSet (MkSpan 0 24)
    [AttrpathValue (MkSpan 2 13) (Some [AttrIdent "a"; AttrIdent "b"])
       (Some (EIdent (MkSpan 8 12) "true"));
     AttrpathValue (MkSpan 14 22) (Some [AttrIdent "c"]) (Some (EAttrSet (MkSpan 18 21) []))].
Definition edited_text : string := "{ a.b = false; c = { }; }".
Definition edited_demo : Expr :=
  EAttrSet (MkSpan 0 25)
    [AttrpathValue (MkSpan 2 14) (Some [AttrIdent "a"; AttrIdent "b"])
       (Some (EIdent (MkSpan 8 13) "false"));
     AttrpathValue (MkSpan 15 23) (Some [AttrIdent "c"]) (Some (EAttrSet (MkSpan 19 22) []))].


(** The first file with one more binding. *)
Definition grown_text : string :=
  "{ a.b = true; c = { };" ++ String nl "  d = true; }".
Definition grown_demo : Expr :=
  EAttrSet (MkSpan 0 36)
    [AttrpathValue (MkSpan 2 13) (Some [AttrIdent "a"; AttrIdent "b"])
       (Some (EIdent (MkSpan 8 12) "true"));
     AttrpathValue (MkSpan 14 22) (Some [AttrIdent "c"]) (Some (EAttrSet (MkSpan 18 21) []));
     AttrpathValue (MkSpan 25 34) (Some [AttrIdent "d"]) (Some (EIdent (MkSpan 29 33) "true"))].

Definition demo_rnix : Rnix := {|
  rnix_parse s :=
    if bool_decide (s = demo_text) then Ok (Some demo_tree)
    else if bool_decide (s = edited_text) then Ok (Some edited_demo)
    else if bool_decide (s = grown_text) then Ok (Some grown_demo)
    else Err "unexpected token"%string
|}.

Lemma demo_parses s t :
  parse_root (RX := demo_rnix) s = Some t ->
  s = demo_text /\ t = Some demo_tree \/ s = edited_text /\ t = Some edited_demo \/
  s = grown_text /\ t = Some grown_demo.
Proof.
  unfold parse_root. cbn [rnix_parse demo_rnix]. repeat case_bool_decide; intros [= <-]; tauto.
Qed.

(** What was spliced in between two texts. *)
Lemma between u x w r :
  (u ++ x ++ w)%string = r ->
  x = slice (String.length u) (String.length r - String.length w) r.
Proof.
  intros <-. rewrite !str_length_app. unfold slice.
  replace (String.length u + (String.length x + String.length w) - String.length w
           - String.length u) with (String.length x) by lia.
  induction u as [|c u IH]; cbn; [|exact IH].
  induction x as [|c x IH]; cbn; [by destruct w|]. by rewrite <- IH.
Qed.

Lemma literal_inv text e :
  literal text e ->
  text = "true"%string /\ e = EIdent no_span "true" \/
  text = "false"%string /\ e = EIdent no_span "false" \/
  exists c rest, text = String c rest /\ (c = dquote \/ c = "["%char).
Proof.
  intros H. destruct H as [| |text s H|texts items _]; [tauto..| |].
  - right. right. destruct text as [|c text]; [done|]. exists c, text. split; [done|]. left.
    cbn in H. by destruct (Ascii.eqb_spec c dquote).
  - right. right. cbn. eexists _, _. split; [reflexivity|by right].
Qed.

Lemma literal_quoted rest e :
  literal (String dquote rest) e ->
  exists s, read_literal (String dquote rest) = Some s /\ e = EStr no_span (str_parts s).
Proof.
  intros H. remember (String dquote rest) as text eqn:Ht.
  destruct H as [| |text s H|texts items _]; [done..|by exists s|done].
Qed.

Lemma contains_char_mid c u x w : contains_char c (u ++ String c x ++ w) = true.
Proof.
  unfold contains_char. rewrite str_forallb_app. cbn. rewrite Ascii.eqb_refl. cbn.
  by rewrite andb_false_r.
Qed.

(** The binding of a line: blanks, an identifier of one letter and a value. *)
Lemma line_inv indent names text c rest :
  str_forallb is_whitespace indent = true -> names <> [] -> forallb ident_ok names = true ->
  is_whitespace c = false ->
  (indent ++ join "." names ++ " = " ++ text ++ ";")%string = String " " (String " " (String c (String " " rest))) ->
  names = [String c ""] /\ (" = " ++ text ++ ";")%string = String " " rest.
Proof.
  intros Hi Hn Hid Hc H.
  assert (exists a n' l, names = String a n' :: l /\ ident_start a = true /\
            str_forallb ident_char n' = true) as (a & n' & l & -> & Ha & Hn').
  { destruct names as [|[|a n'] l]; [done|done|]. exists a, n', l. cbn in Hid.
    apply andb_true_iff in Hid as [[[H1 H2]%andb_true_iff _]%andb_true_iff _]. done. }
  assert (forall x, ident_start x = true -> x <> " "%char) as Hsp by (by intros x Hx ->).
  assert (join "." (String a n' :: l)
          = String a (n' ++ match l with [] => "" | _ => "." ++ join "." l end)) as Hj.
  { destruct l; [by rewrite str_app_nil_r|done]. }
  rewrite Hj in H. clear Hj.
  destruct indent as [|i1 indent]; [injection H as -> _; by apply Hsp in Ha|].
  injection H as -> H. cbn in Hi.
  destruct indent as [|i2 indent]; [injection H as -> _; by apply Hsp in Ha|].
  injection H as -> H. cbn in Hi.
  destruct indent as [|i3 indent]; [|injection H as -> _; cbn in Hi; by rewrite Hc in Hi].
  injection H as -> H.
  destruct n' as [|b n']; [|injection H as -> _; done].
  destruct l as [|m l]; [done|]. by injection H.
Qed.

(** The texts differ by a value or by a binding, so the laws hold of them. *)
#[local] Instance demo_laws : RnixLaws (RX := demo_rnix).
Proof.
  split.
  - intros s r [[_ ->]|[[_ ->]|[_ ->]]]%demo_parses; by eexists.
  - intros s t [[_ [= ->]]|[[_ [= ->]]|[_ [= ->]]]]%demo_parses s0 [= <-]; (split; [cbn; tauto|]);
      cbn; repeat constructor; set_solver.
  - intros s t root at_ text e t' Ht Hroot Hat Hl Ht'.
    apply demo_parses in Ht as [[-> [= ->]]|[[-> [= ->]]|[-> [= ->]]]]; injection Hroot as <-;
      cbn in Hat; repeat (apply elem_of_cons in Hat as [->|Hat]); try by apply elem_of_nil in Hat.
    all: apply demo_parses in Ht' as [[Ht' [= ->]]|[[Ht' [= ->]]|[Ht' [= ->]]]].
    all: pose proof Ht' as Hx; apply between in Hx; vm_compute in Hx.
    all: apply literal_inv in Hl as [[-> ->]|[[-> ->]|(c & rest & -> & [->| ->])]];
      try done; try (vm_compute in Ht'; discriminate Ht').
  - intros s t root set indent names text e t' Ht Hroot Hset _ Hi Hn Hid Hl Ht'.
    assert (set = root \/ set = MkAttrSet (MkSpan 18 21) [] \/ set = MkAttrSet (MkSpan 19 22) [])
      as Hset'.
    { apply demo_parses in Ht as [[-> [= ->]]|[[-> [= ->]]|[-> [= ->]]]]; injection Hroot as <-;
        inversion Hset as [|? sp attrs ssp inner ? Hin Hu]; subst; try tauto; cbn in Hin;
        repeat (apply elem_of_cons in Hin as [[= -> -> -> ->]|Hin]); try by apply elem_of_nil in Hin.
      all: inversion Hu as [|? sp' attrs' ssp' inner' ? Hin']; subst; [tauto|];
        by apply elem_of_nil in Hin'. }
    clear Hset.
    apply demo_parses in Ht as [[-> [= ->]]|[[-> [= ->]]|[-> [= ->]]]]; injection Hroot as <-;
      apply demo_parses in Ht' as [[Ht' [= ->]]|[[Ht' [= ->]]|[Ht' [= ->]]]];
      destruct Hset' as [->|[->| ->]];
      apply between in Ht'; vm_compute in Ht'; try discriminate Ht'. injection Ht' as Hline.
    apply line_inv in Hline as [-> Hline]; [|done..].
    apply (between " = "%string text ";"%string) in Hline. vm_compute in Hline. subst text.
    apply literal_inv in Hl as [[_ ->]|[[[=] _]|(c & rest & [= <- <-] & [[=]|[=]])]]. reflexivity.
Qed.

Lemma nix_set_find_witness :
  (exists l, find_attrpath (RX := demo_rnix) (MkNixFile edited_text) ["a"; "b"]%string = Some l /\
             located_value l = NixBool false) /\
  find_attrpath (RX := demo_rnix) (MkNixFile demo_text) ["d"]%string = None /\
  (exists l, find_attrpath (RX := demo_rnix) (MkNixFile grown_text) ["d"]%string = Some l /\
             located_value l = NixBool true) /\
  same_reading (find_attrpath (RX := demo_rnix) (MkNixFile demo_text) ["a"; "b"]%string)
    (find_attrpath (RX := demo_rnix) (MkNixFile grown_text) ["a"; "b"]%string).
Proof.
  assert (set_attrpath (RX := demo_rnix) ["a"; "b"]%string (to_source (NixBool false))
            (MkNixFile demo_text) = Some (Ok tt, MkNixFile edited_text)) as Hset
    by (vm_compute; reflexivity).
  assert (set_attrpath (RX := demo_rnix) ["d"]%string (to_source (NixBool true))
            (MkNixFile demo_text) = Some (Ok tt, MkNixFile grown_text)) as Hadd
    by (vm_compute; reflexivity).
  pose proof (nix_set_find (RX := demo_rnix) (RL := demo_laws) ["a"; "b"]%string (NixBool false)
    (MkNixFile demo_text) (MkNixFile edited_text) eq_refl (fun _ => eq_refl) Hset) as [H1 _].
  pose proof (nix_set_find (RX := demo_rnix) (RL := demo_laws) ["d"]%string (NixBool true)
    (MkNixFile demo_text) (MkNixFile grown_text) eq_refl (fun _ => eq_refl) Hadd) as [H2 H3].
  split; [exact H1|split; [reflexivity|split; [exact H2|]]].
  apply H3; [discriminate|]. split; intros [k Hk]; discriminate Hk.
Defined.
