(* ===== verification/DashProps.v ===== *)
(** The properties of the dashboard: the gate, sessions, saving the editor's form,
    claims. *)

From stdpp Require Import base gmap strings list pretty relations.
From Stdlib Require Import ZArith Lia Ascii.
From S2P Require Import Prelude Prog ForwarderState World Crates Web Box Tunnel Enroll.
From S2P Require Import HttpProofs DashDb NixConfig Dashboard NixProofs DashProofs EditProofs.
From S2P Require Import NixProps Demo BoxDemo.
Import Demo.

Local Open Scope prog_scope.

(** C20: behind the dashboard's gate nothing happens without a live session: a
    request to any route but the landing page and the login form either carries
    the token of a row that had not expired when the clock was read, or changes
    nothing and bounces to the login page; an empty token panics. *)
Theorem dash_gate `{RX : Rnix} `{RF : Rfc3339} `{CR : Crates} `{SP : Serde PersistedTunnel}
    (auth : DashAuth.AdminConfig) (config_path : ConfigPath) (claim : ClaimSupport)
    (catalog : list CatalogEntry) (r : Dash.route) (req : DashRequest) (s : box)
    (Hhash : DashAuth.password_hash auth <> ""%string) (Hr : Dash.public r = false) :
  wp (X := BoxSig) box_spec (Dash.app auth config_path claim catalog r req)
    (fun o s' =>
       (exists token e, DashAuth.read_cookie req DashAuth.SESSION_COOKIE = Some token /\
          session_until s token e /\ (clock s' < e)%Z) \/
       same_but_clock s s' /\
       (o = Done (DashAuth.login_response req) \/
        DashAuth.read_cookie req DashAuth.SESSION_COOKIE = Some ""%string /\
        o = Panicked "session token must be non-empty")) s.
Proof.
  assert (exists ep, Dash.app auth config_path claim catalog r req
                     = Dash.with_session auth ep req /\ no_now ep) as (ep & -> & Hep).
  { destruct r; try done; (eexists; split; [reflexivity|]).
    - apply no_now_admin.
    - apply no_now_admin_save.
    - apply no_now_claim_submit.
    - apply no_now_logout. }
  apply wp_gate; [done|by right; split; [left|right]|by right; split; [|left]|].
  intros token e now Hc Hu Hlt. apply no_now_clock; [done|]. intros o s' Hs. left.
  exists token, e. split_and!; try done. by rewrite Hs.
Qed.

(** A session of the witnesses: its token opens the gate of the demo box. *)
Definition demo_auth : DashAuth.AdminConfig := DashAuth.MkAdminConfig (Concrete.bcrypt_hash "pw").
Definition demo_claim : ClaimSupport := MkClaimSupport "/var/lib/fortress-client/tunnel.json".
Definition demo_config : string := "/etc/nixos/dashboard.nix"%string.

Lemma dash_gate_witness :
  DashAuth.password_hash demo_auth <> ""%string /\
  wp (X := BoxSig) box_spec
    (Dash.app (RX := demo_rnix) demo_auth demo_config demo_claim [] Dash.GetAdmin
       (MkDashRequest None true))
    (fun o s' => o = Done (MkDash 401 None None (Some "/auth/login"%string) None)) (box_with ∅).
Proof.
  split; [discriminate|].
  eapply wp_mono; [|exact (dash_gate (RX := demo_rnix) demo_auth demo_config demo_claim [] Dash.GetAdmin
    (MkDashRequest None true) (box_with ∅) ltac:(discriminate) eq_refl)].
  intros o s' [(token & e & Hc & _)|[_ [->|[Hc _]]]]; [discriminate|reflexivity|discriminate].
Defined.

(** Sessions: without the right password the login form changes nothing; with
    it, a login either fails in the database or gives a new cookie which opens the
    gate, for any endpoint and any request that carries it, exactly while the
    clock reads less than [SESSION_TTL] after the login; after a logout with that
    cookie it is bounced. *)
Theorem dash_session `{RX : Rnix} `{CR : Crates} `{RF : Rfc3339} (RL : Rfc3339Laws)
    `{SP : Serde PersistedTunnel}
    (auth : DashAuth.AdminConfig) (config_path : ConfigPath) (claim : ClaimSupport)
    (catalog : list CatalogEntry) (password : option string) (s : box)
    (Hhash : DashAuth.password_hash auth <> ""%string) :
  let gate := fun hx token ep => DashAuth.gate_request auth ep (session_request token hx) in
  let bounce := fun hx token => DashAuth.login_response (session_request token hx) in
  let good := match password with
              | Some pw => DashAuth.verify_password pw (DashAuth.password_hash auth)
              | None => false
              end in
  wp (X := BoxSig) steady (Dash.login_page_post auth password)
    (fun o s1 =>
       o = Done (Dash.login_page true) /\ good = false /\ s1 = s \/
       good = true /\ o = Done (dash_status 500) /\ sessions s1 = sessions s \/
       good = true /\ exists token cookie,
         o = Done (MkDash 303 (Some "/"%string) (Some cookie) None None) /\
         DashAuth.session_cookie_header token false = Some cookie /\ sessions s !! token = None /\
         (forall hx ep Q,
            (forall now, (now < clock s1 + SESSION_TTL)%Z ->
               wp (X := BoxSig) steady ep Q (set_clock now s1)) ->
            (forall now, (clock s1 + SESSION_TTL <= now)%Z ->
               Q (Done (bounce hx token)) (set_clock now s1)) ->
            wp (X := BoxSig) steady (gate hx token ep) Q s1) /\
         (forall hx,
            wp (X := BoxSig) steady
              (Dash.app auth config_path claim catalog Dash.GetLogout (session_request token hx))
              (fun o2 s2 => (clock s2 < clock s1 + SESSION_TTL)%Z ->
                 o2 = Done (MkDash 303 (Some "/"%string)
                              (Some DashAuth.clear_session_cookie_header) None None) /\
                 forall hx' ep, wp (X := BoxSig) steady (gate hx' token ep)
                   (fun o3 s3 => o3 = Done (bounce hx' token) /\ s3 = s2) s2) s1)) s.
Proof.
  intros gate bounce good. unfold Dash.login_page_post, good.
  destruct password as [pw|]; [|by left].
  destruct (DashAuth.verify_password pw _); cbn [negb]; [|by left].
  rewrite wp_bind. eapply wp_mono; [|by apply wp_create_session].
  intros o s1 Ho. destruct o as [[token|e]|m|]; try done; cbn [andthen].
  2: { right. left. by destruct Ho. }
  destruct Ho as (Hne & Hu & Hun & Hnone & _).
  destruct (session_cookie_some token Hu) as [cookie Hcookie]. rewrite Hcookie. cbn [expect wp].
  right. right. split; [done|]. exists token, cookie. split_and!; try done.
  - intros hx ep Q Hlive Hdead. eapply wp_gate_live; try done. by apply read_session_cookie.
  - intros hx. cbn [Dash.app]. unfold Dash.with_session.
    eapply wp_gate_live; try done; [by apply read_session_cookie| |].
    + intros now _. eapply wp_mono; [|by apply wp_dash_logout]. intros o s2 [-> ->] _. split; [done|].
      intros hx' ep. eapply wp_gate_dead; try done; [by apply read_session_cookie|].
      cbn. apply lookup_delete_eq.
    + intros now Hnow Hlt. cbn in Hlt. lia.
Qed.

Lemma dash_session_witness :
  DashAuth.password_hash demo_auth <> ""%string /\
  wp (X := BoxSig) steady (Dash.login_page_post demo_auth (Some "pw"%string))
    (fun o s1 => o = Done (dash_status 500) \/
       exists cookie, o = Done (MkDash 303 (Some "/"%string) (Some cookie) None None)) (box_with ∅).
Proof.
  split; [discriminate|].
  eapply wp_mono; [|exact (dash_session (RX := demo_rnix) demo_time_laws demo_auth demo_config
    demo_claim [] (Some "pw"%string) (box_with ∅) ltac:(discriminate))].
  intros o s1 [(_ & H & _)|[(_ & H & _)|(_ & token & cookie & H & _)]].
  - vm_compute in H. discriminate.
  - by left.
  - right. by exists cookie.
Defined.

(** C18: saving is all or nothing, a crash included: when [save_config] succeeds
    the file has the edited text, which parses; when it fails or panics the file
    is as before; and at every point in between it has its old text or the whole
    new one.  The file's own name is not that of a temporary one. *)
Theorem save_atomic `{RX : Rnix} (path : string) (edits : list ConfigEdit) (s : box)
    (Hap : tmp_apart path) :
  wp (X := BoxSig) box_spec (save_config path edits) (save_post path edits s) s /\
  always (X := BoxSig) box_spec
    (fun s' => files s' !! path = files s !! path \/
       exists f f', files s !! path = Some (source f) /\
         apply_edits edits f = Some (Ok f') /\ files s' !! path = Some (source f'))
    (save_config path edits) s.
Proof. split; [by apply wp_save_config|by apply always_save_config]. Qed.

Lemma demo_apart : tmp_apart demo_config.
Proof. intros dir u [= <-]. cbn. discriminate. Qed.

Lemma save_atomic_witness :
  tmp_apart demo_config /\
  always (X := BoxSig) box_spec
    (fun s' => files s' !! demo_config = Some demo_text \/ files s' !! demo_config = Some edited_text)
    (save_config (RX := demo_rnix) demo_config
       [MkConfigEdit ["a"; "b"]%string (to_source (NixBool false))])
    (box_with {[ demo_config := demo_text ]}).
Proof.
  split; [exact demo_apart|].
  eapply always_mono; [|exact (proj2 (save_atomic (RX := demo_rnix) demo_config
    [MkConfigEdit ["a"; "b"]%string (to_source (NixBool false))]
    (box_with {[ demo_config := demo_text ]}) demo_apart))].
  intros s' [H|(f & f' & Hf & Ha & H)]; [by left|right]. rewrite H. injection Hf as Hf.
  destruct f as [x]. cbn in Hf. subst x. vm_compute in Ha. by injection Ha as <-.
Defined.






(** A link pasted twice starts one enrollment: the handler refines the claim
    machine, and in any interleaving of submitted links with claim tasks that
    persist or fail, at most one task runs, and while one runs the state is
    [Awaiting] or the box is enrolled. *)
Theorem claim_refines `{CR : Crates} `{SP : Serde PersistedTunnel} (claim : ClaimSupport) :
  (forall invite_url s,
     wp (X := BoxSig) steady (Dash.claim_submit claim invite_url)
       (fun o s' =>
          let step := submit (is_claimed s (cs_tunnel_state_path claim)) (claim_state s) invite_url in
          o = Done (Dash.see_other "/") /\ claim_state s' = fst step /\
          spawned s' = spawned s ++ snd step /\ files s' = files s) s) /\
  (forall p m, rtc claim_step (MkClaim p Unclaimed 0) m -> claim_ok m).
Proof.
  split; [intros url s; apply wp_claim_submit|]. intros p m Hm.
  assert (claim_ok (MkClaim p Unclaimed 0)) as H0 by (split; cbn; lia).
  induction Hm as [|m1 m2 m3 Hs _ IH]; [done|]. apply IH. by eapply claim_step_ok.
Qed.
