(* ===== verification/DeployProps.v ===== *)
(** The properties of the control plane over the clients that a boot puts behind its
    traits: the [wg] interface, the mail relay, the mocks. *)

From stdpp Require Import base gmap strings list pretty.
From Stdlib Require Import ZArith Lia.
From S2P Require Import Prelude Prog Addr ForwarderState World Forwarder Store Dns Wg Crates Errors.
From S2P Require Import ControlPlane Allocation Machines Account AccountProofs Invite.
From S2P Require Import Secret Mail Deploy Demo.
Import Demo.

Local Open Scope prog_scope.
Local Open Scope Z_scope.

(** ** Every program of the control plane *)

(** Whatever a program of the control plane establishes when its wg, DNS and mail
    calls behave as specified and are logged when acknowledged, it establishes when they
    are carried out by the clients of a boot: [RealWgClient] over the [wg] binary and the
    mailer of the secrets in a live process, the mocks and the console in a dummy one.
    The interface then is the replay of the logged calls and the outbox
    carries the logged mails, one by one. *)
Theorem deployed_refines `{LT : Lettre} `{!LettreLaws} (verify : string -> string -> option bool)
    (cl : clients) (i0 : Iface) (po0 : Post) {A : Type} (p : prog EdgeSig A)
    (Q : outcome A -> edge -> Prop) (s : edge) (t : edge * (Iface * (Post * mocks)))
    (Hb : backed cl i0 po0 s t) :
  (wp (X := EdgeSig) (edge_spec verify) p Q s ->
   wp (X := DeploySig) (deploy_spec (edge_spec verify)) (deploy cl p)
     (fun o t' => exists s', backed cl i0 po0 s' t' /\ Q o s') t) /\
  (wp (X := EdgeSig) (healthy_spec verify) p Q s ->
   wp (X := DeploySig) (deploy_spec (healthy_spec verify)) (deploy cl p)
     (fun o t' => exists s', backed cl i0 po0 s' t' /\ Q o s') t).
Proof.
  split; intros Hp; (eapply wp_deploy; [apply _|exact Hb|exact Hp]).
Qed.

(** A deployment that has just booted over a store. *)
Definition fresh_services : Post * mocks :=
  (MkPost [] [] [] false, MkMocks Mock.new MockDns.new).

Lemma fresh_backed `{LT : Lettre} `{!LettreLaws} cl i m :
  backed cl i (fst fresh_services) (Demo.world m) (Demo.world m, (i, fresh_services)).
Proof. split; [done|]. by destruct cl as [[]|]. Qed.

Definition demo_smtp : SmtpConfig :=
  MkSmtp "relay.example.net" 587 "bob" "sekrit" "accounts@example.net".

Lemma deployed_refines_witness :
  backed (Live (SmtpMailer demo_smtp)) (MkIface [] "") (fst fresh_services) (Demo.world ∅)
    (Demo.world ∅, (MkIface [] "", fresh_services)) /\
  wp (X := DeploySig) (deploy_spec (edge_spec Demo.verify))
    (deploy (Live (SmtpMailer demo_smtp)) (@call EdgeSig (WgAddPeer "10.10.0.2" (Demo.key 9))))
    (fun o t' => match o with
                 | Done (Ok _) => (Demo.key 9, "10.10.0.2/32"%string) ∈ peers (t'.2.1)
                 | Done (Err _) => peers (t'.2.1) = []
                 | _ => False
                 end)
    (Demo.world ∅, (MkIface [] "", fresh_services)).
Proof.
  assert (backed (Live (SmtpMailer demo_smtp)) (MkIface [] "") (fst fresh_services) (Demo.world ∅)
    (Demo.world ∅, (MkIface [] "", fresh_services))) as H by apply fresh_backed.
  split; [exact H|].
  eapply wp_mono; [|apply (proj1 (deployed_refines Demo.verify _ _ _
    (@call EdgeSig (WgAddPeer "10.10.0.2" (Demo.key 9)))
    (fun o s' => exists r, o = Done r /\
                 acked r (log_wg (WgAdded "10.10.0.2" (Demo.key 9))) (Demo.world ∅) s')
    _ _ H)); intros r s' Hr; exists r; split; [reflexivity|exact Hr]].
  intros o [e' [i' [po mk]]] (s' & (_ & _ & _ & Hi & _) & r & -> & Hr). cbn [fst snd].
  destruct r; cbn in Hr; subst s'; rewrite Hi; [by left|done].
Defined.

(** ** Machines on the interface *)

(** C13: in a live process a fresh allocation that succeeds has configured its peer: the
    tunnel address it hands out belongs to the machine's key and to no other peer,
    no peer is configured twice, and both edge forwards are live. *)
Theorem deployed_machine `{CR : Crates} `{SM : Serde Machine} `{LT : Lettre} `{!LettreLaws}
    (SL : SerdeLaws Machine) (verify : string -> string -> option bool) (m : Mailer) (i0 : Iface)
    (po0 : Post) (cp : ControlPlane) (f : Forwarder) (owner : option string)
    (name key edge_key ip wg : string) (n : Z) (l : list string) (s : edge)
    (t : edge * (Iface * (Post * mocks)))
    (Hb : backed (Live m) i0 po0 s t) (Honce : peers_once i0)
    (Hwf : cp_wf cp) (Hto : 0 <= bind_timeout (cfg f))
    (Hname : validate_machine_name name = Ok tt) (Hkey : validate_wg_pubkey key = Ok tt)
    (Hek : edge_public_key cp = Some (Ok edge_key))
    (Hc : counter_at cp (kv s) n) (Hn : 1 <= n < i64_max)
    (Hnone : kv s !! machine_key name = None)
    (Hidx : read_list (kv s !! MACHINE_INDEX) = Ok l) (Hnew : name ∉ l)
    (H6 : host_string (subnet cp) (n + 1) = Some ip)
    (H4 : host_string (wg_subnet cp) (n + 1) = Some wg)
    (Hfree : forall k, k ∈ port_keys ip wg EDGE_FORWARDS -> k ∉ handles (fws s)) :
  wp (X := DeploySig) (deploy_spec (healthy_spec verify))
    (deploy (Live m) (allocate_machine cp (Some f) owner name key))
    (fun o '(e, (i, _)) =>
       match o with
       | Done (Ok (Created r)) =>
           m_wg_ip (machine r) = wg /\ m_ipv6 (machine r) = ip /\
           (forall q, (q, (wg ++ "/32")%string) ∈ peers i <-> q = key) /\
           peers_once i /\
           Forall (fun p => live (machine_forward ip wg p) (fws e)) EDGE_FORWARDS
       | Done (Err (CpWg _)) | Done (Err (CpForward _)) =>
           kv e !! machine_key name = None
       | _ => False
       end) t.
Proof.
  set (mc := fresh_machine cp owner name key ip wg).
  eapply wp_mono; [|eapply wp_deploy; [apply _|exact Hb|]; eapply (wp_allocate_valid verify); [done..|]; rewrite Hnone;
    apply (wp_allocate_fresh verify cp f owner name key edge_key n l ip wg); try done; lia].
  intros o [e [i [po mk]]] (s' & (Hs & _ & _ & Hi & _) & Hpost).
  assert (kv e = kv s') as -> by (by rewrite Hs). assert (fws e = fws s') as -> by (by rewrite Hs).
  unfold allocated in Hpost. destruct o as [[[r|r]|er]| |]; try done.
  - destruct Hpost as (-> & _ & Hw & Hl & _). cbn [machine]. rewrite Hw, replay_app in Hi.
    split; [done|]. split; [done|]. rewrite Hi. split; [intros q; apply added_owns|].
    split; [|done]. by apply apply_wg_once, replay_once.
  - destruct er; try done; destruct Hpost as (Hkv & _); rewrite Hkv, <- Hnone;
      apply (drop_committed verify cp mc (n + 1) l (kv s) (machine_key name) Hwf Hnone Hidx Hnew
               (machine_key_alloc cp name Hwf)), machine_key_index.
Qed.

Lemma deployed_machine_witness :
  validate_machine_name "main-1" = Ok tt /\
  wp (X := DeploySig) (deploy_spec (healthy_spec Demo.verify))
    (deploy (Live (SmtpMailer demo_smtp))
       (allocate_machine Demo.cp (Some Demo.fwd) None "main-1" (Demo.key 9)))
    (fun o '(e, (i, _)) =>
       match o with
       | Done (Ok (Created r)) => (Demo.key 9, "10.10.0.2/32"%string) ∈ peers i
       | Done (Err (CpWg _)) | Done (Err (CpForward _)) => kv e !! machine_key "main-1" = None
       | _ => False
       end) (Demo.world ∅, (MkIface [] "", fresh_services)).
Proof.
  assert (validate_machine_name "main-1" = Ok tt) as Hn by (vm_compute; reflexivity).
  split; [exact Hn|].
  eapply wp_mono; [|apply (deployed_machine Demo.serde_machine_laws Demo.verify
    (SmtpMailer demo_smtp) (MkIface [] "") (fst fresh_services) Demo.cp Demo.fwd None "main-1" (Demo.key 9)
    Demo.edge_key "2a01:4f8:c17:1::2" "10.10.0.2" 1 [] (Demo.world ∅))].
  - intros o [e [i t]]. destruct o as [[[r|r]|er]| |]; try done.
    intros (_ & _ & H & _). by apply H.
  - apply fresh_backed.
  - apply NoDup_nil_2.
  - exact Demo.cp_ok.
  - vm_compute. discriminate.
  - exact Hn.
  - vm_compute. reflexivity.
  - exact Demo.edge_key_ok.
  - by left.
  - vm_compute. split; [discriminate|reflexivity].
  - reflexivity.
  - reflexivity.
  - apply not_elem_of_nil.
  - vm_compute. reflexivity.
  - vm_compute. reflexivity.
  - intros k _. apply not_elem_of_empty.
Defined.

(** ** Mail *)

(** What a signup leaves in the store and at the relay. *)
Definition signup_delivered `{CR : Crates} `{LT : Lettre} (config : SmtpConfig)
    (cp : ControlPlane) (e : string) (before : list (SmtpConfig * Message))
    (o : outcome (Result unit AccountError)) (store : keyspace) (po : Post) : Prop :=
  match o with
  | Done (Ok _) =>
      exists token msg,
        store !! verify_key token = Some (RStr e (Some VERIFY_TOKEN_TTL_SECS)) /\
        is_Some (store !! account_key e) /\
        submitted po = before ++ [(config, msg)] /\
        parse_mailbox (sc_from config) = Ok (msg_from msg) /\
        parse_mailbox e = Ok (msg_to msg) /\
        msg_subject msg = "Verify your fortress account" /\
        msg_body msg = verify_body (verify_link (root_domain_ cp) token)
  | Done (Err (AccMail _)) =>
      store !! account_key e = None /\
      (submitted po = before \/
       exists token msg,
         store !! verify_key token = None /\
         submitted po = before ++ [(config, msg)] /\
         parse_mailbox (sc_from config) = Ok (msg_from msg) /\
         parse_mailbox e = Ok (msg_to msg) /\
         msg_body msg = verify_body (verify_link (root_domain_ cp) token))
  | Done (Err _) => submitted po = before
  | _ => False
  end.

Lemma wp_deployed_signup `{CR : Crates} `{SA : Serde AccountRecord} `{LT : Lettre} `{!LettreLaws}
    config i0 po0 cp email password s (t : edge * (Iface * (Post * mocks))) :
  backed (Live (SmtpMailer config)) i0 po0 s t ->
  wp (X := DeploySig) (deploy_spec (healthy_spec bcrypt_verify))
    (deploy (Live (SmtpMailer config)) (account_signup cp email password))
    (fun o t' => signup_delivered config cp (norm_email email) (submitted (t.2.2.1)) o
                   (kv (t'.1)) (t'.2.2.1)) t.
Proof.
  intros Hb. set (e := norm_email email).
  destruct t as [e0 [i [po mk]]]. cbn [fst snd]. apply backed_now in Hb.
  pose proof (Forall2_length _ _ _ (proj1 (proj2 Hb))) as H0. cbn in H0.
  eapply wp_mono; [|eapply wp_deploy; [apply _|exact Hb|]; apply wp_signup].
  intros o [e' [i' [po' mk']]] (s' & (Hs & Hpo & Hg & _) & [_ Hpost]). fold e in Hpost.
  cbn [fst snd].
  assert (kv e' = kv s') as -> by (by rewrite Hs). cbn in Hpo, Hg.
  assert (forall m, mails s' = mails s ++ [m] ->
            exists msg, submitted po' = submitted po ++ [(config, msg)] /\
              letter config (config, msg) m) as Hone.
  { intros m Hm. rewrite Hm in Hpo.
    apply Forall2_app_inv_r in Hpo as (l1 & l2 & Hl1 & Hl2 & Heq).
    apply Forall2_cons_inv_r in Hl2 as ([c msg] & l3 & Hlet & Hl3 & ->).
    apply Forall2_nil_inv_r in Hl3 as ->. pose proof Hlet as (Hc & _). cbn in Hc. subst c.
    exists msg. split; [|done]. rewrite Heq. f_equal. destruct Hg as [l3 Hg]. rewrite Heq in Hg.
    apply app_inj_1 in Hg as [<- _]; [done|]. by rewrite H0, (Forall2_length _ _ _ Hl1). }
  assert (mails s' = mails s -> submitted po' = submitted po) as Hsame.
  { intros Hm. rewrite Hm in Hpo. symmetry. apply prefix_length_eq; [done|].
    rewrite H0, (Forall2_length _ _ _ Hpo). done. }
  destruct o as [[[]|er]| |]; [| |done..].
  - destruct Hpost as (_ & u & h & token & _ & Hkv & Hm).
    destruct (Hone _ Hm) as (msg & Hsub & _ & Hf & Ht & Hsu & Hbody). exists token, msg.
    rewrite Hkv. unfold pending_account. split; [apply lookup_insert_eq|].
    split; [rewrite lookup_insert_ne by done; rewrite lookup_insert_eq; eauto|]. done.
  - destruct er; try done; try (apply Hsame; by destruct Hpost as [_ ->]);
      try (apply Hsame; by rewrite Hpost).
    destruct Hpost as (Hnone & token & Hkv & Hm). rewrite Hkv.
    split; [by rewrite lookup_delete_ne by done|].
    destruct Hm as [Hm|Hm]; [left; by apply Hsame|right].
    destruct (Hone _ Hm) as (msg & Hsub & _ & Hf & Ht & Hsu & Hbody). exists token, msg.
    split; [apply lookup_delete_eq|]. done.
Qed.

(** C14: over a Redis that answers and whatever the relay does, with the SMTP mailer a
    signup that is answered [Ok] has handed its relay exactly one more message, from the
    configured sender to the mailbox that was typed, whose body is the text around a
    link with the token that was stored for this account; an answer that blames the
    mail has left no account behind, and the relay has got nothing, or at most this
    one message (it was taken, and its acknowledgement lost), whose link is dead, as its token is
    gone; every other answer has handed the relay nothing.  (The two deletions of the
    rollback ignore their errors, so with a failing Redis the account can stay.) *)
Theorem deployed_signup `{CR : Crates} `{SA : Serde AccountRecord} `{LT : Lettre} `{!LettreLaws}
    (config : SmtpConfig) (i0 : Iface) (po0 : Post)
    (cp : ControlPlane) (email password : string) (s : edge) (t : edge * (Iface * (Post * mocks)))
    (Hb : backed (Live (SmtpMailer config)) i0 po0 s t) :
  wp (X := DeploySig) (deploy_spec (healthy_spec bcrypt_verify))
    (deploy (Live (SmtpMailer config)) (account_signup cp email password))
    (fun o t' => signup_delivered config cp (norm_email email) (submitted (t.2.2.1)) o
                   (kv (t'.1)) (t'.2.2.1)) t.
Proof. by eapply wp_deployed_signup. Qed.

Lemma deployed_signup_witness :
  backed (Live (SmtpMailer demo_smtp)) (MkIface [] "") (fst fresh_services) (Demo.world ∅)
    (Demo.world ∅, (MkIface [] "", fresh_services)) /\
  wp (X := DeploySig) (deploy_spec (healthy_spec bcrypt_verify))
    (deploy (Live (SmtpMailer demo_smtp)) (account_signup Demo.cp " Ann@example.net" "hunter22"))
    (fun o '(s', (_, (po, _))) =>
       match o with
       | Done (Ok _) =>
           exists token, submitted po =
             [(demo_smtp, ("accounts@example.net", "ann@example.net", "Verify your fortress account",
                           verify_body (verify_link "example.net" token)))]%string
       | Done (Err (AccMail _)) => (length (submitted po) <= 1)%nat
       | Done (Err _) => submitted po = []
       | _ => False
       end) (Demo.world ∅, (MkIface [] "", fresh_services)).
Proof.
  pose proof (fresh_backed (Live (SmtpMailer demo_smtp)) (MkIface [] "") ∅) as H.
  split; [exact H|].
  eapply wp_mono; [|exact (deployed_signup demo_smtp _ _ Demo.cp
                             " Ann@example.net" "hunter22" _ _ H)].
  intros o [s' [i [po mk]]]. cbn [fst snd]. destruct o as [[u|e]| |]; [| |done..].
  2:{ intros H1. destruct e; try exact H1.
      destruct H1 as (_ & [-> |(token & msg & _ & -> & _)]); cbn; lia. }
  intros (token & [[[f t] subj] body] & _ & _ & Hpo & [= <-] & [= <-] & Hsu & Hb).
  cbn in Hsu, Hb. subst subj body. exists token. exact Hpo.
Defined.

(** A sender address that is not one does not fail the boot: the process starts with
    the SMTP mailer, and then no signup succeeds, whatever the relay does:
    nothing is handed to it. *)
Theorem bad_sender_boots `{CR : Crates} `{SA : Serde AccountRecord} `{LT : Lettre} `{!LettreLaws}
    (p : Profile) (config : SmtpConfig) (err : string) (i0 : Iface) (po0 : Post) (cp : ControlPlane)
    (email password : string) (s : edge) (t : edge * (Iface * (Post * mocks)))
    (Hp : smtp_of p = Some config) (Hh : starttls_relay (sc_host config) = None)
    (Hf : parse_mailbox (sc_from config) = Err err)
    (Hb : backed (Live (SmtpMailer config)) i0 po0 s t) :
  init_mailer (X := EdgeSig) (Some (Default p)) None = Ret (Some (SmtpMailer config), Ok tt) /\
  wp (X := DeploySig) (deploy_spec (healthy_spec bcrypt_verify))
    (deploy (Live (SmtpMailer config)) (account_signup cp email password))
    (fun o '(s', (_, (po, _))) =>
       submitted po = submitted (t.2.2.1) /\
       match o with Done (Err _) => True | _ => False end) t.
Proof.
  split; [by rewrite (init_mailer_no_fallback p config Hp), Hh|].
  eapply wp_mono; [|eapply wp_deployed_signup, Hb].
  intros o [s' [i [po mk]]]. cbn [fst snd]. destruct o as [[u|e]| |]; [| |done..].
  - intros (token & msg & _ & _ & _ & Hfrom & _). by rewrite Hf in Hfrom.
  - intros H1. destruct e; try done.
    destruct H1 as (_ & [?|(token & msg & _ & _ & Hfrom & _)]); [done|]. by rewrite Hf in Hfrom.
Qed.

Definition demo_profile : Profile :=
  MkProfile "z1" "example.net" "token" "example.net" "" "" "redis://10.0.0.1"
    (Some "relay.example.net"%string) (Some "465"%string) None None (Some "Fortress"%string).
Definition demo_broken : SmtpConfig := MkSmtp "relay.example.net" 465 "" "" "Fortress".

Lemma bad_sender_boots_witness :
  smtp_of demo_profile = Some demo_broken /\
  wp (X := DeploySig) (deploy_spec (healthy_spec bcrypt_verify))
    (deploy (Live (SmtpMailer demo_broken)) (account_signup Demo.cp "ann@example.net" "hunter22"))
    (fun o '(s', (_, (po, _))) =>
       submitted po = [] /\ match o with Done (Err _) => True | _ => False end)
    (Demo.world ∅, (MkIface [] "", fresh_services)).
Proof.
  assert (smtp_of demo_profile = Some demo_broken) as H by (vm_compute; reflexivity).
  split; [exact H|].
  exact (proj2 (bad_sender_boots demo_profile demo_broken "missing domain or user"
    (MkIface [] "") (fst fresh_services) Demo.cp "ann@example.net" "hunter22" (Demo.world ∅)
    (Demo.world ∅, (MkIface [] "", fresh_services)) H eq_refl eq_refl (fresh_backed _ _ _))).
Defined.
