(* ===== verification/CoreProps.v ===== *)
(** The properties of the core library's part (addresses, forwarder, retry) and
    of the DNS layer. *)

From stdpp Require Import base gmap strings list pretty.
From Stdlib Require Import ZArith Lia Ascii.
From S2P Require Import Prelude Prog Addr NumText AddrText ForwarderState World Retry.
From S2P Require Import Forwarder Dns Wg Store Crates Errors ControlPlane Allocation.
From S2P Require Import Demo.

Local Open Scope Z_scope.

(** ** Subnets *)

(** C40: every host index up to the capacity of a parsed subnet has an address
    under the subnet's prefix, beyond it [host] panics, and two indices never
    share an address. *)
Theorem subnet_hosts {A} `{AB : AddrBytes A} (AL : AddrBytesLaws A)
    (text : string) (s : Subnet A) (Hs : from_str text = Ok s) :
  (forall i, 0 <= i -> iff (is_Some (host s i)) (i <= max_host s)) /\
  (forall i a, host s i = Some a ->
     length (octets a) = LEN /\ take (length (prefix s)) (octets a) = prefix s) /\
  (forall i j a, 0 <= i -> 0 <= j -> host s i = Some a -> host s j = Some a -> i = j).
Proof.
  apply from_str_wf in Hs as Hwf. split; [|split].
  - intros i _. by apply host_total.
  - intros i a Ha. pose proof (octets_addr a) as Hlen. unfold is_addr in Hlen.
    apply andb_true_iff in Hlen as [Hlen _]. apply Nat.eqb_eq in Hlen.
    apply host_spec in Ha as [_ ->]; [|done]. split; [|by rewrite take_app_length].
    rewrite length_app, be_bytes_length. by apply host_bits_range in Hwf as (_ & _ & ->).
  - intros i j a. by apply host_inj.
Qed.

Lemma subnet_hosts_witness :
  from_str "10.10.0.0/24" = Ok Demo.subnet4 /\ host Demo.subnet4 256 = None /\
  (forall i j a, 0 <= i -> 0 <= j ->
     host Demo.subnet4 i = Some a -> host Demo.subnet4 j = Some a -> i = j).
Proof.
  split; [exact Demo.subnet4_text|]. split; [reflexivity|].
  exact (proj2 (proj2 (subnet_hosts Ipv4_laws "10.10.0.0/24" Demo.subnet4 Demo.subnet4_text))).
Defined.

(** The canonical text of a parsed subnet parses back to the same subnet, for
    the routed IPv6 subnet and for the tunnel net ([std::net]'s compressed IPv6
    text included). *)
Theorem subnet_roundtrip {A} `{AB : AddrBytes A} (AL : AddrBytesLaws A) (AT : AddrTextLaws A)
    (text : string) (s : Subnet A) (Hs : from_str text = Ok s) :
  exists canonical, to_string s = Some canonical /\ from_str canonical = Ok s.
Proof. apply from_str_to_string. by eapply from_str_wf. Qed.

Lemma subnet_roundtrip_witness :
  from_str "2a01:4f8:c17:1:0:0:0:0/64" = Ok Demo.subnet6 /\
  exists canonical, to_string Demo.subnet6 = Some canonical /\
                    from_str canonical = Ok Demo.subnet6.
Proof.
  assert (from_str "2a01:4f8:c17:1:0:0:0:0/64" = Ok Demo.subnet6) as H
    by (vm_compute; reflexivity).
  split; [exact H|].
  exact (subnet_roundtrip Ipv6_laws Ipv6_text_laws "2a01:4f8:c17:1:0:0:0:0/64" Demo.subnet6 H).
Defined.

(** ** The forwarder *)

Definition valid_forward (f : Forward) : Prop :=
  listen_addr f <> ""%string /\ dest_addr f <> ""%string.

Lemma is_empty_spec s : is_empty s = true <-> s = ""%string.
Proof. by destruct s. Qed.

Lemma new_live_from_spec l : forall i,
  match new_live_from i l with
  | Ok tt => Forall valid_forward l
  | Err (InvalidForward j msg) =>
      exists k f, j = (i + k)%nat /\ l !! k = Some f /\ Forall valid_forward (take k l) /\
        ~ valid_forward f /\
        msg = (if is_empty (listen_addr f) then "empty listen_addr" else "empty dest_addr")%string
  | Err EmptyForwards => False
  end.
Proof.
  induction l as [|f l IH]; intros i; cbn [new_live_from]; [constructor|].
  destruct (is_empty (listen_addr f)) eqn:H1.
  { apply is_empty_spec in H1 as H1'. exists 0%nat, f. rewrite H1.
    split_and!; [lia|done|constructor|by intros [? _]|done]. }
  destruct (is_empty (dest_addr f)) eqn:H2.
  { apply is_empty_spec in H2 as H2'. exists 0%nat, f. rewrite H1.
    split_and!; [lia|done|constructor|by intros [_ ?]|done]. }
  assert (valid_forward f) as Hf.
  { split; intros E; [rewrite E in H1|rewrite E in H2]; done. }
  specialize (IH (S i)). destruct (new_live_from (S i) l) as [[]|[|j msg]]; [by constructor|done|].
  destruct IH as (k & g & -> & Hk & Hall & Hg & Hm).
  exists (S k), g. split_and!; [lia|done|by constructor|done|done].
Qed.

(** [Forwarder::new] refuses an empty list, reports the FIRST invalid entry
    with its index and reason, and accepts exactly the configurations whose
    entries all have both addresses, starting from the empty state. *)
Theorem forwarder_new_validates (c : Config) (now : Z) :
  match new c now with
  | Ok f => cfg f = c /\ state0 f = FState_default /\ fwd_started_at f = now /\
            cfg_forwards c <> [] /\ Forall valid_forward (cfg_forwards c)
  | Err EmptyForwards => cfg_forwards c = []
  | Err (InvalidForward i msg) =>
      exists f, cfg_forwards c !! i = Some f /\ ~ valid_forward f /\
        Forall valid_forward (take i (cfg_forwards c)) /\
        msg = (if is_empty (listen_addr f) then "empty listen_addr" else "empty dest_addr")%string
  end.
Proof.
  unfold new, new_live. destruct (cfg_forwards c) as [|f l] eqn:E; [done|]. rewrite <- E.
  pose proof (new_live_from_spec (cfg_forwards c) 0) as H.
  destruct (new_live_from 0 (cfg_forwards c)) as [[]|[|i msg]]; cbn; [|done|].
  - split_and!; try done. by rewrite E.
  - destruct H as (k & g & -> & H). exists g. tauto.
Qed.

(** C30: [add_forward] is idempotent on a live forward; otherwise it ends with the
    forward served and shown as bound, or with an error, no task and a row that
    carries the error.  No other forward's task or row changes, and the state
    invariant (every task has a bound row) is kept. *)
Theorem add_forward_correct (verify : string -> string -> option bool) (f : Forwarder)
    (fwd : Forward) (s : edge) (Hto : 0 <= bind_timeout (cfg f)) (Hinv : handles_bound (fws s)) :
  wp (X := EdgeSig) (edge_spec verify) (add_forward f fwd)
    (fun o s' => add_forward_post f fwd s o s' /\ handles_bound (fws s')) s.
Proof.
  eapply wp_mono; [|by apply wp_add_forward]. intros o s' Hpost. split; [done|].
  destruct Hpost as [_ Hpost]. destruct o as [[u|e]| |]; [| |done..].
  - case_decide; [by rewrite Hpost|]. destruct Hpost as [(H1 & H2 & _) [Hl (row & Hr & Hb & _)]].
    intros key Hk. destruct (decide (key = forward_key fwd)) as [->|Hne]; [eauto|].
    rewrite H2 by done. apply Hinv. by apply H1.
  - destruct Hpost as (Hn & (H1 & H2 & _) & Hn' & _). intros key Hk.
    destruct (decide (key = forward_key fwd)) as [->|Hne]; [done|].
    rewrite H2 by done. apply Hinv. by apply H1.
Qed.

Definition demo_fwd : Forward := MkForward "[2a01::2]:80" Tcp "10.10.0.2:8080".

Lemma add_forward_correct_witness :
  handles_bound (fws (Demo.world ∅)) /\
  wp (X := EdgeSig) (edge_spec Demo.verify) (add_forward Demo.fwd demo_fwd)
    (fun o s' => add_forward_post Demo.fwd demo_fwd (Demo.world ∅) o s' /\ handles_bound (fws s'))
    (Demo.world ∅).
Proof.
  split; [exact handles_bound_default|].
  apply (add_forward_correct Demo.verify Demo.fwd demo_fwd (Demo.world ∅));
    [vm_compute; discriminate|exact handles_bound_default].
Defined.

(** [remove_forward] answers whether the forward was live; if it was, its task
    and its row are gone; other forwards and the invariant are untouched. *)
Theorem remove_forward_correct (verify : string -> string -> option bool) (fwd : Forward)
    (s : edge) (Hinv : handles_bound (fws s)) :
  wp (X := EdgeSig) (edge_spec verify) (remove_forward_prog fwd)
    (fun o s' =>
       o = Done (bool_decide (forward_key fwd ∈ handles (fws s))) /\
       s' = set_fws (fws s') s /\ handles_bound (fws s') /\
       (if decide (forward_key fwd ∈ handles (fws s)) then gone fwd (fws s') else s' = s) /\
       (forall key, key <> forward_key fwd ->
          iff (key ∈ handles (fws s')) (key ∈ handles (fws s)) /\
          forwards (fws s') !! key = forwards (fws s) !! key)) s.
Proof.
  apply wp_remove_forward. cbn [fws set_fws].
  split; [|split; [done|split; [by apply handles_bound_remove|split]]].
  - unfold remove_forward, abort_handle. by case_decide; case_bool_decide.
  - case_decide; [by apply remove_forward_gone|].
    unfold remove_forward, abort_handle. rewrite decide_False by done. apply set_fws_id.
  - intros key Hk. by apply remove_forward_other.
Qed.

Definition live_state : FState :=
  insert_handle (forward_key demo_fwd) (record_bound demo_fwd "[2a01::2]:80" 5 FState_default).

Lemma remove_forward_correct_witness :
  forward_key demo_fwd ∈ handles live_state /\
  wp (X := EdgeSig) (edge_spec Demo.verify) (remove_forward_prog demo_fwd)
    (fun o s' => o = Done true /\ gone demo_fwd (fws s')) (set_fws live_state (Demo.world ∅)).
Proof.
  assert (forward_key demo_fwd ∈ handles live_state) as Hin by (cbn; set_solver).
  split; [exact Hin|].
  eapply wp_mono; [|apply (remove_forward_correct Demo.verify demo_fwd
                             (set_fws live_state (Demo.world ∅)))].
  - intros o s' (-> & _ & _ & H & _). cbn in H. rewrite decide_True in H by exact Hin.
    split; [|exact H]. by rewrite bool_decide_eq_true_2 by exact Hin.
  - apply handles_bound_insert_handle, handles_bound_default.
Defined.

(** [run] ends either with every configured forward bound (the shutdown signal
    having been passed on to the live forwards and the task table untouched), or
    with the error of a configured forward whose row carries it. *)
Theorem run_binds_all (verify : string -> string -> option bool) (f : Forwarder) (s : edge)
    (Hto : 0 <= bind_timeout (cfg f)) :
  wp (X := EdgeSig) (edge_spec verify) (Forwarder.run f)
    (fun o s' =>
       match o with
       | Done (Ok _) =>
           (forall fwd, fwd ∈ cfg_forwards (cfg f) -> row_bound (forward_key fwd) (fws s')) /\
           handles (fws s') = handles (fws s) /\
           (handles (fws s) <> ∅ -> shutdown_tx (fws s') = true)
       | _ => binds_post (cfg_forwards (cfg f)) s o s'
       end) s.
Proof. by apply wp_forwarder_run. Qed.

Lemma run_binds_all_witness :
  0 <= bind_timeout (cfg Demo.fwd) /\
  wp (X := EdgeSig) (edge_spec Demo.verify) (Forwarder.run Demo.fwd)
    (fun o s' =>
       match o with
       | Done (Ok _) =>
           (forall fwd, fwd ∈ cfg_forwards (cfg Demo.fwd) -> row_bound (forward_key fwd) (fws s')) /\
           handles (fws s') = handles (fws (Demo.world ∅)) /\
           (handles (fws (Demo.world ∅)) <> ∅ -> shutdown_tx (fws s') = true)
       | _ => binds_post (cfg_forwards (cfg Demo.fwd)) (Demo.world ∅) o s'
       end) (Demo.world ∅).
Proof.
  split; [vm_compute; discriminate|].
  apply (run_binds_all Demo.verify Demo.fwd (Demo.world ∅)). vm_compute. discriminate.
Defined.

(** ** Retry *)

(** The delays of the retry loop are 100 ms doubled each time and capped at
    5 s. *)
Theorem backoff_closed_form (n : nat) :
  Nat.iter n next_backoff RETRY_BACKOFF_START
    = Z.min (RETRY_BACKOFF_START * 2 ^ Z.of_nat n) RETRY_BACKOFF_MAX.
Proof. apply next_backoff_iter. Qed.

(** C39: a retried bind always returns, whatever the operating system answers: the
    address, the operating system's error if it is not transient, a timeout only
    after the deadline has passed, or a cancellation. *)
Theorem retry_bind_total (verify : string -> string -> option bool) (addr : string)
    (timeout : Z) (s : edge) (Ht : 0 <= timeout) :
  wp (X := EdgeSig) (edge_spec verify) (retry_bind_tcp_freebind addr timeout)
    (fun o s' => exists t0, clock s <= t0 /\
       retry_post "tcp" addr timeout (t0 + timeout) (set_clock t0 s) o s') s.
Proof. apply retry_with_backoff_total; [apply bind_tcp_attempt|done]. Qed.

Lemma retry_bind_total_witness :
  0 <= 30000 /\
  wp (X := EdgeSig) (edge_spec Demo.verify) (retry_bind_tcp_freebind "[2a01::2]:80" 30000)
    (fun o s' => exists t0, clock (Demo.world ∅) <= t0 /\
       retry_post "tcp" "[2a01::2]:80" 30000 (t0 + 30000) (set_clock t0 (Demo.world ∅)) o s')
    (Demo.world ∅).
Proof.
  split; [vm_compute; discriminate|].
  apply (retry_bind_total Demo.verify "[2a01::2]:80" 30000 (Demo.world ∅)).
  vm_compute. discriminate.
Defined.

(** ** DNS *)

Import Hetzner.

Definition demo_hetzner : HetznerDns := MkHetzner "z1" "example.net" "token".

Definition demo_v6 : Ipv6Addr :=
  match (parse "2a01:4f8:c17:1::2" : option Ipv6Addr) with
  | Some a => a
  | None => MkV6 (replicate 16%nat 0) eq_refl
  end.

(** C28: the Hetzner client implements the DNS trait.  [upsert_aaaa]: whatever the
    provider lists and however its calls fail it returns, on [Ok] the record
    holds exactly the address, and no other record changes.  [remove_aaaa], for a
    zone that fits on the one page the client reads: on [Ok] the record is gone,
    and a failure changes nothing but that record. *)
Theorem hetzner_refines (per_page : nat) (h : HetznerDns) (full rel : string)
    (ip : Ipv6Addr) (z : gmap (string * string) (list string))
    (Hrel : relative_name h full = Ok rel) :
  wp (X := ApiSig) (api_spec per_page) (upsert_aaaa h full ip) (upsert_contract rel ip z) z /\
  ((size z <= per_page)%nat ->
   wp (X := ApiSig) (api_spec per_page) (remove_aaaa h full) (remove_contract rel z) z).
Proof. split; [by apply wp_upsert|]. intros Hsize. by apply wp_remove. Qed.

Lemma hetzner_refines_witness :
  relative_name demo_hetzner "*.main-1.example.net" = Ok "*.main-1"%string /\
  wp (X := ApiSig) (api_spec 25) (remove_aaaa demo_hetzner "*.main-1.example.net")
    (remove_contract "*.main-1" ∅) ∅.
Proof.
  assert (relative_name demo_hetzner "*.main-1.example.net" = Ok "*.main-1"%string) as H
    by (vm_compute; reflexivity).
  split; [exact H|].
  apply (proj2 (hetzner_refines 25 demo_hetzner "*.main-1.example.net" "*.main-1" demo_v6 ∅ H)).
  vm_compute. lia.
Defined.

(** Names under the zone are made relative and come back: [sub.zone] is [sub],
    the apex is [@], and an accepted name is the apex or the relative name
    followed by the zone. *)
Theorem relative_name_roundtrip (h : HetznerDns)
    (Hz : trim_end_matches is_dot (zone_name h) = zone_name h) (Hne : zone_name h <> ""%string) :
  relative_name h (zone_name h) = Ok "@"%string /\
  (forall sub, relative_name h (sub ++ "." ++ zone_name h) = Ok sub) /\
  (forall full rel, relative_name h full = Ok rel ->
     let full' := trim_end_matches is_dot full in
     (full' = zone_name h /\ rel = "@"%string) \/ full' = (rel ++ "." ++ zone_name h)%string).
Proof.
  split; [|split].
  - unfold relative_name. rewrite Hz. by rewrite bool_decide_eq_true_2.
  - intros sub. by apply relative_name_under.
  - intros full rel H. apply relative_name_ok in H. by rewrite Hz in H.
Qed.

Lemma relative_name_roundtrip_witness :
  trim_end_matches is_dot (zone_name demo_hetzner) = zone_name demo_hetzner /\
  relative_name demo_hetzner "example.net" = Ok "@"%string.
Proof.
  assert (trim_end_matches is_dot (zone_name demo_hetzner) = zone_name demo_hetzner) as H
    by (vm_compute; reflexivity).
  split; [exact H|]. apply (relative_name_roundtrip demo_hetzner H). discriminate.
Defined.

(** C29: a reconcile pass re-applies exactly the records (bare name and wildcard of
    every machine, in order) that do not resolve to the machine's address, and
    counts those the provider accepted. *)
Theorem reconcile_pass_exact (verify : string -> string -> option bool)
    (res : string -> Result (list Ipv6Addr) DnsError) (up : string -> bool)
    (machines : list (string * Ipv6Addr)) (domain : string) (s : edge) :
  wp (X := EdgeSig) (steady_spec verify res up) (reconcile_pass machines domain)
    (fun o s' =>
       let l := to_reapply res up (flat_map (machine_records domain) machines) in
       o = Done (length l) /\ s' = log_dnss (upserts l) s) s.
Proof. apply wp_reconcile_from. Qed.
