(* ===== verification/EdgeProps.v ===== *)
(** The properties of the machine operations: names, allocation, the race of
    concurrent allocations, deletion, rehydration. *)

From stdpp Require Import base gmap strings list pretty.
From Stdlib Require Import ZArith Lia Ascii.
From S2P Require Import Prelude Prog Addr NumText AddrText ForwarderState World Retry.
From S2P Require Import Forwarder Dns Wg Store Crates Errors ControlPlane Allocation.
From S2P Require Import Machines Demo.

Import Demo.

Local Open Scope Z_scope.

(** Concurrent allocations.  [allocate_machine] keeps its invariant when it runs alone
    (Allocation.v).  Handlers interleave at their store commands, though, and the
    loser of a race for a name gives its index back by decrementing the counter,
    whoever holds the highest index by then. *)
Module Race.
Definition alloc (name : string) (k : Z) :=
  allocate_machine cp (Some fwd) None name (key k).

(** Two requests for [alpha-1] and one for [bravo-1]. *)
Definition requests := [alloc "alpha-1" 11; alloc "alpha-1" 12; alloc "bravo-1" 13].

(** Both [alpha-1] requests look the name up before either stores it; the loser
    increments after the winner, then [bravo-1] takes the next index, and only
    then the loser finds the name taken and decrements.  Then everybody runs to
    the end. *)
Definition schedule : list nat :=
  [0; 0; 1; 1; 0; 0; 0; 1; 1]%nat ++ [2; 2; 2; 2; 2]%nat ++ [1; 1]%nat
  ++ replicate 60 0%nat ++ replicate 60 2%nat.

Definition after_race := sched (X := EdgeSig) exec schedule requests (start ∅).

(** The next request, alone. *)
Definition after_next := Prog.run (X := EdgeSig) exec (alloc "charlie" 14) (snd after_race).

Definition finished {A} (p : prog EdgeSig A) : bool :=
  match p with Ret _ => true | _ => false end.

Definition record_at (m : gmap string rval) (name : string) : option Machine :=
  match m !! machine_key name with
  | Some (RStr json _) => match from_json json with Ok mc => Some mc | Err _ => None end
  | _ => None
  end.

Definition final_store : gmap string rval := kv (rw (snd after_next)).
End Race.
Import Race.

(** [validate_machine_name] accepts exactly the DNS labels of 6 to 63 lowercase
    letters, digits and hyphens with no leading, trailing or doubled hyphen that
    are not reserved, and refuses everything else by name. *)
Theorem machine_name_validation (name : string) :
  (validate_machine_name name = Ok tt <-> machine_label name) /\
  (validate_machine_name name = Ok tt \/ validate_machine_name name = Err (CpInvalidName name)).
Proof.
  split; [apply validate_machine_name_spec|].
  unfold validate_machine_name. destruct (_ && _); [by left|by right].
Qed.

(** Calls that change the machine store, one at a time. *)
Inductive machine_call :=
| CallAllocate (owner : option string) (name key : string)
| CallDelete (name : string).

Definition machine_step `{CR : Crates} `{SM : Serde Machine} (cp : ControlPlane)
    (fwd : option Forwarder) (c : machine_call) : prog EdgeSig unit :=
  match c with
  | CallAllocate owner name key => bind (allocate_machine cp fwd owner name key) (fun _ => Ret tt)
  | CallDelete name => bind (delete_machine cp fwd name) (fun _ => Ret tt)
  end.

(** The states any sequence of such calls can end in, whatever fails in them. *)
Inductive machine_reach `{CR : Crates} `{SM : Serde Machine}
    (verify : string -> string -> option bool) (cp : ControlPlane) (fwd : option Forwarder)
    (s0 : edge) : edge -> Prop :=
| machine_start : machine_reach verify cp fwd s0 s0
| machine_next s c o s' :
    machine_reach verify cp fwd s0 s ->
    may (X := EdgeSig) (edge_spec verify) (machine_step cp fwd c) s o s' ->
    machine_reach verify cp fwd s0 s'.

Lemma machine_step_inv `{CR : Crates} `{SM : Serde Machine} `{SL : !SerdeLaws Machine}
    verify cp fwd c s :
  cp_wf cp -> alloc_inv cp (kv s) ->
  wp (X := EdgeSig) (edge_spec verify) (machine_step cp fwd c)
    (fun _ s' => alloc_inv cp (kv s')) s.
Proof.
  intros Hwf Hinv. destruct c as [owner name key|name]; cbn [machine_step]; rewrite wp_bind.
  - eapply wp_mono; [|by apply wp_allocate_inv]. by intros [r|m|] s'.
  - eapply wp_mono; [|by apply stable_wp; [apply stable_inv_delete|]]. by intros [r|m|] s'.
Qed.

(** C1: called one after another, in any order and number and whatever fails in
    them, allocations and deletions never give two machines the same /128 or the
    same tunnel address: the counter bounds every index in use and every record
    is routed by one index of both subnets. *)
Theorem addresses_stay_unique `{CR : Crates} `{SM : Serde Machine}
    (SL : SerdeLaws Machine) (verify : string -> string -> option bool) (cp : ControlPlane)
    (fwd : option Forwarder) (s0 s : edge)
    (Hwf : cp_wf cp) (Hinv : alloc_inv cp (kv s0)) (Hreach : machine_reach verify cp fwd s0 s) :
  alloc_inv cp (kv s) /\
  forall n1 n2 mc1 mc2, record_of (kv s) n1 mc1 -> record_of (kv s) n2 mc2 ->
    m_ipv6 mc1 = m_ipv6 mc2 \/ m_wg_ip mc1 = m_wg_ip mc2 -> n1 = n2.
Proof.
  assert (alloc_inv cp (kv s)) as H.
  { induction Hreach as [|s c o s' _ IH Hmay]; [done|].
    exact (proj1 (wp_may (X := EdgeSig) (edge_spec verify) (machine_step cp fwd c) (fun _ s' => alloc_inv cp (kv s')) s)
             (machine_step_inv verify cp fwd c s Hwf IH) o s' Hmay). }
  split; [done|]. by destruct H as [n (_ & _ & _ & Hu)].
Qed.

(** Two machines allocated in turn, from the empty store. *)
Definition after_call (c : machine_call) (w : ref_world) : ref_world :=
  snd (Prog.run (X := EdgeSig) Demo.exec (machine_step Demo.cp (Some Demo.fwd) c) w).

Lemma after_call_reached c w s0 :
  machine_reach Demo.verify Demo.cp (Some Demo.fwd) s0 (rw w) ->
  machine_reach Demo.verify Demo.cp (Some Demo.fwd) s0 (rw (after_call c w)).
Proof.
  intros H. eapply machine_next; [exact H|].
  exact (run_may (X := EdgeSig) Demo.exec (edge_spec Demo.verify) rw
           (machine_step Demo.cp (Some Demo.fwd) c) w
           (ref_exec_implements Demo.verify Concrete.bcrypt_hash Concrete.bcrypt_hash_ok)).
Defined.

Definition two_machines : ref_world :=
  after_call (CallAllocate None "main-2" (Demo.key 10))
    (after_call (CallAllocate None "main-1" (Demo.key 9)) (Demo.start ∅)).

Lemma two_machines_reached :
  machine_reach Demo.verify Demo.cp (Some Demo.fwd) (Demo.world ∅) (rw two_machines).
Proof. apply after_call_reached, after_call_reached, machine_start. Defined.

Lemma addresses_stay_unique_witness :
  alloc_inv Demo.cp ∅ /\
  bool_decide (is_Some (kv (rw two_machines) !! machine_key "main-2")) = true /\
  forall mc1 mc2, record_of (kv (rw two_machines)) "main-1" mc1 ->
    record_of (kv (rw two_machines)) "main-2" mc2 -> m_ipv6 mc1 <> m_ipv6 mc2.
Proof.
  split; [exact Demo.empty_inv|]. split; [vm_compute; reflexivity|].
  intros mc1 mc2 H1 H2 Heq.
  assert ("main-1" = "main-2")%string as H.
  { exact (proj2 (addresses_stay_unique Demo.serde_machine_laws Demo.verify Demo.cp
      (Some Demo.fwd) (Demo.world ∅) (rw two_machines) Demo.cp_ok Demo.empty_inv
      two_machines_reached) "main-1"%string "main-2"%string mc1 mc2 H1 H2 (or_introl Heq)). }
  discriminate H.
Defined.

(** Interleaved, allocations do not keep it.  From an empty store, two requests
    for one name and one for another, scheduled so that the loser of the name
    gives an index back after the other machine took a higher one, leave the
    counter low; the next allocation gets the other machine's /128 and tunnel
    address. *)
Theorem allocation_race :
  alloc_inv Demo.cp ∅ /\
  forallb finished (fst after_race) = true /\
  (exists r, fst after_next = Done (Ok (Created r)) /\ m_name (machine r) = "charlie"%string) /\
  (exists bravo charlie,
     record_at final_store "bravo-1" = Some bravo /\
     record_at final_store "charlie" = Some charlie /\
     m_ipv6 bravo = m_ipv6 charlie /\ m_wg_ip bravo = m_wg_ip charlie).
Proof.
  split; [exact Demo.empty_inv|]. split; [vm_compute; reflexivity|].
  split.
  - assert (match fst after_next with
            | Done (Ok (Created r)) => bool_decide (m_name (machine r) = "charlie"%string)
            | _ => false
            end = true) as H by (vm_compute; reflexivity).
    destruct (fst after_next) as [[[r|r]|e]| |]; try done.
    exists r. split; [done|]. by apply bool_decide_eq_true in H.
  - assert (match record_at final_store "bravo-1", record_at final_store "charlie" with
            | Some b, Some c => bool_decide (m_ipv6 b = m_ipv6 c /\ m_wg_ip b = m_wg_ip c)
            | _, _ => false
            end = true) as H by (vm_compute; reflexivity).
    destruct (record_at final_store "bravo-1") as [b|]; [|done].
    destruct (record_at final_store "charlie") as [c|]; [|done].
    apply bool_decide_eq_true in H as [H1 H2]. by exists b, c.
Qed.

(** C7: a fresh allocation, while Redis answers, either creates the machine (its
    record stored and listed under the next index, the peer added once, both
    edge forwards live) or, when the peer or a forward cannot be wired, takes
    record and listing back with no forward left served. *)
Theorem allocate_creates_or_rolls_back `{CR : Crates} `{SM : Serde Machine}
    (SL : SerdeLaws Machine) (verify : string -> string -> option bool) (cp : ControlPlane)
    (f : Forwarder) (owner : option string) (name key edge_key ip wg : string) (n : Z)
    (l : list string) (s : edge)
    (Hwf : cp_wf cp) (Hto : 0 <= bind_timeout (cfg f))
    (Hname : validate_machine_name name = Ok tt) (Hkey : validate_wg_pubkey key = Ok tt)
    (Hek : edge_public_key cp = Some (Ok edge_key))
    (Hc : counter_at cp (kv s) n) (Hn : 1 <= n < i64_max)
    (Hnone : kv s !! machine_key name = None)
    (Hidx : read_list (kv s !! MACHINE_INDEX) = Ok l) (Hnew : name ∉ l)
    (H6 : host_string (subnet cp) (n + 1) = Some ip)
    (H4 : host_string (wg_subnet cp) (n + 1) = Some wg)
    (Hfree : forall k, k ∈ port_keys ip wg EDGE_FORWARDS -> k ∉ handles (fws s)) :
  wp (X := EdgeSig) (healthy_spec verify)
    (allocate_machine cp (Some f) owner name key)
    (fun o s' =>
       let m := fresh_machine cp owner name key ip wg in
       match o with
       | Done (Ok (Created r)) =>
           r = MkSignup m edge_key /\
           kv s' = committed cp m (n + 1) l (kv s) /\
           wg_log s' = wg_log s ++ [WgAdded wg key] /\
           Forall (fun p => live (machine_forward ip wg p) (fws s')) EDGE_FORWARDS
       | Done (Err (CpWg _)) | Done (Err (CpForward _)) =>
           kv s' !! machine_key name = None /\
           read_list (kv s' !! MACHINE_INDEX) = Ok l /\
           (forall k, k <> alloc_key cp -> k <> MACHINE_INDEX -> kv s' !! k = kv s !! k) /\
           (forall key, key ∈ machine_keys m -> key ∉ handles (fws s'))
       | _ => False
       end) s.
Proof.
  eapply (wp_allocate_valid verify); [done..|]. rewrite Hnone.
  eapply wp_mono; [|by apply (wp_allocate_fresh verify); try done; lia].
  set (m := fresh_machine cp owner name key ip wg). intros o s' Hpost.
  assert (kv s' = drop_store (m_name m) (committed cp m (n + 1) l (kv s)) ->
            kv s' !! machine_key name = None /\
            read_list (kv s' !! MACHINE_INDEX) = Ok l /\
            (forall k, k <> alloc_key cp -> k <> MACHINE_INDEX -> kv s' !! k = kv s !! k))
    as Hdrop.
  { intros ->.
    pose proof (fun k Hk => drop_committed verify cp m (n + 1) l (kv s) k Hwf Hnone Hidx Hnew Hk) as Hd.
    pose proof (machine_key_alloc cp name Hwf) as Hma. split_and!.
    - rewrite <- Hnone. by apply (Hd (machine_key name)).
    - by destruct (Hd (machine_key name) Hma).
    - intros k H1 H2. by apply Hd. }
  unfold allocated in Hpost. destruct o as [[[r|r]|e]| |]; try done.
  - by destruct Hpost as (-> & H1 & H2 & H3 & _).
  - destruct e; try done; destruct Hpost as (H1 & H2 & _);
      destruct (Hdrop H1) as (A & B & C); done.
Qed.

Lemma allocate_creates_or_rolls_back_witness :
  validate_machine_name "main-1" = Ok tt /\
  wp (X := EdgeSig) (healthy_spec Demo.verify)
    (allocate_machine Demo.cp (Some Demo.fwd) None "main-1" (Demo.key 9))
    (fun o s' =>
       match o with
       | Done (Ok (Created r)) => m_ipv6 (machine r) = "2a01:4f8:c17:1::2"%string
       | Done (Err (CpWg _)) | Done (Err (CpForward _)) => kv s' !! machine_key "main-1" = None
       | _ => False
       end) (Demo.world ∅).
Proof.
  assert (validate_machine_name "main-1" = Ok tt) as Hn by (vm_compute; reflexivity).
  split; [exact Hn|].
  eapply wp_mono; [|apply (allocate_creates_or_rolls_back Demo.serde_machine_laws Demo.verify
    Demo.cp Demo.fwd None "main-1" (Demo.key 9) Demo.edge_key "2a01:4f8:c17:1::2" "10.10.0.2"
    1 [] (Demo.world ∅))].
  - intros o s'. destruct o as [[[r|r]|e]| |]; try done.
    + by intros (-> & _).
    + by destruct e; try done; intros (H & _).
  - exact Demo.cp_ok.
  - vm_compute. discriminate.
  - exact Hn.
  - vm_compute. reflexivity.
  - exact Demo.edge_key_ok.
  - by left.
  - vm_compute. split; [discriminate|reflexivity].
  - reflexivity.
  - reflexivity.
  - apply not_elem_of_nil.
  - vm_compute. reflexivity.
  - vm_compute. reflexivity.
  - intros k _. apply not_elem_of_empty.
Defined.

(** Allocating an existing name changes no route.  With the machine's own key
    the store is untouched; with another key the old peer is dropped, the new
    one added on the same tunnel address and the record rewritten with nothing
    but the key changed; if the peer cannot be added the record stays. *)
Theorem allocate_existing_name `{CR : Crates} `{SM : Serde Machine}
    (SL : SerdeLaws Machine) (verify : string -> string -> option bool) (cp : ControlPlane)
    (f : Forwarder) (owner : option string) (name key edge_key : string) (mc : Machine)
    (ttl : option Z) (s : edge)
    (Hname : validate_machine_name name = Ok tt) (Hkey : validate_wg_pubkey key = Ok tt)
    (Hek : edge_public_key cp = Some (Ok edge_key))
    (Hrec : kv s !! machine_key name = Some (RStr (to_json mc) ttl)) :
  wp (X := EdgeSig) (healthy_spec verify)
    (allocate_machine cp (Some f) owner name key)
    (existing_post name key edge_key mc s) s.
Proof.
  eapply (wp_allocate_valid verify); [done..|]. rewrite Hrec.
  by apply wp_allocate_existing.
Qed.

Definition demo_store (name : string) (mc : Machine) : gmap string rval :=
  {[ machine_key name := RStr (to_json mc) None;
     MACHINE_INDEX := RList [name];
     ALLOC_COUNTER := RInt 2 ]}.

Definition demo_machine : Machine := Demo.route "main-1" None 2 (Demo.key 9).

Lemma allocate_existing_name_witness :
  kv (Demo.world (demo_store "main-1" demo_machine)) !! machine_key "main-1"
    = Some (RStr (to_json demo_machine) None) /\
  wp (X := EdgeSig) (healthy_spec Demo.verify)
    (allocate_machine Demo.cp (Some Demo.fwd) None "main-1" (Demo.key 10))
    (existing_post "main-1" (Demo.key 10) Demo.edge_key demo_machine
       (Demo.world (demo_store "main-1" demo_machine)))
    (Demo.world (demo_store "main-1" demo_machine)).
Proof.
  assert (kv (Demo.world (demo_store "main-1" demo_machine)) !! machine_key "main-1"
          = Some (RStr (to_json demo_machine) None)) as H by (vm_compute; reflexivity).
  split; [exact H|].
  apply (allocate_existing_name Demo.serde_machine_laws Demo.verify Demo.cp Demo.fwd None
           "main-1" (Demo.key 10) Demo.edge_key demo_machine None);
    [vm_compute; reflexivity|vm_compute; reflexivity|exact Demo.edge_key_ok|exact H].
Defined.

(** C37: deleting an existing machine always succeeds while Redis answers: the
    record and its place in the index are dropped whatever the [wg] binary and
    the DNS provider do, its forwards are not served any more and no other
    forward is touched.  An unknown name is [NotFound], a corrupt record is
    dropped without unwiring. *)
Theorem delete_unwires `{CR : Crates} `{SM : Serde Machine}
    (SL : SerdeLaws Machine) (verify : string -> string -> option bool) (cp : ControlPlane) (f : Forwarder)
    (name : string) (s : edge)
    (Hidx : is_ok (read_list (kv s !! MACHINE_INDEX)) = true) :
  wp (X := EdgeSig) (healthy_spec verify) (delete_machine cp (Some f) name)
    (fun o s' =>
       match read_str (kv s !! machine_key name) with
       | Err e => o = Done (Err (CpRedis e)) /\ s' = s
       | Ok None => o = Done (Err (CpNotFound name)) /\ s' = s
       | Ok (Some json) =>
           o = Done (Ok tt) /\
           match from_json json with
           | Err _ => s' = set_kv (drop_store name (kv s)) s
           | Ok mc => deleted cp name mc s s'
           end
       end) s.
Proof. by apply wp_delete. Qed.

Lemma delete_unwires_witness :
  is_ok (read_list (kv (Demo.world (demo_store "main-1" demo_machine)) !! MACHINE_INDEX)) = true /\
  wp (X := EdgeSig) (healthy_spec Demo.verify) (delete_machine Demo.cp (Some Demo.fwd) "main-1")
    (fun o s' => o = Done (Ok tt) /\ kv s' !! machine_key "main-1" = None)
    (Demo.world (demo_store "main-1" demo_machine)).
Proof.
  assert (is_ok (read_list (kv (Demo.world (demo_store "main-1" demo_machine)) !! MACHINE_INDEX))
          = true) as H by (vm_compute; reflexivity).
  split; [exact H|].
  eapply wp_mono; [|apply (delete_unwires Demo.serde_machine_laws Demo.verify Demo.cp Demo.fwd "main-1"); exact H].
  intros o s' Hpost.
  assert (read_str (kv (Demo.world (demo_store "main-1" demo_machine)) !! machine_key "main-1")
          = Ok (Some (to_json demo_machine))) as Hr by (vm_compute; reflexivity).
  rewrite Hr in Hpost. destruct Hpost as [-> Hpost]. split; [reflexivity|].
  rewrite from_to_json in Hpost. destruct Hpost as [-> _]. vm_compute. reflexivity.
Defined.

(** C38: [rehydrate] fails only if the list cannot be read; otherwise it returns the
    number of listed machines with a readable /128 and, for each of their
    forwards, the forward is served or its row shows why not.  Nothing that was
    served stops being served. *)
Theorem rehydrate_accounts_for_all `{CR : Crates} `{SM : Serde Machine}
    (SL : SerdeLaws Machine) (verify : string -> string -> option bool) (f : Forwarder) (s : edge)
    (Hto : 0 <= bind_timeout (cfg f)) :
  wp (X := EdgeSig) (healthy_spec verify) (rehydrate f)
    (fun o s' =>
       match listed (kv s) with
       | Err e => o = Done (Err e) /\ s' = s
       | Ok l => o = Done (Ok (length (List.filter routable l))) /\
                 wired (flat_map machine_keys (List.filter routable l)) s s'
       end) s.
Proof. by apply wp_rehydrate. Qed.

Lemma rehydrate_accounts_for_all_witness :
  listed (kv (Demo.world (demo_store "main-1" demo_machine))) = Ok [demo_machine] /\
  wp (X := EdgeSig) (healthy_spec Demo.verify) (rehydrate Demo.fwd)
    (fun o s' => o = Done (Ok 1%nat) /\
       served_or_failed "tcp://[2a01:4f8:c17:1::2]:443" (fws s'))
    (Demo.world (demo_store "main-1" demo_machine)).
Proof.
  assert (listed (kv (Demo.world (demo_store "main-1" demo_machine))) = Ok [demo_machine]) as H
    by (vm_compute; reflexivity).
  split; [exact H|].
  eapply wp_mono; [|apply (rehydrate_accounts_for_all Demo.serde_machine_laws Demo.verify Demo.fwd);
                    vm_compute; discriminate].
  intros o s' Hpost. rewrite H in Hpost. destruct Hpost as [-> (_ & _ & _ & Hs & _)].
  split; [vm_compute; reflexivity|]. apply Hs. vm_compute. right. left.
Defined.
