(* ===== verification/UserProps.v ===== *)
(** The properties of accounts and invites. *)

From stdpp Require Import base gmap strings list pretty.
From Stdlib Require Import ZArith Lia Ascii.
From S2P Require Import Prelude Prog Addr NumText AddrText ForwarderState World Retry.
From S2P Require Import Forwarder Dns Wg Store Crates Errors ControlPlane Allocation.
From S2P Require Import Machines Account AccountProofs Invite InviteCodes InviteMoves.
From S2P Require Import InviteProofs InviteSafety Demo.
Import Demo.

Local Open Scope prog_scope.

(** ** Accounts *)

(** Signup writes a pending account and a 24-hour token and mails the link, or
    refuses (bad address, bad password, address taken) without writing, or, when
    the mail is not acknowledged, takes both back, and a mail that was taken all the
    same carries a dead link. *)
Theorem signup_effects `{CR : Crates} `{SA : Serde AccountRecord}
    (cp : ControlPlane) (email password : string) (s : edge) :
  wp (X := EdgeSig) (healthy_spec bcrypt_verify) (account_signup cp email password)
    (signup_post cp (norm_email email) password s) s.
Proof. apply wp_signup. Qed.

Lemma str_key_readable e ttl : is_ok (read_str (Some (RStr e ttl))) = true.
Proof. done. Qed.

(** A magic link works once: verifying activates the account the token was
    mailed for (or fails as the stored records say), consumes the token in every
    case, and a second click is an invalid token that changes nothing. *)
Theorem verify_single_use `{CR : Crates} `{SA : Serde AccountRecord}
    (SL : SerdeLaws AccountRecord) (token : string) (s : edge)
    (Hok : is_ok (read_str (kv s !! verify_key token)) = true) :
  wp (X := EdgeSig) (healthy_spec bcrypt_verify) (account_verify token)
    (fun o s1 =>
       consume_post (verify_key token) (fun a a' => a' = set_status Active a) s o s1 /\
       kv s1 !! verify_key token = None /\
       wp (X := EdgeSig) (healthy_spec bcrypt_verify) (account_verify token)
         (fun o2 s2 => o2 = Done (Err AccInvalidToken) /\ s2 = s1) s1) s.
Proof.
  eapply wp_mono; [|apply wp_verify]. intros o s1 Hpost. split; [done|].
  assert (kv s1 !! verify_key token = None) as Hgone by (by eapply consumed_gone).
  split; [done|]. eapply wp_mono; [|apply wp_verify]. intros o2 s2 [Hs H].
  rewrite Hgone in H. cbn in H. destruct H as [-> H]. split; [done|].
  rewrite Hs, H. apply set_kv_id.
Qed.

Definition with_account (a : AccountRecord) (m : gmap string rval) : edge :=
  Demo.world (<[account_key email := RStr (to_json a) None]> m).

Lemma verify_single_use_witness :
  let s := with_account Demo.account {[ verify_key "t" := RStr email (Some 86400%Z) ]} in
  is_ok (read_str (kv s !! verify_key "t")) = true /\
  wp (X := EdgeSig) (healthy_spec bcrypt_verify) (account_verify "t")
    (fun o s1 => kv s1 !! verify_key "t" = None) s.
Proof.
  intros s. assert (is_ok (read_str (kv s !! verify_key "t")) = true) as H
    by (vm_compute; reflexivity).
  split; [exact H|].
  eapply wp_mono; [|exact (verify_single_use Demo.serde_account_laws "t" s H)].
  intros o s1 (_ & H1 & _). exact H1.
Defined.

(** Login succeeds exactly for an active account with the right password, and
    then stores a 7-day session for that email; an unknown email and a wrong
    password give the same error; a failed login changes nothing. *)
Theorem login_sound `{CR : Crates} `{SA : Serde AccountRecord}
    (email password : string) (s : edge) :
  wp (X := EdgeSig) (healthy_spec bcrypt_verify) (account_login email password)
    (login_post (norm_email email) password s) s.
Proof. apply wp_login. Qed.

(** C15: the whole signup round: before the mailed link is used, login is refused as
    unverified; after it, login works and the session names the account. *)
Theorem signup_verify_login `{CR : Crates} `{SA : Serde AccountRecord}
    (SL : SerdeLaws AccountRecord) (cp : ControlPlane) (email password : string) (s : edge) :
  wp (X := EdgeSig) (healthy_spec bcrypt_verify) (account_signup cp email password)
    (fun o s1 =>
       match o with
       | Done (Ok _) =>
           exists token,
             mails s1 = mails s ++ [MkMail (norm_email email) "Verify your fortress account"
                                      (verify_body (verify_link (root_domain_ cp) token))] /\
             wp (X := EdgeSig) (healthy_spec bcrypt_verify) (account_login email password)
               (fun o2 s2 => o2 = Done (Err (AccNotVerified (norm_email email))) /\ s2 = s1) s1 /\
             wp (X := EdgeSig) (healthy_spec bcrypt_verify)
               (account_verify token ;;; account_login email password)
               (fun o2 s2 => exists session, o2 = Done (Ok session) /\
                  kv s2 !! session_key session
                    = Some (RStr (norm_email email) (Some SESSION_TTL_SECS))) s1
       | _ => True
       end) s.
Proof.
  eapply wp_mono; [|apply wp_signup]. intros o s1 [_ Hpost].
  destruct o as [[u|e]| |]; [|done..]. set (e := norm_email email) in *.
  destruct Hpost as (_ & u1 & h & token & Hh & Hkv & Hmail). exists token.
  set (a := MkAccount u1 Pending h None) in *. split; [done|].
  assert (kv s1 !! account_key e = Some (RStr (to_json a) None)) as Ha.
  { rewrite Hkv. unfold pending_account. rewrite lookup_insert_ne by done. apply lookup_insert_eq. }
  split.
  - eapply wp_mono; [|apply wp_login]. intros o2 s2. unfold login_post. fold e.
    rewrite Ha. cbn [read_str]. unfold account_from_json. rewrite from_to_json. cbn [map_err].
    destruct o2 as [[ses|er]| |]; try done.
    + intros (_ & j & t & a' & [= <- <-] & Hj & _ & Hst & _). rewrite from_to_json in Hj.
      injection Hj as <-. done.
    + cbn [password_hash a]. rewrite Hh. intros (-> & _ & ->). done.
  - rewrite wp_bind. eapply wp_mono; [|apply wp_verify]. intros o2 s2 [_ Hc].
    assert (kv s1 !! verify_key token = Some (RStr e (Some VERIFY_TOKEN_TTL_SECS))) as Ht
      by (rewrite Hkv; apply lookup_insert_eq).
    rewrite Ht in Hc. cbn [read_str] in Hc. rewrite Ha in Hc. cbn [read_str] in Hc.
    unfold account_from_json in Hc. rewrite from_to_json in Hc. cbn [map_err] in Hc.
    destruct Hc as (-> & a' & -> & Hkv2). cbn [andthen].
    eapply wp_mono; [|apply wp_login]. intros o3 s3. unfold login_post. fold e.
    rewrite Hkv2, lookup_insert_eq. cbn [read_str]. unfold account_from_json.
    rewrite from_to_json. cbn [map_err set_status password_hash a]. rewrite Hh.
    destruct o3 as [[ses|er]| |]; try done.
    + intros (_ & _ & _ & _ & _ & _ & _ & _ & ->). exists ses. split; [done|].
      apply lookup_insert_eq.
    + by intros (_ & ? & _).
Qed.

Lemma signup_verify_login_witness :
  norm_email "  Ann@Example.NET " = "ann@example.net"%string /\
  wp (X := EdgeSig) (healthy_spec bcrypt_verify)
    (account_signup Demo.cp "ann@example.net" "hunter22")
    (fun o s1 =>
       match o with
       | Done (Ok _) => exists token,
           mails s1 = [MkMail "ann@example.net" "Verify your fortress account"
                         (verify_body (verify_link "example.net" token))]
       | _ => True
       end) (Demo.world ∅).
Proof.
  split; [vm_compute; reflexivity|].
  eapply wp_mono; [|exact (signup_verify_login Demo.serde_account_laws Demo.cp
                             "ann@example.net" "hunter22" (Demo.world ∅))].
  intros o s1. destruct o as [[u|e]| |]; [|done..]. intros (token & H & _). by exists token.
Defined.

(** A password reset consumes its token and replaces the password: an active
    account can log in with the new one. *)
Theorem reset_then_login `{CR : Crates} `{SA : Serde AccountRecord}
    (SL : SerdeLaws AccountRecord) (token email password : string) (a : AccountRecord)
    (ttl ttl' : option Z) (s : edge)
    (Hpw : validate_password password = Ok tt) (He : norm_email email = email)
    (Ht : kv s !! reset_key token = Some (RStr email ttl))
    (Ha : kv s !! account_key email = Some (RStr (to_json a) ttl'))
    (Hst : status a = Active) :
  wp (X := EdgeSig) (healthy_spec bcrypt_verify)
    (reset_password token password ;;; account_login email password)
    (fun o s' => exists session, o = Done (Ok session) /\
       kv s' !! reset_key token = None /\
       kv s' !! session_key session = Some (RStr email (Some SESSION_TTL_SECS))) s.
Proof.
  rewrite wp_bind. eapply wp_mono; [|apply wp_reset_password]. intros o s1 Hpost.
  rewrite Hpw in Hpost. destruct Hpost as [_ Hc]. rewrite Ht in Hc. cbn [read_str] in Hc.
  rewrite Ha in Hc. cbn [read_str] in Hc. unfold account_from_json in Hc.
  rewrite from_to_json in Hc. cbn [map_err] in Hc. destruct Hc as (-> & a' & (h & Hh & ->) & Hkv).
  cbn [andthen]. eapply wp_mono; [|apply wp_login]. intros o2 s2. unfold login_post.
  rewrite He, Hkv, lookup_insert_eq. cbn [read_str]. unfold account_from_json.
  rewrite from_to_json. cbn [map_err set_password_hash password_hash status]. rewrite Hh, Hst.
  destruct o2 as [[ses|er]| |]; try done; [|by intros (_ & ? & _)].
  intros (_ & _ & _ & _ & _ & _ & _ & _ & ->). exists ses. cbn [kv set_kv].
  split; [done|]. split; [|apply lookup_insert_eq].
  rewrite lookup_insert_ne by done. rewrite lookup_insert_ne by done. apply lookup_delete_eq.
Qed.

Lemma reset_then_login_witness :
  let s := with_account Demo.account {[ reset_key "t" := RStr email (Some 86400%Z) ]} in
  status Demo.account = Active /\
  wp (X := EdgeSig) (healthy_spec bcrypt_verify)
    (reset_password "t" "new-password" ;;; account_login email "new-password")
    (fun o s' => exists session, o = Done (Ok session) /\ kv s' !! reset_key "t" = None /\
       kv s' !! session_key session = Some (RStr email (Some SESSION_TTL_SECS))) s.
Proof.
  intros s. split; [reflexivity|].
  apply (reset_then_login Demo.serde_account_laws "t" email "new-password" Demo.account
           (Some 86400%Z) None s); vm_compute; reflexivity.
Defined.

(** ** Invites *)

(** A generated invite code is accepted as it is; an accepted code is four words
    of the list, whatever its case, and its canonical form is its own. *)
Theorem invite_codes (WORDS : list string) (verify : string -> string -> option bool) (s : edge)
    (HW : words_ok WORDS = true) :
  wp (X := EdgeSig) (edge_spec verify) (random_invite_code WORDS)
    (fun o s' => s' = s /\ exists code, o = Done code /\
                 canonical_invite_code WORDS code = Some code) s /\
  (forall code c, canonical_invite_code WORDS code = Some c ->
     length (split_on is_dash c) = 4%nat /\ Forall (fun w => w ∈ WORDS) (split_on is_dash c) /\
     canonical_invite_code WORDS c = Some c /\
     canonical_invite_code WORDS (to_lowercase code) = Some c).
Proof.
  split; [by apply wp_random_code|]. intros code c Hc.
  pose proof (canonical_idem WORDS code c Hc). rewrite canonical_case.
  pose proof (proj1 (canonical_spec WORDS code c) Hc) as (-> & ? & ?).
  by repeat split.
Qed.

Lemma invite_codes_witness :
  words_ok Demo.words = true /\
  wp (X := EdgeSig) (edge_spec Demo.verify) (random_invite_code Demo.words)
    (fun o s' => s' = Demo.world ∅ /\ exists code, o = Done code /\
                 canonical_invite_code Demo.words code = Some code) (Demo.world ∅).
Proof.
  split; [exact Demo.words_fine|].
  exact (proj1 (invite_codes Demo.words Demo.verify (Demo.world ∅) Demo.words_fine)).
Defined.

(** C3: whatever fails, every invite handler moves every invite record by a
    transition of the state machine (created dormant; begun while open; approved
    or denied while waiting; revoked while open), and no other way. *)
Theorem invite_state_machine `{CR : Crates} `{SM : Serde Machine} `{SA : Serde AccountRecord}
    `{SI : Serde InviteRecord} `{SD : Serde EnrollmentDelivery} (SL : SerdeLaws InviteRecord)
    (WORDS : list string) (verify : string -> string -> option bool) (cp : ControlPlane)
    (fwd : option Forwarder) (fuel : nat) (c : invite_call) (s : edge)
    (Halloc : forall code, alloc_key cp <> invite_key code) :
  wp (X := EdgeSig) (edge_spec verify) (handle WORDS cp fwd fuel c)
    (fun _ s' => forall code, invite_move (rec_at (kv s) code) (rec_at (kv s') code)) s.
Proof. by apply moving_handle. Qed.

(** An open invite of Ann's, and the world after a machine dialled it. *)
Definition open_store : gmap string rval :=
  {[ invite_key code := RStr (to_json (MkInvite email Dormant None)) (Some INVITE_TTL_SECS) ]}.
Definition dial : invite_call := CallBegin code (Demo.key 9).
Definition dialled : ref_world :=
  snd (Prog.run (X := EdgeSig) Demo.exec (handle Demo.words Demo.cp (Some Demo.fwd) 10 dial)
         (Demo.start open_store)).

Lemma dial_may :
  may (X := EdgeSig) (edge_spec Demo.verify) (handle Demo.words Demo.cp (Some Demo.fwd) 10 dial)
    (Demo.world open_store)
    (fst (Prog.run (X := EdgeSig) Demo.exec
            (handle Demo.words Demo.cp (Some Demo.fwd) 10 dial) (Demo.start open_store)))
    (rw dialled).
Proof.
  exact (run_may (X := EdgeSig) Demo.exec (edge_spec Demo.verify) rw _ (Demo.start open_store)
           (ref_exec_implements Demo.verify Concrete.bcrypt_hash Concrete.bcrypt_hash_ok)).
Defined.

Lemma dialled_record :
  rec_at (kv (rw dialled)) code = Some (MkInvite email Waiting (Some (Demo.key 9))).
Proof. vm_compute. reflexivity. Qed.

Lemma invite_state_machine_witness :
  rec_at open_store code = Some (MkInvite email Dormant None) /\
  rec_at (kv (rw dialled)) code = Some (MkInvite email Waiting (Some (Demo.key 9))) /\
  invite_move (rec_at open_store code) (rec_at (kv (rw dialled)) code).
Proof.
  split; [vm_compute; reflexivity|]. split; [exact dialled_record|].
  assert (forall c, alloc_key Demo.cp <> invite_key c) as Ha by (intros c; discriminate).
  exact (proj1 (wp_may (X := EdgeSig) (edge_spec Demo.verify) _ _ _)
           (invite_state_machine Demo.serde_invite_laws Demo.words Demo.verify Demo.cp
              (Some Demo.fwd) 10 dial (Demo.world open_store) Ha) _ _ dial_may code).
Defined.

(** C6: in every state that the handlers reach when they run one after another,
    each to its end (with any of their store calls failing), and keys expire
    between them, a record is dormant without a candidate or carries one; and a
    burned code (approved or denied) never changes again unless it expired in
    between.  (Overlapping handlers keep the first part, but a dial that overlaps
    an approval can reopen a burned code: [approve_dial_race].) *)
Theorem reachable_invites `{CR : Crates} `{SM : Serde Machine} `{SA : Serde AccountRecord}
    `{SI : Serde InviteRecord} `{SD : Serde EnrollmentDelivery} (SL : SerdeLaws InviteRecord)
    (WORDS : list string) (verify : string -> string -> option bool) (cp : ControlPlane)
    (fwd : option Forwarder) (fuel : nat) (s0 s : edge)
    (Halloc : forall code, alloc_key cp <> invite_key code)
    (Hwf : records_wf (kv s0)) (Hreach : reach WORDS verify cp fwd fuel s0 s) :
  records_wf (kv s) /\
  (forall code r, rec_at (kv s0) code = Some r -> burned (inv_status r) ->
     rec_at (kv s) code = Some r \/
     exists s1, reach WORDS verify cp fwd fuel s0 s1 /\ kv s1 !! invite_key code = None).
Proof.
  split; [by eapply reach_wf|]. intros code r. by eapply reach_burned.
Qed.

Lemma open_store_wf : records_wf open_store.
Proof.
  intros c r H. unfold rec_at, open_store in H.
  destruct (decide (invite_key c = invite_key code)) as [Hc|Hne].
  - rewrite Hc, lookup_singleton_eq in H. vm_compute in H. injection H as <-. by left.
  - rewrite lookup_singleton_ne in H by done. discriminate H.
Qed.

Lemma reachable_invites_witness :
  reach Demo.words Demo.verify Demo.cp (Some Demo.fwd) 10 (Demo.world open_store) (rw dialled) /\
  rec_at (kv (rw dialled)) code = Some (MkInvite email Waiting (Some (Demo.key 9))) /\
  records_wf (kv (rw dialled)).
Proof.
  assert (reach Demo.words Demo.verify Demo.cp (Some Demo.fwd) 10 (Demo.world open_store)
            (rw dialled)) as Hr by (eapply reach_call; [apply reach_start|exact dial_may]).
  split; [exact Hr|]. split; [exact dialled_record|].
  apply (reachable_invites Demo.serde_invite_laws Demo.words Demo.verify Demo.cp
           (Some Demo.fwd) 10 (Demo.world open_store) (rw dialled));
    [intros c; discriminate|exact open_store_wf|exact Hr].
Defined.

(** C5: the code alone grants nothing: no invite call but the owner's approval and
    the device token's rotation touches the WireGuard interface, the DNS zone or
    the forwarder, whatever the state and whatever fails; and none of them rewrites
    a machine record, except that a begin with the approved key on an approved
    invite may give the record of one machine that holds this key the hash of a new
    token (nothing else of the record changes). *)
Theorem code_grants_nothing `{CR : Crates} `{SM : Serde Machine} `{SA : Serde AccountRecord}
    `{SI : Serde InviteRecord} `{SD : Serde EnrollmentDelivery}
    (WORDS : list string) (verify : string -> string -> option bool) (cp : ControlPlane)
    (fwd : option Forwarder) (fuel : nat) (c : invite_call) (s : edge)
    (Hc : ungated c = true) :
  wp (X := EdgeSig) (edge_spec verify) (handle WORDS cp fwd fuel c)
    (fun _ s' => same_wiring s s' /\
       ((forall name, kv s' !! machine_key name = kv s !! machine_key name) \/
        exists code pk k r m token,
          c = CallBegin code pk /\ canonical_invite_code WORDS code = Some k /\
          rec_at (kv s) k = Some r /\ inv_status r = Approved /\ device_pubkey r = Some pk /\
          recorded s m /\ m_wg_public_key m = pk /\
          forall name, kv s' !! machine_key name
            = <[machine_key (m_name m)
                  := RStr (to_json (set_token_hash (token_hash token) m)) None]> (kv s)
              !! machine_key name)) s.
Proof.
  eapply wp_mono; [|apply wp_conj; [apply quiet_ungated; done|by apply frame_ungated]].
  intros o s' [H1 [H2|(code & pk & -> & k & r & m & tok & H2)]]; (split; [done|]).
  - left. intros name. apply H2. by eexists.
  - right. exists code, pk, k, r, m, tok. destruct H2 as (? & ? & ? & ? & ? & ? & H).
    split_and!; try done. intros name. apply H. by eexists.
Qed.

(** A dormant invite is dialled: no record of a machine changes. *)
Lemma code_grants_nothing_witness :
  ungated dial = true /\
  rec_at open_store code = Some (MkInvite email Dormant None) /\
  wp (X := EdgeSig) (edge_spec Demo.verify)
    (handle Demo.words Demo.cp (Some Demo.fwd) 10 dial)
    (fun _ s' => same_wiring (Demo.world open_store) s' /\
       forall name, kv s' !! machine_key name = open_store !! machine_key name)
    (Demo.world open_store).
Proof.
  split; [reflexivity|]. split; [vm_compute; reflexivity|].
  eapply wp_mono; [|apply (code_grants_nothing Demo.words Demo.verify Demo.cp (Some Demo.fwd) 10
    dial (Demo.world open_store)); reflexivity].
  intros o s' [Hw [Hk|(c & pk & k & r & m & tok & Hd & Hk & Hr & Hst & _)]];
    (split; [exact Hw|]); [exact Hk|].
  injection Hd as <- <-. rewrite Demo.code_canonical in Hk. injection Hk as <-.
  vm_compute in Hr. injection Hr as <-. discriminate Hst.
Defined.
