(* ===== verification/InviteProps.v ===== *)
(** The properties of enrollment: approval, one-time delivery, re-begin and key
    rotation. *)

From stdpp Require Import base gmap strings list pretty.
From Stdlib Require Import ZArith Lia Ascii.
From S2P Require Import Prelude Prog Addr NumText AddrText ForwarderState World.
From S2P Require Import Retry Forwarder Dns Wg Store Crates Errors ControlPlane.
From S2P Require Import Allocation Machines Account AccountProofs Invite InviteCodes.
From S2P Require Import InviteMoves InviteProofs Demo.
Import Demo.

Local Open Scope prog_scope.

(** C4: an approval creates the machine with a device token whose hash its record
    keeps; the first poll hands over machine and token, and every later poll
    nothing more.  When the machine cannot be wired the approval fails, the name
    is free again and the invite is still waiting. *)
Theorem approve_delivers_once `{CR : Crates} `{SM : Serde Machine} `{SA : Serde AccountRecord}
    `{SI : Serde InviteRecord} `{SD : Serde EnrollmentDelivery}
    (LM : SerdeLaws Machine) (LA : SerdeLaws AccountRecord) (LI : SerdeLaws InviteRecord)
    (LD : SerdeLaws EnrollmentDelivery)
    (WORDS : list string) (cp : ControlPlane) (f : Forwarder) (email code name pk : string)
    (a : AccountRecord) (ttl : option Z) (n : Z) (l : list string) (ip wg edge_key : string)
    (s : edge)
    (Hi : invite_is WORDS s code (MkInvite email Waiting (Some pk)))
    (Ha : kv s !! account_key (norm_email email) = Some (RStr (to_json a) ttl))
    (Hroute : fresh_route cp f name pk n l ip wg edge_key s) :
  wp (X := EdgeSig) (healthy_spec bcrypt_verify)
    (invite_approve WORDS cp (Some f) email code name)
    (fun o s1 =>
       let m := fresh_machine cp (Some (uuid a)) name pk ip wg in
       match o with
       | Done (Ok m') =>
           m' = m /\
           exists token,
             let enrolled := set_token_hash (token_hash token) m in
             kv s1 !! machine_key name = Some (RStr (to_json enrolled) None) /\
             wp (X := EdgeSig) (healthy_spec bcrypt_verify) (invite_poll WORDS code)
               (fun o2 s2 =>
                  o2 = Done (Ok (MkPoll "approved" (Some enrolled) (Some token))) /\
                  wp (X := EdgeSig) (healthy_spec bcrypt_verify) (invite_poll WORDS code)
                    (fun o3 s3 => o3 = Done (Ok (MkPoll "approved" None None)) /\ s3 = s2) s2) s1
       | Done (Err (InvCorrupt _)) =>
           kv s1 !! machine_key name = None /\
           kv s1 !! invite_key code = kv s !! invite_key code
       | _ => False
       end) s.
Proof.
  eapply wp_mono; [|by eapply wp_approve]. set (m := fresh_machine _ _ _ _ _ _).
  intros o s1 Hpost. destruct o as [[m'|e]| |]; try done.
  - destruct Hpost as (-> & (token & _ & Hkv) & _). split; [done|]. exists token.
    set (d := MkDelivery (enrolled_machine m token) token).
    assert (kv s1 !! invite_key code
            = Some (RStr (to_json (MkInvite email Approved (Some pk))) (Some INVITE_TTL_SECS)))
      as Hinv by (rewrite Hkv; apply lookup_insert_eq).
    assert (kv s1 !! delivery_key code = Some (RStr (to_json d) (Some DELIVERY_TTL_SECS)))
      as Hdel by (rewrite Hkv; unfold approved_store; rewrite lookup_insert_ne by done;
                  apply lookup_insert_eq).
    split.
    { rewrite Hkv. unfold approved_store. rewrite !lookup_insert_ne by done.
      apply lookup_insert_eq. }
    eapply wp_poll_approved; [split; [by destruct Hi|by eexists]|done|].
    rewrite Hdel, from_to_json. split; [done|].
    apply (wp_poll_approved WORDS _ code (MkInvite email Approved (Some pk)));
      [split; [by destruct Hi|]|done|].
    { eexists. cbn [kv set_kv]. rewrite lookup_delete_ne by done. exact Hinv. }
    cbn [kv set_kv]. by rewrite lookup_delete_eq.
  - destruct e; try done. destruct Hpost as [Hkv _].
    destruct Hroute as [Hwf _ _ _ _ _ _ _ Hfree Hidx Hnew _ _ _].
    pose proof (fun k Hk => drop_committed bcrypt_verify cp m (n + 1) l (kv s) k Hwf Hfree
                  Hidx Hnew Hk) as Hd.
    rewrite Hkv. split.
    + rewrite <- Hfree. apply (Hd (machine_key name)); [by apply machine_key_alloc|done].
    + apply Hd; [|done]. destruct Hwf as (_ & _ & ->). done.
Qed.

(** A waiting invite of the demo account, and the machines around it. *)
Definition waiting : InviteRecord := MkInvite email Waiting (Some (Demo.key 11)).

Definition invited (m : gmap string rval) : edge :=
  Demo.world (<[account_key email := RStr (to_json Demo.account) None]>
                (<[invite_key code := RStr (to_json waiting) (Some INVITE_TTL_SECS)]> m)).

Lemma invited_is m : invite_is Demo.words (invited m) code waiting.
Proof.
  split; [exact Demo.code_canonical|]. exists (Some INVITE_TTL_SECS). cbn [kv invited Demo.world].
  rewrite lookup_insert_ne by done. apply lookup_insert_eq.
Defined.

Lemma approve_delivers_once_witness :
  invite_is Demo.words (invited ∅) code waiting /\
  wp (X := EdgeSig) (healthy_spec bcrypt_verify)
    (invite_approve Demo.words Demo.cp (Some Demo.fwd) email code "main-2")
    (fun o s1 =>
       match o with
       | Done (Ok m) => m_ipv6 m = "2a01:4f8:c17:1::2"%string
       | Done (Err (InvCorrupt _)) => kv s1 !! machine_key "main-2" = None
       | _ => False
       end) (invited ∅).
Proof.
  split; [exact (invited_is ∅)|].
  eapply wp_mono; [|apply (approve_delivers_once Demo.serde_machine_laws Demo.serde_account_laws
    Demo.serde_invite_laws Demo.serde_delivery_laws Demo.words Demo.cp Demo.fwd email code "main-2"
    (Demo.key 11) Demo.account None 1 [] "2a01:4f8:c17:1::2" "10.10.0.2" Demo.edge_key)].
  - intros o s1. destruct o as [[m|e]| |]; try done.
    + by intros [-> _].
    + by destruct e; try done; intros [H _].
  - exact (invited_is ∅).
  - vm_compute. reflexivity.
  - split; try (vm_compute; (reflexivity || discriminate)).
    + exact Demo.cp_ok.
    + by left.
    + apply not_elem_of_nil.

Defined.

(** Approving under the name of an existing machine is refused as taken, but
    not before the existing machine's key was replaced by the candidate's: the
    record keeps its addresses and the candidate's peer holds its tunnel
    address.  The invite stays as it was. *)
Theorem approve_taken_name_rotates `{CR : Crates} `{SM : Serde Machine}
    `{SA : Serde AccountRecord} `{SI : Serde InviteRecord} `{SD : Serde EnrollmentDelivery}
    (LM : SerdeLaws Machine) (LA : SerdeLaws AccountRecord) (LI : SerdeLaws InviteRecord)
    (WORDS : list string) (cp : ControlPlane) (f : Forwarder) (email code name pk : string)
    (a : AccountRecord) (ttl ttl' : option Z) (mc : Machine) (edge_key : string) (s : edge)
    (Hi : invite_is WORDS s code (MkInvite email Waiting (Some pk)))
    (Ha : kv s !! account_key (norm_email email) = Some (RStr (to_json a) ttl))
    (Hname : validate_machine_name name = Ok tt) (Hkey : validate_wg_pubkey pk = Ok tt)
    (Hek : edge_public_key cp = Some (Ok edge_key))
    (Hmc : kv s !! machine_key name = Some (RStr (to_json mc) ttl'))
    (Hother : m_wg_public_key mc <> pk) :
  wp (X := EdgeSig) (healthy_spec bcrypt_verify)
    (invite_approve WORDS cp (Some f) email code name)
    (fun o s' =>
       kv s' !! invite_key code = kv s !! invite_key code /\
       match o with
       | Done (Err (InvNameTaken n)) =>
           n = name /\
           kv s' !! machine_key name = Some (RStr (to_json (set_pubkey pk mc)) None) /\
           exists l, wg_log s' = wg_log s ++ l ++ [WgAdded (m_wg_ip mc) pk]
       | Done (Err (InvCorrupt _)) =>
           kv s' !! machine_key name = Some (RStr (to_json mc) ttl')
       | _ => False
       end) s.
Proof.
  eapply wp_mono; [|by eapply wp_approve_existing]. cbn beta. intros o s' Hpost.
  destruct o as [[r|e]| |]; try done. destruct e; try done.
  - destruct Hpost as (-> & -> & Hl). rewrite lookup_insert_ne by done.
    by rewrite lookup_insert_eq.
  - by rewrite Hpost.
Qed.

Definition victim : Machine := Demo.route "main-1" (Some "uuid-2") 2 (Demo.key 9).
Definition taken_store : gmap string rval :=
  {[ machine_key "main-1" := RStr (to_json victim) None; MACHINE_INDEX := RList ["main-1"];
     ALLOC_COUNTER := RInt 2 ]}.

Lemma approve_taken_name_rotates_witness :
  m_owner victim = Some "uuid-2"%string /\
  wp (X := EdgeSig) (healthy_spec bcrypt_verify)
    (invite_approve Demo.words Demo.cp (Some Demo.fwd) email code "main-1")
    (fun o s' =>
       match o with
       | Done (Err (InvNameTaken _)) =>
           kv s' !! machine_key "main-1"
             = Some (RStr (to_json (set_pubkey (Demo.key 11) victim)) None)
       | Done (Err (InvCorrupt _)) => True
       | _ => False
       end) (invited taken_store).
Proof.
  split; [reflexivity|].
  eapply wp_mono; [|apply (approve_taken_name_rotates Demo.serde_machine_laws
    Demo.serde_account_laws Demo.serde_invite_laws Demo.words Demo.cp Demo.fwd email code "main-1"
    (Demo.key 11) Demo.account None None victim Demo.edge_key (invited taken_store))].
  - intros o s' [_ H]. destruct o as [[m|e]| |]; try done. destruct e; try done.
    by destruct H as (_ & H & _).
  - exact (invited_is taken_store).
  - vm_compute. reflexivity.
  - vm_compute. reflexivity.
  - vm_compute. reflexivity.
  - exact Demo.edge_key_ok.
  - vm_compute. reflexivity.
  - vm_compute. discriminate.
Defined.

(** Re-running begin on an approved invite with the approved key arms a new
    delivery with a new token, whose hash replaces the old one in the machine's
    record; but if no machine holds that key any more (deleted, or its key
    rotated), the handler panics. *)
Theorem rebegin_rearms_or_panics `{CR : Crates} `{SM : Serde Machine}
    `{SA : Serde AccountRecord} `{SI : Serde InviteRecord} `{SD : Serde EnrollmentDelivery}
    (LM : SerdeLaws Machine) (LI : SerdeLaws InviteRecord) (LD : SerdeLaws EnrollmentDelivery)
    (WORDS : list string) (code email pk : string) (l : list Machine) (s : edge)
    (Hi : invite_is WORDS s code (MkInvite email Approved (Some pk)))
    (Hkey : validate_wg_pubkey pk = Ok tt) (Hl : listed (kv s) = Ok l) :
  wp (X := EdgeSig) (healthy_spec bcrypt_verify) (invite_begin WORDS code pk)
    (fun o s' =>
       match List.find (fun m => bool_decide (m_wg_public_key m = pk)) l with
       | None => o = Panicked "an approved invite's machine exists" /\ s' = s
       | Some m => exists token,
           let enrolled := set_token_hash (token_hash token) m in
           o = Done (Ok (MkPoll "approved" None None)) /\
           kv s' !! machine_key (m_name m) = Some (RStr (to_json enrolled) None) /\
           wp (X := EdgeSig) (healthy_spec bcrypt_verify) (invite_poll WORDS code)
             (fun o2 _ => o2 = Done (Ok (MkPoll "approved" (Some enrolled) (Some token)))) s'
       end) s.
Proof.
  eapply wp_begin_approved; [exact Hi|done..|].
  destruct (List.find _ l) as [m|]; [|done]. intros token. exists token. split; [done|].
  cbn [kv set_kv]. split; [rewrite lookup_insert_ne by done; apply lookup_insert_eq|].
  apply (wp_poll_approved WORDS _ code (MkInvite email Approved (Some pk))).
  - destruct Hi as [Hc [ttl Hr]]. split; [done|]. exists ttl. cbn [kv set_kv].
    by rewrite !lookup_insert_ne.
  - done.
  - cbn [kv set_kv]. rewrite lookup_insert_eq, from_to_json. done.
Qed.

(** The approved invite of a machine that was deleted since. *)
Definition orphaned : edge :=
  Demo.world {[ invite_key code
                  := RStr (to_json (MkInvite email Approved (Some (Demo.key 11)))) None ]}.

Lemma rebegin_rearms_or_panics_witness :
  listed (kv orphaned) = Ok [] /\
  wp (X := EdgeSig) (healthy_spec bcrypt_verify) (invite_begin Demo.words code (Demo.key 11))
    (fun o s' => o = Panicked "an approved invite's machine exists" /\ s' = orphaned) orphaned.
Proof.
  assert (listed (kv orphaned) = Ok []) as Hl by (vm_compute; reflexivity).
  split; [exact Hl|].
  apply (rebegin_rearms_or_panics Demo.serde_machine_laws Demo.serde_invite_laws
           Demo.serde_delivery_laws Demo.words code email (Demo.key 11) []).
  - split; [exact Demo.code_canonical|]. exists None. vm_compute. reflexivity.
  - vm_compute. reflexivity.
  - exact Hl.
Defined.

(** The device token rotates its own machine's key and nothing else: an empty
    token panics and a token no machine holds is refused, both without effect;
    otherwise the route (addresses, owner, token) stays and only the record's key
    changes, every other entry of the store as before, and if the peer cannot be
    added the whole store is as before. *)
Theorem device_token_rotates `{CR : Crates} `{SM : Serde Machine}
    (LM : SerdeLaws Machine) (cp : ControlPlane) (f : Forwarder)
    (token key edge_key : string) (l : list Machine) (s : edge)
    (Hkey : validate_wg_pubkey key = Ok tt) (Hek : edge_public_key cp = Some (Ok edge_key))
    (Hl : listed (kv s) = Ok l)
    (Hm : forall m, m ∈ l -> validate_machine_name (m_name m) = Ok tt /\
                             kv s !! machine_key (m_name m) = Some (RStr (to_json m) None)) :
  wp (X := EdgeSig) (healthy_spec bcrypt_verify) (device_register cp (Some f) token key)
    (fun o s' =>
       if is_empty token then o = Panicked "device token is required" /\ s' = s else
       match List.find (holds_token token) l with
       | None => o = Done (Err (CpNotFound "no machine for this device token")) /\ s' = s
       | Some m =>
           fws s' = fws s /\ dns_log s' = dns_log s /\ mails s' = mails s /\
           match o with
           | Done (Ok m') =>
               m' = set_pubkey key m /\
               kv s' = <[machine_key (m_name m) := RStr (to_json m') None]> (kv s)
           | Done (Err (CpWg _)) => kv s' = kv s
           | _ => False
           end
       end) s.
Proof.
  destruct token as [|c token]; [by cbn|]. by eapply wp_device_register.
Qed.

Definition enrolled_box : Machine :=
  set_token_hash (token_hash "secret") (Demo.route "main-1" None 2 (Demo.key 9)).
Definition enrolled_store : gmap string rval :=
  {[ machine_key "main-1" := RStr (to_json enrolled_box) None; MACHINE_INDEX := RList ["main-1"] ]}.

Lemma device_token_rotates_witness :
  List.find (holds_token "secret") [enrolled_box] = Some enrolled_box /\
  wp (X := EdgeSig) (healthy_spec bcrypt_verify)
    (device_register Demo.cp (Some Demo.fwd) "secret" (Demo.key 10))
    (fun o s' =>
       match o with
       | Done (Ok m') => m' = set_pubkey (Demo.key 10) enrolled_box
       | Done (Err (CpWg _)) => kv s' = enrolled_store
       | _ => False
       end) (Demo.world enrolled_store).
Proof.
  assert (List.find (holds_token "secret") [enrolled_box] = Some enrolled_box) as Hf
    by (vm_compute; reflexivity).
  split; [exact Hf|].
  eapply wp_mono; [|apply (device_token_rotates Demo.serde_machine_laws Demo.cp Demo.fwd
    "secret" (Demo.key 10) Demo.edge_key [enrolled_box] (Demo.world enrolled_store))].
  - cbn beta. rewrite Hf. cbn [is_empty]. intros o s' (_ & _ & _ & H). destruct o as [[m|e]| |]; try done. by destruct H.
  - vm_compute. reflexivity.
  - exact Demo.edge_key_ok.
  - vm_compute. reflexivity.
  - intros m Hin. apply list_elem_of_singleton in Hin as ->. split; vm_compute; reflexivity.
Defined.

(** ** A dial during an approval *)

(** Another machine dials the waiting invite and reads the record; the owner's approval
    runs; then the dial writes the record back. *)
Definition dial_and_approve : list (prog EdgeSig unit) :=
  [handle Demo.words Demo.cp (Some Demo.fwd) 10 (CallBegin code (Demo.key 12));
   handle Demo.words Demo.cp (Some Demo.fwd) 10 (CallApprove email code "main-1")].
Definition dial_turns : list nat := [0; 0]%nat ++ replicate 60 1%nat ++ replicate 10 0%nat.
Definition after_dial :=
  sched (X := EdgeSig) Demo.exec dial_turns dial_and_approve (MkRef (invited ∅) [] [] []).

(** What the owner's next approval of that code, under another name, ends in. *)
Definition second_approval :=
  Prog.run (X := EdgeSig) Demo.exec
    (invite_approve Demo.words Demo.cp (Some Demo.fwd) email code "main-2") (snd after_dial).

(** Approval burns a code only when no dial overlaps it: both requests finish, the
    approved machine is stored, and the invite is waiting again for the key that dialled; a
    second approval enrolls a second machine with the same code. *)
Theorem approve_dial_race :
  forallb (fun p : prog EdgeSig unit => match p with Ret _ => true | _ => false end)
    (fst after_dial) = true /\
  is_Some (kv (rw (snd after_dial)) !! machine_key "main-1") /\
  rec_at (kv (rw (snd after_dial))) code = Some (MkInvite email Waiting (Some (Demo.key 12))) /\
  exists m, fst second_approval = Done (Ok m) /\
    m_name m = "main-2"%string /\ m_wg_public_key m = Demo.key 12.
Proof.
  split; [vm_compute; reflexivity|]. split.
  { assert (bool_decide (is_Some (kv (rw (snd after_dial)) !! machine_key "main-1")) = true) as H
      by (vm_compute; reflexivity). by apply bool_decide_eq_true in H. }
  split; [vm_compute; reflexivity|].
  assert (match fst second_approval with
          | Done (Ok m) => bool_decide (m_name m = "main-2"%string /\
                                        m_wg_public_key m = Demo.key 12)
          | _ => false
          end = true) as H by (vm_compute; reflexivity).
  destruct (fst second_approval) as [[m|e]| |]; try done.
  apply bool_decide_eq_true in H as [H1 H2]. by exists m.
Qed.
