(* ===== verification/HttpProps.v ===== *)
(** The properties of the HTTP layer: sessions, cookies, page reads and the
    admin key. *)

From stdpp Require Import base gmap strings list pretty.
From Stdlib Require Import ZArith Lia Ascii.
From S2P Require Import Prelude Prog Addr ForwarderState World Forwarder Store Crates.
From S2P Require Import Errors ControlPlane Allocation Machines Account AccountProofs Invite.
From S2P Require Import Web Api HttpProofs Demo.
Import Demo.

Local Open Scope prog_scope.

(** The owner operations of the invites API. *)
Inductive owner_call :=
| OwnCreate | OwnList | OwnRevoke (code : string)
| OwnApprove (code name : string) | OwnDeny (code : string).

Definition owner_api `{CR : Crates} `{SM : Serde Machine} `{SA : Serde AccountRecord}
    `{SI : Serde InviteRecord} `{SD : Serde EnrollmentDelivery}
    (WORDS : list string) (FORWARDER : option Forwarder) (fuel : nat) (state : AppState)
    (c : owner_call) (req : Request) : prog EdgeSig InviteApiResponse :=
  match c with
  | OwnCreate => InvitesApi.create WORDS state req
  | OwnList => InvitesApi.list fuel state req
  | OwnRevoke code => InvitesApi.revoke WORDS state req code
  | OwnApprove code name => InvitesApi.approve WORDS FORWARDER state req code name
  | OwnDeny code => InvitesApi.deny WORDS state req code
  end.

(** C12: without a live session nothing an owner can do happens: whatever fails,
    every dashboard route redirects to the login page, every owner operation of
    the invites API and the account deletion answer 401, and the state is
    untouched. *)
Theorem session_gate `{CR : Crates} `{SM : Serde Machine} `{SA : Serde AccountRecord}
    `{SI : Serde InviteRecord} `{SD : Serde EnrollmentDelivery}
    (WORDS : list string) (g : Globals) (fuel : nat)
    (verify : string -> string -> option bool) (cp : ControlPlane) (mailer : bool)
    (req : Request) (s : edge) (Hno : no_session req s) :
  let state := MkAppState (Some cp) mailer in
  let F := G_FORWARDER g in
  (forall r, Web.needs_session r = true ->
     wp (X := EdgeSig) (edge_spec verify) (Web.web_routes WORDS F fuel state r req)
       (fun o s' => o = Done (see_other "/login") /\ s' = s) s) /\
  (forall c,
     wp (X := EdgeSig) (edge_spec verify) (owner_api WORDS F fuel state c req)
       (fun o s' => o = Done (InviteUnauthorized "no session") /\ s' = s) s) /\
  wp (X := EdgeSig) (edge_spec verify) (UsersApi.delete_account g fuel state req)
    (fun o s' => o = Done (UsersUnauthorized "no session") /\ s' = s) s.
Proof.
  intros state F. split_and!.
  - intros r Hr. destruct r; try done; by apply wp_web_gate.
  - intros c. destruct c; by apply wp_api_gate.
  - unfold UsersApi.delete_account, UsersApi.with_cp, api_cp. cbn [app_cp state].
    unfold no_session in Hno. destruct (read_cookie req SESSION_COOKIE) as [token|]; [|done].
    rewrite wp_bind. by apply wp_no_account.
Qed.

Lemma session_gate_witness :
  no_session (MkRequest (Some "fortress_account_session=stolen")) (Demo.world ∅) /\
  wp (X := EdgeSig) (edge_spec Demo.verify)
    (Web.web_routes Demo.words (Some Demo.fwd) 10 (MkAppState (Some Demo.cp) true)
       (Web.PostApprove Demo.code (Some "main-1"%string))
       (MkRequest (Some "fortress_account_session=stolen")))
    (fun o s' => o = Done (see_other "/login") /\ s' = Demo.world ∅) (Demo.world ∅).
Proof.
  assert (no_session (MkRequest (Some "fortress_account_session=stolen"%string)) (Demo.world ∅))
    as H by (vm_compute; reflexivity).
  split; [exact H|].
  exact (proj1 (session_gate Demo.words (MkGlobals (Some Demo.fwd) None) 10 Demo.verify Demo.cp
                  true _ (Demo.world ∅) H)
           (Web.PostApprove Demo.code (Some "main-1"%string)) eq_refl).
Defined.

(** A GET of the web pages changes nothing, whatever fails: no record, no
    mail, no peer, no DNS record, no forward.  A mail client that prefetches a
    verification or reset link does not consume its token. *)
Theorem get_pages_read_only `{CR : Crates} `{SM : Serde Machine} `{SA : Serde AccountRecord}
    `{SI : Serde InviteRecord} `{SD : Serde EnrollmentDelivery}
    (WORDS : list string) (F : option Forwarder) (fuel : nat)
    (verify : string -> string -> option bool) (state : AppState) (r : Web.route)
    (req : Request) (s : edge) (Hget : Web.is_get r = true) :
  wp (X := EdgeSig) (edge_spec verify) (Web.web_routes WORDS F fuel state r req)
    (fun _ s' => kv s' = kv s /\ mails s' = mails s /\ wg_log s' = wg_log s /\
                 dns_log s' = dns_log s /\ fws s' = fws s) s.
Proof. by apply reads_get. Qed.

Lemma get_pages_read_only_witness :
  Web.is_get (Web.GetVerify (Some "t"%string)) = true /\
  wp (X := EdgeSig) (edge_spec Demo.verify)
    (Web.web_routes Demo.words None 10 (MkAppState (Some Demo.cp) true)
       (Web.GetVerify (Some "t"%string)) (MkRequest None))
    (fun _ s' => kv s' = {[ verify_key "t" := RStr email None ]})
    (Demo.world {[ verify_key "t" := RStr email None ]}).
Proof.
  split; [reflexivity|].
  eapply wp_mono; [|exact (get_pages_read_only Demo.words None 10 Demo.verify
    (MkAppState (Some Demo.cp) true) (Web.GetVerify (Some "t"%string)) (MkRequest None)
    (Demo.world {[ verify_key "t" := RStr email None ]}) eq_refl)].
  intros o s' [H _]. exact H.
Defined.

Lemma hex_cookie_char c : is_hex_lower c = true -> cookie_char c = true.
Proof. destruct c as [[] [] [] [] [] [] [] []]; done. Qed.

Lemma cookie_header_char c : cookie_char c = true -> (header_char c || negb (ch_le c (Ascii.ascii_of_nat 127))) = true.
Proof. intros [H _]%cookie_char_facts. by rewrite H. Qed.

(** A token in hexadecimal fits the cookie header. *)
Lemma hex_header `{CL : CratesLaws} bytes :
  session_cookie_header (hex_encode bytes)
  = Some (SESSION_COOKIE ++ "=" ++ hex_encode bytes ++ "; Path=/; HttpOnly; SameSite=Lax")%string.
Proof.
  unfold session_cookie_header, header_value_ok. rewrite !str_forallb_app.
  rewrite (str_forallb_impl _ _ _ cookie_header_char
             (str_forallb_impl _ _ _ hex_cookie_char (hex_text bytes))).
  reflexivity.
Qed.

(** A web login that succeeds sets the session cookie, and a browser that
    sends it back, among whatever other cookies, is the account from then on; a
    login that fails changes nothing, and an unknown address and a wrong
    password get the same page. *)
Theorem web_login_session `{CL : CratesLaws} `{SM : Serde Machine} `{SA : Serde AccountRecord}
    `{SI : Serde InviteRecord} `{SD : Serde EnrollmentDelivery}
    (cp : ControlPlane) (mailer : bool) (email password : string) (s : edge) :
  wp (X := EdgeSig) (healthy_spec bcrypt_verify)
    (Web.login (MkAppState (Some cp) mailer) (Some email) (Some password))
    (fun o s1 =>
       match o with
       | Done resp =>
           match resp_set_cookie resp with
           | Some header =>
               exists token,
                 header = (SESSION_COOKIE ++ "=" ++ token ++ "; Path=/; HttpOnly; SameSite=Lax")%string /\
                 forall l, Forall cookie_ok l -> assoc SESSION_COOKIE l = Some token ->
                   wp (X := EdgeSig) (healthy_spec bcrypt_verify)
                     (Web.session_email (MkRequest (Some (cookie_line l))))
                     (fun o2 s2 => o2 = Done (Some (norm_email email)) /\ s2 = s1) s1
           | None =>
               s1 = s /\
               (read_str (kv s !! account_key (norm_email email)) = Ok None \/
                (exists json ttl a, kv s !! account_key (norm_email email) = Some (RStr json ttl) /\
                   from_json json = Ok a /\ bcrypt_verify password (password_hash a) = Some false) ->
                resp = html (LoginPage email (Some "Incorrect email or password."%string)))
           end
       | _ => False
       end) s.
Proof.
  unfold Web.login. cbn [or_respond cp_or_500 app_cp ok_or]. rewrite wp_bind.
  eapply wp_mono; [|apply wp_login]. intros o s1. unfold login_post.
  destruct o as [[session|e]| |]; try done.
  - intros ([bytes ->] & json & ttl & a & _ & _ & _ & _ & ->). cbn [andthen].
    rewrite hex_header. cbn [expect wp resp_set_cookie see_other_with].
    exists (hex_encode bytes). split; [done|]. intros l Hl Hsome.
    assert (l <> []) as Hne by (by intros ->).
    unfold Web.session_email, read_cookie. cbn [cookie_header].
    rewrite read_cookie_line, Hsome by done. rewrite wp_bind. unfold session_account, bind_try.
    apply wp_healthy_conn, wp_healthy_redis; [done|]. cbn [redis_apply fst snd kv set_kv].
    rewrite lookup_insert_eq. cbn. done.
  - intros [-> He]. cbn [andthen default].
    assert (read_str (kv s !! account_key (norm_email email)) = Ok None \/
            (exists json ttl a, kv s !! account_key (norm_email email) = Some (RStr json ttl) /\
               from_json json = Ok a /\ bcrypt_verify password (password_hash a) = Some false) ->
            e = AccInvalidCredentials) as Hgen.
    { intros [Hn | (json & ttl & a & Hk & Hj & Hb)].
      - by rewrite Hn in He.
      - rewrite Hk in He. cbn [read_str] in He. unfold account_from_json in He.
        rewrite Hj in He. cbn [map_err] in He. by rewrite Hb in He. }
    destruct e; cbn; (split; [done|]); intros Hc; specialize (Hgen Hc); discriminate || done.
Qed.

Lemma web_login_session_witness :
  @CratesLaws Demo.crates /\
  wp (X := EdgeSig) (healthy_spec bcrypt_verify)
    (Web.login (MkAppState (Some Demo.cp) true) (Some "nobody@example.net"%string)
       (Some "hunter22"%string))
    (fun o s1 =>
       match o with
       | Done resp =>
           resp_set_cookie resp = None ->
           resp = html (LoginPage "nobody@example.net" (Some "Incorrect email or password."%string))
       | _ => False
       end) (Demo.world ∅).
Proof.
  assert (@CratesLaws Demo.crates) as HL by exact Concrete.crates_laws.
  split; [exact HL|].
  eapply wp_mono; [|exact (web_login_session (CL := HL) Demo.cp true "nobody@example.net"
                             "hunter22" (Demo.world ∅))].
  intros o s1. destruct o as [resp| |]; [|done..].
  destruct (resp_set_cookie resp); [done|]. intros [_ Hr] _. apply Hr. left. reflexivity.
Defined.

Lemma ct_eq_spec a b : ct_eq a b = true <-> a = b.
Proof.
  unfold ct_eq. rewrite andb_true_iff, Nat.eqb_eq. split.
  - revert b. induction a as [|x a IH]; intros [|y b]; cbn; try (by intros [? _]).
    intros [H1 H2]. apply andb_true_iff in H2 as [Hx H2]. apply Z.eqb_eq in Hx as ->.
    f_equal. apply IH. split; [congruence|done].
  - intros <-. split; [done|]. induction a as [|x a IH]; cbn; [done|]. by rewrite Z.eqb_refl.
Qed.

(** How the API answers an allocation. *)
Definition signup_answers (o : outcome (Result SignupOutcome ControlPlaneError))
    (o' : outcome (Guarded SignupApiResponse)) : Prop :=
  match o, o' with
  | Done (Ok (Created r)), Done (Answered (SignupCreated r')) => r = r'
  | Done (Ok (Existing r)), Done (Answered (SignupOk r')) => r = r'
  | Done (Err e), Done (Answered (SignupBadRequest _)) =>
      exists x, e = CpInvalidName x \/ e = CpInvalidPubkey x
  | Done (Err e), Done (Answered (SignupConflict _)) => exists n, e = CpDuplicate n
  | Done (Err _), Done (Answered (SignupInternal body)) => body = "internal error"%string
  | Panicked m, Panicked m' => m = m'
  | Stuck, Stuck => True
  | _, _ => False
  end.

(** The machine API is for the admin key alone: without the bearer whose hash
    is configured, creating, listing and deleting machines answer 401 and change
    nothing; with it, creating a machine is the control plane's allocation, its
    outcome told by the status and an internal error by nothing more. *)
Theorem admin_key_gate `{CR : Crates} `{SM : Serde Machine}
    (verify : string -> string -> option bool) (g : Globals) (cp : ControlPlane)
    (admin_key_hash : string) (hash : list Z) (bearer : option string)
    (name key : string) (s : edge)
    (Hg : G_CONTROL_PLANE g = Some cp) (Hh : decode_hash_hex admin_key_hash = Some hash) :
  ((forall token, bearer = Some token -> sha256 token <> hash) ->
   wp (X := EdgeSig) (edge_spec verify) (WireguardApi.signup g admin_key_hash bearer name key)
     (fun o s' => o = Done Unauthenticated /\ s' = s) s /\
   wp (X := EdgeSig) (edge_spec verify) (WireguardApi.list_machines g admin_key_hash bearer)
     (fun o s' => o = Done Unauthenticated /\ s' = s) s /\
   wp (X := EdgeSig) (edge_spec verify) (WireguardApi.delete_machine g admin_key_hash bearer name)
     (fun o s' => o = Done Unauthenticated /\ s' = s) s) /\
  (forall token Q, bearer = Some token -> sha256 token = hash ->
   wp (X := EdgeSig) (edge_spec verify)
     (allocate_machine cp (G_FORWARDER g) None name key) Q s ->
   wp (X := EdgeSig) (edge_spec verify) (WireguardApi.signup g admin_key_hash bearer name key)
     (fun o' s' => exists o, Q o s' /\ signup_answers o o') s).
Proof.
  split.
  - intros Hno. unfold WireguardApi.signup, WireguardApi.list_machines,
      WireguardApi.delete_machine, with_admin. destruct bearer as [token|]; [|done].
    rewrite Hh. cbn [expect]. unfold check_admin_key, verify_token.
    destruct (ct_eq (sha256 token) hash) eqn:E; [|done].
    apply ct_eq_spec in E. by destruct (Hno token eq_refl).
  - intros token Q -> Ht HQ. unfold WireguardApi.signup, with_admin. rewrite Hh. cbn [expect].
    unfold check_admin_key, verify_token. rewrite (proj2 (ct_eq_spec _ _) Ht).
    unfold WireguardApi.control_plane. rewrite Hg. cbn [expect]. rewrite !wp_bind.
    eapply wp_mono; [|exact HQ]. intros o s' Ho.
    destruct o as [[[r|r]|e]|m|]; cbn; try (by eexists; split; [exact Ho|]).
    destruct e; cbn; (eexists; split; [exact Ho|]); cbn; eauto.
Qed.

Definition admin_hash : string := hex_encode (sha256 "the-right-key").

Lemma admin_key_gate_witness :
  decode_hash_hex admin_hash = Some (sha256 "the-right-key") /\
  wp (X := EdgeSig) (edge_spec Demo.verify)
    (WireguardApi.delete_machine (MkGlobals (Some Demo.fwd) (Some Demo.cp)) admin_hash
       (Some "a-wrong-key"%string) "main-1")
    (fun o s' => o = Done Unauthenticated /\ s' = Demo.world ∅) (Demo.world ∅).
Proof.
  assert (decode_hash_hex admin_hash = Some (sha256 "the-right-key")) as H
    by (vm_compute; reflexivity).
  split; [exact H|].
  destruct (admin_key_gate Demo.verify (MkGlobals (Some Demo.fwd) (Some Demo.cp)) Demo.cp
              admin_hash _ (Some "a-wrong-key"%string) "main-1" (Demo.key 9) (Demo.world ∅)
              eq_refl H) as [Hno _].
  destruct Hno as (_ & _ & Hd); [|exact Hd].
  intros token [= <-]. vm_compute. discriminate.
Defined.
