(* ===== verification/BoxProps.v ===== *)
(** The properties of the customer's box, and of its contract with the edge. *)

From stdpp Require Import base gmap strings list pretty countable.
From Stdlib Require Import ZArith Lia Ascii.
From S2P Require Import Prelude Prog Addr NumText AddrText ForwarderState World Wg Crates ControlPlane.
From S2P Require Import Account Invite InviteCodes Web Api HttpProofs Box Tunnel Enroll.
From S2P Require Import EnrollProofs Demo BoxDemo.
Import Demo.

Local Open Scope prog_scope.

Lemma split_on_forallb f g s :
  Forall (fun w => str_forallb g w = true) (split_on f s) ->
  str_forallb (fun c => f c || g c) s = true.
Proof.
  induction s as [|c s IH]; cbn; [done|]. destruct (f c); cbn.
  - intros H. apply Forall_cons_iff in H as [_ H]. by apply IH.
  - destruct (split_on f s) as [|w ws] eqn:E; [by apply split_on_nonempty in E|].
    intros H. apply Forall_cons_iff in H as [Hw Hws]. cbn in Hw.
    apply andb_true_iff in Hw as [-> Hw]. apply IH. by constructor.
Qed.

(** A code of the word list has no slash and is not empty. *)
Lemma code_in_url WORDS code :
  words_ok WORDS = true -> canonical_invite_code WORDS code = Some code ->
  lacks "/" code /\ code <> ""%string.
Proof.
  intros HW Hc. pose proof (proj1 (canonical_spec WORDS code code) Hc) as (_ & Hl & Hw).
  destruct (words_facts WORDS HW) as [_ Hf]. split.
  - apply (lacks_forallb (fun c => is_dash c || is_ascii_lowercase c)); [|done].
    apply split_on_forallb. eapply Forall_impl; [|exact Hw]. intros w Hin. cbn.
    rewrite Forall_forall in Hf. apply Hf. by apply list_elem_of_In.
  - by intros ->.
Qed.

(** An invite URL is read as its host and code, and only a well-formed one
    is; the URL the edge hands out with a new invite leads back to that edge and
    that code. *)
Theorem invite_url_roundtrip (WORDS : list string) (domain code : string)
    (HW : words_ok WORDS = true) (Hc : canonical_invite_code WORDS code = Some code)
    (Hd : domain <> ""%string) (Hs : lacks "/" domain) :
  parse_invite_url ("https://" ++ domain ++ "/i/" ++ code)
    = Ok (("https://" ++ domain)%string, code) /\
  (forall url base c, parse_invite_url url = Ok (base, c) <->
     exists scheme host, (scheme = "https://" \/ scheme = "http://")%string /\
       url = (scheme ++ host ++ "/i/" ++ c)%string /\ base = ("https://" ++ host)%string /\
       host <> ""%string /\ lacks "/" host /\ c <> ""%string /\ lacks "/" c).
Proof.
  split; [|apply parse_invite_url_spec]. apply parse_invite_url_spec.
  destruct (code_in_url WORDS code HW Hc) as [H1 H2].
  exists "https://"%string, domain. split; [by left|]. by split_and!.
Qed.

Lemma invite_url_roundtrip_witness :
  words_ok Demo.words = true /\
  parse_invite_url ("https://example.net/i/" ++ Demo.code)
    = Ok ("https://example.net"%string, Demo.code).
Proof.
  split; [exact Demo.words_fine|].
  exact (proj1 (invite_url_roundtrip Demo.words "example.net" Demo.code Demo.words_fine
                  Demo.code_canonical ltac:(discriminate) eq_refl)).
Defined.

(** The box reads from the edge's poll exactly what the edge wrote: the
    status, the machine's tunnel address and host name, and the device token. *)
Theorem poll_wire_format (p : PollOutcome) :
  poll_outcome (poll_json p)
  = MkBoxPoll (poll_status p) (m_wg_ip <$> poll_machine p) (m_hostname <$> poll_machine p)
      (poll_token p).
Proof. by destruct p as [st [m|] [t|]]. Qed.

(** Enrolling against the edge's HTTP API, whatever the network and the disk
    do, polls at most [max_polls + 1] times.  It succeeds only with the tunnel
    configuration and the device token both persisted; it fails without having
    touched any file but the key, unless writing one of the two failed. *)
Theorem enroll_persists `{CR : Crates} (CL : CratesLaws) `{SP : Serde PersistedTunnel}
    `{JT : JsonText} (base : string) (cfg : InviteConfig)
    (key_path state_path token_path b code : string) (interval : Z) (max_polls : nat) (s : box)
    (Hpaths : state_path <> token_path)
    (Hurl : parse_invite_url (invite_url cfg) = Ok (b, code)) :
  wp (X := BoxSig) box_spec
    (enroll (HttpEdgeClient.client base) cfg key_path state_path token_path interval max_polls)
    (fun o s' =>
       (fetched (poll_url base code) s' <= fetched (poll_url base code) s + S max_polls)%nat /\
       match o with
       | Done (Ok t) =>
           tun_iface t = ic_iface cfg /\ tun_prefix t = ic_prefix cfg /\
           tun_listen_port t = ic_listen_port cfg /\
           exists hostname token,
             hostname <> ""%string /\ token <> ""%string /\
             files s' !! state_path = Some (to_json (MkPersisted t hostname)) /\
             files s' !! token_path = Some token
       | Done (Err (EnrIo _)) => True
       | Done (Err _) => forall p, p <> key_path -> files s' !! p = files s !! p
       | Panicked m =>
           m = "an approved machine always has a hostname"%string \/
           m = "device token must be non-empty"%string
       | Stuck => False
       end) s.
Proof. by eapply wp_enroll. Qed.

Definition demo_invite : InviteConfig :=
  MkInviteConfig ("https://example.net/i/" ++ Demo.code) default_iface default_prefix 0.

Lemma enroll_persists_witness :
  parse_invite_url (invite_url demo_invite) = Ok ("https://example.net"%string, Demo.code) /\
  wp (X := BoxSig) box_spec
    (enroll (HttpEdgeClient.client "https://example.net") demo_invite Enroll.tunnel_state_path
       "/s" "/t" 5 3)
    (fun _ s' => (fetched (poll_url "https://example.net" Demo.code) s' <= 4)%nat)
    (box_with ∅).
Proof.
  assert (parse_invite_url (invite_url demo_invite) = Ok ("https://example.net"%string, Demo.code))
    as H by (vm_compute; reflexivity).
  split; [exact H|].
  eapply wp_mono; [|exact (enroll_persists Concrete.crates_laws "https://example.net" demo_invite
    Enroll.tunnel_state_path "/s" "/t" _ Demo.code 5 3 (box_with ∅) ltac:(discriminate) H)].
  intros o s' [Hf _]. exact Hf.
Defined.

(** The box's key: an existing key file is never changed, and the public key
    returned is that of the key on disk, so a second call returns the same one;
    no other file is touched.  A file that holds no key is an error for good. *)
Theorem keypair_stable `{CR : Crates} (CL : CratesLaws) (path : string) (s : box) :
  wp (X := BoxSig) box_spec (ensure_keypair path)
    (fun o s' =>
       (forall p, p <> path -> files s' !! p = files s !! p) /\
       (forall t, files s !! path = Some t -> s' = s) /\
       match o with
       | Done (Ok pub) =>
           exists t, files s' !! path = Some t /\ derive_public_key (trim t) = Some pub /\
             wp (X := BoxSig) box_spec (ensure_keypair path)
               (fun o2 s2 => s2 = s' /\ (o2 = Done (Ok pub) \/ exists e, o2 = Done (Err (TunIo e)))) s'
       | Done (Err _) => True
       | _ => False
       end) s /\
  (forall t, files s !! path = Some t -> derive_public_key (trim t) = None ->
     wp (X := BoxSig) box_spec (ensure_keypair path)
       (fun o s' => s' = s /\ exists e, o = Done (Err e)) s).
Proof.
  split.
  - eapply wp_mono; [|apply wp_ensure_keypair]. intros o s' (H1 & H2 & _ & H3).
    split_and!; [done..|]. destruct o as [[pub|e]| |]; try done.
    destruct H3 as (t & Ht & Hd). exists t. split_and!; [done..|].
    eapply wp_mono; [|by apply (wp_keypair_again path s' t)].
    cbn beta. unfold again_post. rewrite Hd. done.
  - intros t Ht Hd. eapply wp_mono; [|by apply (wp_keypair_again path s t)].
    cbn beta. unfold again_post. rewrite Hd. done.
Qed.

Lemma keypair_stable_witness :
  @CratesLaws Demo.crates /\
  wp (X := BoxSig) box_spec (ensure_keypair "/k")
    (fun o s' => s' = box_with {[ "/k"%string := Demo.key 7 ]})
    (box_with {[ "/k"%string := Demo.key 7 ]}).
Proof.
  split; [exact Concrete.crates_laws|].
  eapply wp_mono; [|exact (proj1 (keypair_stable Concrete.crates_laws "/k"
                             (box_with {[ "/k"%string := Demo.key 7 ]})))].
  intros o s' (_ & H & _). apply (H (Demo.key 7)). reflexivity.
Defined.

(** The text of an IPv4 address is digits and dots. *)
Lemma display_v4_chars (a : Ipv4Addr) :
  str_forallb ip_char (display a) = true /\ display a <> ""%string.
Proof.
  pose proof (v4_ok a) as Ha. unfold is_addr in Ha.
  apply andb_true_iff in Ha as [Hl Hb]. apply Nat.eqb_eq in Hl.
  cbn [display Ipv4_AddrBytes]. destruct (v4 a) as [|w [|x [|y [|z [|? ?]]]]]; try done.
  cbn in Hb. rewrite !andb_true_iff in Hb. destruct Hb as (Hw & Hx & Hy & Hz & _).
  assert (forall b, is_byte b = true -> str_forallb ip_char (pretty b) = true) as Hp.
  { intros b Hb. eapply str_forallb_impl; [|by apply pretty_byte_chars].
    intros c Hc. unfold ip_char. by rewrite Hc. }
  unfold display_v4, join. cbn [map String.concat]. rewrite !str_forallb_app, !Hp by done.
  split; [done|]. pose proof (pretty_byte_chars w Hw). by destruct (pretty w).
Qed.

(** Once the box has its tunnel address (any address the edge allocates), the
    substitution in its forwards always succeeds: no placeholder is left, and a
    forward without one is unchanged. *)
Theorem tunnel_ip_substituted (forwards : list Forward) (tunnel : TunnelConfig) (a : Ipv4Addr)
    (Hip : tun_ip tunnel = display a) :
  exists l, substitute_tunnel_ip forwards tunnel = Some l /\
    Forall (fun f => forward_needs_tunnel f = false) l /\
    Forall2 (fun f f' => proto f' = proto f /\ (forward_needs_tunnel f = false -> f' = f))
      forwards l.
Proof.
  destruct (display_v4_chars a) as [Hc Hne]. unfold substitute_tunnel_ip. rewrite Hip.
  generalize dependent (display a). intros ip _ Hc Hne.
  induction forwards as [|f fs (l & Hl & H1 & H2)]; [by exists []|].
  destruct (substitute_forward_spec ip Hc Hne f) as (f' & Hf & Hn & Hs).
  exists (f' :: l). cbn. rewrite Hf. cbn. rewrite Hl. cbn. split; [done|].
  split; [by constructor|]. constructor; [|done]. split; [|done].
  unfold substitute_forward in Hf. destruct (substitute_field (listen_addr f) _); [|done].
  cbn in Hf. destruct (substitute_field (dest_addr f) _); [|done]. by injection Hf as <-.
Qed.

Definition demo_v4 : Ipv4Addr := {| v4 := [10; 10; 0; 7]%Z; v4_ok := eq_refl |}.
Definition demo_tunnel : TunnelConfig :=
  MkTunnel "wg0" "10.10.0.7" 24 "k" "example.net:51820" "10.10.0.0/24" 0.

Lemma tunnel_ip_substituted_witness :
  tun_ip demo_tunnel = display demo_v4 /\
  exists l, substitute_tunnel_ip [MkForward "{tunnel_ip}:8443" Tcp "127.0.0.1:443"] demo_tunnel
              = Some l /\ Forall (fun f => forward_needs_tunnel f = false) l.
Proof.
  assert (tun_ip demo_tunnel = display demo_v4) as H by (vm_compute; reflexivity).
  split; [exact H|].
  destruct (tunnel_ip_substituted [MkForward "{tunnel_ip}:8443" Tcp "127.0.0.1:443"]
              demo_tunnel demo_v4 H) as (l & H1 & H2 & _).
  exists l. split; [exact H1|exact H2].
Defined.

(** ** How long a claim waits *)

(** The program sleeps for [budget] seconds at most, whatever is answered. *)
Fixpoint sleeps_within {A} (p : prog BoxSig A) (budget : Z) : Prop :=
  match p with
  | Vis o k =>
      let d := match o with Sleep d => d | _ => 0%Z end in
      (d <= budget)%Z /\ forall r, sleeps_within (k r) (budget - d)
  | _ => True
  end.

Lemma sleeps_bind {A B} (p : prog BoxSig A) (f : A -> prog BoxSig B) b :
  only (X := BoxSig) (fun o => match o with Sleep _ => False | _ => True end) p -> (0 <= b)%Z ->
  (forall a, sleeps_within (f a) b) -> sleeps_within (bind p f) b.
Proof.
  intros Hp Hb Hf. induction p as [a|m| |o k IH]; cbn [bind]; [apply Hf|done..|].
  destruct Hp as [Ho Hk]. cbn [sleeps_within]. destruct o; try done;
    (split; [done|]; intros r; rewrite Z.sub_0_r; by apply IH).
Qed.

(** The wait for the owner is bounded by the product of its parameters: with the
    5 seconds and 10000 polls that the boot and the dashboard pass, it is less than
    fourteen hours of sleep, where the comments count 30 days. *)
Theorem claim_wait `{JT : JsonText} (base code : string) :
  (forall interval n, (0 <= interval)%Z ->
     sleeps_within (poll_loop (HttpEdgeClient.client base) code interval n) (interval * Z.of_nat n)) /\
  sleeps_within (poll_loop (HttpEdgeClient.client base) code 5 10000) (14 * 60 * 60).
Proof.
  assert (forall interval n b, (0 <= interval)%Z -> (interval * Z.of_nat n <= b)%Z ->
    sleeps_within (poll_loop (HttpEdgeClient.client base) code interval n) b) as H.
  { intros interval n. induction n as [|n IH]; intros b Hi Hb; cbn [poll_loop];
      (apply sleeps_bind; [apply only_bind; [by cbn|by intros []]|nia|]); intros [poll|]; try done;
      repeat case_bool_decide; try done.
    cbn. split; [nia|]. intros _. apply IH; [done|nia]. }
  split; [intros interval n Hi; by apply H|].
  apply H; [lia|]. apply Z.leb_le. by vm_compute.
Qed.
