(* ===== verification/RelayProps.v ===== *)
(** The properties of the relays. *)

From stdpp Require Import base gmap strings list.
From Stdlib Require Import ZArith Lia.
From S2P Require Import Prelude ForwarderState Relay RelayProofs.

Local Open Scope Z_scope.

(** C23: no datagram goes astray: in every interleaving of the read loop, the
    relay tasks, the clock and the shutdown, what is sent to the destination on a
    socket came from the source the socket was opened for, and what is sent to a
    source was read from a socket opened for it. *)
Theorem udp_routes (idle t : Z) (l : list Udp.action) (s : Udp.state)
    (Hr : Udp.runs idle l (Udp.start t) = Some s) :
  (forall flow d, (flow, d) ∈ Udp.to_dest s ->
     exists src, Udp.owner s !! flow = Some src /\ (src, d) ∈ Udp.from_src s) /\
  (forall src d, (src, d) ∈ Udp.to_src s ->
     exists flow, Udp.owner s !! flow = Some src /\ (flow, d) ∈ Udp.from_dest s).
Proof.
  pose proof (UdpFacts.runs_inv idle l _ s Hr (UdpFacts.inv_start t)) as Hi.
  pose proof (UdpFacts.inv_to_dest s Hi) as Hd. pose proof (UdpFacts.inv_to_src s Hi) as Hs.
  rewrite Forall_forall in Hd; rewrite Forall_forall in Hs. split; intros x d H; [apply (Hd _ H)|apply (Hs _ H)].
Qed.

(** Two sources, each answered. *)
Definition one_datagram (src data : string) : list Udp.action :=
  map Udp.Loop [Udp.Datagram src data; Udp.Go; Udp.Go; Udp.Go; Udp.Go; Udp.Go; Udp.Go; Udp.Go].
Definition one_answer (i : nat) (data : string) : list Udp.action :=
  map (Udp.Relay i) [Udp.Proceed; Udp.Answer data; Udp.Proceed; Udp.Proceed].
Definition two_sources : list Udp.action :=
  Udp.Loop Udp.Go :: one_datagram "a" "ping" ++ one_datagram "b" "hello"
    ++ one_answer 1 "world" ++ one_answer 0 "pong".

Lemma udp_routes_witness :
  exists s, Udp.runs 300 two_sources (Udp.start 0) = Some s /\
    Udp.to_src s = [("b", "world"); ("a", "pong")]%string /\
    exists flow, Udp.owner s !! flow = Some "b"%string /\ (flow, "world"%string) ∈ Udp.from_dest s.
Proof.
  assert (exists s, Udp.runs 300 two_sources (Udp.start 0) = Some s /\
            Udp.to_src s = [("b", "world"); ("a", "pong")]%string) as (s & Hr & Hs)
    by (eexists; split; [vm_compute; reflexivity|reflexivity]).
  exists s. split; [exact Hr|]. split; [exact Hs|].
  apply (proj2 (udp_routes 300 0 two_sources s Hr)). rewrite Hs. left.
Defined.

(** C22: the relay's books: in every interleaving, as long as fewer than 2^63
    sockets were opened, [udp_flows] counts exactly the relay tasks that run (and
    the one about to be spawned); no two of the tasks that still hold their flow
    serve the same source; and each of them is its source's entry of the table,
    unless the loop is just about to enter it. *)
Theorem udp_counts (idle t : Z) (l : list Udp.action) (s : Udp.state)
    (Hr : Udp.runs idle l (Udp.start t) = Some s) (Hroom : Z.of_nat (Udp.next s) < 2 ^ 63) :
  Udp.udp s = Z.of_nat (length (Udp.tasks s) + UdpFacts.counted (Udp.loop s)) /\
  NoDup (UdpFacts.owners (Udp.tasks s)) /\
  (forall x, x ∈ Udp.tasks s -> UdpFacts.owning x = true ->
     Udp.flows s !! Udp.t_src x = Some (Udp.t_flow x) \/
     exists data, Udp.loop s = Udp.LInsert (Udp.t_src x) data (Udp.t_flow x)).
Proof.
  pose proof (UdpFacts.runs_inv idle l _ s Hr (UdpFacts.inv_start t)) as Hi.
  split_and!; [by apply (UdpFacts.inv_count s Hi)|by apply UdpFacts.inv_owners|].
  pose proof (UdpFacts.inv_tasks s Hi) as HT. rewrite Forall_forall in HT.
  intros x Hx. apply (HT x Hx).
Qed.

Lemma udp_counts_witness :
  exists s, Udp.runs 300 two_sources (Udp.start 0) = Some s /\
    Z.of_nat (Udp.next s) < 2 ^ 63 /\ Udp.udp s = 2 /\
    NoDup (UdpFacts.owners (Udp.tasks s)).
Proof.
  assert (exists s, Udp.runs 300 two_sources (Udp.start 0) = Some s /\
            Udp.next s = 2%nat /\ Udp.udp s = 2) as (s & Hr & Hn & Hu)
    by (eexists; split; [vm_compute; reflexivity|split; reflexivity]).
  assert (Z.of_nat (Udp.next s) < 2 ^ 63) as Hlt by (rewrite Hn; lia).
  exists s. split; [exact Hr|]. split; [exact Hlt|]. split; [exact Hu|].
  exact (proj1 (proj2 (udp_counts 300 0 two_sources s Hr Hlt))).
Defined.

(** C24: a shutdown drains: after it, an execution is never stuck before the loop
    has stopped and every task has ended; it makes at most [cost s] steps of its
    own plus 13 for each datagram that still comes in, so it cannot go on by
    itself; some execution without further datagrams ends, and where the loop and
    the tasks have ended the counter is 0. *)
Theorem udp_drains (idle t : Z) (l : list Udp.action) (s : Udp.state)
    (Hr : Udp.runs idle l (Udp.start t) = Some s) (Hsh : Udp.shutdown s = true) :
  (Udp.drained s \/ exists a s', UdpFacts.internal a = true /\ Udp.step idle a s = Some s') /\
  (forall l' s', Udp.runs idle l' s = Some s' ->
     (UdpFacts.count UdpFacts.internal l' <=
        UdpFacts.cost s + 13 * UdpFacts.count UdpFacts.input l')%nat /\
     (Udp.drained s' -> Z.of_nat (Udp.next s') < 2 ^ 63 -> Udp.udp s' = 0)) /\
  (exists l' s', forallb UdpFacts.internal l' = true /\ Udp.runs idle l' s = Some s' /\
     Udp.drained s').
Proof.
  pose proof (UdpFacts.runs_inv idle l _ s Hr (UdpFacts.inv_start t)) as Hi.
  split_and!; [by apply UdpFacts.progress| |by apply UdpFacts.drain_run].
  intros l' s' Hr'. split; [pose proof (UdpFacts.runs_cost idle l' s s' Hr'); lia|].
  intros [Hl Ht] Hlt. pose proof (UdpFacts.runs_inv idle l' s s' Hr' Hi) as Hi'.
  rewrite (UdpFacts.inv_count s' Hi' Hlt), Ht, Hl. done.
Qed.

Lemma udp_drains_witness :
  exists s, Udp.runs 300 (two_sources ++ [Udp.Shutdown]) (Udp.start 0) = Some s /\
    Udp.shutdown s = true /\ Udp.udp s = 2 /\
    exists l' s', Udp.runs 300 l' s = Some s' /\ Udp.drained s'.
Proof.
  assert (exists s, Udp.runs 300 (two_sources ++ [Udp.Shutdown]) (Udp.start 0) = Some s /\
            Udp.shutdown s = true /\ Udp.udp s = 2) as (s & Hr & Hs & Hu)
    by (eexists; split; [vm_compute; reflexivity|split; reflexivity]).
  exists s. split; [exact Hr|]. split; [exact Hs|]. split; [exact Hu|].
  destruct (proj2 (proj2 (udp_drains 300 0 (two_sources ++ [Udp.Shutdown]) s Hr Hs)))
    as (l' & s' & _ & H1 & H2).
  exists l', s'. split; [exact H1|exact H2].
Defined.

(** A relay task that sleeps expires at the deadline it fixed when its loop
    began, whatever the source sends in the meantime: datagrams refresh the
    flow's [last], the sleep does not see it. *)
Theorem udp_idle_deadline (idle d : Z) (i : nat) (x : Udp.task) (l : list Udp.action)
    (s s' : Udp.state)
    (Hx : Udp.tasks s !! i = Some x) (Hp : Udp.t_pc x = Udp.RSelect d)
    (Hl : forallb UdpFacts.loop_or_tick l = true) (Hr : Udp.runs idle l s = Some s') :
  is_Some (Udp.step idle (Udp.Relay i Udp.Expire) s') <-> d <= Udp.now s'.
Proof. eapply UdpFacts.expire_enabled; [|exact Hp]. by eapply UdpFacts.tasks_kept. Qed.

(** The source sends at 100 and 199; at 200 the flow expires, idle for 1. *)
Lemma udp_idle_deadline_witness :
  exists s s', Udp.runs 200 (Udp.Loop Udp.Go :: one_datagram "a" "0" ++ [Udp.Relay 0 Udp.Proceed])
                 (Udp.start 0) = Some s /\
    Udp.runs 200 (Udp.Tick 100 :: take 4 (one_datagram "a" "1") ++ Udp.Tick 99
                    :: take 4 (one_datagram "a" "2") ++ [Udp.Tick 1]) s = Some s' /\
    Udp.last s' !! 0%nat = Some 199 /\ Udp.now s' = 200 /\
    is_Some (Udp.step 200 (Udp.Relay 0 Udp.Expire) s').
Proof.
  assert (exists s s' x, Udp.runs 200 (Udp.Loop Udp.Go :: one_datagram "a" "0" ++ [Udp.Relay 0 Udp.Proceed])
            (Udp.start 0) = Some s /\
    Udp.runs 200 (Udp.Tick 100 :: take 4 (one_datagram "a" "1") ++ Udp.Tick 99
                    :: take 4 (one_datagram "a" "2") ++ [Udp.Tick 1]) s = Some s' /\
    Udp.last s' !! 0%nat = Some 199 /\ Udp.now s' = 200 /\
    Udp.tasks s !! 0%nat = Some x /\ Udp.t_pc x = Udp.RSelect 200)
    as (s & s' & x & H1 & H2 & H3 & H4 & H5 & H6).
  { eexists _, _, _. split; [vm_compute; reflexivity|]. split; [vm_compute; reflexivity|].
    repeat split. }
  exists s, s'. split; [exact H1|]. split; [exact H2|]. split; [exact H3|]. split; [exact H4|].
  apply (udp_idle_deadline 200 200 0 x _ s s' H5 H6) in H2; [|reflexivity].
  apply H2. rewrite H4. lia.
Defined.

(** A relay task that ends before the loop has entered its flow in the table
    leaves an entry nobody serves, and it stays for good: whatever happens later,
    the source's datagrams go to that flow, and no answer of it is ever read. *)
Theorem udp_orphan (idle t : Z) (l l' : list Udp.action) (s s' : Udp.state)
    (src : string) (flow : nat)
    (Hr : Udp.runs idle l (Udp.start t) = Some s) (Ho : UdpFacts.orphan s src flow)
    (Hr' : Udp.runs idle l' s = Some s') :
  UdpFacts.orphan s' src flow /\
  forall d, (flow, d) ∈ Udp.from_dest s' <-> (flow, d) ∈ Udp.from_dest s.
Proof.
  eapply UdpFacts.orphan_runs; [|done..]. eapply UdpFacts.runs_inv; [done|].
  apply UdpFacts.inv_start.
Qed.

(** The relay task meets an error between its spawn and the loop's insert. *)
Definition lost_race : list Udp.action :=
  Udp.Loop Udp.Go :: take 6 (one_datagram "a" "ping")
    ++ map (Udp.Relay 0) [Udp.Proceed; Udp.RFails; Udp.Proceed; Udp.Proceed; Udp.Proceed]
    ++ map Udp.Loop [Udp.Go; Udp.Go].

Lemma udp_orphan_witness :
  exists s s', Udp.runs 300 lost_race (Udp.start 0) = Some s /\
    Udp.runs 300 (take 4 (one_datagram "a" "again") ++ [Udp.Tick 1000]) s = Some s' /\
    Udp.to_dest s' = [(0%nat, "ping"); (0%nat, "again")]%string /\ Udp.udp s' = 0 /\
    UdpFacts.orphan s' "a" 0.
Proof.
  assert (exists s s', Udp.runs 300 lost_race (Udp.start 0) = Some s /\
    Udp.runs 300 (take 4 (one_datagram "a" "again") ++ [Udp.Tick 1000]) s = Some s' /\
    Udp.to_dest s' = [(0%nat, "ping"); (0%nat, "again")]%string /\ Udp.udp s' = 0 /\
    Udp.flows s !! "a"%string = Some 0%nat /\ Udp.tasks s = [] /\ Udp.loop s = Udp.LRecv)
    as (s & s' & H1 & H2 & H3 & H4 & H5 & H6 & H7).
  { eexists _, _. split; [vm_compute; reflexivity|]. split; [vm_compute; reflexivity|].
    repeat split. }
  exists s, s'. split; [exact H1|]. split; [exact H2|]. split; [exact H3|]. split; [exact H4|].
  eapply (udp_orphan 300 0 lost_race _ s s' "a" 0 H1 _ H2).
  Unshelve. split; [exact H5|]. rewrite H6, H7. split; [constructor|intros []].
Defined.

(** C31: a TCP relay alters nothing: in every interleaving each connection, open or
    ended, has delivered a prefix of what the one end sent to the other, both
    ways; [tcp_connections] is the number of tasks that run; and once the accept
    loop has stopped, on the shutdown or on any one failed accept, no connection
    is accepted again. *)
Theorem tcp_relays (l : list Tcp.action) (s : Tcp.state) (Hr : Tcp.runs l Tcp.start = Some s) :
  (forall c, c ∈ Tcp.conns s ++ Tcp.ended s ->
     Tcp.up_out c `prefix_of` Tcp.up_in c /\ Tcp.down_out c `prefix_of` Tcp.down_in c) /\
  (Z.of_nat (length (Tcp.conns s) + length (Tcp.ended s)) < 2 ^ 63 ->
     Tcp.tcp s = Z.of_nat (length (Tcp.conns s))) /\
  (forall l' s', Tcp.accept s = Tcp.AStopped -> Tcp.runs l' s = Some s' ->
     Forall (.≠ Tcp.Accepted) l').
Proof.
  pose proof (TcpFacts.tcp_runs_inv l _ s Hr TcpFacts.tcp_inv_start) as Hi. split_and!.
  - intros c Hc. pose proof (TcpFacts.inv_conns s Hi) as H1. pose proof (TcpFacts.inv_ended s Hi) as H2.
    rewrite Forall_forall in H1; rewrite Forall_forall in H2. apply elem_of_app in Hc as [Hc|Hc]; [by apply H1|by apply H2].
  - by apply TcpFacts.inv_count.
  - intros l' s' Hst Hr'. by apply (TcpFacts.stopped_runs l' s s').
Qed.

(** A client that closes its sending side after the request loses the rest of the
    answer; an accept that failed has stopped the loop. *)
Definition half_close : list Tcp.action :=
  [Tcp.Accepted; Tcp.Conn 0 (Tcp.Dialled true); Tcp.Conn 0 (Tcp.SrcWrites [1; 2]);
   Tcp.Conn 0 (Tcp.CopyUp 2); Tcp.Conn 0 (Tcp.DstWrites [3; 4; 5]); Tcp.Conn 0 (Tcp.CopyDown 1);
   Tcp.Conn 0 Tcp.SrcCloses; Tcp.Conn 0 Tcp.EndUp; Tcp.Conn 0 Tcp.DecLoad;
   Tcp.Conn 0 Tcp.DecSub; Tcp.AcceptFails].

Lemma tcp_relays_witness :
  exists s, Tcp.runs half_close Tcp.start = Some s /\ Tcp.tcp s = 0 /\
    map (fun c => (Tcp.up_out c, Tcp.down_out c)) (Tcp.ended s) = [([1; 2], [3])] /\
    (forall l' s', Tcp.runs l' s = Some s' -> Forall (.≠ Tcp.Accepted) l').
Proof.
  assert (exists s, Tcp.runs half_close Tcp.start = Some s /\ Tcp.tcp s = 0 /\
    map (fun c => (Tcp.up_out c, Tcp.down_out c)) (Tcp.ended s) = [([1; 2], [3])] /\
    Tcp.accept s = Tcp.AStopped) as (s & H1 & H2 & H3 & H4).
  { eexists. split; [vm_compute; reflexivity|]. repeat split. }
  exists s. split; [exact H1|]. split; [exact H2|]. split; [exact H3|].
  intros l' s'. exact (proj2 (proj2 (tcp_relays half_close s H1)) l' s' H4).
Defined.
