(* ===== verification/AppProps.v ===== *)
(** The properties of the box's process: what it refuses to start, what a boot
    gives, the runtime claim, how it ends, and what its health answers mean. *)

From stdpp Require Import base gmap strings list pretty relations.
From Stdlib Require Import ZArith Lia Ascii.
From S2P Require Import Prelude Prog ForwarderState World Wg Crates Web Box Health Tunnel Enroll.
From S2P Require Import Forwarder EnrollProofs DashDb NixConfig Dashboard App DashProofs AppProofs.
From S2P Require Import Demo BoxDemo.
Import Demo.

Local Open Scope prog_scope.

(** C26: the box never runs unguarded, and refuses before it does anything: without
    an admin password hash, or with a static tunnel and an invite in one
    configuration, it exits with code 1 and has changed nothing, not the key, not
    the interface, not the edge. *)
Theorem boot_fail_closed `{CR : Crates} `{SP : Serde PersistedTunnel} `{SC : Serde ConfigFile}
    `{SL : Serde (list CatalogEntry)} `{JT : JsonText}
    (component default_config : string) (args : list string) (s : box)
    (Hbad : env_vars s !! "FORTRESS_ADMIN_PASSWORD_HASH"%string = None \/
       forall flags data cfg, parse_flag_args component default_config args = Ok flags ->
         files s !! config_path flags = Some data -> from_json data = Ok cfg ->
         is_Some (cf_tunnel cfg) /\ is_Some (cf_invite cfg)) :
  wp (X := BoxSig) box_spec (App.run component default_config args)
    (fun o s' => o = Done (Exited 1) /\ s' = s) s.
Proof.
  unfold App.run. destruct (parse_flag_args component default_config args) as [flags|] eqn:Hfl;
    cbn [App.or_exit]; [|done].
  intros data s1 [-> Hd]. cbn [bind]. destruct data as [data|]; cbn [App.or_exit]; [|done].
  destruct (from_json data) as [cfg|] eqn:Hcfg; cbn [App.or_exit]; [|done].
  destruct (bool_decide (is_Some (cf_tunnel cfg)) && bool_decide (is_Some (cf_invite cfg))) eqn:Hboth;
    [done|].
  intros hash s1 [-> ->]. cbn [bind]. destruct Hbad as [->|Hbad]; [done|].
  destruct (Hbad flags data cfg eq_refl Hd Hcfg) as [H1 H2].
  rewrite !bool_decide_eq_true_2 in Hboth by done. done.
Qed.

#[export] Instance demo_config_file : Serde ConfigFile := {|
  to_json _ := ""%string;
  from_json s := if is_empty s then Ok (MkConfigFile [] None None) else Err "no"%string;
|}.
#[export] Instance demo_catalog : Serde (list CatalogEntry) := {|
  to_json _ := ""%string; from_json _ := Ok [];
|}.

Lemma boot_fail_closed_witness :
  env_vars (box_with {[ "/c"%string := ""%string ]}) !! "FORTRESS_ADMIN_PASSWORD_HASH"%string = None /\
  wp (X := BoxSig) box_spec (App.run "fortress-client" "/c" [])
    (fun o _ => o = Done (Exited 1)) (box_with {[ "/c"%string := ""%string ]}).
Proof.
  assert (env_vars (box_with {[ "/c"%string := ""%string ]})
            !! "FORTRESS_ADMIN_PASSWORD_HASH"%string = None) as H by reflexivity.
  split; [exact H|].
  eapply wp_mono; [|exact (boot_fail_closed "fortress-client" "/c" [] _ (or_introl H))].
  intros o s' [Ho _]. exact Ho.
Defined.

(** C25: a box that has booted is what its configuration says: the password is the
    environment's; the tunnel is the persisted enrollment, or the static tunnel
    of a configuration without an invite, with the edge not asked in either case,
    or an enrollment that is persisted now; and it has a forwarder exactly where
    there is something to forward and no address waits for a tunnel, whose
    forwards are the configuration's, one for one and in order, with the tunnel's
    address for the placeholder in both addresses, none with a placeholder left
    or an empty address, and whose other settings are the defaults.
    Every exit of the boot is code 1. *)
Theorem boot_sound `{CR : Crates} (CL : CratesLaws) `{SP : Serde PersistedTunnel}
    (PL : SerdeLaws PersistedTunnel) `{SC : Serde ConfigFile}
    `{SL : Serde (list CatalogEntry)} `{JT : JsonText}
    (component default_config : string) (args : list string) (s : box) :
  wp (X := BoxSig) box_spec (App.run component default_config args)
    (fun o s' =>
       match o with
       | Done (Running b) => boot_post component default_config args s b s'
       | Done (Exited code) => code = 1%Z
       | Panicked m => enroll_panic m \/
           m = "claimable mode gates every forward that still needs a tunnel"%string
       | Stuck => False
       end) s.
Proof. apply wp_app_run. Qed.

Lemma boot_sound_witness :
  @CratesLaws Demo.crates /\
  wp (X := BoxSig) box_spec (App.run "fortress-client" "/c" [])
    (fun o s' => forall b, o = Done (Running b) -> bt_forwarder b = None /\ bt_tunnel b = None)
    (box_with {[ "/c"%string := ""%string ]}).
Proof.
  split; [exact Concrete.crates_laws|].
  eapply wp_mono; [|exact (boot_sound Concrete.crates_laws (Concrete.serde_laws PersistedTunnel)
    "fortress-client" "/c" [] (box_with {[ "/c"%string := ""%string ]}))].
  intros o s' H b ->.
  destruct H as (cfg & data & s1 & Hfl & Hd & Hc & _ & _ & _ & Hres & _ & Hf).
  destruct b as [flags admin tunnel forwarder cat path].
  cbn [bt_flags bt_tunnel bt_forwarder] in *. vm_compute in Hfl. injection Hfl as <-.
  vm_compute in Hd. injection Hd as <-. vm_compute in Hc. injection Hc as <-. split.
  - destruct forwarder; [|reflexivity]. destruct Hf as (fwds & _ & _ & Hf & _). by destruct Hf.
  - destruct Hres as [(_ & p & Hp & _)|[(_ & _ & ->)|(tc & [x Hx] & _)]];
      [vm_compute in Hp; discriminate|reflexivity|discriminate].
Defined.

(** A fresh box whose forwards wait for a tunnel boots all the same: with the
    admin password set, no enrollment persisted, no tunnel and no invite in its
    configuration, on a system whose reads and database work, it ends up running,
    claimable, without a forwarder, and has written and asked nothing. *)
Theorem boot_claimable `{CR : Crates} `{SP : Serde PersistedTunnel} `{SC : Serde ConfigFile}
    `{SL : Serde (list CatalogEntry)} `{JT : JsonText}
    (component default_config : string) (args : list string) (flags : Flags)
    (data : string) (cfg : ConfigFile) (hash : string) (s : box)
    (Hfl : parse_flag_args component default_config args = Ok flags)
    (Hcat : catalog_path flags = None)
    (Hdata : files s !! config_path flags = Some data) (Hcfg : from_json data = Ok cfg)
    (Hhash : env_vars s !! "FORTRESS_ADMIN_PASSWORD_HASH"%string = Some hash)
    (Hnone : persisted_in s tunnel_state_path = None)
    (Ht : cf_tunnel cfg = None) (Hi : cf_invite cfg = None)
    (Hneeds : existsb forward_needs_tunnel (cf_forwards cfg) = true) :
  wp (X := BoxSig) steady (App.run component default_config args)
    (fun o s' => s' = s /\ exists b, o = Done (Running b) /\ bt_forwarder b = None /\
       bt_tunnel b = None /\ DashAuth.password_hash (bt_admin b) = hash) s.
Proof.
  unfold App.run. rewrite Hfl. cbn [App.or_exit].
  intros d s1 [[-> Hd] Hs]. destruct d as [d|]; [|specialize (Hs eq_refl); congruence].
  rewrite Hdata in Hd. injection Hd as <-. cbn [bind App.or_exit]. rewrite Hcfg. cbn [App.or_exit].
  rewrite Ht, Hi. cbn [andb bool_decide].
  intros h s1 [[-> ->] _]. rewrite Hhash. cbn [bind fmap option_fmap option_map].
  unfold App.resolve_tunnel. rewrite wp_bind, wp_bind. apply wp_persisted. rewrite Hnone.
  cbn [andthen]. unfold App.enroll_or_static. rewrite Hi, Ht. cbn [wp andthen App.or_exit App.bring_up bind].
  unfold App.build_forwarder, boot_mode. rewrite Hneeds. cbn [bind App.or_exit].
  rewrite Hcat. cbn [App.load_catalog bind App.or_exit].
  unfold App.open_dashboard. intros db s1 [-> Hdb]. destruct db as [[]|]; [|done]. cbn [bind].
  intros v s1 [[-> ->] _]. cbn [bind App.or_exit wp]. split; [done|]. by eexists.
Qed.

Definition waiting_config : ConfigFile :=
  MkConfigFile [MkForward "{tunnel_ip}:443" Tcp "127.0.0.1:443"] None None.
Definition waiting_serde : Serde ConfigFile := {|
  to_json _ := ""%string; from_json _ := Ok waiting_config;
|}.
Definition fresh_box : box :=
  MkBox {[ "/c"%string := "{}"%string ]} [] []
    {[ "FORTRESS_ADMIN_PASSWORD_HASH"%string := "h"%string ]} 0 ∅ ∅ Unclaimed [].

Lemma boot_claimable_witness :
  existsb forward_needs_tunnel (cf_forwards waiting_config) = true /\
  wp (X := BoxSig) steady (App.run (SC := waiting_serde) "fortress-client" "/c" [])
    (fun o _ => exists b, o = Done (Running b) /\ bt_forwarder b = None) fresh_box.
Proof.
  split; [reflexivity|].
  eapply wp_mono; [|exact (boot_claimable (SC := waiting_serde) "fortress-client" "/c" []
    (MkFlags "/c" FmtText "127.0.0.1:9090" "127.0.0.1:3210" None) "{}" waiting_config "h" fresh_box
    eq_refl eq_refl eq_refl eq_refl eq_refl eq_refl eq_refl eq_refl eq_refl)].
  intros o s' (_ & b & -> & Hb & _). by exists b.
Defined.

(** The claim task restarts the box only once the enrollment is persisted:
    for any restarter, whatever the edge, the network and the disk do, the task
    ends with a failure the dashboard shows, or in the restarter, entered with
    [tunnel.json] holding the enrollment; or it panics on an edge that approves
    without a host name or a token. *)
Theorem claim_restarts `{CR : Crates} (CL : CratesLaws) `{SP : Serde PersistedTunnel}
    (PL : SerdeLaws PersistedTunnel) `{JT : JsonText} (restart : prog BoxSig unit)
    (R : outcome unit -> box -> Prop) (kp sp tp url : string) (s : box) (Hpaths : sp <> tp)
    (Hrestart : forall s1, is_Some (persisted_in s1 sp) -> wp (X := BoxSig) box_spec restart R s1) :
  wp (X := BoxSig) box_spec (claim_task restart kp sp tp url)
    (fun o s' => (o = Done tt /\ exists message, claim_state s' = ClaimFailed message) \/
       R o s' \/ exists m, o = Panicked m /\ enroll_panic m) s.
Proof.
  assert (forall e s1, wp (X := BoxSig) box_spec
    (match e with
     | EnrDenied => @call BoxSig (ClaimSet (ClaimFailed "the owner denied this machine's enrollment"%string))
     | other => @call BoxSig (ClaimSet (ClaimFailed (enroll_error_display other)))
     end)
    (fun o s' => (o = Done tt /\ exists message, claim_state s' = ClaimFailed message) \/
       R o s' \/ exists m, o = Panicked m /\ enroll_panic m) s1) as Hfail.
  { intros e s1. destruct e; intros [] s2 ->; left; (split; [done|]); by eexists. }
  unfold claim_task, HttpEdgeClient.new.
  destruct (parse_invite_url url) as [[base code]|e] eqn:Hu; [|intros [] s1 ->; left; split; [done|by eexists]].
  rewrite wp_bind. unfold claim. destruct (is_empty url) eqn:Hm.
  { destruct url; [|done]. vm_compute in Hu. discriminate. }
  cbn [negb assert_]. unfold from_url. rewrite Hu. unfold bind_try. rewrite wp_bind.
  eapply wp_mono; [|eapply (wp_enroll_state base (MkInviteConfig url default_iface default_prefix 0));
                    [exact Hpaths|exact Hu]].
  intros o s1 Ho. destruct o as [[t|e]|m|]; cbn [andthen wp].
  - destruct Ho as [h Hh]. rewrite wp_bind. eapply wp_mono; [|apply Hrestart].
    + intros o s2 Hr. destruct o as [[]|m|]; cbn; by right; left.
    + exists (MkPersisted t h). unfold persisted_in. rewrite Hh. cbn. by rewrite from_to_json.
  - apply Hfail.
  - right. right. by exists m.
  - done.
Qed.

Lemma claim_restarts_witness :
  "/s"%string <> "/t"%string /\
  wp (X := BoxSig) box_spec
    (claim_task (@call BoxSig (ClaimSet Unclaimed)) "/k" "/s" "/t" "https://e.net/i/code")
    (fun o s' => (exists message, claim_state s' = ClaimFailed message) \/
       (o = Done tt /\ claim_state s' = Unclaimed) \/ exists m, o = Panicked m) (box_with ∅).
Proof.
  split; [discriminate|].
  eapply wp_mono; [|exact (claim_restarts Concrete.crates_laws (Concrete.serde_laws PersistedTunnel)
    (@call BoxSig (ClaimSet Unclaimed)) (fun o s' => o = Done tt /\ claim_state s' = Unclaimed)
    "/k" "/s" "/t" "https://e.net/i/code"
    (box_with ∅) ltac:(discriminate) ltac:(intros ? ? [] ? ->; split; reflexivity))].
  intros o s' [[_ H]|[H|(m & H & _)]]; [left; exact H|right; left; exact H|right; right; exists m; exact H].
Defined.



(** Readiness means what it says: for the status of a live forwarder,
    [/readyz] answers 200 exactly when some forward is bound, and 503 otherwise;
    a claimable box, which has no forwarder, answers 503. *)
Theorem health_ready `{ST : StatusText} (verify : string -> string -> option bool)
    (f : Forwarder) (s : edge) :
  wp (X := EdgeSig) (edge_spec verify) (stats f)
    (fun o s' =>
       match o with
       | Done st =>
           let code := ready_status (readyz (stats_json st)) in
           (code = 200%Z <-> exists key r, forwards (fws s) !! key = Some r /\ bound r = true) /\
           (code = 200%Z \/ code = 503%Z)
       | _ => False
       end) s /\
  ready_status (readyz claimable_status) = 503%Z.
Proof.
  split; [|done]. unfold stats. rewrite wp_bind. apply wp_get_state. cbn [andthen].
  intros now s1 _. cbn [bind wp]. cbn zeta. rewrite <- (ready_snapshot (component (cfg f)) (fwd_started_at f) now).
  unfold readyz. by destruct (ready_from_status _); cbn; (split; [split; done|]); [left|right].
Qed.
