(* ===== verification/BoxLife.v ===== *)
(** The life of a box: its process from one power-up or restart to the next, over files
    that stay.  What the pieces of app.rs and of the dashboard do to each other:
    the boot, the requests it serves, the claim tasks they start, the
    re-execution that ends a claim, signals, and crashes at any moment.

    Requests, claim tasks and the boot are programs of which every step performs one
    operation, so all of them interleave; only the critical section of a
    submitted link is one step, as its mutex makes it. *)

From stdpp Require Import base gmap strings list.
From Stdlib Require Import ZArith.
From S2P Require Import Prelude Prog ForwarderState World Crates Web Box Tunnel Enroll DashDb NixConfig.
From S2P Require Import Dashboard App DashProofs.

(** A process that serves: what it booted as, its claim tasks, the requests it is
    answering, and its tasks. *)
Record up := MkUp {
  up_boot : Booted;
  up_claims : list (prog BoxSig unit);
  up_requests : list (prog BoxSig DashResponse);
  up_serving : Serving;
}.

Inductive proc :=
| Off
| Booting (p : prog BoxSig Boot)
| Up (u : up)
| Gone (code : Z).

Definition set_claims (l : list (prog BoxSig unit)) (u : up) : up :=
  MkUp (up_boot u) l (up_requests u) (up_serving u).
Definition set_requests (l : list (prog BoxSig DashResponse)) (u : up) : up :=
  MkUp (up_boot u) (up_claims u) l (up_serving u).
Definition set_serving (v : Serving) (u : up) : up :=
  MkUp (up_boot u) (up_claims u) (up_requests u) v.

Definition start_serving (b : Booted) : up :=
  MkUp b [] []
    (serving_start ((fun f => length (cfg_forwards (ForwarderState.cfg f))) <$> bt_forwarder b)).

(** A new image has the memory of none before it. *)
Definition new_image (s : box) : box :=
  MkBox (files s) (http_log s) (exec_log s) (env_vars s) (clock s) (sessions s) (kv_rows s)
    Unclaimed [].

(** The task still has something to do; one that has returned or panicked is gone. *)
Definition alive {A} (p : prog BoxSig A) : bool :=
  match p with Vis _ _ => true | _ => false end.

Definition advance {A} (i : nat) (p : prog BoxSig A) (l : list (prog BoxSig A))
    : list (prog BoxSig A) :=
  List.filter alive (<[i := p]> l).

(** The exit code of a Rust process whose main task panicked. *)
Definition panic_code : Z := 101.

Section Life.
Context `{RX : Rnix} `{RF : Rfc3339} `{CR : Crates} `{SP : Serde PersistedTunnel}.
Context `{SC : Serde ConfigFile} `{SL : Serde (list CatalogEntry)} `{JT : JsonText}.
Context (argv : list string).

(** The dashboard of a process. *)
Definition dashboard (b : Booted) (r : Dash.route) (req : DashRequest) : prog BoxSig DashResponse :=
  Dash.app (bt_admin b) (bt_config_path b) claim_support (bt_catalog b) r req.

(** A submitted link, whose handler may start tasks. *)
Definition is_claim (r : Dash.route) : bool :=
  match r with Dash.PostClaim _ => true | _ => false end.

Inductive life_step : proc * box -> proc * box -> Prop :=
| life_start p s :
    life_step (p, s) (Booting (App.main argv), new_image s)
| life_boot o k r s s' :
    steady o s r s' -> life_step (Booting (Vis o k), s) (Booting (k r), s')
| life_booted b s :
    life_step (Booting (Ret (Running b)), s) (Up (start_serving b), s)
| life_refused code s :
    life_step (Booting (Ret (Exited code)), s) (Gone code, s)
| life_panicked m s :
    life_step (Booting (Panic m), s) (Gone panic_code, s)
| life_request u r req s :
    connected (sv_dashboard (up_serving u)) = true -> is_claim r = false ->
    life_step (Up u, s)
      (Up (set_requests (up_requests u ++ [dashboard (up_boot u) r req]) u), s)
| life_request_op u i o k r s s' :
    up_requests u !! i = Some (Vis o k) -> steady o s r s' ->
    life_step (Up u, s) (Up (set_requests (advance i (k r) (up_requests u)) u), s')
| life_submit u link req o s s' :
    connected (sv_dashboard (up_serving u)) = true ->
    may (X := BoxSig) steady (dashboard (up_boot u) (Dash.PostClaim link) req) s o s' ->
    life_step (Up u, s)
      (Up (set_claims (up_claims u ++ map (spawn_claim argv)
                         (drop (length (spawned s)) (spawned s'))) u), s')
| life_claim_op u i o k r s s' :
    up_claims u !! i = Some (Vis o k) -> steady o s r s' ->
    life_step (Up u, s) (Up (set_claims (advance i (k r) (up_claims u)) u), s')
| life_exec u i arg0 rest k s :
    up_claims u !! i = Some (Vis (ReExec arg0 rest : op BoxSig) k) ->
    life_step (Up u, s) (Booting (App.main (arg0 :: rest)), new_image s)
| life_serve e u v s :
    serve_step e (up_serving u) v -> life_step (Up u, s) (Up (set_serving v u), s)
| life_ends u code s :
    returned (up_serving u) = Some code -> life_step (Up u, s) (Gone code, s).
End Life.
