(* ===== verification/LifeProofs.v ===== *)
(** Lemmas on the life of a box: which programs write the enrollment, and when. *)

From stdpp Require Import base gmap strings list relations.
From Stdlib Require Import ZArith Lia.
From S2P Require Import Prelude Prog World Wg Crates Web Box Tunnel Enroll DashDb NixConfig.
From S2P Require Import Dashboard App DashProofs AppProofs BoxLife.

Local Open Scope prog_scope.
Local Abbreviation sp := tunnel_state_path (only parsing).
Local Abbreviation wps := (wp (X := BoxSig) steady) (only parsing).

(** ** The enrollment as the one cell a program writes *)

Section Cell.
Context `{CR : Crates} `{SP : Serde PersistedTunnel} `{JT : JsonText} (argv : list string).

Definition decode (text : option string) : option PersistedTunnel :=
  t ← text; match from_json t with Ok p => Some p | Err _ => None end.

(** The text of [tunnel.json]; whether something was done that must not be; whether the
    claim's state was set, which a task does last. *)
Record cell := MkCell { content : option string; broken : bool; closed : bool }.

(** What must not be done: to write over an enrollment, or in another way than
    writing; to re-execute without one, or another command line; to start tasks. *)
Definition bad (o : box_op) (c : option string) : bool :=
  match o with
  | WriteFile p _ => bool_decide (p = sp) && bool_decide (is_Some (decode c))
  | CreateNew p | AppendFile p _ => bool_decide (p = sp)
  | RenameFile p q => bool_decide (p = sp) || bool_decide (q = sp)
  | ReExec a rest => negb (bool_decide (is_Some (decode c)) && bool_decide (a :: rest = argv))
  | SpawnClaim _ => true
  | _ => false
  end.

Definition closes (o : box_op) : bool := match o with ClaimSet _ => true | _ => false end.

(** The cell after an operation that is not bad. *)
Definition becomes (o : box_op) (c : option string) : box_ret o -> option string -> Prop :=
  match o with
  | ReadFile p => fun r c' =>
      c' = c /\ (p = sp -> match r with Ok t => c = Some t | Err _ => c = None end)
  | WriteFile p d => fun r c' =>
      if bool_decide (p = sp) then is_ok r = true -> c' = Some d else c' = c
  | _ => fun _ c' => c' = c
  end.

Definition cell_spec (o : op BoxSig) (c : cell) (r : ret BoxSig o) (c' : cell) : Prop :=
  becomes o (content c) r (content c') /\
  broken c' = broken c || closed c || bad o (content c) /\
  closed c' = closed c || closes o.

Definition sound (c : cell) : Prop := broken c = false.
Abbreviation tame := (always (X := BoxSig) cell_spec sound) (only parsing).
Abbreviation wpc := (wp (X := BoxSig) cell_spec) (only parsing).

Lemma cell_total o c : exists r c', cell_spec o c r c'.
Proof.
  destruct c as [t b cl].
  assert (forall r t', becomes o t r t' -> exists r c', cell_spec o (MkCell t b cl) r c') as H.
  { intros r t' Ht. by exists r, (MkCell t' (b || cl || bad o t) (cl || closes o)). }
  destruct o; cbn in H;
    try (apply (H (Err "e"%string) t); done); try (apply (H (Err (MkIo OtherKind "")) t); done);
    try (apply (H tt t); done); try (apply (H [] t); done); try (apply (H true t); done);
    try (apply (H ""%string t); done); try (apply (H None t); done); try (apply (H 0%Z t); done);
    try (apply (H Unclaimed t); done); try (apply (H (MkIo OtherKind "") t); done).
  - destruct t as [t|]; [by apply (H (Ok t) (Some t))|by apply (H (Err (MkIo OtherKind "")) None)].
  - apply (H (Err (MkIo OtherKind "")) t). by case_bool_decide.
Qed.

(** A tame program does nothing bad next, and nothing at all once closed. *)
Lemma tame_op {A} o (k : ret BoxSig o -> prog BoxSig A) c : tame (Vis o k) c -> closed c = false /\ bad o (content c) = false.
Proof.
  intros [Hs Hk]. destruct (cell_total o c) as (r & c' & Hr). pose proof Hr as (_ & Hb & _).
  specialize (Hk r c' Hr). apply always_now in Hk. unfold sound in *. rewrite Hk in Hb.
  symmetry in Hb. rewrite Hs in Hb. by apply orb_false_iff in Hb.
Qed.

(** The cell follows the file. *)
Lemma cell_follows o s r s' cl :
  steady o s r s' -> bad o (files s !! sp) = false ->
  cell_spec o (MkCell (files s !! sp) false cl) r (MkCell (files s' !! sp) cl (cl || closes o)).
Proof.
  intros [Hr Hs] Hb. unfold cell_spec. cbn [content broken closed]. rewrite Hb, orb_false_r.
  split; [|done]. destruct o; cbn in Hr, Hs, Hb |- *;
    repeat match goal with
    | H : exists _, _ |- _ => destruct H
    | H : _ /\ _ |- _ => destruct H
    | H : match ?r with Ok _ => _ | Err _ => _ end |- _ => destruct r
    | H : s' = _ |- _ => rewrite H; clear H
    end; cbn; try done;
    try (split; [done|]; intros ->; by auto);
    repeat (apply orb_false_iff in Hb as [? Hb]);
    repeat case_bool_decide; subst; try done;
    by rewrite ?lookup_insert_eq, ?lookup_insert_ne, ?lookup_partial_alter_ne, ?lookup_delete_ne.
Qed.

(** So an enrollment that is there stays. *)
Lemma not_bad_keeps o s r s' e :
  steady o s r s' -> bad o (files s !! sp) = false ->
  decode (files s !! sp) = Some e -> files s' !! sp = files s !! sp.
Proof.
  intros Hs Hb He. pose proof (cell_follows o s r s' false Hs Hb) as (Hc & _).
  cbn [content] in Hc. destruct o; cbn in Hc; try done; [by destruct Hc|].
  cbn in Hb. case_bool_decide; [|done]. by rewrite He in Hb.
Qed.

Lemma tame_step {A} o (k : ret BoxSig o -> prog BoxSig A) s r s' cl :
  tame (Vis o k) (MkCell (files s !! sp) false cl) -> steady o s r s' ->
  bad o (files s !! sp) = false /\ tame (k r) (MkCell (files s' !! sp) false (closes o)).
Proof.
  intros Ht Hs. destruct (tame_op _ _ _ Ht) as [Hcl Hb]. cbn in Hcl, Hb. subst cl.
  split; [done|]. destruct Ht as [_ Hk]. by apply Hk, (cell_follows o s r s' false).
Qed.

(** ** Programs that leave the enrollment alone *)

Definition quiet (o : op BoxSig) : Prop :=
  match o with
  | WriteFile p _ | CreateNew p | AppendFile p _ => p <> sp
  | RenameFile p q => p <> sp /\ q <> sp
  | ClaimSet _ | SpawnClaim _ | ReExec _ _ => False
  | _ => True
  end.

Lemma quiet_stays o c r c' :
  quiet o -> cell_spec o c r c' -> sound c -> closed c = false -> c' = c.
Proof.
  destruct c as [t b cl], c' as [t' b' cl']. intros Hq (Hc & Hb & Hcl) Hs Hcl0.
  unfold sound in Hs. cbn in *. subst b cl. cbn in *.
  assert (bad o t = false /\ closes o = false) as [Hbad Hclose].
  { destruct o; cbn in Hq |- *; try done; split; try done;
      repeat (rewrite bool_decide_eq_false_2; [|tauto]); done. }
  rewrite Hbad in Hb. rewrite Hclose in Hcl. subst. f_equal.
  destruct o; cbn in Hc, Hq; try done; [by destruct Hc|]. by rewrite bool_decide_eq_false_2 in Hc.
Qed.

(** Tame from an open cell, with what it ends in. *)
Definition goes {A} (p : prog BoxSig A) (Q : outcome A -> cell -> Prop) (t : option string) : Prop :=
  tame p (MkCell t false false) /\ wpc p Q (MkCell t false false).

Definition open_cell (t : option string) : cell := MkCell t false false.

Lemma goes_quiet {A} (p : prog BoxSig A) Q t :
  only (X := BoxSig) quiet p -> (forall o, Q o (open_cell t)) -> goes p Q t.
Proof.
  intros Hp HQ. split.
  - clear HQ. induction p as [a|m| |o k IH]; [done..|]. destruct Hp as [Ho Hk].
    split; [done|]. intros r c' Hr. rewrite (quiet_stays _ _ _ _ Ho Hr) by done. by apply IH.
  - apply (wp_only cell_spec quiet (fun c => c = open_cell t)); try done.
    + intros o c r c' Ho Hr ->. by eapply quiet_stays.
    + intros o c' ->. apply HQ.
Qed.

Lemma goes_bind {A B} (p : prog BoxSig A) (f : A -> prog BoxSig B) Q t :
  goes p (fun o c => match o with
                     | Done a => exists t', c = open_cell t' /\ goes (f a) Q t'
                     | Panicked m => Q (Panicked m) c
                     | Stuck => Q Stuck c
                     end) t ->
  goes (bind p f) Q t.
Proof.
  intros [Ht Hw]. split.
  - apply always_bind; [done|]. eapply wp_mono; [|exact Hw]. intros o c Ho.
    destruct o; [|done..]. by destruct Ho as (t' & -> & [H _]).
  - apply wp_bind. eapply wp_mono; [|exact Hw]. intros o c Ho.
    destruct o; [|done..]. by destruct Ho as (t' & -> & [_ H]).
Qed.

(** A quiet program first. *)
Lemma goes_after {A B} (p : prog BoxSig A) (f : A -> prog BoxSig B) Q t :
  only (X := BoxSig) quiet p -> (forall a, goes (f a) Q t) ->
  (forall m, Q (Panicked m) (open_cell t)) -> Q Stuck (open_cell t) -> goes (bind p f) Q t.
Proof.
  intros Hp Hf Hm Hs. apply goes_bind, goes_quiet; [done|].
  intros [a|m|]; [|apply Hm|done]. exists t. by split.
Qed.

Lemma goes_ret {A} (p : prog BoxSig A) o Q t :
  end_of p = Some o -> Q o (open_cell t) -> goes p Q t.
Proof. destruct p; cbn; intros [= <-] HQ; by split. Qed.
End Cell.

Lemma calm_only (P P' : op BoxSig -> Prop) {A} (p : prog BoxSig A) :
  (forall o, P o -> P' o) -> calm (X := BoxSig) P p -> only (X := BoxSig) P' p.
Proof.
  intros HP. induction p as [a|m| |o k IH]; cbn; try done. intros [Ho Hk]. split; [by apply HP|].
  intros r. by apply IH.
Qed.

Lemma local_quiet o : local_op o -> quiet o.
Proof. destruct o; cbn; try done; by intros ->. Qed.

(** ** Enrolling writes it once, the claim task restarts on it *)

Section Tasks.
Context `{CR : Crates} `{SP : Serde PersistedTunnel} `{PL : !SerdeLaws PersistedTunnel}.
Context `{JT : JsonText} (argv : list string).

(** What an enrollment ends in: a success with the file written. *)
Definition enroll_end (o : outcome (Result TunnelConfig EnrollError)) (c : cell) : Prop :=
  exists t, c = open_cell t /\ forall tc, o = Done (Ok tc) -> is_Some (decode t).

Lemma enroll_end_fails o t : (forall tc, o <> Done (Ok tc)) -> enroll_end o (open_cell t).
Proof. intros H. exists t. split; [done|]. intros tc Ho. by destruct (H tc). Qed.

(** A quiet program of which the failure is the enrollment's. *)
Lemma goes_try {A E} (p : prog BoxSig (Result A E)) conv f t :
  only (X := BoxSig) quiet p -> (forall a, goes argv (f a) enroll_end t) ->
  goes argv (bind_try conv p f) enroll_end t.
Proof.
  intros Hp Hf. apply goes_after; [done| |intros m; by apply enroll_end_fails|by apply enroll_end_fails].
  intros [a|e]; [apply Hf|]. by eapply goes_ret, enroll_end_fails.
Qed.

Lemma quiet_post_json base path body : only (X := BoxSig) quiet (HttpEdgeClient.post_json base path body).
Proof. by cbn. Qed.

Lemma quiet_get_json base path : only (X := BoxSig) quiet (HttpEdgeClient.get_json base path).
Proof. by cbn. Qed.

Lemma quiet_begin base code key : only (X := BoxSig) quiet (HttpEdgeClient.begin base code key).
Proof. apply only_bind; [apply quiet_post_json|]. by intros []. Qed.

Lemma quiet_poll base code : only (X := BoxSig) quiet (HttpEdgeClient.poll base code).
Proof. apply only_bind; [apply quiet_get_json|]. by intros []. Qed.

Lemma quiet_edge_info base : only (X := BoxSig) quiet (HttpEdgeClient.edge_info base).
Proof. apply only_bind; [apply quiet_get_json|]. by intros []. Qed.

Lemma quiet_poll_loop base code interval n :
  only (X := BoxSig) quiet (poll_loop (HttpEdgeClient.client base) code interval n).
Proof.
  induction n as [|n IH]; cbn [poll_loop];
    (apply only_bind; [apply quiet_poll|]); intros [poll|]; try done;
    repeat case_bool_decide; try done.
Qed.

Lemma goes_persist tunnel hostname t :
  decode t = None ->
  goes argv (persist_tunnel_state sp tunnel hostname)
    (fun o c => exists t', c = open_cell t' /\ (o = Done (Ok tt) -> is_Some (decode t'))) t.
Proof.
  intros Ht. unfold persist_tunnel_state, assert_. destruct (negb _).
  2: { eapply goes_ret; [done|]. by exists t. }
  apply goes_after; [done| |intros m; by exists t|by exists t].
  intros [[]|e]; [|eapply goes_ret; [done|]; by exists t].
  assert (forall r c', cell_spec argv (WriteFile sp (to_json (MkPersisted tunnel hostname)))
            (open_cell t) r c' ->
            exists t', c' = open_cell t' /\ (is_ok r = true -> is_Some (decode t'))) as Hw.
  { intros r [t' b cl] (Hc & Hb & Hcl). cbn in Hc, Hb, Hcl. rewrite bool_decide_eq_true_2 in Hc by done.
    assert (b = false) as -> by (rewrite Hb; unfold decode in Ht |- *; by rewrite Ht).
    subst cl. exists t'. split; [done|]. intros Hr. rewrite (Hc Hr). cbn.
    rewrite from_to_json. by eexists. }
  split; cbn.
  - split; [done|]. intros r c' Hr. destruct (Hw r c' Hr) as (t' & -> & _). hnf in r. by destruct r.
  - intros r c' Hr. destruct (Hw r c' Hr) as (t' & -> & H').
    hnf in r. destruct r as [[]|]; exists t'; (split; [done|]); [|done]. intros _. by apply H'.
Qed.

Lemma quiet_persist_token token :
  only (X := BoxSig) quiet (persist_device_token device_token_path token).
Proof.
  unfold persist_device_token, assert_. destruct (negb _); [|done].
  apply only_bind; [done|]. intros [[]|e]; [|done].
  apply only_bind; [by split|]. by intros [].
Qed.

Lemma goes_enroll base cfg interval n t :
  decode t = None ->
  goes argv (enroll (HttpEdgeClient.client base) cfg key_path sp device_token_path interval n)
    enroll_end t.
Proof.
  intros Ht. unfold enroll. destruct (invite_config_parse cfg) as [[b code]|e];
    [|by eapply goes_ret, enroll_end_fails].
  apply goes_try. { eapply calm_only; [apply local_quiet|apply local_ensure_keypair]. }
  intros key. apply goes_try; [apply quiet_begin|]. intros begun.
  case_bool_decide; [by eapply goes_ret, enroll_end_fails|].
  apply goes_try; [apply quiet_poll_loop|]. intros approved. unfold or_missing.
  destruct (bp_wg_ip approved) as [ip|]; [|by eapply goes_ret, enroll_end_fails].
  destruct (bp_hostname approved) as [h|]; [|by eapply goes_ret, enroll_end_fails].
  destruct (bp_device_token approved) as [tok|]; [|by eapply goes_ret, enroll_end_fails].
  apply goes_try; [apply quiet_edge_info|]. intros info. cbn zeta.
  set (tunnel := MkTunnel _ _ _ _ _ _ _). apply goes_bind.
  destruct (goes_persist tunnel h t Ht) as [H1 H2]. split; [exact H1|].
  eapply wp_mono; [|exact H2]. intros o c (t' & -> & Hok).
  destruct o as [[[]|e]|m|]; [| |by apply enroll_end_fails|by apply enroll_end_fails];
    exists t'; (split; [done|]); [|by eapply goes_ret, enroll_end_fails].
  apply goes_after; [apply quiet_persist_token| |intros m; by apply enroll_end_fails|by apply enroll_end_fails].
  intros [[]|e]; [|by eapply goes_ret, enroll_end_fails].
  eapply goes_ret; [done|]. exists t'. split; [done|]. intros tc _. by apply Hok.
Qed.

(** The task of a submitted link. *)
Lemma tame_claim_task url t :
  decode t = None -> always (X := BoxSig) (cell_spec argv) sound (spawn_claim argv url) (open_cell t).
Proof.
  intros Ht.
  assert (forall s t', always (X := BoxSig) (cell_spec argv) sound
            (@call BoxSig (ClaimSet s)) (open_cell t')) as Hset.
  { intros s t'. split; [done|]. intros r [t2 b cl] (_ & Hb & _). by cbn in *. }
  unfold spawn_claim, claim_task, HttpEdgeClient.new.
  destruct (parse_invite_url url) as [[base code]|e]; [|apply Hset].
  set (Q := fun (o : outcome (Result unit EnrollError)) (c : cell) => exists t', c = open_cell t').
  assert (goes argv (claim (process_restart argv) (HttpEdgeClient.client base) url key_path sp
                       device_token_path) Q t) as [H1 H2].
  2: { apply always_bind; [exact H1|]. eapply wp_mono; [|exact H2]. intros o c (t' & ->).
       destruct o as [[a|e]|m|]; [done| |done..]. destruct e; apply Hset. }
  unfold claim, assert_. destruct (negb _); [|eapply goes_ret; [done|by exists t]].
  destruct (from_url url) as [cfg|e]; [|eapply goes_ret; [done|by exists t]].
  apply goes_bind. destruct (goes_enroll base cfg 5 10000 t Ht) as [H1 H2].
  split; [exact H1|]. eapply wp_mono; [|exact H2]. intros o c (t' & -> & Hok).
  destruct o as [[tc|e]|m|]; [| |by exists t'..]; exists t'; (split; [done|]);
    [|eapply goes_ret; [done|by exists t']].
  specialize (Hok tc eq_refl). unfold process_restart. destruct argv as [|a rest];
    [eapply goes_ret; [done|by exists t']|].
  assert (forall r c', cell_spec (a :: rest) (ReExec a rest) (open_cell t') r c' -> c' = open_cell t')
    as Hre.
  { intros r [t2 b cl] (Hc & Hb & Hcl). cbn in Hc, Hb, Hcl. subst.
    rewrite !bool_decide_eq_true_2 by done. done. }
  split; cbn; [split; [done|]|]; intros r c' ->%Hre; [done|by exists t'].
Qed.

(** ** The boot *)

Context `{SC : Serde ConfigFile} `{SL : Serde (list CatalogEntry)}.

Definition still_open {A} (_ : outcome A) (c : cell) : Prop := exists t, c = open_cell t.

Lemma goes_end {A} (p : prog BoxSig A) o t : end_of p = Some o -> goes argv p still_open t.
Proof. intros Hp. eapply goes_ret; [exact Hp|]. by exists t. Qed.

Lemma goes_quietly {A B} (p : prog BoxSig A) (f : A -> prog BoxSig B) t :
  only (X := BoxSig) quiet p -> (forall a, goes argv (f a) still_open t) ->
  goes argv (bind p f) still_open t.
Proof. intros Hp Hf. apply goes_after; [done|done| |]; [intros m|]; by exists t. Qed.

Lemma goes_read t (Q : outcome (Result string IoError) -> cell -> Prop) :
  (forall r, match r with Ok x => t = Some x | Err _ => t = None end -> Q (Done r) (open_cell t)) ->
  goes argv (@call BoxSig (ReadFile sp)) Q t.
Proof.
  intros HQ.
  assert (forall r c', cell_spec argv (ReadFile sp) (open_cell t) r c' ->
    c' = open_cell t /\ match r with Ok x => t = Some x | Err _ => t = None end) as Hread.
  { intros r [t' b cl] ([Ht Hr] & Hb & Hcl). cbn in *. subst. split; [done|by apply Hr]. }
  split; cbn; [split; [done|]|]; intros r c' [-> H]%Hread; [done|by apply HQ].
Qed.

Lemma goes_resolve_tunnel cfg t : goes argv (App.resolve_tunnel cfg) still_open t.
Proof.
  unfold App.resolve_tunnel, persisted_tunnel_state.
  assert (decode t = None -> goes argv (App.enroll_or_static cfg) still_open t) as Hrest.
  { intros Ht. unfold App.enroll_or_static. destruct (cf_invite cfg) as [invite|]; [|by eapply goes_end].
    unfold HttpEdgeClient.new. destruct (parse_invite_url _) as [[base code]|]; [|by eapply goes_end].
    apply goes_bind. destruct (goes_enroll base invite 5 10000 t Ht) as [H1 H2].
    split; [exact H1|]. eapply wp_mono; [|exact H2]. intros o c (t' & -> & _).
    destruct o as [[tc|e]|m|]; [| |by exists t'..]; exists t'; (split; [done|]); by eapply goes_end. }
  apply goes_bind, goes_bind, goes_read. intros r Hr. exists t. split; [done|].
  eapply goes_ret; [done|]. exists t. split; [done|].
  destruct r as [x|e]; [|apply Hrest; by rewrite Hr].
  destruct (from_json x) as [p|] eqn:Hp; [by eapply goes_end|]. apply Hrest. rewrite Hr. cbn.
  by rewrite Hp.
Qed.

Lemma quiet_load_catalog path : only (X := BoxSig) quiet (App.load_catalog path).
Proof. eapply calm_only; [apply local_quiet|apply local_load_catalog]. Qed.

Lemma quiet_bring_up tunnel : only (X := BoxSig) quiet (App.bring_up tunnel).
Proof. eapply calm_only; [apply local_quiet|apply local_bring_up]. Qed.

Lemma quiet_build_forwarder component tunnel cfg :
  only (X := BoxSig) quiet (App.build_forwarder component tunnel cfg).
Proof.
  unfold App.build_forwarder. destruct (boot_mode _ _); [|done].
  unfold expect. by destruct (bindable_forwards _ _) as [[l|]|].
Qed.

Lemma quiet_open_dashboard : only (X := BoxSig) quiet App.open_dashboard.
Proof. cbn. split; [done|]. by intros []. Qed.

Lemma goes_or_exit {A E} (r : Result A E) k t :
  (forall a, goes argv (k a) still_open t) -> goes argv (App.or_exit r k) still_open t.
Proof. intros Hk. destruct r; [apply Hk|by eapply goes_end]. Qed.

Lemma goes_run component default_config args t :
  goes argv (App.run component default_config args) still_open t.
Proof.
  unfold App.run. apply goes_or_exit. intros flags.
  apply goes_quietly; [done|]. intros data. apply goes_or_exit. intros text. apply goes_or_exit.
  intros cfg. destruct (_ && _); [by eapply goes_end|].
  apply goes_quietly; [done|]. intros [admin|]; [|by eapply goes_end].
  apply goes_bind. destruct (goes_resolve_tunnel cfg t) as [H1 H2].
  split; [exact H1|]. eapply wp_mono; [|exact H2]. intros o c [t' ->].
  destruct o as [tunnel|m|]; [|by exists t'..]. exists t'. split; [done|]. apply goes_or_exit.
  intros tunnel'. apply goes_quietly; [apply quiet_bring_up|]. intros up. apply goes_or_exit. intros _.
  apply goes_quietly; [apply quiet_build_forwarder|]. intros f. apply goes_or_exit. intros forwarder.
  apply goes_quietly; [apply quiet_load_catalog|]. intros cat. apply goes_or_exit. intros catalog.
  apply goes_quietly; [apply quiet_open_dashboard|]. intros path. apply goes_or_exit. intros config_path.
  by eapply goes_end.
Qed.

Lemma tame_main args t :
  always (X := BoxSig) (cell_spec argv) sound (App.main args) (open_cell t).
Proof. apply goes_run. Qed.
End Tasks.

(** ** Requests leave it alone *)

Section Requests.
Context `{RX : Rnix} `{RF : Rfc3339} `{CR : Crates} `{SP : Serde PersistedTunnel}.
Abbreviation calls_quiet p := (only (X := BoxSig) quiet p) (only parsing).

Lemma only_try (P : op BoxSig -> Prop) {A B E F} (conv : E -> F) (p : prog BoxSig (Result A E))
    (f : A -> prog BoxSig (Result B F)) :
  only (X := BoxSig) P p -> (forall a, only (X := BoxSig) P (f a)) ->
  only (X := BoxSig) P (bind_try conv p f).
Proof. intros Hp Hf. apply only_bind; [done|]. intros [a|e]; [apply Hf|done]. Qed.

Lemma only_assert (P : op BoxSig -> Prop) {A} b m (p : prog BoxSig A) :
  only (X := BoxSig) P p -> only (X := BoxSig) P (assert_ b m p).
Proof. by destruct b. Qed.

(** A temporary file is not the enrollment. *)
Lemma tmp_not_state dir uuid : path_join dir (tmp_name uuid) <> sp.
Proof.
  assert (forall x : string, (x ++ ".tmp")%string <> sp) as H.
  { intros x Hx. apply (f_equal str_rev) in Hx. rewrite str_rev_app in Hx. vm_compute in Hx.
    discriminate. }
  unfold path_join, tmp_name.
  destruct (is_empty dir); [|destruct (ends_with "/" dir)]; rewrite !str_app_assoc; apply H.
Qed.

Lemma quiet_read_config path : calls_quiet (read_config path).
Proof.
  cbn. split; [done|]. intros []; cbn; [|done]. split; [done|]. by intros [].
Qed.

Lemma quiet_save_config path edits : path <> sp -> calls_quiet (save_config path edits).
Proof.
  intros Hp. apply only_try; [apply quiet_read_config|]. intros candidate.
  unfold expect. destruct (apply_edits _ _) as [[f|e]|]; [|done..].
  unfold write_atomic. destruct (parent path) as [dir|]; [|done]. cbn. split; [done|].
  intros uuid. split; [apply tmp_not_state|]. intros [[]|]; cbn; [|done].
  split; [split; [apply tmp_not_state|done]|]. by intros [[]|].
Qed.

Lemma quiet_editor_state path : calls_quiet (editor_state path).
Proof. apply only_bind; [apply quiet_read_config|]. by intros []. Qed.

Lemma quiet_remote_view claim : calls_quiet (Dash.remote_view claim).
Proof.
  cbn. split; [done|]. intros [text|e]; [destruct (from_json text)|]; cbn; try done.
Qed.

Lemma quiet_get_session token : calls_quiet (get_session token).
Proof.
  apply only_assert. cbn. split; [done|]. intros [[row|]|e]; cbn; try done.
  destruct (parse_timestamp (row_created_at row) _); [|done].
  destruct (parse_timestamp (row_expires_at row) _); [|done]. by cbn.
Qed.

Lemma quiet_create_session user : calls_quiet (create_session user).
Proof.
  apply only_assert. cbn. split; [done|]. intros token. split; [done|]. intros now.
  split; [done|]. intros [n|e]; cbn; [|done]. by apply only_assert.
Qed.

Lemma quiet_delete_session token : calls_quiet (delete_session token).
Proof.
  apply only_assert. cbn. split; [done|]. intros [n|e]; cbn; [|done]. by apply only_assert.
Qed.

Lemma quiet_gate auth ep req : calls_quiet ep -> calls_quiet (DashAuth.gate_request auth ep req).
Proof.
  intros Hep. apply only_assert, only_bind; [|by intros []].
  destruct (DashAuth.read_cookie req _); [|done]. apply only_bind; [apply quiet_get_session|done].
Qed.

Lemma quiet_dashboard b r req :
  bt_config_path b <> sp -> is_claim r = false -> calls_quiet (dashboard b r req).
Proof.
  intros Hp Hr. destruct r; cbn [dashboard Dash.app]; try done.
  - destruct password as [password|]; [|done]. unfold Dash.login_page_post.
    destruct (negb _); [done|]. apply only_bind; [apply quiet_create_session|].
    intros [token|e]; [|done]. unfold expect. by destruct (DashAuth.session_cookie_header _ _).
  - apply quiet_gate, only_bind; [apply quiet_editor_state|]. intros [config error].
    apply only_bind; [apply quiet_remote_view|done].
  - apply quiet_gate, only_bind; [apply quiet_remote_view|]. intros remote.
    apply only_bind; [apply quiet_editor_state|]. intros [config [error|]]; [done|].
    apply only_bind; [by apply quiet_save_config|]. intros [[]|e]; [|done].
    apply only_bind; [apply quiet_editor_state|]. by intros [].
  - apply quiet_gate, only_bind; [|done]. destruct (DashAuth.read_cookie req _); [|done].
    apply only_bind; [apply quiet_delete_session|done].
Qed.

(** What a quiet operation keeps. *)
Definition kept (s s' : box) : Prop :=
  files s' !! sp = files s !! sp /\ claim_state s' = claim_state s /\ env_vars s' = env_vars s.

Lemma quiet_kept o s r s' : quiet o -> steady o s r s' -> kept s s'.
Proof.
  intros Hq [Hr _]. unfold kept. destruct o; cbn in Hq, Hr; try done;
    repeat match goal with
    | H : exists _, _ |- _ => destruct H
    | H : _ /\ _ |- _ => destruct H
    | H : match ?r with Ok _ => _ | Err _ => _ end |- _ => destruct r
    | H : s' = _ |- _ => rewrite H; clear H
    end; cbn; split_and!; try done;
    by rewrite ?lookup_insert_ne, ?lookup_partial_alter_ne, ?lookup_delete_ne.
Qed.

(** The gate itself only asks the database and the clock. *)
Definition asks (o : op BoxSig) : Prop :=
  match o with DbSelectSession _ | BoxNow => True | _ => False end.

Definition same_claims (s s' : box) : Prop :=
  files s' = files s /\ env_vars s' = env_vars s /\ claim_state s' = claim_state s /\
  spawned s' = spawned s.

Lemma wp_gate_claims auth ep req s (Q : outcome DashResponse -> box -> Prop) :
  (forall o s', same_claims s s' -> Q o s') ->
  (forall s', same_claims s s' -> wps ep Q s') -> wps (DashAuth.gate_request auth ep req) Q s.
Proof.
  intros HQ Hep. unfold DashAuth.gate_request, assert_. destruct (negb _); [|by apply HQ].
  apply wp_bind. apply (wp_only _ asks (same_claims s)).
  - destruct (DashAuth.read_cookie req _) as [token|]; [|done]. apply only_bind; [|done].
    apply only_assert. cbn. split; [done|]. intros [[row|]|e]; cbn; try done.
    destruct (parse_timestamp (row_created_at row) _); [|done].
    destruct (parse_timestamp (row_expires_at row) _); [|done]. by cbn.
  - intros o s1 r s2 Ho [Hr _] Hs. destruct o; try done; cbn in Hr; [by subst s2|].
    by destruct Hr as [-> _].
  - done.
  - intros o s' Hs. destruct o as [[]|m|]; cbn [andthen wp]; [by apply Hep|by apply HQ..].
Qed.

(** What a submitted link does: nothing, or what [submit] says. *)
Lemma wp_submitted b link req s :
  wps (dashboard b (Dash.PostClaim link) req)
    (fun _ s' => files s' = files s /\ env_vars s' = env_vars s /\
       (claim_state s' = claim_state s /\ spawned s' = spawned s \/
        let step := submit (is_claimed s sp) (claim_state s) link in
        claim_state s' = fst step /\ spawned s' = spawned s ++ snd step)) s.
Proof.
  cbn [dashboard Dash.app]. apply wp_gate_claims.
  - intros _ s' (-> & -> & -> & ->). by split_and!; [..|left].
  - intros s1 (Hf & He & Hc & Hsp).
    eapply wp_mono; [|apply wp_conj; [apply (wp_claim_submit claim_support link s1)|]].
    + intros o s2 [(_ & H1 & H2 & H3) H4]. rewrite H3, Hf. split_and!; [done|exact H4|].
      right. cbn zeta in H1, H2 |- *. cbn [cs_tunnel_state_path claim_support] in H1, H2.
      rewrite H1, H2, Hsp, Hc.
      assert (is_claimed s1 sp = is_claimed s sp) as -> by (unfold is_claimed, persisted_in; by rewrite Hf).
      done.
    + apply (wp_invariant _ (fun s' => env_vars s' = env_vars s)); [|done].
      intros o s2 r s3 [Hr _] <-. by eapply env_kept.
Qed.
End Requests.

(** ** The invariant of a life *)

Section Life.
Context `{RX : Rnix} `{RF : Rfc3339} `{CR : Crates} `{CL : !CratesLaws}.
Context `{SP : Serde PersistedTunnel} `{PL : !SerdeLaws PersistedTunnel}.
Context `{SC : Serde ConfigFile} `{SL : Serde (list CatalogEntry)} `{JT : JsonText}.
Context (argv : list string).

(** The text of [tunnel.json], and what it says. *)
Abbreviation text_of s := (files s !! sp) (only parsing).
Abbreviation tame_from p s :=
  (always (X := BoxSig) (cell_spec argv) sound p (open_cell (text_of s))) (only parsing).

(** At most one claim task, while the box waits for the edge or is enrolled. *)
Definition claims_ok (l : list (prog BoxSig unit)) (s : box) : Prop :=
  l = [] \/
  exists p, l = [p] /\ tame_from p s /\
    (claim_state s = Awaiting \/ is_Some (persisted_in s sp)).

Definition config_apart (b : Booted) : Prop := bt_config_path b <> sp.

Definition inv (c : proc * box) : Prop :=
  let '(x, s) := c in
  env_vars s !! "FORTRESS_CONFIG_PATH"%string <> Some sp /\
  match x with
  | Booting p => tame_from p s /\
      wps p (fun o _ => forall b, o = Done (Running b) -> config_apart b) s
  | Up u => config_apart (up_boot u) /\ Forall (only (X := BoxSig) quiet) (up_requests u) /\
      claims_ok (up_claims u) s
  | Off | Gone _ => True
  end.

(** A program that was closed or not has nothing left to do but what it may. *)
Lemma tame_reopen {A} (p : prog BoxSig A) t cl :
  always (X := BoxSig) (cell_spec argv) sound p (MkCell t false cl) ->
  always (X := BoxSig) (cell_spec argv) sound p (open_cell t).
Proof.
  destruct p; try done. intros H. destruct (tame_op _ _ _ _ H) as [Hcl _]. cbn in Hcl. by subst cl.
Qed.

Lemma tame_next {A} o (k : ret BoxSig o -> prog BoxSig A) s r s' :
  tame_from (Vis o k) s -> steady o s r s' ->
  bad argv o (text_of s) = false /\ tame_from (k r) s' /\ (closes o = true -> alive (k r) = false).
Proof.
  intros Ht Hs. destruct (tame_step argv o k s r s' false Ht Hs) as [Hb Hk].
  split_and!; [done|by eapply tame_reopen|]. intros Hc. rewrite Hc in Hk.
  destruct (k r) as [a|m| |o2 k2]; try done. destruct (tame_op _ _ _ _ Hk) as [H _]. done.
Qed.

Lemma main_apart args s :
  env_vars s !! "FORTRESS_CONFIG_PATH"%string <> Some sp ->
  wps (App.main args) (fun o _ => forall b, o = Done (Running b) -> config_apart b) s.
Proof.
  intros He. apply (wp_spec_mono (X := BoxSig) box_spec); [by intros o s1 r s2 [H _]|].
  eapply wp_mono; [|apply wp_app_run]. intros o s' Ho b ->.
  destruct Ho as (cfg & data & s1 & _ & _ & _ & _ & _ & Hp & _). unfold config_apart.
  rewrite Hp. destruct (env_vars s !! _) as [v|]; cbn in *; [congruence|discriminate].
Qed.

Lemma life_inv_start args s : inv (Off, s) -> inv (Booting (App.main args), new_image s).
Proof.
  intros [He _]. split; [done|]. split; [apply tame_main|by apply main_apart].
Qed.

Lemma env_steady o s r s' : steady o s r s' -> env_vars s' = env_vars s.
Proof. intros [H _]. by eapply env_kept. Qed.

(** A claim task alone, after one operation. *)
Lemma claims_ok_op l i o k r s s' :
  claims_ok l s -> l !! i = Some (Vis o k) -> steady o s r s' ->
  bad argv o (text_of s) = false /\ claims_ok (advance i (k r) l) s'.
Proof.
  intros [->|(p & -> & Ht & Hc)] Hi Hs; [done|]. destruct i as [|i]; [|done].
  injection Hi as ->. destruct (tame_next o k s r s' Ht Hs) as (Hb & Hk & Hcl).
  split; [done|]. unfold advance. cbn [insert list_insert List.filter].
  destruct (alive (k r)) eqn:Ha; [|by left]. right. exists (k r). split_and!; try done.
  destruct Hc as [Hc|[e He]].
  - left. rewrite <- Hc. destruct Hs as [Hr _]. destruct o; cbn in Hr, Hcl, Hb; try done;
      repeat match goal with
      | H : exists _, _ |- _ => destruct H
      | H : _ /\ _ |- _ => destruct H
      | H : match ?r with Ok _ => _ | Err _ => _ end |- _ => destruct r
      | H : s' = _ |- _ => rewrite H; clear H
      end; try done. by specialize (Hcl eq_refl).
  - right. exists e. unfold persisted_in. by rewrite (not_bad_keeps argv o s r s' e).
Qed.

(** What others do leaves the claim task as it is. *)
Lemma claims_ok_kept l s s' : claims_ok l s -> kept s s' -> claims_ok l s'.
Proof.
  intros [->|(p & -> & Ht & Hc)] (Hf & Hs & _); [by left|]. right. exists p.
  unfold persisted_in. rewrite Hf, Hs. by split_and!.
Qed.

Lemma claims_ok_submit l link s s' :
  claims_ok l s -> files s' = files s ->
  (claim_state s' = claim_state s /\ spawned s' = spawned s \/
   let step := submit (is_claimed s sp) (claim_state s) link in
   claim_state s' = fst step /\ spawned s' = spawned s ++ snd step) ->
  claims_ok (l ++ map (spawn_claim argv) (drop (length (spawned s)) (spawned s'))) s'.
Proof.
  intros Hl Hf [[Hs Hsp]|[Hs Hsp]].
  { rewrite Hsp, drop_all, app_nil_r. destruct Hl as [->|(p & -> & Ht & Hc)]; [by left|].
    right. exists p. unfold persisted_in. rewrite Hf, Hs. by split_and!. }
  rewrite Hsp, drop_app_length. unfold submit in Hs |- *. unfold is_claimed in *.
  case_bool_decide as Hp; cbn [fst snd map] in *.
  { rewrite app_nil_r. destruct Hl as [->|(p & -> & Ht & Hc)]; [by left|]. right. exists p.
    unfold persisted_in in *. rewrite Hf. split_and!; [done..|by right]. }
  case_bool_decide as Ha; cbn [fst snd map] in *.
  { rewrite app_nil_r. destruct Hl as [->|(p & -> & Ht & Hc)]; [by left|]. right. exists p.
    unfold persisted_in. rewrite Hf. split_and!; [done..|by left]. }
  destruct Hl as [->|(p & -> & Ht & [Hc|Hc])]; [|done|done]. cbn [app].
  destruct (from_url _) as [cfg|e]; cbn [fst snd map] in *; [|by left]. right. eexists.
  split; [done|]. split; [|by left]. rewrite Hf. apply tame_claim_task.
  unfold decode, persisted_in in *. destruct (files s !! sp ≫= _) eqn:Hd; [|done].
  destruct Hp. by eexists.
Qed.

(** Every step keeps the invariant, and the enrollment. *)
Lemma life_inv_step c c' :
  inv c -> life_step argv c c' ->
  inv c' /\ forall e, persisted_in (snd c) sp = Some e -> persisted_in (snd c') sp = Some e.
Proof.
  intros Hi Hstep. destruct Hstep as [x s|o k r s s' Hs|b s|code s|m s|u r req s Hd Hr|
    u i o k r s s' Hu Hs|u link req o s s' Hd Hm|u i o k r s s' Hu Hs|u i arg0 rest k s Hu|u v s Hv|
    u code s Hc]; destruct Hi as [He Hi]; cbn [snd].
  - split; [|done]. by apply life_inv_start.
  - destruct Hi as [Ht Hw]. destruct (tame_next o k s r s' Ht Hs) as (Hb & Hk & _). split.
    + split; [by rewrite (env_steady _ _ _ _ Hs)|]. split; [done|]. by apply Hw.
    + intros e Hp. unfold persisted_in. by rewrite (not_bad_keeps argv o s r s' e).
  - split; [|done]. split; [done|]. destruct Hi as [_ Hw]. split_and!; [by apply Hw|done|by left].
  - split; [|done]. by split.
  - split; [|done]. by split.
  - split; [|done]. split; [done|]. destruct Hi as (Hp & Hq & Hl). split_and!; [done| |done].
    cbn. apply Forall_app. split; [done|]. constructor; [by apply quiet_dashboard|done].
  - destruct Hi as (Hp & Hq & Hl). pose proof (Forall_lookup_1 _ _ _ _ Hq Hu) as [Ho Hk].
    pose proof (quiet_kept _ _ _ _ Ho Hs) as Hkept. pose proof Hkept as (Hf & Hcs & Hev).
    split; [|intros e; unfold persisted_in; by rewrite Hf].
    split; [by rewrite Hev|]. split_and!; [done| |by eapply claims_ok_kept]. cbn.
    apply Forall_forall. intros p Hin. apply list_elem_of_In, filter_In in Hin as [Hin _].
    apply list_elem_of_In in Hin. eapply Forall_forall; [|exact Hin]. apply Forall_insert; [done|].
    apply Hk.
  - destruct Hi as (Hp & Hq & Hl).
    pose proof (proj1 (wp_may _ _ _ _) (wp_submitted (up_boot u) link req s) o s' Hm) as (Hf & Hev & Hsub).
    split; [|intros e; unfold persisted_in; by rewrite Hf].
    split; [by rewrite Hev|]. split_and!; [done..|]. by eapply claims_ok_submit.
  - destruct Hi as (Hp & Hq & Hl). destruct (claims_ok_op _ _ _ _ _ _ _ Hl Hu Hs) as [Hb Hl'].
    split; [|intros e Hpe; unfold persisted_in; by rewrite (not_bad_keeps argv o s r s' e)].
    split; [by rewrite (env_steady _ _ _ _ Hs)|]. by split_and!.
  - split; [|done]. by apply life_inv_start.
  - split; [|done]. split; [done|]. by destruct Hi.
  - split; [|done]. by split.
Qed.

Lemma life_inv_steps c c' :
  rtc (life_step argv) c c' -> inv c ->
  inv c' /\ forall e, persisted_in (snd c) sp = Some e -> persisted_in (snd c') sp = Some e.
Proof.
  induction 1 as [c|c1 c2 c3 H1 _ IH]; intros Hi; [by split|].
  destruct (life_inv_step c1 c2 Hi H1) as [H2 Hk]. destruct (IH H2) as [H3 Hk']. split; [done|]. auto.
Qed.

(** ** A boot of an enrolled box *)

Definition boots_with (e : PersistedTunnel) (b : Booted) : Prop :=
  bt_tunnel b = Some (pt_tunnel e).

Lemma wp_or_exit {A E} (r : Result A E) k (Q : outcome Boot -> box -> Prop) s :
  (forall a, r = Ok a -> wps (k a) Q s) -> Q (Done (Exited 1)) s -> wps (App.or_exit r k) Q s.
Proof. intros Hk HQ. destruct r; [by apply Hk|done]. Qed.

(** A program that ends in a boot, if in any, with the tunnel [t]. *)
Definition with_tunnel (e : PersistedTunnel) (o : outcome Boot) (_ : box) : Prop :=
  forall b, o = Done (Running b) -> boots_with e b.

(** Whatever runs before, if what follows is right from every state. *)
Lemma wp_before {A B} (p : prog BoxSig A) (f : A -> prog BoxSig B) (Q : outcome B -> box -> Prop) s :
  (forall m s', Q (Panicked m) s') -> (forall s', Q Stuck s') ->
  (forall a s', wps (f a) Q s') -> wps (bind p f) Q s.
Proof.
  intros Hm Hst Hf. apply wp_bind. eapply wp_mono; [|apply (wp_invariant _ (fun _ => True)); done].
  intros o s' _. destruct o as [a|m|]; [apply Hf|apply Hm|apply Hst].
Qed.

Lemma run_enrolled component default_config args e s :
  persisted_in s sp = Some e ->
  wps (App.run component default_config args) (with_tunnel e) s.
Proof.
  intros He. unfold App.run. apply wp_or_exit; [|done]. intros flags _.
  intros data s1 [[-> _] _]. cbn [bind]. apply wp_or_exit; [|done]. intros text _.
  apply wp_or_exit; [|done]. intros cfg _. destruct (_ && _); [done|].
  intros hash s1 [[-> _] _]. cbn [bind]. destruct hash as [hash|]; cbn [fmap option_fmap option_map]; [|done].
  apply wp_bind. unfold App.resolve_tunnel. apply wp_bind. apply wp_persisted. rewrite He.
  cbn [andthen wp App.or_exit].
  apply wp_before; [done..|]. intros up s2. apply wp_or_exit; [|done]. intros _ _.
  apply wp_before; [done..|]. intros f s3. apply wp_or_exit; [|done]. intros forwarder _.
  apply wp_before; [done..|]. intros cat s4. apply wp_or_exit; [|done]. intros catalog _.
  apply wp_before; [done..|]. intros path s5. apply wp_or_exit; [|done]. intros config_path _.
  by intros b [= <-].
Qed.

(** Once an enrollment is there, every boot that follows uses it. *)
Definition enrolled_life (e : PersistedTunnel) (c : proc * box) : Prop :=
  let '(x, s) := c in
  persisted_in s sp = Some e /\
  match x with
  | Booting p => wps p (with_tunnel e) s
  | Up u => boots_with e (up_boot u)
  | Off | Gone _ => True
  end.

Lemma enrolled_step e c c' :
  inv c -> life_step argv c c' -> enrolled_life e c -> enrolled_life e c'.
Proof.
  intros Hi Hstep He.
  assert (persisted_in (snd c') sp = Some e) as Hp.
  { destruct c as [x s]. destruct (life_inv_step _ _ Hi Hstep) as [_ Hk]. apply Hk. by destruct He. }
  destruct Hstep; destruct He as [He1 He2]; cbn [snd] in Hp; (split; [exact Hp|]); try done;
    try (by apply run_enrolled).
  - by apply He2.
  - by apply He2.
Qed.

Lemma enrolled_steps e c c' :
  rtc (life_step argv) c c' -> inv c -> enrolled_life e c -> enrolled_life e c'.
Proof.
  induction 1 as [c|c1 c2 c3 H1 _ IH]; intros Hi He; [done|].
  apply IH; [by destruct (life_inv_step _ _ Hi H1)|by eapply enrolled_step].
Qed.
End Life.
