(* ===== verification/LifeProps.v ===== *)
(** The property of the life of a box: enrolled once, enrolled for good.  Its concrete
    input is a box that runs: answers for every operation of its world, an edge that
    approves, and the executions as steps of a life. *)

From stdpp Require Import base gmap strings list relations.
From Stdlib Require Import ZArith Lia.
From S2P Require Import Prelude Prog ForwarderState World Wg Crates Web Box Tunnel Enroll DashDb NixConfig.
From S2P Require Import Dashboard App DashProofs AppProofs BoxLife LifeProofs.
From S2P Require Import Demo BoxDemo.
Import Demo.

(** ** Answers *)

Definition no_such_file : IoError := MkIo OtherKind "no such file".

(** The edge of the demonstration. *)
Definition demo_link : string := "https://edge.net/i/one-two".
Definition demo_http (url : string) : HttpResponse :=
  MkHttp 200 (Ok (if ends_with "/info" url then "info"%string
                  else if ends_with "/poll" url then "poll"%string else "begin"%string)).

#[export] Instance edge_json : JsonText := {|
  json_parse s :=
    if bool_decide (s = "info"%string) then
      Ok (JObj [("public_key", JStr "edge-key"); ("endpoint", JStr "edge.net:51820");
                ("allowed_ips", JStr "10.10.0.0/24")]%string)
    else if bool_decide (s = "poll"%string) then
      Ok (JObj [("status", JStr "approved"); ("deviceToken", JStr "token");
                ("machine", JObj [("wg_ip", JStr "10.10.0.7"); ("hostname", JStr "box.edge.net")])]%string)
    else Ok (JObj [("status", JStr "waiting")]%string);
  status_display _ := "200 OK"%string;
|}.

(** Everything works: the files are there or not, commands succeed, the edge answers. *)
Definition answer (o : op BoxSig) (s : box) : ret BoxSig o * box :=
  match o return ret BoxSig o * box with
  | ReadFile p => (match files s !! p with Some t => Ok t | None => Err no_such_file end, s)
  | CreateDirAll _ => (Ok tt, s)
  | WriteFile p d => (Ok tt, set_files (<[p := d]> (files s)) s)
  | CreateNew p =>
      match files s !! p with
      | Some _ => (Err (MkIo AlreadyExists "exists"), s)
      | None => (Ok tt, set_files (<[p := ""%string]> (files s)) s)
      end
  | AppendFile p d => (Ok tt, set_files (<[p := (default "" (files s !! p) ++ d)%string]> (files s)) s)
  | HttpGet u => (Ok (demo_http u), log_http (Got u) s)
  | HttpPost u b => (Ok (demo_http u), log_http (Posted u b) s)
  | Exec p a => (Ok (MkFinished (MkOutput (Some 0%Z) "") ""), log_exec (p, a) s)
  | ReExec _ _ => (no_such_file, s)
  | BoxRng n => (repeat 7%Z n, s)
  | Sleep _ => (tt, s)
  | PathExists p => (bool_decide (is_Some (files s !! p)), s)
  | RenameFile p q =>
      match files s !! p with
      | Some d => (Ok tt, set_files (<[q := d]> (delete p (files s))) s)
      | None => (Err no_such_file, s)
      end
  | BoxUuid => ("0"%string, s)
  | EnvVar n => (env_vars s !! n, s)
  | BoxNow => (clock s, set_clock (clock s) s)
  | DbOpen => (Ok tt, s)
  | DbInsertSession t row =>
      match sessions s !! t with
      | Some _ => (Err "UNIQUE constraint failed"%string, s)
      | None => (Ok 1%Z, set_sessions (<[t := row]> (sessions s)) s)
      end
  | DbSelectSession t => (Ok (sessions s !! t), s)
  | DbDeleteSession t =>
      (Ok (if decide (is_Some (sessions s !! t)) then 1 else 0)%Z, set_sessions (delete t (sessions s)) s)
  | DbSelectKv k => (Ok (fst <$> (kv_rows s !! k)), s)
  | DbUpsertKv k v t => (Ok tt, set_kv_rows (<[k := (v, t)]> (kv_rows s)) s)
  | ClaimGet => (claim_state s, s)
  | ClaimSet c => (tt, set_claim c s)
  | SpawnClaim u => (tt, log_spawn u s)
  end.

Lemma answer_steady o s : steady o s (fst (answer o s)) (snd (answer o s)).
Proof.
  split.
  - destruct o; cbn; try done;
      repeat match goal with |- context [files ?s !! ?p] => destruct (files s !! p) eqn:? end;
      cbn; try done.
    + split_and!; [done|by rewrite repeat_length|]. by induction n.
    + by eexists.
    + by destruct (sessions s !! token) eqn:?.
  - destruct o; cbn; try done.
    + by destruct (files s !! path).
    + by intros ->.
Qed.

Lemma answers_implement : implements (X := BoxSig) answer steady id.
Proof. intros o s. apply answer_steady. Qed.

(** ** Executions as steps *)

Section Steps.
Context `{RX : Rnix} `{RF : Rfc3339} `{CR : Crates} `{SP : Serde PersistedTunnel}.
Context `{SC : Serde ConfigFile} `{SL : Serde (list CatalogEntry)} `{JT : JsonText}.
Context (argv : list string).
Abbreviation lives := (rtc (life_step argv)) (only parsing).

Definition of_outcome (o : outcome Boot) : prog BoxSig Boot :=
  match o with Done b => Ret b | Panicked m => Panic m | Stuck => OutOfFuel end.

Lemma boot_runs p s :
  lives (Booting p, s) (Booting (of_outcome (fst (run (X := BoxSig) answer p s))),
                        snd (run (X := BoxSig) answer p s)).
Proof.
  revert s. induction p as [b|m| |o k IH]; intros s; cbn; [done..|].
  pose proof (answer_steady o s) as Hs. destruct (answer o s) as [r s'].
  eapply rtc_l; [by apply life_boot|]. apply IH.
Qed.

(** A lone claim task does [n] operations. *)
Fixpoint claim_ops (n : nat) (p : prog BoxSig unit) (s : box) : option (prog BoxSig unit * box) :=
  match n with
  | O => Some (p, s)
  | S n =>
      match p with
      | Vis o k =>
          let '(r, s') := answer o s in
          if alive (k r) then claim_ops n (k r) s' else None
      | _ => None
      end
  end.

Lemma claim_runs n u p s p' s' :
  up_claims u = [p] -> claim_ops n p s = Some (p', s') ->
  lives (Up u, s) (Up (set_claims [p'] u), s').
Proof.
  revert u p s. induction n as [|n IH]; intros u p s Hu; cbn.
  - intros [= <- <-]. destruct u as [b cl rq sv]. cbn in Hu. by subst cl.
  - destruct p as [| | |o k]; try done. pose proof (answer_steady o s) as Hs.
    destruct (answer o s) as [r s1] eqn:Ha. destruct (alive (k r)) eqn:Hl; [|done]. intros Hn.
    eapply rtc_l; [apply (life_claim_op argv u 0 o k r s s1)|]; [by rewrite Hu|done|].
    replace (advance 0 (k r) (up_claims u)) with [k r] by (rewrite Hu; unfold advance; cbn; by rewrite Hl).
    exact (IH (set_claims [k r] u) (k r) s1 eq_refl Hn).
Qed.
End Steps.

(** ** A life of the demonstration *)

Definition execs {A} (p : prog BoxSig A) : option (list string) :=
  match p with Vis (ReExec a rest) _ => Some (a :: rest) | _ => None end.

Definition demo_argv : list string := ["fortress-client"; "-config"; "/c"]%string.
Definition demo_session : SessionRow := MkSessionRow "admin" (to_rfc3339 0) (to_rfc3339 100).

(** Claimable, and the owner is logged in. *)
Definition demo_box : box :=
  MkBox {[ "/c"%string := "{}"%string ]} [] []
    {[ "FORTRESS_ADMIN_PASSWORD_HASH"%string := "h"%string ]} 0 {[ "tok"%string := demo_session ]} ∅
    Unclaimed [].
#[export] Instance demo_rnix : Rnix := {| rnix_parse _ := Err "no file"%string |}.
#[export] Instance demo_waiting : Serde ConfigFile := {|
  to_json _ := ""%string;
  from_json _ := Ok (MkConfigFile [MkForward "{tunnel_ip}:443" Tcp "127.0.0.1:443"] None None);
|}.
#[export] Instance demo_no_catalog : Serde (list CatalogEntry) := {|
  to_json _ := ""%string; from_json _ := Ok [];
|}.

Definition demo_boot (s : box) : outcome Boot * box :=
  run (X := BoxSig) answer (App.main demo_argv) (new_image s).

Definition submitted (b : Booted) (s : box) : outcome DashResponse * box :=
  run (X := BoxSig) answer
    (dashboard b (Dash.PostClaim (Some demo_link)) (session_request "tok" false)) s.

(** The first boot, the submitted link, and the claim task up to the re-execution. *)
Definition demo_claimed : box :=
  match demo_boot demo_box with
  | (Done (Running b), s1) =>
      match claim_ops 12 (spawn_claim demo_argv demo_link) (snd (submitted b s1)) with
      | Some (_, s3) => s3
      | None => s1
      end
  | (_, s1) => s1
  end.

(** The owner pastes the link into a box that waits for a tunnel; it enrolls and
    restarts itself. *)
Lemma demo_life_claims :
  rtc (life_step demo_argv) (Off, demo_box) (Booting (App.main demo_argv), new_image demo_claimed).
Proof.
  destruct (demo_boot demo_box) as [o1 s1] eqn:Hb. assert (exists b, o1 = Done (Running b)) as [b ->].
  { vm_compute in Hb. injection Hb as <- _. by eexists. }
  destruct (submitted b s1) as [o2 s2] eqn:Hsub.
  destruct (claim_ops 12 (spawn_claim demo_argv demo_link) s2) as [[p s3]|] eqn:Hops.
  2: { exfalso. vm_compute in Hb. injection Hb as <- <-. vm_compute in Hsub. injection Hsub as <- <-.
       by vm_compute in Hops. }
  assert (demo_claimed = s3) as -> by (unfold demo_claimed; rewrite Hb, Hsub; cbn [snd]; by rewrite Hops).
  assert (drop (length (spawned s1)) (spawned s2) = [demo_link] /\ execs p = Some demo_argv) as [Hnew He].
  { vm_compute in Hb. injection Hb as <- <-. vm_compute in Hsub. injection Hsub as <- <-.
    split; [reflexivity|]. vm_compute in Hops. by injection Hops as <- _. }
  destruct p as [| | |o k]; try done. destruct o; try done. cbn in He. injection He as -> ->.
  eapply rtc_l; [apply life_start|].
  etransitivity; [apply (boot_runs demo_argv (App.main demo_argv) (new_image demo_box))|].
  unfold demo_boot in Hb. rewrite Hb. cbn [fst snd of_outcome].
  eapply rtc_l; [apply life_booted|].
  eapply rtc_l; [eapply life_serve, serve_dashboard, srv_bound|].
  eapply rtc_l; [eapply life_serve, serve_dashboard, srv_accepts|].
  eapply rtc_l.
  { apply (life_submit demo_argv _ (Some demo_link) (session_request "tok" false) o2 s1 s2); [done|].
    pose proof (run_may answer steady id
      (dashboard b (Dash.PostClaim (Some demo_link)) (session_request "tok" false)) s1
      answers_implement) as Hm.
    unfold submitted in Hsub. rewrite Hsub in Hm. exact Hm. }
  rewrite Hnew. cbn [up_claims start_serving set_serving app map].
  etransitivity; [eapply (claim_runs demo_argv 12); [|exact Hops]; done|].
  apply rtc_once. unfold demo_argv at 3. by eapply (life_exec demo_argv _ 0).
Qed.

(** The next boot comes up with the forwarder it lacked. *)
Lemma demo_life_restarts :
  exists b s, rtc (life_step demo_argv) (Booting (App.main demo_argv), new_image demo_claimed)
                (Up (start_serving b), s) /\ is_Some (bt_forwarder b).
Proof.
  destruct (demo_boot demo_claimed) as [o s1] eqn:Hb.
  assert (exists b, o = Done (Running b) /\ is_Some (bt_forwarder b)) as (b & -> & Hf).
  { vm_compute in Hb. injection Hb as <- _. eexists. split; [done|]. by eexists. }
  exists b, s1. split; [|done].
  etransitivity; [apply (boot_runs demo_argv (App.main demo_argv) (new_image demo_claimed))|].
  unfold demo_boot in Hb. rewrite Hb. cbn [fst snd of_outcome]. apply rtc_once, life_booted.
Qed.

Definition demo_enrolled : PersistedTunnel :=
  MkPersisted (MkTunnel default_iface "10.10.0.7" default_prefix "edge-key" "edge.net:51820"
                 "10.10.0.0/24" 0) "box.edge.net".

Lemma demo_persisted_in : persisted_in (new_image demo_claimed) tunnel_state_path = Some demo_enrolled.
Proof. vm_compute. reflexivity. Qed.

(** ** Enrolled once *)

(** C19: A box enrolls once and for good, whatever its life: over any number of boots,
    crashes, restarts and signals, with requests, claim tasks and the boot
    interleaved, whatever the edge, the commands and the writes answer, as long as
    reads and the database work.  Never more than one claim task runs;
    it re-executes the process only with an enrollment persisted, and then as the
    same command line; an enrollment that is persisted is never replaced, and every
    process started from then on that comes up has its tunnel. *)
Theorem box_life `{RX : Rnix} `{RF : Rfc3339} `{CR : Crates} (CL : CratesLaws)
    `{SP : Serde PersistedTunnel} (PL : SerdeLaws PersistedTunnel)
    `{SC : Serde ConfigFile} `{SL : Serde (list CatalogEntry)} `{JT : JsonText}
    (argv : list string) (s0 s : box) (x : proc)
    (Henv : env_vars s0 !! "FORTRESS_CONFIG_PATH"%string <> Some tunnel_state_path)
    (Hlife : rtc (life_step argv) (Off, s0) (x, s)) :
  (forall u, x = Up u -> length (up_claims u) <= 1 /\
     forall arg0 rest k, (Vis (ReExec arg0 rest : op BoxSig) k) ∈ up_claims u ->
       arg0 :: rest = argv /\ is_Some (persisted_in s tunnel_state_path)) /\
  (forall e x' s', persisted_in s tunnel_state_path = Some e ->
     rtc (life_step argv) (x, s) (x', s') -> persisted_in s' tunnel_state_path = Some e) /\
  (forall e u s', persisted_in s tunnel_state_path = Some e ->
     rtc (life_step argv) (Booting (App.main argv), new_image s) (Up u, s') ->
     bt_tunnel (up_boot u) = Some (pt_tunnel e)).
Proof.
  destruct (life_inv_steps argv _ _ Hlife) as [Hi _]; [done|]. split_and!.
  - intros u ->. destruct Hi as (_ & _ & _ & [Hl|(p & Hl & Ht & _)]); rewrite Hl;
      (split; [cbn; lia|]); intros a rest k Hin; [by apply not_elem_of_nil in Hin|].
    apply list_elem_of_singleton in Hin. subst p. destruct (tame_op _ _ _ _ Ht) as [_ Hb].
    cbn [bad content open_cell] in Hb. apply negb_false_iff, andb_true_iff in Hb as [H1 H2].
    by apply bool_decide_eq_true_1 in H1, H2.
  - intros e x' s' He Hr. by destruct (life_inv_steps argv _ _ Hr Hi) as [_ Hk]; apply Hk.
  - intros e u s' He Hr.
    assert (inv argv (Booting (App.main argv), new_image s)) as Hi'.
    { apply life_inv_start. by destruct Hi. }
    destruct (enrolled_steps argv e _ _ Hr Hi') as [_ H]; [|exact H].
    split; [done|]. by apply run_enrolled.
Qed.

Lemma box_life_witness :
  persisted_in demo_box tunnel_state_path = None /\
  exists u s, rtc (life_step demo_argv) (Off, demo_box) (Up u, s) /\
    is_Some (bt_forwarder (up_boot u)) /\ bt_tunnel (up_boot u) = Some (pt_tunnel demo_enrolled).
Proof.
  split; [reflexivity|]. destruct demo_life_restarts as (b & s & Hr & Hf).
  exists (start_serving b), s. split; [by transitivity (Booting (App.main demo_argv), new_image demo_claimed);
    [apply demo_life_claims|]|]. split; [exact Hf|].
  exact (proj2 (proj2 (box_life Concrete.crates_laws (Concrete.serde_laws PersistedTunnel) demo_argv
    demo_box (new_image demo_claimed) _ ltac:(discriminate) demo_life_claims))
    demo_enrolled (start_serving b) s demo_persisted_in Hr).
Defined.
