(* ===== verification/SiteProps.v ===== *)
(** The properties of the site: its forms and redirects, its session gate, and
    its agreement with the control plane's own surfaces. *)

From stdpp Require Import base gmap strings list pretty.
From Stdlib Require Import ZArith Lia Ascii.
From S2P Require Import Prelude Prog Addr ForwarderState World Forwarder Store Crates.
From S2P Require Import Errors ControlPlane Account AccountProofs Invite Box Enroll Web Api.
From S2P Require Import HttpProofs Site SiteProofs Demo.
Import Demo.

Local Open Scope prog_scope.

(** ** Redirects *)

(** Post/Redirect/Get: whatever fails, a form of the site that answers at all
    answers 303 with no body, and to a location that carries no password, no token
    and no message: one of a fixed list, the new invite's code, or the address that
    was typed. *)
Theorem site_prg `{CR : Crates} `{SM : Serde Machine} `{SA : Serde AccountRecord}
    `{SI : Serde InviteRecord} `{SD : Serde EnrollmentDelivery}
    (verify : string -> string -> option bool) (WORDS : list string) (F : option Forwarder)
    (fuel : nat) (backend : SiteBackend) (r : site_route) (req : Request) (s : edge)
    (Hpost : is_post r = true) :
  wp (X := EdgeSig) (edge_spec verify) (pages_router WORDS F fuel backend r req)
    (fun o _ =>
       match o with
       | Done (Ok resp) =>
           site_status resp = 303%Z /\ site_body resp = NoBody /\
           exists location, site_location resp = Some location /\ may_redirect r location
       | Done (Err _) => False
       | _ => True
       end) s.
Proof. by apply wp_post. Qed.

Lemma site_prg_witness :
  is_post (SPostResend "a@b.example") = true /\
  wp (X := EdgeSig) (edge_spec Demo.verify)
    (pages_router Demo.words None 10 (MkSiteBackend Demo.cp) (SPostResend "a@b.example")
       (MkRequest None))
    (fun o _ => match o with Done (Ok resp) => site_status resp = 303%Z | Done _ => False | _ => True end)
    (Demo.world ∅).
Proof.
  split; [reflexivity|].
  eapply wp_mono; [|exact (site_prg Demo.verify Demo.words None 10 (MkSiteBackend Demo.cp)
                             (SPostResend "a@b.example") (MkRequest None) (Demo.world ∅) eq_refl)].
  intros [[resp|]| |] s'; [by intros [H _]|done..].
Defined.

(** The no-JavaScript floor of credentials: whatever fails, every form of every
    page this crate writes declares [method="post"], so that no credential goes into
    a query string, as long as the value of the link or the path that the page shows
    holds no [<].  The values are shown unescaped: a reset link whose token closes
    the field carries a form of its own, one that does not post. *)
Theorem site_forms_post `{CR : Crates} `{SM : Serde Machine} `{SA : Serde AccountRecord}
    `{SI : Serde InviteRecord} `{SD : Serde EnrollmentDelivery}
    (verify : string -> string -> option bool) (WORDS : list string) (F : option Forwarder)
    (fuel : nat) (backend : SiteBackend) (r : site_route) (req : Request) (s : edge)
    (Hsafe : Forall (lacks "<") (reflected r)) :
  wp (X := EdgeSig) (edge_spec verify) (pages_router WORDS F fuel backend r req)
    (fun o _ =>
       match o with
       | Done (Ok (MkSite _ _ _ (Html html))) => forms_post html = true
       | _ => True
       end) s /\
  exists token html,
    pages_router WORDS F fuel backend (SGetReset (Some (MkTokenQuery (Some token) None))) req
    = Ret (page_ok html) /\ forms_post html = false.
Proof.
  split.
  - eapply wp_mono; [|by apply wp_tidy].
    intros [[[st loc ck [|html|p]]|e]|m|] s' H; try done. by apply tidy_whole.
  - exists (String dquote "><form action=//elsewhere.example>"). eexists.
    split; [reflexivity|]. vm_compute. reflexivity.
Qed.

Lemma site_forms_post_witness :
  Forall (lacks "<") (reflected (SGetVerify (Some (MkTokenQuery (Some "0a1b"%string) None)))) /\
  wp (X := EdgeSig) (edge_spec Demo.verify)
    (pages_router Demo.words None 10 (MkSiteBackend Demo.cp)
       (SGetVerify (Some (MkTokenQuery (Some "0a1b"%string) None))) (MkRequest None))
    (fun o _ => exists html, o = Done (page_ok html) /\ forms_post html = true) (Demo.world ∅).
Proof.
  assert (Forall (lacks "<")
            (reflected (SGetVerify (Some (MkTokenQuery (Some "0a1b"%string) None))))) as H
    by (repeat constructor).
  split; [exact H|].
  pose proof (proj1 (site_forms_post Demo.verify Demo.words None 10 (MkSiteBackend Demo.cp) _
                       (MkRequest None) (Demo.world ∅) H)) as Hp.
  cbn [pages_router wp] in Hp |- *. eexists. split; [reflexivity|exact Hp].
Defined.

(** The address typed into the resend form goes into the redirect unescaped: an
    address without an account that holds a line break, say, is a panic of the
    handler, whatever the store answers, where any other address is answered. *)
Theorem resend_bad_address `{CR : Crates} `{SM : Serde Machine} `{SA : Serde AccountRecord}
    `{SI : Serde InviteRecord} `{SD : Serde EnrollmentDelivery}
    (verify : string -> string -> option bool) (WORDS : list string) (F : option Forwarder)
    (fuel : nat) (backend : SiteBackend) (email : string) (req : Request) (s : edge)
    (Hnone : kv s !! account_key (norm_email email) = None) :
  wp (X := EdgeSig) (edge_spec verify)
    (pages_router WORDS F fuel backend (SPostResend email) req)
    (fun o s' =>
       s' = s /\
       let location := ("/resend?error=unknown&email=" ++ email)%string in
       o = if header_value_ok email then Done (Ok (MkSite 303 (Some location) None NoBody))
           else Panicked bad_location) s.
Proof.
  cbn [pages_router]. unfold AuthPages.resend_post, Bridge.resend.
  set (loc := ("/resend?error=unknown&email=" ++ email)%string).
  assert (header_value_ok loc = header_value_ok email) as Hl
    by (unfold header_value_ok, loc; by rewrite str_forallb_app).
  apply wp_assoc. rewrite wp_bind. apply wp_unknown_resend; [done|intros e|];
    cbn [andthen]; rewrite <- Hl; apply wp_redirect; by intros ->.
Qed.

Definition broken_address : string := String nl "x@example.net".

Lemma resend_bad_address_witness :
  header_value_ok broken_address = false /\
  wp (X := EdgeSig) (edge_spec Demo.verify)
    (pages_router Demo.words None 10 (MkSiteBackend Demo.cp) (SPostResend broken_address)
       (MkRequest None))
    (fun o _ => o = Panicked bad_location) (Demo.world ∅).
Proof.
  split; [vm_compute; reflexivity|].
  eapply wp_mono; [|exact (resend_bad_address Demo.verify Demo.words None 10
    (MkSiteBackend Demo.cp) broken_address (MkRequest None) (Demo.world ∅) eq_refl)].
  intros o s' [_ H]. exact H.
Defined.

(** A link that is invalid or used leads nowhere: for a token the store does not
    know, whatever fails, the form behind the link sends the browser to an address
    without a token, which the site answers 404; the text for [invalid_token] is
    never shown on those pages. *)
Theorem site_dead_links `{CR : Crates} `{SM : Serde Machine} `{SA : Serde AccountRecord}
    `{SI : Serde InviteRecord} `{SD : Serde EnrollmentDelivery}
    (verify : string -> string -> option bool) (WORDS : list string) (F : option Forwarder)
    (fuel : nat) (backend : SiteBackend) (token password : string) (req : Request) (s : edge)
    (Hv : kv s !! verify_key token = None) (Hr : kv s !! reset_key token = None) :
  wp (X := EdgeSig) (edge_spec verify)
    (pages_router WORDS F fuel backend (SPostVerify token) req)
    (fun o s' => s' = s /\
       o = Done (Ok (MkSite 303 (Some "/verify?error=invalid_token"%string) None NoBody))) s /\
  wp (X := EdgeSig) (edge_spec verify)
    (pages_router WORDS F fuel backend (SPostReset token password) req)
    (fun o s' => s' = s /\
       o = Done (Ok (MkSite 303 (Some "/reset?error=invalid_token"%string) None NoBody))) s /\
  forall error,
    pages_router WORDS F fuel backend (SGetVerify (Some (MkTokenQuery None error))) req
    = Ret (Err NotFound) /\
    pages_router WORDS F fuel backend (SGetReset (Some (MkTokenQuery None error))) req
    = Ret (Err NotFound).
Proof.
  split_and!; [| |done].
  - cbn [pages_router]. unfold AuthPages.verify_post, Bridge.verify. apply wp_assoc.
    rewrite wp_bind. apply wp_unknown_verify; [done|]. intros e. cbn. done.
  - cbn [pages_router]. unfold AuthPages.reset_post, Bridge.reset. apply wp_assoc.
    rewrite wp_bind. apply wp_unknown_reset; [done|]. intros e. cbn. done.
Qed.

Lemma site_dead_links_witness :
  wp (X := EdgeSig) (edge_spec Demo.verify)
    (pages_router Demo.words None 10 (MkSiteBackend Demo.cp) (SPostVerify "used") (MkRequest None))
    (fun o s' => s' = Demo.world ∅ /\
       o = Done (Ok (MkSite 303 (Some "/verify?error=invalid_token"%string) None NoBody)))
    (Demo.world ∅).
Proof.
  exact (proj1 (site_dead_links Demo.verify Demo.words None 10 (MkSiteBackend Demo.cp) "used"
                  "hunter22" (MkRequest None) (Demo.world ∅) eq_refl eq_refl)).
Defined.

(** Without a live session, and whatever fails, the dashboard, the owner's forms
    and the account deletion send the browser to the login page and nothing
    changes. *)
Theorem site_gate `{CR : Crates} `{SM : Serde Machine} `{SA : Serde AccountRecord}
    `{SI : Serde InviteRecord} `{SD : Serde EnrollmentDelivery}
    (verify : string -> string -> option bool) (WORDS : list string) (F : option Forwarder)
    (fuel : nat) (backend : SiteBackend) (r : site_route) (req : Request) (s : edge)
    (Hno : no_session req s) (Hown : owner_route r = true) :
  wp (X := EdgeSig) (edge_spec verify) (pages_router WORDS F fuel backend r req)
    (fun o s' => o = Done (Ok (MkSite 303 (Some "/login"%string) None NoBody)) /\ s' = s) s.
Proof.
  destruct r; try discriminate; cbn [pages_router];
    try (by apply wp_signed_in_gate).
  - unfold MachinesPages.machines. rewrite wp_bind. by apply wp_no_current.
  - unfold AuthPages.account_delete_post. rewrite wp_bind. by apply wp_no_signed_in.
Qed.

Lemma site_gate_witness :
  no_session (MkRequest (Some "fortress_account_session=stolen")) (Demo.world ∅) /\
  wp (X := EdgeSig) (edge_spec Demo.verify)
    (pages_router Demo.words None 10 (MkSiteBackend Demo.cp) SPostAccountDelete
       (MkRequest (Some "fortress_account_session=stolen")))
    (fun o s' => o = Done (Ok (MkSite 303 (Some "/login"%string) None NoBody)) /\
                 s' = Demo.world ∅) (Demo.world ∅).
Proof.
  assert (no_session (MkRequest (Some "fortress_account_session=stolen"%string)) (Demo.world ∅))
    as H by (vm_compute; reflexivity).
  split; [exact H|].
  exact (site_gate Demo.verify Demo.words None 10 (MkSiteBackend Demo.cp) SPostAccountDelete _ _
           H eq_refl).
Defined.

(** ** The two surfaces *)

(** C16: the site's forms do what the control plane's own pages do: the handler of
    the same form, given the same fields, performs the same operations on the store
    and the services, in the same order and whatever they answer, sets the same
    cookie, and panics exactly where the other does, except for a location no header
    can carry.  Two forms differ.  The site asks no confirmation before it deletes an account:
    it does at once what the control plane does when DELETE was typed, and after a
    success it also ends the session.  And only the site trims the name of an
    approval: it does what the control plane does with the trimmed name, where the
    control plane, given a name with white space around it or an empty one, changes
    nothing; on a blank name the site changes nothing either. *)
Theorem site_pages_equivalent `{CR : Crates} `{SM : Serde Machine} `{SA : Serde AccountRecord}
    `{SI : Serde InviteRecord} `{SD : Serde EnrollmentDelivery}
    (verify : string -> string -> option bool)
    (WORDS : list string) (F : option Forwarder) (fuel : nat) (cp : ControlPlane)
    (r : site_route) (req : Request)
    (Hpost : is_post r = true) :
  let web w := Web.web_routes WORDS F fuel (MkAppState (Some cp) true) w req in
  let site r := pages_router WORDS F fuel (MkSiteBackend cp) r req in
  match r with
  | SPostAccountDelete =>
      lockstep surfaces_agree
        (resp <- web (Web.PostAccountDelete (Some "DELETE"%string)) ;; then_logout req resp)
        (site r)
  | SPostApprove code name =>
      if is_empty (trim name)
      then read_only verify (site r) /\ read_only verify (web (Web.PostApprove code (Some name)))
      else
        lockstep surfaces_agree (web (Web.PostApprove code (Some (trim name)))) (site r) /\
        (trim name <> name -> read_only verify (web (Web.PostApprove code (Some name))))
  | _ => exists w, twin r = Some w /\ lockstep surfaces_agree (web w) (site r)
  end.
Proof.
  intros web site.
  destruct r; try discriminate; try (eexists; split; [reflexivity|by apply lockstep_twin]).
  - apply lockstep_delete.
  - destruct (is_empty (trim name)) eqn:E.
    + assert (trim name = ""%string) as Hb by (by destruct (trim name)).
      split; [by apply blank_approval_reads|]. apply padded_approval_reads.
      destruct name; [by right|left; by rewrite Hb].
    + split; [by apply lockstep_approve|]. intros Hn. apply padded_approval_reads. by left.
Qed.

Lemma site_pages_equivalent_witness :
  is_post SPostLogout = true /\
  lockstep surfaces_agree
    (Web.web_routes Demo.words None 10 (MkAppState (Some Demo.cp) true) Web.PostLogout
       (MkRequest None))
    (pages_router Demo.words None 10 (MkSiteBackend Demo.cp) SPostLogout (MkRequest None)).
Proof.
  split; [reflexivity|].
  destruct (site_pages_equivalent Demo.verify Demo.words None 10 Demo.cp SPostLogout
           (MkRequest None) eq_refl) as (w & Hw & Hl).
  injection Hw as <-. exact Hl.
Defined.

(** C34: the site's machine API is the control plane's, for the box: beginning,
    polling and registering perform the same operations in the same order with the
    same status (204 for a registration's 200), and the box reads the same poll from
    the answer, although the site leaves out every other field of the machine. *)
Theorem site_api_equivalent `{CR : Crates} `{SM : Serde Machine} `{SA : Serde AccountRecord}
    `{SI : Serde InviteRecord} `{SD : Serde EnrollmentDelivery}
    (WORDS : list string) (F : option Forwarder) (cp : ControlPlane) (code key token : string) :
  let state := MkAppState (Some cp) true in
  lockstep answers_agree (InvitesApi.begin WORDS state code key)
    (SiteApi.invite_begin WORDS code key) /\
  lockstep answers_agree (InvitesApi.poll WORDS state code)
    (SiteApi.invite_poll WORDS code) /\
  lockstep registrations_agree (InvitesApi.device_register F state token key)
    (SiteApi.device_register F (MkSiteBackend cp) token key) /\
  forall p, map fst (jfields (SiteApi.site_poll_json (SiteApi.map_poll p)))
            ⊆ ["status"; "machine"; "deviceToken"]%string /\
            map fst (jfields (default JNull (jget "machine"
                       (SiteApi.site_poll_json (SiteApi.map_poll p)))))
            ⊆ ["wg_ip"; "hostname"]%string.
Proof.
  intros state. unfold InvitesApi.begin, InvitesApi.poll, InvitesApi.device_register,
    InvitesApi.with_cp, SiteApi.invite_begin, SiteApi.invite_poll, SiteApi.device_register.
  cbn [app_cp state sb_cp]. split_and!.
  - along (invite_begin WORDS code key). intros r. apply lockstep_ret, answer_agrees.
  - along (invite_poll WORDS code). intros r. apply lockstep_ret, answer_agrees.
  - along (device_register cp F token key). intros [m|e]; apply lockstep_ret; [done|by destruct e].
  - intros [st [m|] [t|]]; cbn; split; set_solver.
Qed.
