(* ===== verification/UiProps.v ===== *)
(** The properties of the pages: what their forms and links reach, which moves the
    machines dashboard offers, and the box's editor. *)

From stdpp Require Import base gmap strings list sorting.
From Stdlib Require Import ZArith Lia Ascii.
From S2P Require Import Prelude Prog NumText ForwarderState World Forwarder Store Crates Errors.
From S2P Require Import ControlPlane Account AccountProofs Invite InviteProofs.
From S2P Require Import Web Site DashDb Dashboard NixConfig EditProofs WebUi UiPages Joint Routes.
From S2P Require Import EnrollProofs UiProofs Demo.
Import Ui Demo.

Local Open Scope string_scope.
Local Open Scope prog_scope.

Local Ltac trusts := repeat (apply List.Forall_cons; [cbn; tauto|]); apply List.Forall_nil.

(** C8: the pages are wired: whatever it shows, a page of the control plane renders
    unless its title or the domain is blank; each of its forms, filled in and
    submitted, reaches the handler it is meant for with what was typed and the
    token or address the page carries; its links are served; and nothing but the
    programs' own constants reaches the page unescaped.  The landing page and the
    dashboard, which the site renders too, reach the site's own handlers there. *)
Theorem pages_wired (p : Page) (text : string -> string)
    (Hcodes : Forall (lacks "/") (row_codes p)) :
  match web_page p with
  | Some (Some n) =>
      map (submit web_at (types text)) (forms n) = map Some (page_requests text p) /\
      forallb (follows web_at) (links n) = true /\
      Forall (fun html => In html trusted) (raws n) /\
      (match p with Landing _ _ | MachinesPage _ => True | _ => False end ->
       map (submit site_at (types text)) (forms n) = map Some (site_requests text p) /\
       forallb (follows site_at) (links n) = true)
  | Some None => blank p = true
  | None => p = InstallScript
  end.
Proof.
  destruct p as [[] email|email []|email []|kind title message|[]|email|email|token []|token|props
                |code|]; cbn [web_page];
    try done; try (vm_compute; split_and!; [done..|by trusts|done]).
  - unfold WebPages.MessagePage, WebPages.page_shell, shell, shell_with_head.
    unfold assert_non_empty at 1. destruct (is_empty (trim title)) eqn:E; [exact E|].
    destruct kind; (vm_compute; split_and!; [done..|by trusts|done]).
  - destruct (machines_body props) as [n|] eqn:E; [|by apply machines_body_some].
    apply machines_body_spec in E as (-> & -> & ->).
    destruct (dashboard_requests text props Hcodes) as [-> ->].
    split_and!; [done..|by trusts|done].
Qed.

(** A dashboard with a waiting and a dormant invite. *)
Definition demo_dashboard : MachinesProps :=
  MkMachinesProps [MkMachineRow "main-2" "main-2.example.net"]
    [MkInviteRow Demo.code Waiting (Some (Demo.key 11)); MkInviteRow "bbbb" Dormant None]
    None "example.net" None.

Lemma pages_wired_witness :
  Forall (lacks "/") (row_codes (MachinesPage demo_dashboard)) /\
  exists n, web_page (MachinesPage demo_dashboard) = Some (Some n) /\
    map (submit web_at (types (fun _ => "main-3"))) (forms n)
    = map Some [Web.PostInvite; Web.PostApprove Demo.code (Some "main-3"); Web.PostDeny Demo.code;
                Web.PostRevoke Demo.code; Web.PostRevoke "bbbb"; Web.PostLogout].
Proof.
  assert (Forall (lacks "/") (row_codes (MachinesPage demo_dashboard))) as Hc
    by (repeat constructor; apply contains_char_lacks; vm_compute; reflexivity).
  split; [exact Hc|].
  pose proof (pages_wired (MachinesPage demo_dashboard) (fun _ => "main-3") Hc) as H.
  destruct (web_page (MachinesPage demo_dashboard)) as [[n|]|]; [|discriminate H|discriminate H].
  exists n. split; [reflexivity|]. destruct H as [H _]. exact H.
Defined.

(** ** The moves *)

(** An owner's operation answered that the invite is not in a state for it. *)
Definition out_of_turn {A} (o : outcome (Result A InviteError)) : Prop :=
  match o with Done (Err (InvNotWaiting _ | InvNotBegun _)) => True | _ => False end.

Section Turns.
Context `{CR : Crates} `{SM : Serde Machine} `{SA : Serde AccountRecord}.
Context `{SI : Serde InviteRecord} `{SD : Serde EnrollmentDelivery}.

(** A program that never answers so, whatever it meets. *)
Definition in_turn {A} (p : prog EdgeSig (Result A InviteError)) : Prop :=
  forall s, wp (X := EdgeSig) (healthy_spec bcrypt_verify) p (fun o _ => ~ out_of_turn o) s.

Lemma in_turn_bind {A B} (p : prog EdgeSig B) (k : B -> prog EdgeSig (Result A InviteError)) :
  (forall b, in_turn (k b)) -> in_turn (bind p k).
Proof.
  intros Hk s. revert s. induction p as [b|m| |o f IH]; intros s; cbn; [apply Hk|tauto..|].
  intros r s' _. apply IH.
Qed.

Lemma in_turn_try {A B E} (conv : E -> InviteError) (p : prog EdgeSig (Result B E))
    (k : B -> prog EdgeSig (Result A InviteError)) :
  (forall e, ~ out_of_turn (A := A) (Done (Err (conv e)))) -> (forall b, in_turn (k b)) ->
  in_turn (bind_try conv p k).
Proof.
  intros He Hk. apply in_turn_bind. intros [b|e]; [apply Hk|]. intros s. apply He.
Qed.

Lemma in_turn_approved (cp : ControlPlane) (F : option Forwarder) email code name pubkey
    (record : InviteRecord) :
  in_turn
    (uuid <-? account_uuid email as InvAccount ;;
     expect uuid "invite owner email resolves to an active account" (fun uuid =>
       outcome <-? allocate_machine cp F (Some uuid) name pubkey as invite_of_cp ;;
       match outcome with
       | Existing _ => Ret (Err (InvNameTaken name))
       | Created resp =>
           device_token <- random_token_hex ;;
           let enrolled := set_token_hash (token_hash device_token) (machine resp) in
           _s <-? store_machine enrolled as invite_of_cp ;;
           _d <-? redis (RSetEx (delivery_key code) (to_json (MkDelivery enrolled device_token))
                           DELIVERY_TTL_SECS) as InvRedis ;;
           _r <-? set_record code record as InvRedis ;;
           Ret (Ok (machine resp))
       end)).
Proof.
  assert (forall e, ~ out_of_turn (A := Machine) (Done (Err (invite_of_cp e)))) as Hcp
    by (intros []; tauto).
  apply in_turn_try; [cbn; tauto|]. intros [uuid|]; [|intros s; cbn; tauto]. cbn [expect].
  apply in_turn_try; [done|]. intros [resp|resp]; [|intros s; cbn; tauto].
  apply in_turn_bind. intros token. apply in_turn_try; [done|]. intros _.
  apply in_turn_try; [cbn; tauto|]. intros _. apply in_turn_try; [cbn; tauto|]. intros _ s.
  cbn; tauto.
Qed.

End Turns.

(** C9: the dashboard offers exactly the moves there are, over a Redis that answers: on
    a machines page that shows an invite of the account in its stored status (a waiting
    one with a candidate, as all that can be reached have), a form whose submission
    asks to approve, deny or revoke that invite is on the page if and only if the
    operation, run on the stored invite, is not refused for the invite's state; a
    move that is not offered changes nothing, an offered denial or revocation takes
    effect. *)
Theorem offered_moves_legal `{CR : Crates} `{SM : Serde Machine} `{SA : Serde AccountRecord}
    `{SI : Serde InviteRecord} `{SD : Serde EnrollmentDelivery} (LI : SerdeLaws InviteRecord)
    (WORDS : list string) (F : option Forwarder) (cp : ControlPlane) (email code name : string)
    (r : InviteRecord) (s : edge) (props : MachinesProps) (n : Node)
    (Hi : invite_is WORDS s code r) (Hown : owner_email r = email)
    (Hcand : inv_status r = Waiting -> is_Some (device_pubkey r))
    (Hn : machines_body props = Some n)
    (Hcodes : Forall (lacks "/") (map row_code (props_invites props)))
    (Hshow : shows props code (inv_status r)) :
  let offers m := Some m ∈ map (submit web_at (types (fun _ => name))) (forms n) in
  wp (X := EdgeSig) (healthy_spec bcrypt_verify) (invite_approve WORDS cp F email code name)
    (fun o s' => (out_of_turn o <-> ~ offers (Web.PostApprove code (Some name))) /\
                 (out_of_turn o -> s' = s)) s /\
  wp (X := EdgeSig) (healthy_spec bcrypt_verify) (invite_deny WORDS email code)
    (fun o s' =>
       (offers (Web.PostDeny code) /\ o = Done (Ok tt) /\
        invite_is WORDS s' code (MkInvite email Denied (device_pubkey r))) \/
       (~ offers (Web.PostDeny code) /\ out_of_turn o /\ s' = s)) s /\
  wp (X := EdgeSig) (healthy_spec bcrypt_verify) (invite_revoke WORDS email code)
    (fun o s' =>
       (offers (Web.PostRevoke code) /\ o = Done (Ok tt) /\
        kv s' = delete (invite_key code) (kv s)) \/
       (~ offers (Web.PostRevoke code) /\ out_of_turn o /\ s' = s)) s.
Proof.
  intros offers.
  assert (forall m, decides_on m = Some code ->
            offers m <-> m ∈ web_moves (fun _ => name) (MkInviteRow code (inv_status r) None)) as Ho
    by (intros m Hm; by eapply dashboard_offers).
  pose proof (Ho (Web.PostApprove code (Some name)) eq_refl) as HA.
  pose proof (Ho (Web.PostDeny code) eq_refl) as HD.
  pose proof (Ho (Web.PostRevoke code) eq_refl) as HR.
  clearbody offers. clear Ho Hshow Hn Hcodes.
  unfold web_moves in HA, HD, HR. cbn [row_code row_status] in HA, HD, HR. split_and!.
  - unfold invite_approve. apply (wp_invite WORDS _ _ _ _ _ Hi).
    rewrite bool_decide_eq_true_2 by done. cbn [negb].
    destruct (inv_status r) eqn:Hst; [cbn; set_solver| |cbn; set_solver..].
    destruct (Hcand eq_refl) as [pk ->].
    apply (wp_mono (X := EdgeSig) _ _ (fun o _ => ~ out_of_turn o)).
    { intros o s' Ho. split; [|done]. split; [done|]. intros Hno. destruct Hno. apply HA. by left. }
    exact (in_turn_approved cp F email code name pk
             (MkInvite (owner_email r) Approved (Some pk)) s).
  - unfold invite_deny. apply (wp_invite WORDS _ _ _ _ _ Hi).
    rewrite bool_decide_eq_true_2 by done. cbn [negb].
    destruct (inv_status r) eqn:Hst; cbn [wp];
      [right; split; [set_solver|done]| |right; split; [set_solver|done]..].
    unfold bind_try, set_record. apply wp_healthy_redis; [done|]. cbn [redis_apply fst snd wp].
    left. split; [set_solver|]. split; [done|]. split; [by destruct Hi|].
    eexists. rewrite Hown. apply lookup_insert_eq.
  - unfold invite_revoke. apply (wp_invite WORDS _ _ _ _ _ Hi).
    rewrite bool_decide_eq_true_2 by done. cbn [negb].
    destruct Hi as [_ [ttl Hr]].
    destruct (inv_status r) eqn:Hst; cbn [wp]; try (right; split; [set_solver|done]);
      unfold bind_try; (apply wp_healthy_redis; [done|]); cbn [redis_apply]; rewrite Hr;
      cbn; left; (split; [set_solver|done]).
Qed.

(** The demonstration page shows a waiting invite: its Deny denies it. *)
Lemma offered_moves_legal_witness :
  let r := MkInvite email Waiting (Some (Demo.key 11)) in
  let s := Demo.world {[ invite_key code := RStr (to_json r) (Some INVITE_TTL_SECS) ]} in
  invite_is Demo.words s code r /\
  wp (X := EdgeSig) (healthy_spec bcrypt_verify) (invite_deny Demo.words email code)
    (fun o s' => o = Done (Ok tt) /\
                 invite_is Demo.words s' code (MkInvite email Denied (Some (Demo.key 11)))) s.
Proof.
  intros r s.
  assert (invite_is Demo.words s code r) as Hi.
  { split; [exact Demo.code_canonical|]. exists (Some INVITE_TTL_SECS). vm_compute. reflexivity. }
  split; [exact Hi|].
  assert (inv_status r = Waiting -> is_Some (device_pubkey r)) as Hc by (intros _; eexists; reflexivity).
  destruct (machines_body demo_dashboard) as [n|] eqn:Hn; [|vm_compute in Hn; discriminate Hn].
  assert (Forall (lacks "/") (map row_code (props_invites demo_dashboard))) as Hcodes
    by (repeat constructor; apply contains_char_lacks; vm_compute; reflexivity).
  assert (shows demo_dashboard code (inv_status r)) as Hshow.
  { split; [eexists; split; [left|reflexivity]|]. intros i Hin. cbn [props_invites demo_dashboard] in Hin.
    rewrite !elem_of_cons in Hin. destruct Hin as [->|[->|Hin]]; [reflexivity| |].
    - intros H. vm_compute in H. discriminate H.
    - by apply elem_of_nil in Hin. }
  destruct (offered_moves_legal Demo.serde_invite_laws Demo.words None Demo.cp email code "main-3"
              r s demo_dashboard n Hi eq_refl Hc Hn Hcodes Hshow) as (_ & Hd & _).
  eapply wp_mono; [|exact Hd]. intros o s' [(_ & H)|(H & _)]; [exact H|]. destruct H.
  apply (dashboard_offers _ _ _ code (inv_status r) None _ Hn Hcodes Hshow); [reflexivity|].
  right. left.
Defined.

(** ** The box's editor *)

(** C33: the box's editor says what the file says, but cannot save it: submitted
    untouched, its form carries the configuration it was rendered from, every
    switch and every group, and the handler of [/admin] reads it back; but the form
    is sent to [/], where the dashboard serves no POST, so that whatever the user
    enters, Save reaches no handler.  The login form, the claim form and the
    sign-out link reach theirs. *)
Theorem editor_roundtrip (liveness : list bool) (text : string -> string)
    (config : FortressConfig) (err : option string) (saved : bool) (serr : option string)
    (remote : ClaimView) (Hok : config_ok config) :
  (exists n form,
     dash_page (DashEditor (editor_props config err saved serr remote)) = Some n /\
     forms n = (claim_forms remote ++ [form])%list /\
     (exists ef, dash_at liveness POST "/admin" (pairs untouched (fm_inputs form))
                 = Some (Dash.PostAdmin ef) /\ says config ef) /\
     (forall u, submit (dash_at liveness) u form = None) /\
     map (submit (dash_at liveness) (types text)) (claim_forms remote)
     = map (fun _ => Some (Dash.PostClaim (Some (text "invite_url")))) (claim_forms remote) /\
     forallb (follows (dash_at liveness)) (links n) = true) /\
  (forall error, exists n, dash_page (DashLogin error) = Some n /\
     map (submit (dash_at liveness) (types text)) (forms n)
     = [Some (Dash.PostLogin (Some (text "password")))]).
Proof.
  split.
  - destruct (editor_page_spec (editor_props config err saved serr remote)) as (n & Hn & Hf & Hl).
    eexists n, _. split; [exact Hn|]. split; [exact Hf|]. cbn [fm_inputs]. split_and!.
    + rewrite pairs_editor. eexists. split; [reflexivity|]. by apply untouched_says.
    + done.
    + by destruct remote.
    + by rewrite Hl.
  - intros []; eexists; (split; [reflexivity|]); vm_compute; done.
Qed.

Definition demo_config : FortressConfig :=
  MkFortress (Some "vmtest") (Some "vmtest.local") {[ "jellyfin" := true ]}
    [("nicole", MkCocoUser "nicole" None {[ "wheel"; "storage" ]} true)].

Lemma editor_roundtrip_witness :
  config_ok demo_config /\
  exists n form,
    dash_page (DashEditor (editor_props demo_config None false None ViewUnclaimed)) = Some n /\
    forms n = (claim_forms ViewUnclaimed ++ [form])%list /\
    submit (dash_at []) untouched form = None.
Proof.
  assert (config_ok demo_config) as Hok.
  { split; [apply NoDup_singleton|]. apply List.Forall_cons; [|apply List.Forall_nil].
    split; [reflexivity|]. intros g Hg. apply elem_of_union in Hg.
    rewrite !elem_of_singleton in Hg. destruct Hg as [->| ->]; split;
      first [discriminate|vm_compute; reflexivity]. }
  split; [exact Hok|].
  destruct (editor_roundtrip [] id demo_config None false None ViewUnclaimed Hok)
    as [(n & form & Hn & Hf & _ & Hs & _) _].
  exists n, form. split; [exact Hn|]. split; [exact Hf|]. apply Hs.
Defined.
