(* ===== verification/ProcessProps.v ===== *)
(** The properties of the edge processes: boot, the reconcile schedule and the
    running tasks. *)

From stdpp Require Import base gmap strings list pretty.
From Stdlib Require Import ZArith Lia.
From S2P Require Import Prelude Prog Addr ForwarderState World Forwarder Store Crates Errors.
From S2P Require Import ControlPlane Secret Mail Process Demo.
Import Demo.

Local Open Scope prog_scope.

(** ** Flags and boot *)

Lemma set_arg_dummy flag arg value a a' :
  set_arg flag arg value a = Some a' -> ea_dummy a' = ea_dummy a.
Proof. unfold set_arg. intros H. repeat case_bool_decide; by simplify_eq/=. Qed.

(** Where the flag is compiled out, nothing sets [dummy]. *)
Lemma read_args_dummy flag f g n args a a' :
  length args <= n -> read_args false flag f g args a = Ok a' -> ea_dummy a' = ea_dummy a.
Proof.
  revert args a. induction n as [|n IH]; intros [|arg [|value rest]] a Hn H;
    cbn [read_args andb] in H; simplify_eq/=; try done; try lia.
  destruct (set_arg flag arg value a) as [a1|] eqn:E; [|done].
  rewrite <- (set_arg_dummy _ _ _ _ _ E). apply (IH rest); [lia|done].
Qed.

Lemma release_dummy debug argv a :
  EdgeMain.parse_args debug argv = Ok a \/ SiteMain.parse_args debug argv = Ok a ->
  debug = false -> ea_dummy a = false.
Proof.
  unfold EdgeMain.parse_args, SiteMain.parse_args. intros H ->.
  destruct H as [H|H]; destruct (read_args _ _ _ _ _ _) as [out|e] eqn:E; try done;
    destruct (is_empty (ea_subnet out)); try done; injection H as <-;
    by apply read_args_dummy with (n := length argv) in E.
Qed.

Section Boot.
Context `{CR : Crates} `{SM : Serde Machine} `{LT : Lettre}.
Context (verify : string -> string -> option bool) (secrets : option SecretSpecProfile).

(** The secrets are there and the mailer they configure can be built. *)
Definition provisioned : Prop :=
  exists p, secrets = Some (Default p) /\ is_ok (mailer_for (smtp_of p)) = true.

Lemma wp_boot_unprovisioned f g h parsed s :
  ~ provisioned -> (forall a, parsed = Ok a -> ea_dummy a = false) ->
  wp (X := EdgeSig) (edge_spec verify) (boot secrets f g h parsed)
    (fun o s' => s' = s /\ match o with Done (Ok _) => False | _ => True end) s.
Proof.
  intros Hno Hd. unfold boot. destruct parsed as [args|e]; [|done].
  specialize (Hd args eq_refl).
  destruct (from_str (ea_subnet args)); [|done]. destruct (from_str (ea_wg_subnet args)); [|done].
  assert (forall url, wp (X := EdgeSig) (edge_spec verify)
    (r <- init_process secrets url a a0 (ea_iface args) (ea_dummy args) ;;
     Ret (match r with
          | (g, mailer, Ok _) => Ok (g, mailer, ea_addr args)
          | (_, _, Err e) => Err (h (cp_error_display e))
          end))
    (fun o s' => s' = s /\ match o with Done (Ok _) => False | _ => True end) s) as Hinit.
  { intros url. unfold init_process, init_mailer, mailer_from_secrets. rewrite Hd.
    destruct secrets as [[p|]|] eqn:Es; [|done..]. rewrite from_secrets_default. cbn -[mailer_for].
    destruct (mailer_for (smtp_of p)) as [m|e] eqn:Em; cbn; [|done].
    destruct Hno. exists p. by rewrite Em. }
  unfold store_url. destruct (ea_redis_url args) as [url|]; [apply Hinit|]. rewrite Hd.
  destruct secrets as [[p|]|]; [|done..].
  specialize (Hinit (p_redis_url p)). rewrite Hd in Hinit. exact Hinit.
Qed.
End Boot.

(** A shipped edge cannot be run without its secrets: in a release build no
    command line selects the dummy mode, and neither process boots (nor touches the
    store, the forwarder or [wg0]) when the secrets do not resolve or configure a
    mail relay that cannot be built: it exits with an error or panics. *)
Theorem edge_boot_provisioned `{CR : Crates} `{SM : Serde Machine} `{LT : Lettre}
    (verify : string -> string -> option bool) (secrets : option SecretSpecProfile)
    (argv : list string) (s : edge) :
  (forall a, EdgeMain.parse_args false argv = Ok a \/ SiteMain.parse_args false argv = Ok a ->
     ea_dummy a = false) /\
  (~ provisioned secrets ->
   wp (X := EdgeSig) (edge_spec verify) (edge_boot secrets false argv)
     (fun o s' => s' = s /\ match o with Done (Ok _) => False | _ => True end) s /\
   wp (X := EdgeSig) (edge_spec verify) (site_boot secrets false argv)
     (fun o s' => s' = s /\ match o with Done (Ok _) => False | _ => True end) s).
Proof.
  split; [intros a Ha; by eapply release_dummy|]. intros Hno.
  split; apply wp_boot_unprovisioned; [done| |done|]; intros a Ha; eapply release_dummy; eauto.
Qed.

Lemma edge_boot_provisioned_witness :
  ~ provisioned None /\
  wp (X := EdgeSig) (edge_spec Demo.verify)
    (edge_boot None false ["--subnet"; "2a01:4f8:c17:1::/64"]%string)
    (fun o s' => s' = Demo.world ∅ /\ match o with Done (Ok _) => False | _ => True end)
    (Demo.world ∅).
Proof.
  assert (~ provisioned None) as H by (intros (p & Hp & _); discriminate).
  split; [exact H|].
  exact (proj1 (proj2 (edge_boot_provisioned Demo.verify None
                         ["--subnet"; "2a01:4f8:c17:1::/64"]%string (Demo.world ∅)) H)).
Defined.

(** The command line of the README, in a release and in a debug build. *)
Example release_refuses_dummy :
  EdgeMain.parse_args false ["--dummy"; "--subnet"; "fd00::/64"]%string
    = Err (EdgeMain.USAGE false) /\
  EdgeMain.parse_args true ["--dummy"; "--subnet"; "fd00::/64"]%string
    = Ok (MkEdgeArgs None "fd00::/64" "10.10.0.0/24" "0.0.0.0:8081" None true).
Proof. split; reflexivity. Qed.

(** ** The reconcile schedule *)

(** When each pass after the second may start: a period after the one before
    started, or as soon as that one is over. *)
Fixpoint spaced (l : list (Z * Z)) : Prop :=
  match l with
  | (s1, d1) :: ((s2, _) :: _) as l' => s2 = Z.max (s1 + d1) (s1 + PERIOD) /\ spaced l'
  | _ => True
  end.

Lemma loop_later stop now l :
  (FIRST_PASS <= now)%Z -> reconcile_loop stop now (now + PERIOD) l ->
  (match l with (s1, _) :: _ => s1 = now | [] => True end) /\ spaced l.
Proof.
  remember (now + PERIOD)%Z as tick eqn:Htick. intros Hnow H. revert Hnow Htick.
  induction H as [now tick Hw|now tick start d Hw Hs Hd Hw2
                 |now tick start d at_ l Hw Hs Hd Hw2 Ha Hl IH|now tick]; intros Hnow Htick.
  - done.
  - split; [lia|done].
  - assert (start = now) as -> by lia. split; [done|].
    destruct IH as [Hfirst Hsp]; [unfold FIRST_PASS, PERIOD in *; lia|done|].
    destruct l as [|[s2 d2] l]; [done|]. cbn. split; [subst; lia|done].
  - done.
Qed.

(** The first DNS reconcile pass starts 30 seconds after boot, the second as soon
    as the first is over, and each later one two hours after the start of the one
    before it, or when that one is over if it took longer; passes never overlap. *)
Theorem reconcile_schedule (stop : option Z) (s1 d1 : Z) (l : list (Z * Z))
    (H : reconcile_loop stop 0 0 ((s1, d1) :: l)) :
  s1 = 30%Z /\ (match l with (s2, _) :: _ => s2 = (s1 + d1)%Z | [] => True end) /\ spaced l.
Proof.
  inversion H as [|now tick start d Hw Hs Hd Hw2|now tick start d at_ l' Hw Hs Hd Hw2 Ha Hl|];
    simplify_eq/=.
  - done.
  - assert (Z.max 0 FIRST_PASS = 30%Z) as Hf by done. rewrite Hf in *. split; [done|].
    rewrite Z.max_l in Hl by lia. apply loop_later in Hl; [done|]. unfold FIRST_PASS. lia.
Qed.

Lemma reconcile_schedule_witness :
  exists l, reconcile_loop None 0 0 ((30, 5) :: (35, 5) :: (7235, 9000) :: (16235, 1) :: l)%Z /\
    spaced ((35, 5) :: (7235, 9000) :: (16235, 1) :: l)%Z.
Proof.
  assert (reconcile_loop None 0 0 [(30, 5); (35, 5); (7235, 9000); (16235, 1)]%Z) as H.
  { do 4 (eapply loop_pass; [done|reflexivity|lia|done|reflexivity|]). apply loop_running. }
  exists []. split; [exact H|]. exact (proj2 (proj2 (reconcile_schedule None _ _ _ H))).
Defined.

(** ** The running tasks *)

Definition is_panic (e : task_event) : bool :=
  match e with ApiPanicked | ReconcilePanicked | SignalPanicked => true | _ => false end.
Definition is_signal (e : task_event) : bool :=
  match e with SignalReceived | SignalPanicked => true | _ => false end.

Definition pending (t : Tasks) : nat :=
  length (List.filter (fun e => match e with None => true | Some _ => false end)
            [t_api t; t_reconcile t; t_signal t]).
#[local] Arguments pending : simpl never.

Lemma task_step_pending e t t' : task_step e t = Some t' -> pending t = S (pending t').
Proof.
  destruct t as [[] [] [] []], e; intros H; cbn in H; try discriminate; injection H as <-;
    reflexivity.
Qed.

Lemma task_run_pending l t t' : task_run l t = Some t' -> pending t = length l + pending t'.
Proof.
  revert t. induction l as [|e l IH]; intros t; cbn [task_run length]; [by intros [= ->]|].
  destruct (task_step e t) as [t1|] eqn:E; [|done]. cbn [mbind option_bind]. intros H.
  rewrite (task_step_pending _ _ _ E). by rewrite (IH t1 H).
Qed.

(** A process that has not been signalled still waits for the signal. *)
Definition waits (t : Tasks) : Prop :=
  t_signal t = None /\ t_stopped t = false /\
  t_api t <> Some TaskPanicked /\ t_reconcile t <> Some TaskPanicked.

Lemma task_step_waits e t t' :
  task_step e t = Some t' -> is_panic e = false -> is_signal e = false -> waits t -> waits t'.
Proof.
  intros H Hp Hs (H1 & H2 & H3 & H4).
  destruct t as [a r s st]; cbn in *; subst; destruct e; try done;
    destruct a, r; cbn in H; simplify_eq; by repeat split.
Qed.

Lemma task_run_waits l t t' :
  task_run l t = Some t' -> forallb (fun e => negb (is_panic e || is_signal e)) l = true ->
  waits t -> waits t' /\ (t_api t = Some TaskDone -> t_api t' = Some TaskDone).
Proof.
  revert t. induction l as [|e l IH]; intros t; cbn; [by intros [= ->]|].
  destruct (task_step e t) as [t1|] eqn:E; [|done]. cbn. intros H [Hb Hl]%andb_true_iff Hw.
  apply negb_true_iff, orb_false_iff in Hb as [Hp Hs].
  destruct (IH t1 H Hl (task_step_waits _ _ _ E Hp Hs Hw)) as [Hw' Ha]. split; [done|].
  intros Hd. apply Ha. destruct t as [[] [] [] []], e; cbn in *; simplify_eq; done.
Qed.

Lemma bind_failed_done l t t' :
  task_run l t = Some t' -> ApiBindFailed ∈ l ->
  forallb (fun e => negb (is_panic e || is_signal e)) l = true -> waits t ->
  t_api t' = Some TaskDone.
Proof.
  revert t. induction l as [|e l IH]; intros t H Hin Hl Hw; [by apply elem_of_nil in Hin|].
  cbn in H, Hl. destruct (task_step e t) as [t1|] eqn:E; [|done]. cbn in H.
  apply andb_true_iff in Hl as [Hb Hl]. pose proof Hb as Hb'.
  apply negb_true_iff, orb_false_iff in Hb' as [Hp Hs].
  pose proof (task_step_waits _ _ _ E Hp Hs Hw) as Hw1.
  apply elem_of_cons in Hin as [<-|Hin]; [|by apply (IH t1)].
  apply (task_run_waits l t1 t' H Hl Hw1).
  destruct t as [[] ? ? ?]; cbn in E; simplify_eq; done.
Qed.

(** A panic stays. *)
Definition failed (t : Tasks) : bool :=
  existsb (fun e => match e with Some TaskPanicked => true | _ => false end)
    [t_api t; t_reconcile t; t_signal t].
#[local] Arguments failed : simpl never.

Lemma task_step_failed e t t' :
  task_step e t = Some t' -> failed t' = failed t || is_panic e.
Proof.
  destruct t as [[[]|] [[]|] [[]|] []], e; intros H; cbn in H; try discriminate;
    injection H as <-; reflexivity.
Qed.

Lemma task_run_failed l t t' :
  task_run l t = Some t' -> failed t' = failed t || existsb is_panic l.
Proof.
  revert t. induction l as [|e l IH]; intros t; cbn; [intros [= ->]; by rewrite orb_false_r|].
  destruct (task_step e t) as [t1|] eqn:E; [|done]. cbn. intros H.
  by rewrite (IH t1 H), (task_step_failed _ _ _ E), orb_assoc.
Qed.

Lemma exit_failed t : failed t = true -> edge_exit t = Some 1%Z.
Proof. unfold edge_exit, failed. by intros ->. Qed.

Lemma exit_clean t : failed t = false -> pending t = 0 -> edge_exit t = Some 0%Z.
Proof. unfold edge_exit, failed. intros ->. by destruct t as [[] [] [] []]. Qed.

(** How an edge process ends.  A panic of a task is a failure exit at once.  But
    when the API cannot be bound nothing ends: with no panic and no signal the
    process stays up for good, serving nothing, where the site's process exits with
    an error.  After the signal every task can end, at most three events are left,
    and when all have ended the exit is 0. *)
Theorem edge_half_alive (l : list task_event) (t : Tasks)
    (Hrun : task_run l tasks_start = Some t) :
  (existsb is_panic l = true -> edge_exit t = Some 1%Z) /\
  (ApiBindFailed ∈ l -> forallb (fun e => negb (is_panic e || is_signal e)) l = true ->
   t_api t = Some TaskDone /\ edge_exit t = None /\ site_exit false t = Some 1%Z) /\
  (t_stopped t = true -> edge_exit t = None ->
   exists e t', task_step e t = Some t' /\ is_panic e = false) /\
  (pending t = 0 -> existsb is_panic l = false -> edge_exit t = Some 0%Z) /\
  length l + pending t = 3.
Proof.
  split_and!.
  - intros Hp. apply exit_failed. by rewrite (task_run_failed _ _ _ Hrun), Hp.
  - intros Hin Hl. assert (waits tasks_start) as Hw by (by repeat split).
    pose proof (bind_failed_done l _ t Hrun Hin Hl Hw) as Ha.
    destruct (task_run_waits l _ t Hrun Hl Hw) as [(Hs & Hst & Hna & Hnr) _].
    destruct t as [a r s st]; cbn in *; subst. split_and!; try done.
    unfold edge_exit. destruct r as [[]|]; [reflexivity|by destruct Hnr|reflexivity].
  - intros Hst He. destruct t as [a r s st]; cbn in *; subst.
    destruct a as [[]|]; [|discriminate|by eexists ApiDrained, _].
    destruct r as [[]|]; [|discriminate|by eexists ReconcileStopped, _].
    destruct s as [[]|]; [discriminate|discriminate|by eexists SignalReceived, _].
  - intros Hp Hl. apply exit_clean; [|done]. by rewrite (task_run_failed _ _ _ Hrun), Hl.
  - by rewrite <- (task_run_pending _ _ _ Hrun).
Qed.

Lemma edge_half_alive_witness :
  task_run [ApiBindFailed] tasks_start = Some (MkTasks (Some TaskDone) None None false) /\
  edge_exit (MkTasks (Some TaskDone) None None false) = None /\
  site_exit false (MkTasks (Some TaskDone) None None false) = Some 1%Z.
Proof.
  split; [reflexivity|].
  destruct (edge_half_alive [ApiBindFailed] (MkTasks (Some TaskDone) None None false) eq_refl)
    as (_ & H & _).
  apply H; [by apply list_elem_of_singleton|reflexivity].
Defined.
