(* ===== verification/JointProps.v ===== *)
(** The properties of the box and the edge together: an enrollment from the request
    of the box to the files it keeps, against the site and against fortress-edge. *)

From stdpp Require Import base gmap strings list pretty.
From Stdlib Require Import ZArith Lia Ascii.
From S2P Require Import Prelude Prog Addr AddrText ForwarderState World Forwarder Store Crates Errors.
From S2P Require Import ControlPlane Allocation Machines Account AccountProofs Invite InviteCodes Dns.
From S2P Require Import InviteMoves InviteProofs Wg Box Tunnel Enroll Web Api HttpProofs EnrollProofs.
From S2P Require Import Site SiteProofs Joint JointProofs Demo BoxDemo BoxProps.
Import Demo.

Local Open Scope prog_scope.

(** What the edge keeps of an enrollment with this token: the machine with the hash
    of the token, no delivery, and the device as a peer. *)
Definition enrolled_at `{CR : Crates} `{SM : Serde Machine} (m : Machine)
    (code token : string) (s s' : edge) : Prop :=
  kv s' !! machine_key (m_name m) = Some (RStr (to_json (enrolled_machine m token)) None) /\
  kv s' !! delivery_key code = None /\
  wg_log s' = wg_log s ++ [WgAdded (m_wg_ip m) (m_wg_public_key m)].

Lemma delivered_enrolled `{CR : Crates} `{SM : Serde Machine} `{SI : Serde InviteRecord}
    `{SD : Serde EnrollmentDelivery} cp code email pk m token n l st (s s' : edge) :
  kv s' = delete (delivery_key code) (approved_store cp code email pk m token n l st) ->
  wg_log s' = wg_log s ++ [WgAdded (m_wg_ip m) (m_wg_public_key m)] ->
  enrolled_at m code token s s'.
Proof.
  intros Hkv Hwg. split_and!; [| |done]; rewrite Hkv.
  - rewrite lookup_delete_ne by done. unfold approved_store.
    rewrite !lookup_insert_ne by done. apply lookup_insert_eq.
  - apply lookup_delete_eq.
Qed.

Lemma url_code_slash url base code : parse_invite_url url = Ok (base, code) -> lacks "/" code.
Proof.
  unfold parse_invite_url. destruct (or_else _ _) as [rest|]; [|done].
  destruct (split_once "/" rest) as [[host path]|]; [|done].
  destruct (strip_prefix "i/" path) as [c|]; [|done].
  destruct (is_empty host || is_empty c || contains_char "/" c) eqn:E; [done|].
  apply orb_false_iff in E as [_ E]. intros [= _ <-]. by apply contains_char_lacks.
Qed.

(** C2: enrollment end to end.  A box that claims an open invite at the site, with
    the owner approving while it waits, ends with the same machine on both sides: the
    edge has its record with the hash of the token the box keeps in its token file,
    its peer, and no delivery left; the box has a tunnel to the edge with the
    machine's address.  While the box's network and disk do not fail, the only other
    end is a time-out, and then there is no machine of that name. *)
Theorem claim_end_to_end `{CR : Crates} (CL : CratesLaws) `{SM : Serde Machine}
    `{SA : Serde AccountRecord} `{SI : Serde InviteRecord} `{SD : Serde EnrollmentDelivery}
    `{SP : Serde PersistedTunnel} `{JT : JsonText}
    (LM : SerdeLaws Machine) (LA : SerdeLaws AccountRecord) (LI : SerdeLaws InviteRecord)
    (LD : SerdeLaws EnrollmentDelivery)
    (up : Prop) (WORDS : list string) (cp : ControlPlane) (f : Forwarder)
    (json_print : Json -> string) (url_decode : string -> string) (refused : HttpResponse)
    (cfg : InviteConfig) (base code key_path state_path token_path key_text : string)
    (interval : Z) (polls : nat) (email name pk : string) (st : InviteStatus)
    (pk0 : option string) (a : AccountRecord) (ttl : option Z) (n : Z) (l : list string)
    (ip wg edge_key : string) (s : joint)
    (print_parse : forall j, json_parse (json_print j) = Ok j)
    (decode_plain : forall t, lacks "%" t -> url_decode t = t)
    (Hurl : parse_invite_url (invite_url cfg) = Ok (base, code)) (Hcode : lacks "%" code)
    (Hkey : files (at_box s) !! key_path = Some key_text) (Hne : trim key_text <> ""%string)
    (Hpk : derive_public_key (trim key_text) = Some pk)
    (Hinvite : invite_is WORDS (at_edge s) code (MkInvite email st pk0))
    (Hopen : st = Dormant \/ st = Waiting)
    (Haccount : kv (at_edge s) !! account_key (norm_email email) = Some (RStr (to_json a) ttl))
    (Hroute : fresh_route cp f name pk n l ip wg edge_key (at_edge s))
    (Hdomain : root_domain_ cp <> ""%string) :
  wp (X := JointSig) (joint_spec bcrypt_verify up)
    (linked (serve_site WORDS (Some f) cp json_print url_decode refused base)
       [owner_approves WORDS (Some f) cp email code name]
       (enroll (HttpEdgeClient.client base) cfg key_path state_path token_path interval (S polls)))
    (fun o s' =>
       let m := fresh_machine cp (Some (uuid a)) name pk ip wg in
       match o with
       | Done (Ok tunnel) =>
           tun_ip tunnel = m_wg_ip m /\ edge_pubkey tunnel = edge_key /\
           edge_endpoint tunnel = (root_domain_ cp ++ ":51820")%string /\
           to_string (wg_subnet cp) = Some (edge_allowed_ips tunnel) /\
           exists token,
             enrolled_at m code token (at_edge s) (at_edge s') /\
             files (at_box s')
             = <[token_path := token]>
                 (<[state_path := to_json (MkPersisted tunnel (m_hostname m))]> (files (at_box s)))
       | Done (Err err) => up -> err = EnrTimedOut 0 /\ kv (at_edge s') !! machine_key name = None
       | _ => False
       end) s.
Proof.
  destruct s as [e b]. cbn [at_edge at_box] in *.
  pose proof (url_code_slash _ _ _ Hurl) as Hslash.
  pose proof (site_claim_api WORDS (Some f) cp json_print url_decode refused base print_parse
                decode_plain) as CA.
  destruct (tunnel_info_ok cp edge_key) as (ips & Hips & Hinfo);
    [by destruct Hroute|by destruct Hroute|done|].
  eapply (wp_enroll_claim up WORDS base code _ Hslash Hcode cp f email st pk0 name pk key_text a ttl
            n l ip wg edge_key); try done.
  intros token e' b' Ht Hfiles Hkv Hwg.
  eapply (wp_finish up base _ cfg _ _ _ token (MkEdgeInfo edge_key (root_domain_ cp ++ ":51820") ips));
    [done| | | |].
  - cbn [m_hostname fresh_machine]. unfold machine_hostname. by destruct name.
  - intros k b1 HQ Hno. by eapply (wp_info_site up).
  - done.
  - intros tunnel b2 Hb2. cbn [at_edge at_box].
    split_and!; [done..|]. exists token. split; [|by rewrite Hb2, Hfiles].
    eapply (delivered_enrolled cp code email pk _ token (n + 1) l); [exact Hkv|].
    cbn [m_wg_ip m_wg_public_key fresh_machine].
    exact Hwg.
Qed.

(** C35: the same enrollment against fortress-edge's own API never succeeds.  It serves
    no [GET /api/wireguard/info], which the box asks for after the approval, so the
    box keeps nothing; and while its network does not fail either the claim timed
    out, or the machine exists on the edge, with a token that was delivered once, to
    the box that did not keep it. *)
Theorem edge_claim_fails `{CR : Crates} (CL : CratesLaws) `{SM : Serde Machine}
    `{SA : Serde AccountRecord} `{SI : Serde InviteRecord} `{SD : Serde EnrollmentDelivery}
    `{SP : Serde PersistedTunnel} `{JT : JsonText}
    (LM : SerdeLaws Machine) (LA : SerdeLaws AccountRecord) (LI : SerdeLaws InviteRecord)
    (LD : SerdeLaws EnrollmentDelivery)
    (up : Prop) (WORDS : list string) (cp : ControlPlane) (f : Forwarder)
    (json_print : Json -> string) (url_decode : string -> string) (refused : HttpResponse)
    (cfg : InviteConfig) (base code key_path state_path token_path key_text : string)
    (interval : Z) (polls : nat) (email name pk : string) (st : InviteStatus)
    (pk0 : option string) (a : AccountRecord) (ttl : option Z) (n : Z) (l : list string)
    (ip wg edge_key : string) (s : joint)
    (print_parse : forall j, json_parse (json_print j) = Ok j)
    (decode_plain : forall t, lacks "%" t -> url_decode t = t)
    (Hrefused : is_success (http_status refused) = false)
    (Hurl : parse_invite_url (invite_url cfg) = Ok (base, code)) (Hcode : lacks "%" code)
    (Hkey : files (at_box s) !! key_path = Some key_text) (Hne : trim key_text <> ""%string)
    (Hpk : derive_public_key (trim key_text) = Some pk)
    (Hinvite : invite_is WORDS (at_edge s) code (MkInvite email st pk0))
    (Hopen : st = Dormant \/ st = Waiting)
    (Haccount : kv (at_edge s) !! account_key (norm_email email) = Some (RStr (to_json a) ttl))
    (Hroute : fresh_route cp f name pk n l ip wg edge_key (at_edge s)) :
  wp (X := JointSig) (joint_spec bcrypt_verify up)
    (linked (serve_edge WORDS (Some f) cp json_print url_decode refused base)
       [owner_approves WORDS (Some f) cp email code name]
       (enroll (HttpEdgeClient.client base) cfg key_path state_path token_path interval (S polls)))
    (fun o s' =>
       let m := fresh_machine cp (Some (uuid a)) name pk ip wg in
       (exists err, o = Done (Err err)) /\ files (at_box s') = files (at_box s) /\
       (up -> o = Done (Err (EnrTimedOut 0)) /\ kv (at_edge s') !! machine_key name = None \/
              exists token, enrolled_at m code token (at_edge s) (at_edge s'))) s.
Proof.
  destruct s as [e b]. cbn [at_edge at_box] in *.
  pose proof (url_code_slash _ _ _ Hurl) as Hslash.
  pose proof (edge_claim_api WORDS (Some f) cp json_print url_decode refused base print_parse
                decode_plain) as CA.
  eapply (wp_enroll_claim up WORDS base code _ Hslash Hcode cp f email st pk0 name pk key_text a ttl
            n l ip wg edge_key); try done.
  - intros err e' b' Hf Herr. split_and!; [by eexists|done|].
    intros Hup. left. destruct (Herr Hup) as [-> ?]. done.
  - intros token e' b' Ht Hfiles Hkv Hwg.
    unfold finish. cbn [box_view poll_status poll_machine poll_token bp_wg_ip bp_hostname
      bp_device_token fmap option_fmap option_map enrolled_machine or_missing set_token_hash
      m_wg_ip m_hostname fresh_machine].
    apply wp_link_try, wp_info_edge; [done|]. intros x. split_and!; [by eexists|exact Hfiles|].
    intros _. right. exists token.
    by eapply (delivered_enrolled cp code email pk (fresh_machine cp (Some (uuid a)) name pk ip wg)
                 token (n + 1) l).
Qed.

(** A dormant invite of the demo account, and a box with a key. *)
Definition dormant : InviteRecord := MkInvite email Dormant None.

Definition demo_joint : joint :=
  MkJoint
    (Demo.world {[ account_key email := RStr (to_json Demo.account) None;
                   invite_key code := RStr (to_json dormant) (Some INVITE_TTL_SECS) ]})
    (box_with {[ "/k"%string := Demo.key 11 ]}).

Definition demo_pk : string := b64_encode (x25519_public (replicate 32%nat 11%Z)).

Definition not_found : HttpResponse := MkHttp 404 (Ok "not found"%string).

Lemma dormant_is : invite_is Demo.words (at_edge demo_joint) code dormant.
Proof.
  split; [exact Demo.code_canonical|]. exists (Some INVITE_TTL_SECS). vm_compute. reflexivity.
Defined.

Lemma demo_route :
  fresh_route Demo.cp Demo.fwd "main-1" demo_pk 1 [] "2a01:4f8:c17:1::2" "10.10.0.2" Demo.edge_key
    (at_edge demo_joint).
Proof.
  split; try (vm_compute; (reflexivity || discriminate)).
  - exact Demo.cp_ok.
  - by left.
  - apply not_elem_of_nil.
Defined.

Lemma claim_end_to_end_witness :
  fresh_route Demo.cp Demo.fwd "main-1" demo_pk 1 [] "2a01:4f8:c17:1::2" "10.10.0.2" Demo.edge_key
    (at_edge demo_joint) /\
  wp (X := JointSig) (joint_spec bcrypt_verify True)
    (linked (serve_site Demo.words (Some Demo.fwd) Demo.cp json_print id not_found
               "https://example.net")
       [owner_approves Demo.words (Some Demo.fwd) Demo.cp email code "main-1"]
       (enroll (SP := demo_persisted)
          (HttpEdgeClient.client (JT := json_text) "https://example.net") demo_invite
          "/k" "/s" "/t" 5 3))
    (fun o s' =>
       match o with
       | Done (Ok tunnel) => tun_ip tunnel = "10.10.0.2"%string
       | Done (Err err) => err = EnrTimedOut 0
       | _ => False
       end) demo_joint.
Proof.
  split; [exact demo_route|].
  eapply wp_mono; [|apply (claim_end_to_end Concrete.crates_laws (JT := json_text)
    Demo.serde_machine_laws Demo.serde_account_laws Demo.serde_invite_laws Demo.serde_delivery_laws
    True Demo.words Demo.cp Demo.fwd json_print id not_found demo_invite "https://example.net" code
    "/k" "/s" "/t" (Demo.key 11) 5 2 email "main-1" demo_pk Dormant None Demo.account None 1 []
    "2a01:4f8:c17:1::2" "10.10.0.2" Demo.edge_key demo_joint print_parse)].
  - intros o s'. destruct o as [[tunnel|err]| |]; [by intros [-> _]|by intros []|done..].
  - done.
  - vm_compute. reflexivity.
  - apply contains_char_lacks. vm_compute. reflexivity.
  - vm_compute. reflexivity.
  - vm_compute. discriminate.
  - vm_compute. reflexivity.
  - exact dormant_is.
  - by left.
  - vm_compute. reflexivity.
  - exact demo_route.
  - discriminate.
Defined.

Lemma edge_claim_fails_witness :
  is_success (http_status not_found) = false /\
  wp (X := JointSig) (joint_spec bcrypt_verify True)
    (linked (serve_edge Demo.words (Some Demo.fwd) Demo.cp json_print id not_found
               "https://example.net")
       [owner_approves Demo.words (Some Demo.fwd) Demo.cp email code "main-1"]
       (enroll (SP := demo_persisted)
          (HttpEdgeClient.client (JT := json_text) "https://example.net") demo_invite
          "/k" "/s" "/t" 5 3))
    (fun o s' => (exists err, o = Done (Err err)) /\ files (at_box s') !! "/t"%string = None)
    demo_joint.
Proof.
  split; [reflexivity|].
  eapply wp_mono; [|apply (edge_claim_fails Concrete.crates_laws (JT := json_text)
    Demo.serde_machine_laws Demo.serde_account_laws Demo.serde_invite_laws Demo.serde_delivery_laws
    True Demo.words Demo.cp Demo.fwd json_print id not_found demo_invite "https://example.net" code
    "/k" "/s" "/t" (Demo.key 11) 5 2 email "main-1" demo_pk Dormant None Demo.account None 1 []
    "2a01:4f8:c17:1::2" "10.10.0.2" Demo.edge_key demo_joint print_parse)].
  - intros o s' (H & -> & _). by split.
  - done.
  - reflexivity.
  - vm_compute. reflexivity.
  - apply contains_char_lacks. vm_compute. reflexivity.
  - vm_compute. reflexivity.
  - vm_compute. discriminate.
  - vm_compute. reflexivity.
  - exact dormant_is.
  - by left.
  - vm_compute. reflexivity.
  - exact demo_route.
Defined.
