(* ===== verification/StoreProps.v ===== *)
(** The properties of the store: the types of its values, and the deletion of an
    account. *)

From stdpp Require Import base gmap strings list pretty relations.
From Stdlib Require Import ZArith Lia Ascii.
From S2P Require Import Prelude Prog Addr ForwarderState World Retry Forwarder.
From S2P Require Import Store Crates Errors ControlPlane Allocation Machines Account.
From S2P Require Import Invite InviteMoves Typed Erasure Demo.
Import Demo.

Local Open Scope prog_scope.

(** Look at a key and decode what it holds. *)
Local Ltac typed_at Hk key field :=
  let E := fresh in
  match goal with |- context [?m !! key] => destruct (m !! key) eqn:E; [|done] end;
  apply Hk in E; eapply field in E as [? ->]; [|reflexivity]; cbn;
  unfold account_from_json, machine_from_json, record_from_json; by rewrite ?from_to_json.

(** C10: the store stays typed: whatever requests are being served at the same time,
    however their operations interleave, whatever fails in them and whichever keys expire
    in the middle, every key the control plane knows holds a value of its family: reading
    an account, a machine, an invite, a delivery, a session, a token, the index or the
    counter never meets a value of another type, and every record decodes; so
    no corrupt record is ever of the program's own making.  And an invite always carries
    a candidate unless it is dormant. *)
Theorem store_stays_typed `{CR : Crates} `{SM : Serde Machine} `{SA : Serde AccountRecord}
    `{SI : Serde InviteRecord} `{SD : Serde EnrollmentDelivery} (LM : SerdeLaws Machine)
    (LA : SerdeLaws AccountRecord) (LI : SerdeLaws InviteRecord)
    (LD : SerdeLaws EnrollmentDelivery) (WORDS : list string)
    (verify : string -> string -> option bool) (cp : ControlPlane) (F : option Forwarder)
    (fuel : nat) (s0 s : edge) (ts : list (prog EdgeSig unit))
    (Hcp : alloc_key cp = ALLOC_COUNTER) (H0 : typed (kv s0))
    (Hs : concurrent WORDS verify cp F fuel ([], s0) (ts, s)) :
  (forall email, decodes account_from_json (kv s !! account_key email)) /\
  (forall name, decodes machine_from_json (kv s !! machine_key name)) /\
  (forall code, decodes (fun json => record_from_json json code) (kv s !! invite_key code)) /\
  records_wf (kv s) /\
  (forall code, decodes (from_json (A := EnrollmentDelivery)) (kv s !! delivery_key code)) /\
  (forall token, is_ok (read_str (kv s !! session_key token)) = true /\
                 is_ok (read_str (kv s !! verify_key token)) = true /\
                 is_ok (read_str (kv s !! reset_key token)) = true) /\
  is_ok (listed (kv s)) = true /\
  is_ok (read_int (kv s !! ALLOC_COUNTER)) = true.
Proof.
  pose proof (concurrent_typed WORDS verify cp F fuel s0 ts s Hcp Hs H0) as Ht.
  assert (forall k v, kv s !! k = Some v -> well_typed k v) as Hk by (intros k v; apply Ht).
  clear Hs H0. unfold decodes. split_and!.
  - intros e. typed_at Hk (account_key e) (@wt_account).
  - intros n. typed_at Hk (machine_key n) (@wt_machine).
  - intros c. destruct (kv s !! invite_key c) as [v|] eqn:E; [|done].
    destruct (wt_invite _ _ (Hk _ _ E) c eq_refl) as (rec & -> & _). cbn.
    unfold record_from_json. by rewrite from_to_json.
  - intros c rec Hrec. unfold rec_at in Hrec.
    destruct (kv s !! invite_key c) as [v|] eqn:E; [|done].
    destruct (wt_invite _ _ (Hk _ _ E) c eq_refl) as (rec' & -> & Hwf).
    rewrite from_to_json in Hrec. by injection Hrec as <-.
  - intros c. typed_at Hk (delivery_key c) (@wt_delivery).
  - intros t. split_and!; [typed_at Hk (session_key t) (@wt_session)
      |typed_at Hk (verify_key t) (@wt_verify)|typed_at Hk (reset_key t) (@wt_reset)].
  - by destruct (typed_listed _ Ht) as [l ->].
  - typed_at Hk ALLOC_COUNTER (@wt_counter).
Qed.

(** A signup and an allocation that take turns, from an empty store. *)
Definition two_requests : list (prog EdgeSig unit) :=
  [serve Demo.words Demo.cp (Some Demo.fwd) 10 (ReqSignup email "hunter22");
   serve Demo.words Demo.cp (Some Demo.fwd) 10 (ReqAllocate None "main-1" (Demo.key 9))].
Definition turns : list nat := concat (replicate 60 [0; 1]).
Definition both_served :=
  sched (X := EdgeSig) Demo.exec turns two_requests (Demo.start ∅).

Lemma two_requests_concurrent :
  concurrent Demo.words Demo.verify Demo.cp (Some Demo.fwd) 10 ([], Demo.world ∅)
    (fst both_served, rw (snd both_served)).
Proof.
  eapply rtc_l; [apply (es_arrive _ _ _ _ _ (ReqSignup email "hunter22"))|].
  eapply rtc_l; [apply (es_arrive _ _ _ _ _ (ReqAllocate None "main-1" (Demo.key 9)))|].
  exact (sched_concurrent _ Demo.verify _ _ _ Demo.exec rw turns two_requests (Demo.start ∅)
           (ref_exec_implements Demo.verify Concrete.bcrypt_hash Concrete.bcrypt_hash_ok)).
Defined.

Lemma store_stays_typed_witness :
  bool_decide (is_Some (kv (rw (snd both_served)) !! account_key email)) = true /\
  bool_decide (is_Some (kv (rw (snd both_served)) !! machine_key "main-1")) = true /\
  decodes account_from_json (kv (rw (snd both_served)) !! account_key email) /\
  decodes machine_from_json (kv (rw (snd both_served)) !! machine_key "main-1") /\
  is_ok (listed (kv (rw (snd both_served)))) = true.
Proof.
  split; [vm_compute; reflexivity|]. split; [vm_compute; reflexivity|].
  pose proof (store_stays_typed Demo.serde_machine_laws Demo.serde_account_laws
    Demo.serde_invite_laws Demo.serde_delivery_laws Demo.words Demo.verify Demo.cp
    (Some Demo.fwd) 10 (Demo.world ∅) (rw (snd both_served)) (fst both_served) eq_refl
    (map_Forall_empty _) two_requests_concurrent)
    as (H1 & H2 & _ & _ & _ & _ & H3 & _).
  split; [apply H1|]. split; [apply H2|exact H3].
Defined.

(** ** Deleting an account *)

(** C11: deleting an account erases it: while the store answers and within any bound
    its cursors keep to, [account_delete] ends and succeeds for every account there is;
    then the account, every invite of its address and every session of it are gone,
    the machines listed are those of the others, the forwards of its own are served
    no more, and every other key holds what it held.  An unknown address changes
    nothing. *)
Theorem account_erased `{CR : Crates} `{SM : Serde Machine} `{SA : Serde AccountRecord}
    `{SI : Serde InviteRecord} `{SD : Serde EnrollmentDelivery} (LM : SerdeLaws Machine)
    (LA : SerdeLaws AccountRecord) (LI : SerdeLaws InviteRecord) (pages_left : string -> nat)
    (cp : ControlPlane) (f : Forwarder) (fuel : nat) (email : string) (s : edge)
    (Hfuel : (pages_left "0" < fuel)%nat) (Hok : store_ok (kv s)) :
  let address := norm_email email in
  wp (X := EdgeSig) (paging bcrypt_verify pages_left) (account_delete fuel cp (Some f) email)
    (fun o s' =>
       match kv s !! account_key address with
       | None => o = Done (Err AccNotFound) /\ s' = s
       | Some v =>
           o = Done (Ok tt) /\
           exists (a : AccountRecord) l,
             v = RStr (to_json a) None /\ listed (kv s) = Ok l /\
             erased address (uuid a) l s s'
       end) s.
Proof.
  intros address. pose proof Hok as (Ht & _ & _).
  replace (account_delete fuel cp (Some f) email) with (account_delete fuel cp (Some f) address)
    by (unfold account_delete, address; cbv zeta; by rewrite norm_idem).
  destruct (kv s !! account_key address) as [v|] eqn:E.
  - destruct (wt_account _ _ (map_Forall_lookup_1 _ _ _ _ Ht E) _ eq_refl) as [a ->].
    destruct (typed_listed _ Ht) as [l Hl].
    eapply wp_mono; [|eapply wp_account_delete; try done; apply norm_idem].
    intros o s' [-> He]. split; [done|]. by exists a, l.
  - apply wp_delete_unknown. unfold address in *. by rewrite norm_idem.
Qed.

(** Ann has a machine, an invite and a session; so has Bob. *)
Definition ann_machine : Machine := Demo.route "main-1" (Some "uuid-1") 2 (Demo.key 9).
Definition bob_machine : Machine := Demo.route "main-2" (Some "uuid-2") 3 (Demo.key 10).
Definition bob : string := "bob@example.net".
Definition shared_entries : list (string * rval) :=
  [(account_key email, RStr (to_json account) None);
   (machine_key "main-1", RStr (to_json ann_machine) None);
   (machine_key "main-2", RStr (to_json bob_machine) None);
   (MACHINE_INDEX, RList ["main-1"; "main-2"]);
   (invite_key code, RStr (to_json (MkInvite email Dormant None)) (Some INVITE_TTL_SECS));
   (invite_key "aaaa-aaaa-aaaa-aaaa",
    RStr (to_json (MkInvite bob Dormant None)) (Some INVITE_TTL_SECS));
   (session_key "s1", RStr email (Some SESSION_TTL_SECS));
   (session_key "s2", RStr bob (Some SESSION_TTL_SECS))]%string.
Definition shared_store : gmap string rval := list_to_map shared_entries.

Lemma shared_lookup k v : shared_store !! k = Some v -> (k, v) ∈ shared_entries.
Proof. apply elem_of_list_to_map_2. Qed.

(** Case by case through the entries. *)
Local Ltac entries H tac :=
  unfold shared_entries in H;
  repeat (apply elem_of_cons in H as [H|H];
    [apply pair_eq in H as [H ->]; first [solve [tac]|exfalso; unfold_keys; discriminate H]|]);
  by apply elem_of_nil in H.

Lemma shared_ok : store_ok shared_store.
Proof.
  split; [|split].
  - intros k v H%shared_lookup.
    entries H ltac:(subst k; first [apply account_entry|apply machine_entry|apply invite_entry; by left
                                   |apply session_entry|apply index_entry]).
  - intros name v H. pose proof H as Hin%shared_lookup.
    entries Hin ltac:(apply machine_key_inj in Hin as ->; eexists; split; [exact H|reflexivity]).
  - intros c [v H%shared_lookup].
    entries H ltac:(apply invite_key_inj in H as ->; reflexivity).
Qed.

Lemma account_erased_witness :
  (0 < 1)%nat /\ store_ok shared_store /\
  wp (X := EdgeSig) (paging bcrypt_verify (fun _ => 0%nat))
    (account_delete 1 Demo.cp (Some Demo.fwd) " Ann@Example.net ")
    (fun o s' => o = Done (Ok tt) /\ listed (kv s') = Ok [bob_machine] /\
       holds email (kv s' !! session_key "s1") = false /\
       ~ invite_of email (kv s') code (MkInvite email Dormant None) /\
       kv s' !! session_key "s2" = shared_store !! session_key "s2")
    (Demo.world shared_store).
Proof.
  split; [lia|]. split; [exact shared_ok|].
  eapply wp_mono; [|apply (account_erased Demo.serde_machine_laws Demo.serde_account_laws
    Demo.serde_invite_laws (fun _ => 0%nat) Demo.cp Demo.fwd 1 " Ann@Example.net "
    (Demo.world shared_store)); [lia|exact shared_ok]].
  cbv zeta. assert (norm_email " Ann@Example.net " = email) as -> by (vm_compute; reflexivity).
  assert (listed shared_store = Ok [ann_machine; bob_machine]) as Hl by (vm_compute; reflexivity).
  assert (kv (Demo.world shared_store) !! account_key email = Some (RStr (to_json account) None))
    as -> by (vm_compute; reflexivity).
  intros o s' [-> (a & l & Ha & Hl' & He)]. split; [reflexivity|].
  assert (a = account) as ->.
  { apply (f_equal (fun v => match v with RStr j _ => from_json (A := AccountRecord) j | _ => Err "" end))
      in Ha. rewrite !from_to_json in Ha. by injection Ha. }
  change (kv (Demo.world shared_store)) with shared_store in Hl'. rewrite Hl in Hl'.
  injection Hl' as <-. destruct He as [_ Hm _ Hi Hs _ Hrest].
  split; [exact Hm|]. split; [apply Hs|]. split; [apply Hi|].
  apply Hrest; [done|by intros E; unfold_keys| | |].
  - intros mc _ _ E. unfold_keys. discriminate E.
  - intros c r _ E. unfold_keys. discriminate E.
  - intros token Hh. vm_compute in Hh. discriminate Hh.
Defined.
